(* ===== verification/_CoqProject ===== *)
-Q . S2P
Prelude.v
PySort.v
PyDict.v
PyQueue.v
PyStr.v
PyIp.v
Utf8.v
EventTypes.v
PyText.v
PyDatetime.v
TextFormats.v
PyJson.v
PyBase64.v
SyslogReceiver.v
RedisBus.v
FlowAdapters.v
IdAdapters.v
IdAdapterProofs.v
GraphApi.v
GraphHttp.v
MockGen.v
GroupSync.v
Windower.v
PipelineWindow.v
IdentityIndex.v
GroupIndex.v
Enricher.v
GroupAggregator.v
AppResolver.v
SaasMatcher.v
ResolverWorker.v
SankeyPublisher.v
Writer.v
Correlator.v
Pipeline.v
Restart.v
ApiAuth.v
Cursor.v
ApiFlows.v
RawFlows.v
ApiWs.v
GroupsService.v
IdentityService.v
Catalog.v
CatalogReload.v
ApiMain.v
LiveView.v
History.v
ResolverService.v
Migrations.v
Wire.v
IdIngest.v
Listener.v
Metrics.v
Config.v
FlowIngest.v
MockRun.v
EndToEnd.v
Logging.v
