(* ===== verification/Prelude.v ===== *)
(** * Verification of the ZTNA flow-discovery services

    The program watches who talks to what.  Firewalls and identity sources send
    syslog lines and answer polls; two ingest services turn them into events on Redis
    streams; the correlator windows the flows, labels their destinations, names their
    users and writes and publishes the result; a resolver service looks up host names;
    an HTTP API serves graphs, pages and live updates and edits the catalogue.  This
    library models the Python code of these services, file by file, and proves what
    each part promises and how the parts fit.

    ** Conventions

    A definition carries the name of the function or class it models.  A function
    that may raise returns a [result], whose error is the class of the exception; a
    request handler returns a [response] (a value, an HTTP error, or an exception that
    nothing catches).  A method takes its object's record and returns the new one
    first.  A coroutine is modelled by what it does between two awaits; where several
    run at once, the interleavings are steps of a relation or a list of operations.
    Clocks, random tokens, the outcome of a send, of a query or of an HTTP request are
    arguments.  Text is a byte string holding UTF-8; an instant is a number of
    microseconds since the epoch; integers are unbounded as in Python.

    ** Files

    Python and its library, as far as the program uses them:
    - [Prelude]: exceptions, orders of sort keys, sums and list lemmas, tactics;
      [PySort] ([sorted], [min], stability), [PyDict] (dictionaries in insertion
      order), [PyQueue] (bounded queues), [PyStr] and [PyText] (methods of [str],
      [csv], [shlex], scanning with a regular expression), [PyIp] ([ipaddress]), [Utf8],
      [PyDatetime] (ISO 8601), [TextFormats] (writing what [PyText] reads), [PyJson] ([loads],
      [dumps] and access to decoded values), [PyBase64].
    The shared package ([common/src/ztna_common]):
    - [EventTypes]: the two events; [SyslogReceiver]: framing and the queue of
      [syslog_receiver.py]; [RedisBus]: [redis_bus.py]; [Config]: [config.py] and the
      secret files of the settings; [Logging]: [logging_config.py] of the package and of
      the API: the filter of the records and the sinks.
    Ingest ([flow-ingest], [id-ingest]):
    - [FlowAdapters]: the Palo Alto and FortiGate adapters; [IdAdapters] and
      [IdAdapterProofs]: the Active Directory, Cisco ISE and ClearPass adapters;
      [GraphApi]: the Entra polls of sign-ins and groups, and [GraphHttp]: their token and
      requests; [GroupSync]: LDAP groups, the worker that synchronises them and the loop of
      one adapter; [Listener]: the configuration, the sockets and the health checks of the
      adapters;
    - [FlowIngest] and [IdIngest]: the two services as running machines ([main.py]);
    - [MockGen]: the lines of [mock-syslog-generator] and of [loadtest/generators], and the
      users of [loadtest/locustfile.py]; [MockRun]: the loop of the mock generator.
    The correlator ([correlator/src/correlator]):
    - [Windower], [IdentityIndex], [GroupIndex], [Enricher], [GroupAggregator],
      [AppResolver], [SankeyPublisher], [Writer]: the modules of [pipeline/];
      [Correlator]: the stages of [main.py]; [Pipeline]: its tasks as a running machine,
      over the facts on windows of [PipelineWindow]; [Restart]: its stops and starts, with
      the consumer group and the table outside; [CatalogReload]: the reload of the
      resolver's tables; [Wire]: the events between the services; [EndToEnd]: from the
      lines of a firewall to the rows of the table.
    The resolver ([resolver/src/resolver]):
    - [SaasMatcher], [ResolverWorker]; [ResolverService]: the service of [main.py] with
      Redis and the table [dns_cache].
    The API ([api/src/api]):
    - [ApiAuth]: roles, sessions, signing keys, the CSRF check and the gates of
      [auth/], [dependencies.py] and [middleware_csrf.py]; [Cursor]: [cursor.py];
      [ApiFlows] and [RawFlows]: [routers/flows.py]; [ApiWs]: [routers/ws.py] and
      [ws_fanout.py]; [GroupsService], [IdentityService]: [services/] and their
      routers; [Catalog]: [routers/applications.py] and [routers/saas.py]; [ApiMain]:
      the endpoints of [main.py] with their guards, the cookies of a sign-in, the code
      exchange, the probes and [routers/adapters.py]; [LiveView]: the published delta as
      JSON, the models of [schemas/sankey.py], and what a client sees of it.
    The migrations ([migrate/alembic]):
    - [History]: the table [flows] of revision 0001, its continuous aggregate, the refresh
      and the retention, and the historical query of the API over them;
    - [Migrations]: the view of revision 0002, the seeds of revision 0004 from any files
      into any tables, the triggers of revision 0005, and the address that [env.py] gives
      to the engine.
    All services:
    - [Metrics]: the registries of the four services, their updates and the middleware that
      counts the requests of the API.

    ** Running services

    [FlowIngest], [IdIngest], [Pipeline], [Restart], [History], [ResolverService] and
    [ApiWs] are machines: a
    record holds what the service keeps, an action is what happens between two awaits
    of a task (its data and the outcome of an outside call are in the action), and a run
    is a list of actions with what can be observed.  Invariants go from one step to all
    runs; liveness is stated as a run that the machine allows and that ends where it
    should.

    ** Interfaces

    The enricher is proved against the classes [IdentitySource] and [GroupSource], the
    protocols of its source, which the two indexes implement.  The interval tree of
    the identity index is the class [IntervalTree] with its documented laws, and a list
    of intervals is an instance.  What the program takes from libraries is a class or
    an argument: [Signer] (signed cookies), [JwtLib] (verification of tokens),
    [StreamGroup] (a consumer group of Redis), [KVStore] (its keys and lists), [Pydantic]
    (the conversions of a model's fields),
    [PyPrims] (floating-point numbers and the text of containers), [WideText] (JSON in
    UTF-16 or UTF-32), the address columns and the collation of the database, the YAML
    reader and SHA-256.

    ** What is proved

    - Round trips: syslog framing under any cut of the stream; firewall lines written
      from fields, or by the mock generator, and read back; the cookies of a sign-in; JSON,
      ISO instants and base64; cursors; sessions; the events on the wire, composed with the
      bus and the reader; the live graph from the publisher to a client.
    - Functional behaviour: the windows and counts of the windower, the group chosen
      for a destination, the links of a graph, the precedence of the sources of a label,
      the events of every adapter line, the answers of the API's routes.
    - Refinement and equivalence: the identity index and the enricher implement
      "the best binding that covers the instant"; the point-in-time query agrees with
      the index on sign-ins; the two SaaS matchers agree; the resolver's labels reach
      the correlator through Redis; the socket filters as the route does; the
      historical query over the refreshed aggregate is the query over the rows.
    - Invariants: conservation of bytes, packets and counts, over restarts too; order
      without loss or
      duplication from the receiver of a line to the row, the event and the live delta;
      one live socket per user; the audit trail of an application; the caches of the
      correlator, of Redis and of [dns_cache].
    - Safety and liveness: every endpoint of the API runs behind its guard; the pipeline
      of the correlator and the queue of the resolver drain.
    - Termination and bounds: the walks over pages and over ranged attributes end; the
      rate limit and the bounded queues hold.
    - Errors: which inputs raise or are refused, and what the state is afterwards.
    - Counterexamples: theorems and [Example]s named after a behaviour (a page walk that
      skips rows, a stop event the query does not see, a reload out of order) state
      where the code does less than its comments or its design say.

    ** Fuel

    [PyJson.value] takes twice the length of its text plus one, each call consuming a
    character or entering a value ([value_fuel]); the framing loop takes the length of
    the buffer, each step consuming a byte; [Utf8.decode] the length of the text.  The
    loops over pages ([GraphApi.follow], [RawFlows.walk], [GroupsService.all_pages]) and
    over ranged attributes take a fuel that the theorems bound by the pages or rows.

    ** Approximations

    - White space and digits of regular expressions and of [strip] are those of ASCII.
    - A naive instant counts as UTC; instants are limited to the years 1 to 9999.
    - Numbers with a fraction are kept as their text.
    - A SQL statement is a function of the rows; rows that compare equal come in the
      order of the table.  A failing statement leaves the tables as they were.
    - Values of a type that no producer writes are errors of the readers in [Wire].
    - The socket machine starts with the fanout running; a handshake without a valid
      session, which [resolve_cookie_user] refuses, does not enter it.

    ** Not modelled

    Opening connections; the exporters of the metrics; pydantic's reading of the environment
    and its validation, except for the models of the graph and the bounds the routes rely
    on; Starlette's choice of the endpoint of a request; of the migrations, the indexes, the
    comments and the SQL text itself (the tables, views, policies, seeds and triggers are
    functions of rows, of texts without NUL, which the database refuses); the scheduler of
    the group synchronisation and that of the load test; [listen_for_reload] of the
    application resolver, which nothing calls; the web front end, which is TypeScript. *)

From stdpp Require Export gmap strings list option sorting.
From Stdlib Require Export ZArith Lia.

#[global] Open Scope Z_scope.

(** ** Notations of the development *)

Declare Scope ztna_scope.
Delimit Scope ztna_scope with ztna.
#[global] Open Scope ztna_scope.

(** Linear arithmetic with quotients and remainders by constants. *)
Ltac divlia := Z.to_euclidean_division_equations; lia.

(** ** Python exceptions as values

    A Python function that may raise is modelled by a function into
    [result]; the constructor of [exn] is the exception class. *)

Inductive exn : Type :=
  | KeyError
  | IndexError
  | ValueError
  | TypeError
  | AttributeError
  | OverflowError
  | ZeroDivisionError
  | OtherError.

#[global] Instance exn_eq_dec : EqDecision exn.
Proof. solve_decision. Defined.

Inductive result (A : Type) : Type :=
  | Ok (a : A)
  | Raise (e : exn).
Arguments Ok {A} a.
Arguments Raise {A} e.

#[global] Instance result_eq_dec {A} `{EqDecision A} : EqDecision (result A).
Proof. solve_decision. Defined.

#[global] Instance result_ret : MRet result := λ A a, Ok a.
#[global] Instance result_bind : MBind result := λ A B f m,
  match m with Ok a => f a | Raise e => Raise e end.
#[global] Instance result_fmap : FMap result := λ A B f m,
  match m with Ok a => Ok (f a) | Raise e => Raise e end.

(** [d[k]] on a value that may be missing. *)
Definition need {A} (e : exn) (o : option A) : result A :=
  match o with Some a => Ok a | None => Raise e end.

(** [xs[0]] of a list, when there is one. *)
Definition hd_opt {A} (l : list A) : option A :=
  match l with [] => None | x :: _ => Some x end.

Definition is_ok {A} (r : result A) : bool :=
  match r with Ok _ => true | Raise _ => false end.

(** ** Truth values of strings

    Python's [if s] and [a or b] on [str | None]: the empty string and
    [None] are false. *)

Definition str_true (s : string) : bool :=
  match s with EmptyString => false | _ => true end.

Definition truthy (o : option string) : bool :=
  match o with Some s => str_true s | None => false end.

Definition py_or (a b : option string) : option string :=
  if truthy a then a else b.

(** ** Total orders on sort keys

    The keys of [sorted] and [min] are integers, strings and tuples of them.
    A tuple is compared the way Python does it: the first components that
    differ decide. *)

Class PyOrd (K : Type) := py_leb : K → K → bool.

Class PyOrdLaws (K : Type) `{PyOrd K} : Prop := {
  py_leb_total : ∀ a b : K, py_leb a b = true ∨ py_leb b a = true;
  py_leb_trans : ∀ a b c : K, py_leb a b = true → py_leb b c = true → py_leb a c = true;
  py_leb_antisym : ∀ a b : K, py_leb a b = true → py_leb b a = true → a = b
}.

#[global] Instance Z_pyord : PyOrd Z := Z.leb.
#[global] Instance string_pyord : PyOrd string := String.leb.
#[global] Instance prod_pyord {A B} `{EqDecision A, PyOrd A, PyOrd B} : PyOrd (A * B) :=
  λ p q, if decide (p.1 = q.1) then py_leb p.2 q.2 else py_leb p.1 q.1.

#[global] Instance Z_pyord_laws : PyOrdLaws Z.
Proof. split; unfold py_leb, Z_pyord; intros; rewrite ?Z.leb_le in *; lia. Qed.

#[global] Instance string_pyord_laws : PyOrdLaws string.
Proof.
  split; unfold py_leb, string_pyord.
  - apply String.leb_total.
  - intros a b c Hab Hbc. apply Is_true_true.
    change (String.le a c). etrans; apply Is_true_true; eassumption.
  - apply String.leb_antisym.
Qed.

Lemma py_leb_refl {K} `{PyOrdLaws K} (a : K) : py_leb a a = true.
Proof. by destruct (py_leb_total a a). Qed.

Lemma py_leb_false {K} `{PyOrdLaws K} (a b : K) :
  py_leb a b = false → py_leb b a = true.
Proof. destruct (py_leb_total a b); congruence. Qed.

#[global] Instance prod_pyord_laws {A B} `{EqDecision A, !PyOrd A, !PyOrd B, !PyOrdLaws A, !PyOrdLaws B} :
  PyOrdLaws (A * B).
Proof.
  split; unfold py_leb, prod_pyord.
  - intros [a1 b1] [a2 b2]; simpl. repeat case_decide; try congruence; apply py_leb_total.
  - intros [a1 b1] [a2 b2] [a3 b3]; simpl.
    repeat case_decide; subst; try congruence; eauto using py_leb_trans.
    intros. exfalso. eauto using py_leb_antisym.
  - intros [a1 b1] [a2 b2]; simpl. repeat case_decide; subst; try congruence.
    + intros. f_equal. by apply py_leb_antisym.
    + intros. exfalso. eauto using py_leb_antisym.
Qed.

Lemma py_leb_pair {A B} `{EqDecision A, !PyOrd A, !PyOrd B, !PyOrdLaws A} (a1 a2 : A) (b1 b2 : B) :
  py_leb (a1, b1) (a2, b2) = true ↔
  (a1 = a2 ∧ py_leb b1 b2 = true) ∨ (a1 ≠ a2 ∧ py_leb a1 a2 = true).
Proof. unfold py_leb, prod_pyord; simpl. case_decide; naive_solver. Qed.

Lemma py_leb_Z (a b : Z) : py_leb a b = true ↔ a ≤ b.
Proof. apply Z.leb_le. Qed.

(** ** Sums over lists *)

Definition sum_by {A} (f : A → Z) (l : list A) : Z := foldr (λ x s, f x + s) 0 l.

Section sum_by.
Context {A : Type} (f : A → Z).

Lemma sum_by_nil : sum_by f [] = 0.
Proof. done. Qed.

Lemma sum_by_cons x l : sum_by f (x :: l) = f x + sum_by f l.
Proof. done. Qed.

Lemma sum_by_app l1 l2 : sum_by f (l1 ++ l2) = sum_by f l1 + sum_by f l2.
Proof. induction l1; simpl; lia. Qed.

Lemma sum_by_perm l1 l2 : l1 ≡ₚ l2 → sum_by f l1 = sum_by f l2.
Proof. induction 1; simpl in *; lia. Qed.

Lemma sum_by_split (P : A → Prop) `{∀ x, Decision (P x)} (l : list A) :
  sum_by f l = sum_by f (filter P l) + sum_by f (filter (λ x, ¬ P x) l).
Proof.
  induction l as [|x l IH]; [done|]. rewrite !filter_cons.
  destruct (decide (P x)), (decide (¬ P x)); simpl; tauto || lia.
Qed.

Lemma sum_by_ext (g : A → Z) l : (∀ x, x ∈ l → f x = g x) → sum_by f l = sum_by g l.
Proof.
  induction l as [|x l IH]; intros Hl; simpl; [done|].
  rewrite (Hl x), IH; [done| |left]. intros y Hy. apply Hl. by right.
Qed.

Lemma sum_by_zero l : (∀ x, x ∈ l → f x = 0) → sum_by f l = 0.
Proof.
  induction l as [|x l IH]; intros Hl; simpl; [done|].
  rewrite (Hl x), IH; [done| |left]. intros y Hy. apply Hl. by right.
Qed.

Lemma sum_by_nonneg l : (∀ x, x ∈ l → 0 ≤ f x) → 0 ≤ sum_by f l.
Proof.
  induction l as [|x l IH]; intros Hl; simpl; [done|].
  pose proof (Hl x ltac:(left)). assert (0 ≤ sum_by f l); [|lia].
  apply IH. intros y Hy. apply Hl. by right.
Qed.

Lemma sum_by_concat (ls : list (list A)) :
  sum_by f (concat ls) = foldr (λ l s, sum_by f l + s) 0 ls.
Proof. induction ls as [|l ls IH]; simpl; [done|]. rewrite sum_by_app. lia. Qed.
End sum_by.

Lemma sum_by_fmap {A B} (f : B → Z) (g : A → B) l :
  sum_by f (g <$> l) = sum_by (λ x, f (g x)) l.
Proof. induction l as [|x l IH]; [done|]. by rewrite fmap_cons, !sum_by_cons, IH. Qed.

Lemma sum_by_add {A} (f g : A → Z) l :
  sum_by (λ x, f x + g x) l = sum_by f l + sum_by g l.
Proof. induction l; simpl; lia. Qed.

Lemma sum_by_ite {A} (P : A → Prop) `{∀ x, Decision (P x)} (f : A → Z) l :
  sum_by (λ x, if decide (P x) then f x else 0) l = sum_by f (filter P l).
Proof.
  induction l as [|x l IH]; [done|]. rewrite filter_cons. simpl.
  destruct (decide (P x)); simpl; lia.
Qed.

(** ** Generic list lemmas *)

Lemma filter_all {A} (P : A → Prop) `{∀ x, Decision (P x)} (l : list A) :
  (∀ x, x ∈ l → P x) → filter P l = l.
Proof.
  induction l as [|x l IH]; intros Hl; [done|].
  rewrite filter_cons_True by (apply Hl; left). f_equal. apply IH. intros y Hy. apply Hl. by right.
Qed.

Lemma filter_none {A} (P : A → Prop) `{∀ x, Decision (P x)} (l : list A) :
  (∀ x, x ∈ l → ¬ P x) → filter P l = [].
Proof.
  induction l as [|x l IH]; intros Hl; [done|].
  rewrite filter_cons_False by (apply Hl; left). apply IH. intros y Hy. apply Hl. by right.
Qed.

Lemma filter_comm {A} (P Q : A → Prop) `{∀ x, Decision (P x)} `{∀ x, Decision (Q x)} (l : list A) :
  filter P (filter Q l) = filter Q (filter P l).
Proof.
  induction l as [|x l IH]; [done|].
  rewrite !filter_cons. repeat (case_decide; rewrite ?filter_cons); try done; by rewrite IH.
Qed.

Lemma foldl_invariant {A S} (I : S → Prop) (step : S → A → S) (l : list A) (s : S) :
  I s → (∀ s x, x ∈ l → I s → I (step s x)) → I (foldl step s l).
Proof.
  revert s. induction l as [|x l IH]; intros s Hs Hstep; simpl; [done|].
  apply IH; [apply Hstep; [left|done]|]. intros s' y Hy. apply Hstep. by right.
Qed.

Lemma StronglySorted_weaken {A} (R S : relation A) l :
  (∀ x y, R x y → S x y) → StronglySorted R l → StronglySorted S l.
Proof.
  intros HRS. induction 1 as [|x l Hl IH Hx]; constructor; [done|].
  eapply Forall_impl; [exact Hx|]. auto.
Qed.

Lemma bind_ok {A B} (m : result A) (f : A → result B) b :
  (x ← m; f x) = Ok b → ∃ a, m = Ok a ∧ f a = Ok b.
Proof. destruct m as [a|]; simpl; [|done]. by exists a. Qed.

(** [[f(x) for x in l]] where [f] may raise. *)
Lemma mapM_Ok {A B} (f : A → result B) l ks :
  mapM f l = Ok ks ↔ Forall2 (λ x y, f x = Ok y) l ks.
Proof.
  split.
  - revert ks. induction l as [|x l IH]; intros ks; simpl; [intros [= <-]; constructor|].
    destruct (f x) as [y|] eqn:Hx; simpl; [|done].
    destruct (mapM f l) as [ys|]; simpl; [|done]. intros [= <-]. constructor; [done|]. by apply IH.
  - induction 1 as [|x y l ks Hx _ IH]; simpl; [done|]. rewrite Hx. simpl. by rewrite IH.
Qed.

Lemma mapM_Raise {A B} (f : A → result B) l e :
  mapM f l = Raise e → ∃ x, x ∈ l ∧ f x = Raise e.
Proof.
  induction l as [|x l IH]; simpl; [done|]. destruct (f x) as [y|] eqn:Hx; simpl.
  - destruct (mapM f l) as [ys|]; simpl; [done|]. intros He. destruct (IH He) as (z & Hz & Hfz).
    exists z. split; [by right|done].
  - intros [= ->]. exists x. split; [left|done].
Qed.

(** ** Automation

    [ztna] is the database of the facts used all over the components;
    [ztna_solve] tries them with the usual arithmetic. *)

Create HintDb ztna discriminated.
#[export] Hint Constants Opaque : ztna.
#[export] Hint Variables Opaque : ztna.
Create Rewrite HintDb ztna.
#[export] Hint Rewrite @sum_by_nil @sum_by_cons @sum_by_app @sum_by_fmap : ztna.
#[export] Hint Resolve py_leb_refl py_leb_false : ztna.

Ltac destruct_match :=
  match goal with
  | |- context [match ?x with _ => _ end] => destruct x eqn:?
  | H : context [match ?x with _ => _ end] |- _ => destruct x eqn:?
  end.

Ltac bool_to_prop :=
  repeat match goal with
  | H : (_ <=? _) = true |- _ => apply Z.leb_le in H
  | H : (_ <=? _) = false |- _ => apply Z.leb_gt in H
  | H : (_ <? _) = true |- _ => apply Z.ltb_lt in H
  | H : (_ <? _) = false |- _ => apply Z.ltb_ge in H
  | H : (_ =? _) = true |- _ => apply Z.eqb_eq in H
  | H : (_ =? _) = false |- _ => apply Z.eqb_neq in H
  | H : (_ && _)%bool = true |- _ => apply andb_true_iff in H as [? ?]
  | H : (_ || _)%bool = false |- _ => apply orb_false_iff in H as [? ?]
  | H : negb _ = true |- _ => apply negb_true_iff in H
  | H : negb _ = false |- _ => apply negb_false_iff in H
  | H : bool_decide _ = true |- _ => apply bool_decide_eq_true in H
  | H : bool_decide _ = false |- _ => apply bool_decide_eq_false in H
  end.

Ltac ztna_solve :=
  intros; autorewrite with ztna in *; bool_to_prop; simplify_eq/=;
  first [done | lia | congruence | eauto with ztna | naive_solver lia].
