(* ===== verification/PySort.v ===== *)
(** * Python's [sorted] and [min]

    [sorted(xs, key=f)] is a stable sort; it is modelled by insertion from the
    right, which keeps equal keys in their input order.  [min(xs, key=f)] is
    the first element of least key.  The lemmas characterise the first element
    of a sorted list that satisfies a test, which is how the program's matchers
    use their sorted tables. *)

From S2P Require Import Prelude.

(** [a < b] *)
Definition py_ltb {K} `{PyOrd K} (a b : K) : bool := negb (py_leb b a).

Section py_sort.
Context {A K : Type} `{PyOrd K} (key : A → K).

Fixpoint py_insert (x : A) (l : list A) : list A :=
  match l with
  | [] => [x]
  | y :: l' => if py_leb (key x) (key y) then x :: l else y :: py_insert x l'
  end.

Definition py_sorted (l : list A) : list A := foldr py_insert [] l.

(** [min(xs, key=f)]; [None] stands for the [ValueError] of an empty argument. *)
Fixpoint py_min (l : list A) : option A :=
  match l with
  | [] => None
  | x :: l' =>
      match py_min l' with
      | None => Some x
      | Some y => if py_leb (key x) (key y) then Some x else Some y
      end
  end.

(** The first element of a list that passes a test: a [for] loop with
    [continue] and [return], or [next((s for s in xs if ...), None)]. *)
Fixpoint first_match (P : A → bool) (l : list A) : option A :=
  match l with
  | [] => None
  | x :: l' => if P x then Some x else first_match P l'
  end.

(** Reference for [first_match] over a sorted list: the passing element of
    least key, the earliest of the input among equal keys. *)
Fixpoint best_match (P : A → bool) (l : list A) : option A :=
  match l with
  | [] => None
  | x :: l' =>
      if P x then
        match best_match P l' with
        | Some y => if py_leb (key x) (key y) then Some x else Some y
        | None => Some x
        end
      else best_match P l'
  end.

Definition key_le (x y : A) : Prop := py_leb (key x) (key y) = true.
End py_sort.

Section py_sort_lemmas.
Context {A K : Type} `{PyOrdLaws K} (key : A → K).

#[local] Instance key_le_trans : Transitive (key_le key).
Proof. intros x y z. apply py_leb_trans. Qed.

Lemma py_insert_perm x l : py_insert key x l ≡ₚ x :: l.
Proof.
  induction l as [|y l IH]; simpl; [done|]. destruct (py_leb _ _); [done|].
  rewrite IH. constructor.
Qed.

Lemma py_sorted_perm l : py_sorted key l ≡ₚ l.
Proof. induction l as [|x l IH]; simpl; [done|]. by rewrite py_insert_perm, IH. Qed.

Lemma py_insert_strongly_sorted x l :
  StronglySorted (key_le key) l → StronglySorted (key_le key) (py_insert key x l).
Proof.
  induction 1 as [|y l Hl IH Hy]; simpl; [repeat constructor|].
  destruct (py_leb (key x) (key y)) eqn:Hxy.
  - constructor; [by constructor|]. constructor; [done|].
    eapply Forall_impl; [exact Hy|]. intros z Hz. by etrans.
  - constructor; [done|]. rewrite py_insert_perm. constructor; [|done].
    by apply py_leb_false.
Qed.

Lemma py_sorted_strongly_sorted l : StronglySorted (key_le key) (py_sorted key l).
Proof. induction l; simpl; [constructor|]. by apply py_insert_strongly_sorted. Qed.

Lemma py_sorted_elem x l : x ∈ py_sorted key l ↔ x ∈ l.
Proof. by rewrite py_sorted_perm. Qed.

Lemma py_sorted_nil_iff l : py_sorted key l = [] ↔ l = [].
Proof.
  split; [|by intros ->]. intros Hs. pose proof (py_sorted_perm l) as Hp.
  rewrite Hs in Hp. by apply Permutation_nil_l in Hp.
Qed.

Lemma py_sorted_length l : length (py_sorted key l) = length l.
Proof. by rewrite py_sorted_perm. Qed.

Lemma py_insert_head x l : Forall (key_le key x) l → py_insert key x l = x :: l.
Proof. intros Hl. destruct l as [|y l]; [done|]. apply Forall_cons in Hl as [Hy _]. simpl. by rewrite Hy. Qed.

Lemma py_insert_filter (P : A → Prop) `{∀ x, Decision (P x)} x l :
  StronglySorted (key_le key) l →
  filter P (py_insert key x l) = if decide (P x) then py_insert key x (filter P l) else filter P l.
Proof.
  induction 1 as [|y l Hs IH Hy]; simpl; [rewrite filter_cons; by case_decide|].
  destruct (py_leb (key x) (key y)) eqn:E.
  - rewrite filter_cons. case_decide; [|done]. symmetry. apply py_insert_head.
    apply Forall_forall. intros z [_ Hz]%list_elem_of_filter. apply elem_of_cons in Hz as [->|Hz]; [done|].
    rewrite Forall_forall in Hy. etrans; [exact E | by apply Hy].
  - rewrite !filter_cons, IH. destruct (decide (P x)), (decide (P y)); simpl; by rewrite ?E.
Qed.

Lemma py_sorted_filter (P : A → Prop) `{∀ x, Decision (P x)} l :
  py_sorted key (filter P l) = filter P (py_sorted key l).
Proof.
  induction l as [|x l IH]; [done|]. simpl. rewrite py_insert_filter by apply py_sorted_strongly_sorted.
  rewrite filter_cons, <- IH. by case_decide.
Qed.

(** In a sorted list of distinct keys, the elements of greater key than one of them
    are those after it. *)
Lemma sorted_after l1 x l2 :
  StronglySorted (key_le key) (l1 ++ x :: l2) → NoDup (key <$> l1 ++ x :: l2) →
  filter (λ y, py_ltb (key x) (key y) = true) (l1 ++ x :: l2) = l2.
Proof.
  intros Hs Hnd. rewrite filter_app, filter_none.
  - cbn [app]. rewrite filter_cons_False by (unfold py_ltb; by rewrite py_leb_refl).
    rewrite fmap_app, fmap_cons in Hnd. apply NoDup_app in Hnd as (_ & _ & [Hx _]%NoDup_cons).
    assert (Hle : Forall (key_le key x) l2).
    { clear Hx. induction l1 as [|y l1 IH]; cbn [app] in Hs; apply StronglySorted_inv in Hs as [Hs Hy]; eauto. }
    apply filter_all. intros y Hy. unfold py_ltb. destruct (py_leb (key y) (key x)) eqn:E; [|done].
    destruct Hx. rewrite Forall_forall in Hle. rewrite (py_leb_antisym _ _ (Hle y Hy) E). by apply list_elem_of_fmap_2.
  - intros y Hy. unfold py_ltb. clear Hnd. induction l1 as [|z l1 IH]; [by apply not_elem_of_nil in Hy|].
    cbn [app] in Hs. apply StronglySorted_inv in Hs as [Hs Hz]. apply elem_of_cons in Hy as [->|Hy]; [|by apply IH].
    rewrite Forall_forall in Hz. assert (Hzx : x ∈ l1 ++ x :: l2) by (apply elem_of_app; right; left).
    by rewrite (Hz x Hzx).
Qed.

Lemma first_match_elem (P : A → bool) l x :
  first_match P l = Some x → x ∈ l ∧ P x = true.
Proof.
  induction l as [|y l IH]; simpl; [done|]. destruct (P y) eqn:Hy.
  - intros [= ->]. split; [left|done].
  - intros [? ?]%IH. split; [by right|done].
Qed.

Lemma first_match_none (P : A → bool) l :
  first_match P l = None ↔ ∀ x, x ∈ l → P x = false.
Proof.
  induction l as [|y l IH]; simpl; [split; [intros _ x; by rewrite elem_of_nil|done]|].
  destruct (P y) eqn:Hy; split.
  - done.
  - intros Hl. specialize (Hl y ltac:(left)). congruence.
  - intros Hn x [->|Hx]%elem_of_cons; [done|]. by apply IH.
  - intros Hl. apply IH. intros x Hx. apply Hl. by right.
Qed.

Lemma first_match_insert (P : A → bool) x l :
  StronglySorted (key_le key) l →
  first_match P (py_insert key x l) =
    if P x then
      match first_match P l with
      | Some y => if py_leb (key x) (key y) then Some x else Some y
      | None => Some x
      end
    else first_match P l.
Proof.
  induction 1 as [|y l Hl IH Hy]; simpl; [done|].
  destruct (py_leb (key x) (key y)) eqn:Hxy; simpl.
  - destruct (P x) eqn:Hx; [|done]. destruct (P y) eqn:HPy; [by rewrite Hxy|].
    destruct (first_match P l) as [z|] eqn:Hz; [|done].
    apply first_match_elem in Hz as [Hz _].
    rewrite (py_leb_trans (key x) (key y) (key z)); [done..|].
    rewrite Forall_forall in Hy. by apply Hy.
  - destruct (P y) eqn:HPy; [|by rewrite IH]. rewrite Hxy. by destruct (P x).
Qed.

(** Scanning a sorted table for the first hit finds the best hit. *)
Lemma first_match_sorted (P : A → bool) l :
  first_match P (py_sorted key l) = best_match key P l.
Proof.
  induction l as [|x l IH]; simpl; [done|].
  rewrite first_match_insert by apply py_sorted_strongly_sorted. by rewrite IH.
Qed.

Lemma best_match_none (P : A → bool) l :
  best_match key P l = None ↔ ∀ x, x ∈ l → P x = false.
Proof. rewrite <-first_match_sorted, first_match_none. by setoid_rewrite py_sorted_elem. Qed.

Lemma best_match_min (P : A → bool) l x :
  best_match key P l = Some x →
  x ∈ l ∧ P x = true ∧ ∀ y, y ∈ l → P y = true → key_le key x y.
Proof.
  revert x. induction l as [|y l IH]; simpl; [done|]. intros x.
  destruct (P y) eqn:HPy.
  - destruct (best_match key P l) as [z|] eqn:Hz.
    + destruct (IH z eq_refl) as (Hzl & HPz & Hmin).
      destruct (py_leb (key y) (key z)) eqn:Hyz; intros [= <-].
      * split; [left|split; [done|]]. intros w [->|Hw]%elem_of_cons HPw; [apply py_leb_refl|].
        eapply py_leb_trans; [exact Hyz|]. by apply Hmin.
      * split; [by right|split; [done|]]. intros w [->|Hw]%elem_of_cons HPw; [|by apply Hmin].
        by apply py_leb_false.
    + intros [= <-]. split; [left|split; [done|]].
      intros w [->|Hw]%elem_of_cons HPw; [apply py_leb_refl|].
      rewrite best_match_none in Hz. rewrite Hz in HPw by done. done.
  - intros Hx. destruct (IH x Hx) as (Hxl & HPx & Hmin).
    split; [by right|split; [done|]].
    intros w [->|Hw]%elem_of_cons HPw; [congruence|]. by apply Hmin.
Qed.

(** Among the passing elements of the same key, the earliest of the input wins. *)
Lemma best_match_earliest (P : A → bool) l x :
  best_match key P l = Some x →
  ∃ l1 l2, l = l1 ++ x :: l2 ∧ ∀ y, y ∈ l1 → P y = true → key y ≠ key x.
Proof.
  revert x. induction l as [|y l IH]; simpl; [done|]. intros x.
  destruct (P y) eqn:HPy.
  - destruct (best_match key P l) as [z|] eqn:Hz.
    + destruct (py_leb (key y) (key z)) eqn:Hyz; intros [= <-].
      * exists [], l. split; [done|]. intros w Hw. by rewrite elem_of_nil in Hw.
      * destruct (IH z eq_refl) as (l1 & l2 & -> & Hl1). exists (y :: l1), l2. split; [done|].
        intros w [->|Hw]%elem_of_cons HPw; [|by apply Hl1].
        intros Heq. rewrite Heq, py_leb_refl in Hyz. done.
    + intros [= <-]. exists [], l. split; [done|]. intros w Hw. by rewrite elem_of_nil in Hw.
  - intros Hx. destruct (IH x Hx) as (l1 & l2 & -> & Hl1). exists (y :: l1), l2. split; [done|].
    intros w [->|Hw]%elem_of_cons HPw; [congruence|]. by apply Hl1.
Qed.

Lemma py_min_none l : py_min key l = None ↔ l = [].
Proof.
  split; [|by intros ->]. destruct l as [|x l]; simpl; [done|].
  destruct (py_min key l); [destruct (py_leb _ _)|]; done.
Qed.

Lemma py_min_some l x :
  py_min key l = Some x → x ∈ l ∧ ∀ y, y ∈ l → key_le key x y.
Proof.
  revert x. induction l as [|y l IH]; simpl; [done|]. intros x.
  destruct (py_min key l) as [z|] eqn:Hz.
  - destruct (IH z eq_refl) as (Hzl & Hmin).
    destruct (py_leb (key y) (key z)) eqn:Hyz; intros [= <-].
    + split; [left|]. intros w [->|Hw]%elem_of_cons; [apply py_leb_refl|].
      eapply py_leb_trans; [exact Hyz|]. by apply Hmin.
    + split; [by right|]. intros w [->|Hw]%elem_of_cons; [|by apply Hmin].
      by apply py_leb_false.
  - apply py_min_none in Hz as ->. intros [= <-]. split; [left|].
    intros w ->%list_elem_of_singleton. apply py_leb_refl.
Qed.

(** The head of a sorted list is a least element. *)
Lemma py_sorted_head l x l' :
  py_sorted key l = x :: l' → x ∈ l ∧ ∀ y, y ∈ l → key_le key x y.
Proof.
  intros Hs. split.
  - rewrite <-py_sorted_elem, Hs. left.
  - intros y. rewrite <-py_sorted_elem, Hs. intros [->|Hy]%elem_of_cons; [apply py_leb_refl|].
    pose proof (py_sorted_strongly_sorted l) as Hss. rewrite Hs in Hss. inv Hss.
    by eapply Forall_forall in Hy; [|eassumption].
Qed.
End py_sort_lemmas.

(** When keys determine the element, the least element does not depend on the
    order in which the set is enumerated. *)
Lemma py_min_perm {A K} `{PyOrdLaws K} (key : A → K) `{!Inj (=) (=) key} l1 l2 :
  l1 ≡ₚ l2 → py_min key l1 = py_min key l2.
Proof.
  intros Hp. destruct (py_min key l1) as [x|] eqn:E1, (py_min key l2) as [y|] eqn:E2.
  - apply py_min_some in E1 as [Hx Hmin1]. apply py_min_some in E2 as [Hy Hmin2].
    f_equal. apply (inj key). apply py_leb_antisym.
    + apply Hmin1. by rewrite Hp.
    + apply Hmin2. by rewrite <-Hp.
  - apply py_min_none in E2. subst l2. apply Permutation_nil_r in Hp. by subst l1.
  - apply py_min_none in E1. subst l1. apply Permutation_nil_l in Hp. by subst l2.
  - done.
Qed.

(** A part of a sorted list, in order, is sorted. *)
Lemma sorted_sublist {A} (R : relation A) (l k : list A) :
  l `sublist_of` k → StronglySorted R k → StronglySorted R l.
Proof.
  induction 1 as [|x l k Hlk IH|x l k Hlk IH]; intros Hk; [constructor| |];
    apply StronglySorted_inv in Hk as [Hk Hx]; [|by apply IH].
  constructor; [by apply IH|]. rewrite Forall_forall in *. intros y Hy. apply Hx. by eapply elem_of_sublist.
Qed.
