(* ===== verification/PyDict.v ===== *)
(** * Python dictionaries

    A [dict] keeps its keys in insertion order, and the program's results
    depend on that order (lists built from [d.values()] and [d.items()]), so a
    dictionary is an association list without repeated keys.  Assigning to a
    key that is present keeps its position; a new key goes to the end. *)

From S2P Require Import Prelude.

Abbreviation pydict K V := (list (K * V)).

Section pydict.
Context {K V : Type} `{EqDecision K}.

Fixpoint dget (k : K) (d : pydict K V) : option V :=
  match d with
  | [] => None
  | (k', v) :: d' => if decide (k = k') then Some v else dget k d'
  end.

(** [d[k] = v] *)
Fixpoint dset (k : K) (v : V) (d : pydict K V) : pydict K V :=
  match d with
  | [] => [(k, v)]
  | (k', v') :: d' => if decide (k = k') then (k', v) :: d' else (k', v') :: dset k v d'
  end.

(** [slot = d.setdefault(k, v0)] followed by an update [f] of the slot, or
    the same on a [defaultdict]. *)
Definition dupd (k : K) (v0 : V) (f : V → V) (d : pydict K V) : pydict K V :=
  dset k (f (default v0 (dget k d))) d.

(** [d.setdefault(k, v)] *)
Definition dsetdefault (k : K) (v : V) (d : pydict K V) : pydict K V :=
  dupd k v id d.

(** [d.pop(k)] on the dictionary that remains. *)
Fixpoint ddel (k : K) (d : pydict K V) : pydict K V :=
  match d with
  | [] => []
  | (k', v) :: d' => if decide (k = k') then d' else (k', v) :: ddel k d'
  end.

(** [{kf(x): vf(x) for x in l}] *)
Definition dcomp {A} (kf : A → K) (vf : A → V) (l : list A) : pydict K V :=
  foldl (λ d x, dset (kf x) (vf x) d) [] l.
End pydict.

Definition dkeys {K V} (d : pydict K V) : list K := d.*1.
Definition dvalues {K V} (d : pydict K V) : list V := d.*2.

(** The well-formedness invariant of a dictionary. *)
Definition dict_wf {K V} (d : pydict K V) : Prop := NoDup (dkeys d).

Section pydict_lemmas.
Context {K V : Type} `{EqDecision K}.
Implicit Types (d : pydict K V) (k : K) (v : V).

Lemma dget_dset k k' v d :
  dget k (dset k' v d) = if decide (k = k') then Some v else dget k d.
Proof.
  induction d as [|[k1 v1] d IH]; simpl.
  - by destruct (decide (k = k')).
  - destruct (decide (k' = k1)); simpl; destruct (decide (k = k1)), (decide (k = k'));
      subst; congruence || done.
Qed.

Lemma dset_fresh k v d : k ∉ dkeys d → dset k v d = d ++ [(k, v)].
Proof.
  unfold dkeys. induction d as [|[k1 v1] d IH]; simpl; [done|]. rewrite elem_of_cons. intros Hn.
  rewrite decide_False by naive_solver. f_equal. apply IH. naive_solver.
Qed.

Lemma dget_dset_eq k v d : dget k (dset k v d) = Some v.
Proof. rewrite dget_dset. by destruct (decide (k = k)). Qed.

Lemma dget_dset_ne k k' v d : k ≠ k' → dget k (dset k' v d) = dget k d.
Proof. intros. rewrite dget_dset. by destruct (decide (k = k')). Qed.

Lemma dget_dupd k k' v0 f d :
  dget k (dupd k' v0 f d) =
    if decide (k = k') then Some (f (default v0 (dget k d))) else dget k d.
Proof. unfold dupd. rewrite dget_dset. destruct (decide (k = k')); by subst. Qed.

Lemma dget_in k v d : dget k d = Some v → (k, v) ∈ d.
Proof.
  induction d as [|[k1 v1] d IH]; simpl; [done|]. destruct (decide (k = k1)); subst.
  - intros [= ->]. left.
  - intros. right. auto.
Qed.

Lemma dget_none k d : dget k d = None ↔ k ∉ dkeys d.
Proof.
  unfold dkeys. induction d as [|[k1 v1] d IH]; simpl;
    [split; [intros _; apply not_elem_of_nil|done]|].
  destruct (decide (k = k1)) as [->|]; rewrite elem_of_cons.
  - split; [done|]. intros []. by left.
  - rewrite IH. naive_solver.
Qed.

Lemma dget_some_key k v d : dget k d = Some v → k ∈ dkeys d.
Proof. intros Hg%dget_in. apply list_elem_of_fmap. by exists (k, v). Qed.

Lemma in_dget k v d : dict_wf d → (k, v) ∈ d → dget k d = Some v.
Proof.
  unfold dict_wf, dkeys. induction d as [|[k1 v1] d IH]; simpl; [by inversion 2|].
  intros [Hn Hnd]%NoDup_cons [[= -> ->]|Hin]%elem_of_cons.
  - by destruct (decide (k1 = k1)).
  - destruct (decide (k = k1)) as [->|]; [|auto].
    destruct Hn. apply list_elem_of_fmap. by exists (k1, v).
Qed.

Lemma dkeys_dset k v d :
  dkeys (dset k v d) = if decide (k ∈ dkeys d) then dkeys d else dkeys d ++ [k].
Proof.
  unfold dkeys. induction d as [|[k1 v1] d IH]; csimpl.
  { destruct (decide (k ∈ [])) as [Hk|]; [by apply not_elem_of_nil in Hk|done]. }
  destruct (decide (k = k1)) as [->|Hne]; csimpl.
  - destruct (decide (k1 ∈ k1 :: d.*1)) as [|Hn]; [done|]. destruct Hn. left.
  - rewrite IH. destruct (decide (k ∈ d.*1)) as [Hin|Hin],
      (decide (k ∈ k1 :: d.*1)) as [Hin'|Hin']; rewrite elem_of_cons in Hin'; naive_solver.
Qed.

Lemma dset_wf k v d : dict_wf d → dict_wf (dset k v d).
Proof.
  unfold dict_wf. intros Hd. rewrite dkeys_dset. destruct (decide _); [done|].
  apply NoDup_app. split; [done|]. split; [|apply NoDup_singleton].
  intros x Hx ->%list_elem_of_singleton. done.
Qed.

Lemma dupd_wf k v0 f d : dict_wf d → dict_wf (dupd k v0 f d).
Proof. apply dset_wf. Qed.

Lemma dkeys_ddel_sublist k d : sublist (dkeys (ddel k d)) (dkeys d).
Proof.
  unfold dkeys. induction d as [|[k1 v1] d IH]; csimpl; [constructor|].
  destruct (decide (k = k1)); csimpl; by constructor.
Qed.

Lemma ddel_wf k d : dict_wf d → dict_wf (ddel k d).
Proof. intros Hd. eapply sublist_NoDup; [exact Hd|apply dkeys_ddel_sublist]. Qed.

Lemma dget_ddel k k' d :
  dict_wf d → dget k (ddel k' d) = if decide (k = k') then None else dget k d.
Proof.
  unfold dict_wf, dkeys. induction d as [|[k1 v1] d IH]; csimpl; [by destruct (decide _)|].
  intros [Hn Hnd]%NoDup_cons. destruct (decide (k' = k1)) as [->|]; csimpl.
  - destruct (decide (k = k1)) as [->|]; [|done]. by apply dget_none.
  - rewrite IH by done. destruct (decide (k = k1)), (decide (k = k')); congruence || done.
Qed.

Lemma dkeys_ddel k d : dict_wf d → dkeys (ddel k d) = filter (λ x, x ≠ k) (dkeys d).
Proof.
  unfold dict_wf, dkeys. induction d as [|[k1 v1] d IH]; csimpl; [done|].
  intros [Hn Hnd]%NoDup_cons. rewrite filter_cons. destruct (decide (k = k1)) as [->|].
  - destruct (decide (k1 ≠ k1)) as [|]; [done|]. symmetry. apply filter_all.
    intros x Hx ->. done.
  - destruct (decide (k1 ≠ k)) as [|]; [|naive_solver]. csimpl. by rewrite IH.
Qed.

Lemma sum_dset (f : K * V → Z) k v d :
  sum_by f (dset k v d) =
    sum_by f d + f (k, v) - match dget k d with Some v' => f (k, v') | None => 0 end.
Proof.
  induction d as [|[k1 v1] d IH]; simpl; [lia|].
  destruct (decide (k = k1)) as [->|]; simpl; [lia|]. rewrite IH. lia.
Qed.

Lemma sum_ddel (f : K * V → Z) k d :
  sum_by f (ddel k d) =
    sum_by f d - match dget k d with Some v' => f (k, v') | None => 0 end.
Proof.
  induction d as [|[k1 v1] d IH]; simpl; [lia|].
  destruct (decide (k = k1)) as [->|]; simpl; [lia|]. rewrite IH. lia.
Qed.

(** A weight that only counts key [k] reads the slot of [k]. *)
Lemma sum_indicator (f : V → Z) k d :
  dict_wf d →
  sum_by (λ kv, if decide (kv.1 = k) then f kv.2 else 0) d =
    match dget k d with Some v => f v | None => 0 end.
Proof.
  unfold dict_wf, dkeys. induction d as [|[k1 v1] d IH]; csimpl; [done|].
  intros [Hn Hnd]%NoDup_cons. rewrite IH by done.
  destruct (decide (k1 = k)), (decide (k = k1)); try congruence; [|lia]. subst.
  apply dget_none in Hn. rewrite Hn. lia.
Qed.

Lemma dkeys_dcomp_elem {A} (kf : A → K) (vf : A → V) (l : list A) k :
  k ∈ dkeys (dcomp kf vf l) ↔ k ∈ kf <$> l.
Proof.
  unfold dcomp. assert (Hgen : ∀ d, k ∈ dkeys (foldl (λ d x, dset (kf x) (vf x) d) d l) ↔
    k ∈ dkeys d ∨ k ∈ kf <$> l).
  { induction l as [|x l IH]; intros d; simpl; [rewrite elem_of_nil; tauto|].
    rewrite IH, dkeys_dset, elem_of_cons. destruct (decide (kf x ∈ dkeys d)).
    - naive_solver.
    - rewrite elem_of_app, list_elem_of_singleton. naive_solver. }
  rewrite Hgen. unfold dkeys; simpl. rewrite elem_of_nil. tauto.
Qed.
Lemma dvalues_in v d :
  dict_wf d → v ∈ dvalues d ↔ ∃ k, dget k d = Some v.
Proof.
  intros Hd. unfold dvalues. rewrite list_elem_of_fmap. split.
  - intros ([k v'] & -> & Hin). exists k. by apply in_dget.
  - intros [k Hk]. exists (k, v). split; [done|]. by apply dget_in.
Qed.
End pydict_lemmas.

(** ** Grouping rows into a dictionary

    The shape shared by the windower, the group aggregator, the group index
    and the Sankey publisher: walk over rows, find or create the slot of the
    row's key, accumulate into it. *)

Section group_fold.
Context {A K V : Type} `{EqDecision K}.
Context (kf : A → K) (init : A → V) (step : V → A → V).

Definition group_step (d : pydict K V) (r : A) : pydict K V :=
  dupd (kf r) (init r) (λ v, step v r) d.

Definition group_fold (d : pydict K V) (l : list A) : pydict K V := foldl group_step d l.

(** What the slot of [k] holds after the walk. *)
Definition group_slot (o : option V) (rs : list A) : option V :=
  match o, rs with
  | Some v, _ => Some (foldl step v rs)
  | None, [] => None
  | None, r :: _ => Some (foldl step (init r) rs)
  end.

Lemma dget_group_fold k d l :
  dget k (group_fold d l) = group_slot (dget k d) (filter (λ r, kf r = k) l).
Proof.
  unfold group_fold. revert d. induction l as [|r l IH]; intros d; simpl.
  - by destruct (dget k d).
  - rewrite IH. unfold group_step. rewrite dget_dupd, filter_cons.
    destruct (decide (k = kf r)), (decide (kf r = k)); try congruence.
    by destruct (dget k d).
Qed.

Lemma dget_group_fold_nil k l :
  dget k (group_fold [] l) = group_slot None (filter (λ r, kf r = k) l).
Proof. apply dget_group_fold. Qed.

Lemma group_fold_wf d l : dict_wf d → dict_wf (group_fold d l).
Proof.
  intros Hd. unfold group_fold. apply (foldl_invariant dict_wf); [done|].
  intros d' r _ Hd'. by apply dupd_wf.
Qed.

Lemma group_fold_key k d l :
  k ∈ dkeys (group_fold d l) ↔ k ∈ dkeys d ∨ k ∈ kf <$> l.
Proof.
  unfold group_fold. revert d. induction l as [|r l IH]; intros d; simpl.
  - rewrite elem_of_nil. tauto.
  - rewrite IH, elem_of_cons. unfold group_step, dupd. rewrite dkeys_dset.
    destruct (decide (kf r ∈ dkeys d)); [naive_solver|].
    rewrite elem_of_app, list_elem_of_singleton. naive_solver.
Qed.

Lemma group_fold_key_nil k l : k ∈ dkeys (group_fold [] l) ↔ k ∈ kf <$> l.
Proof. rewrite group_fold_key. unfold dkeys. simpl. rewrite elem_of_nil. tauto. Qed.

(** Accumulation conserves any additive measure. *)
Lemma group_fold_sum (m : V → Z) (w : A → Z) d l :
  (∀ r, r ∈ l → m (init r) = 0) →
  (∀ v r, r ∈ l → m (step v r) = m v + w r) →
  sum_by (λ kv, m kv.2) (group_fold d l) = sum_by (λ kv, m kv.2) d + sum_by w l.
Proof.
  unfold group_fold. revert d. induction l as [|r l IH]; intros d Hinit Hstep; simpl; [lia|].
  rewrite IH.
  - unfold group_step, dupd. rewrite sum_dset; simpl. rewrite Hstep by left.
    destruct (dget (kf r) d); simpl; [lia|]. rewrite Hinit by left. lia.
  - intros r' Hr'. apply Hinit. by right.
  - intros v r' Hr'. apply Hstep. by right.
Qed.
(** When the values carry their key and keep it, they list the keys. *)
Lemma group_fold_ids (idf : V → K) l :
  (∀ r, idf (init r) = kf r) → (∀ v r, idf (step v r) = idf v) →
  idf <$> dvalues (group_fold [] l) = dkeys (group_fold [] l).
Proof.
  intros Hinit Hstep. unfold dvalues, dkeys. rewrite <-list_fmap_compose. apply list_fmap_ext.
  intros i [k v] Hi%list_elem_of_lookup_2. simpl.
  apply in_dget in Hi; [|apply group_fold_wf; constructor]. rewrite dget_group_fold_nil in Hi.
  unfold group_slot in Hi. destruct (filter _ l) as [|r rs] eqn:E; [done|]. injection Hi as <-.
  assert (Hr : r ∈ filter (λ r, kf r = k) l) by (rewrite E; left).
  apply list_elem_of_filter in Hr as [<- _]. rewrite <-Hinit.
  assert (Hfold : ∀ xs v0, idf (foldl step v0 xs) = idf v0).
  { induction xs as [|x xs IH]; intros v0; simpl; [done|]. by rewrite IH, Hstep. }
  by rewrite Hfold, Hstep.
Qed.
End group_fold.

#[export] Hint Resolve dset_wf dupd_wf ddel_wf group_fold_wf : ztna.
#[export] Hint Rewrite @dget_dset_eq : ztna.
