(* ===== verification/PyQueue.v ===== *)
(** * [asyncio.Queue] with a bound

    [put_nowait] and [get_nowait] of a bounded FIFO queue, and the program's
    back-pressure policy on top of them, used by the syslog receiver, the flow
    windower and the correlator's demultiplexer: when the queue is full, one
    item is taken from the front and the new item is put at the back. *)

From S2P Require Import Prelude.

Record queue (A : Type) : Type := Queue {
  q_maxsize : Z;          (* no bound when it is not positive *)
  q_items : list A
}.
Arguments Queue {A}.
Arguments q_maxsize {A}.
Arguments q_items {A}.

Definition q_full {A} (q : queue A) : bool :=
  (0 <? q_maxsize q) && (q_maxsize q <=? Z.of_nat (length (q_items q))).

(** [None] is [asyncio.QueueFull]. *)
Definition put_nowait {A} (x : A) (q : queue A) : option (queue A) :=
  if q_full q then None else Some (Queue (q_maxsize q) (q_items q ++ [x])).

(** [None] is [asyncio.QueueEmpty]. *)
Definition get_nowait {A} (q : queue A) : option (A * queue A) :=
  match q_items q with
  | [] => None
  | x :: xs => Some (x, Queue (q_maxsize q) xs)
  end.

(** The result of the policy: the queue, whether the first put found the queue
    full, and whether the second put failed too. *)
Record put_outcome (A : Type) : Type := PutOutcome {
  po_queue : queue A;
  po_was_full : bool;
  po_still_full : bool
}.
Arguments PutOutcome {A}.
Arguments po_queue {A}.
Arguments po_was_full {A}.
Arguments po_still_full {A}.

Definition put_drop_oldest {A} (x : A) (q : queue A) : put_outcome A :=
  match put_nowait x q with
  | Some q' => PutOutcome q' false false
  | None =>
      let q1 := match get_nowait q with Some (_, q1) => q1 | None => q end in
      match put_nowait x q1 with
      | Some q2 => PutOutcome q2 true false
      | None => PutOutcome q1 true true
      end
  end.

(** A bounded queue never holds more than its bound. *)
Definition queue_wf {A} (q : queue A) : Prop :=
  q_maxsize q ≤ 0 ∨ Z.of_nat (length (q_items q)) ≤ q_maxsize q.

(** What is left of a sequence that went through a queue with bound [m]: in order,
    and everything when there is no bound. *)
Definition arrived {A} (m : Z) (l1 l2 : list A) : Prop := sublist l1 l2 ∧ (m ≤ 0 → l1 = l2).

Section arrived_lemmas.
Context {A : Type} (m : Z).
Implicit Types (l k : list A).

Lemma arrived_refl l : arrived m l l.
Proof. by split. Qed.

Lemma arrived_trans l1 l2 l3 : arrived m l1 l2 → arrived m l2 l3 → arrived m l1 l3.
Proof. intros [H1 E1] [H2 E2]. split; [by etrans|]. intros Hm. by rewrite E1, E2. Qed.

Lemma arrived_app l1 l2 k1 k2 : arrived m l1 l2 → arrived m k1 k2 → arrived m (l1 ++ k1) (l2 ++ k2).
Proof. intros [H1 E1] [H2 E2]. split; [by apply sublist_app|]. intros Hm. by rewrite E1, E2. Qed.

(** Two stages in a row: [k] is done, [w] waits downstream and [u] upstream; [v]
    moves from one to the other while [n] comes in. *)
Lemma arrived_stages k w w' u u' v e n :
  arrived m (k ++ w ++ u) e → arrived m w' (w ++ v) → arrived m (v ++ u') (u ++ n) →
  arrived m (k ++ w' ++ u') (e ++ n).
Proof.
  intros He Hw Hu. eapply arrived_trans; [|apply arrived_app; [exact He|apply arrived_refl]].
  rewrite <-!app_assoc. apply arrived_app; [apply arrived_refl|].
  eapply arrived_trans; [apply arrived_app; [exact Hw|apply arrived_refl]|].
  rewrite <-app_assoc. by apply arrived_app; [apply arrived_refl|].
Qed.

Lemma arrived_fmap {B} (f : A → B) l1 l2 : arrived m l1 l2 → arrived m (f <$> l1) (f <$> l2).
Proof. intros [H1 E1]. split; [by apply fmap_sublist|]. intros Hm. by rewrite E1. Qed.
End arrived_lemmas.

Section queue_lemmas.
Context {A : Type}.
Implicit Types (q : queue A) (x : A).

Lemma q_full_true q :
  q_full q = true ↔ 0 < q_maxsize q ≤ Z.of_nat (length (q_items q)).
Proof. unfold q_full. rewrite andb_true_iff, Z.ltb_lt, Z.leb_le. done. Qed.

Lemma put_drop_oldest_not_full x q :
  q_full q = false →
  put_drop_oldest x q = PutOutcome (Queue (q_maxsize q) (q_items q ++ [x])) false false.
Proof. intros Hf. unfold put_drop_oldest, put_nowait. by rewrite Hf. Qed.

Lemma put_drop_oldest_full x q :
  queue_wf q → q_full q = true →
  put_drop_oldest x q = PutOutcome (Queue (q_maxsize q) (tail (q_items q) ++ [x])) true false.
Proof.
  intros Hwf Hf. unfold put_drop_oldest, put_nowait, get_nowait. rewrite Hf.
  apply q_full_true in Hf. destruct q as [m [|y ys]]; simpl in *; [lia|].
  assert (Hnf : q_full (Queue m ys) = false).
  { apply not_true_iff_false. rewrite q_full_true. unfold queue_wf in Hwf. simpl in *. lia. }
  by rewrite Hnf.
Qed.

(** The new item is always accepted, and goes to the back. *)
Lemma put_drop_oldest_items x q :
  queue_wf q →
  q_items (po_queue (put_drop_oldest x q)) =
    (if q_full q then tail (q_items q) else q_items q) ++ [x].
Proof.
  intros Hwf. destruct (q_full q) eqn:Hf.
  - by rewrite put_drop_oldest_full.
  - by rewrite put_drop_oldest_not_full.
Qed.

Lemma put_drop_oldest_was_full x q :
  queue_wf q → po_was_full (put_drop_oldest x q) = q_full q.
Proof.
  intros Hwf. destruct (q_full q) eqn:Hf.
  - by rewrite put_drop_oldest_full.
  - by rewrite put_drop_oldest_not_full.
Qed.

Lemma put_drop_oldest_maxsize x q :
  q_maxsize (po_queue (put_drop_oldest x q)) = q_maxsize q.
Proof.
  unfold put_drop_oldest, put_nowait, get_nowait.
  destruct (q_full q); [|done]. destruct (q_items q); destruct (q_full _); done.
Qed.

Lemma put_drop_oldest_wf x q : queue_wf q → queue_wf (po_queue (put_drop_oldest x q)).
Proof.
  intros Hwf. destruct (q_full q) eqn:Hf.
  - rewrite put_drop_oldest_full by done. unfold queue_wf in *; simpl in *.
    apply q_full_true in Hf. destruct (q_items q); rewrite ?length_app in *; simpl in *; lia.
  - rewrite put_drop_oldest_not_full by done. unfold queue_wf in *; simpl in *.
    apply not_true_iff_false in Hf. rewrite q_full_true in Hf. rewrite length_app; simpl. lia.
Qed.

Lemma put_nowait_items x q q' :
  put_nowait x q = Some q' → q_items q' = q_items q ++ [x] ∧ q_maxsize q' = q_maxsize q.
Proof. unfold put_nowait. destruct (q_full q); by intros [= <-]. Qed.

Lemma put_nowait_wf x q q' : put_nowait x q = Some q' → queue_wf q'.
Proof.
  unfold put_nowait. destruct (q_full q) eqn:Hf; [done|]. intros [= <-].
  apply not_true_iff_false in Hf. rewrite q_full_true in Hf.
  unfold queue_wf. simpl. rewrite length_app. simpl. lia.
Qed.

Lemma put_nowait_none x q : put_nowait x q = None → q_items q ≠ [].
Proof.
  unfold put_nowait. destruct (q_full q) eqn:Hf; [|done]. apply q_full_true in Hf.
  intros _ Hq. rewrite Hq in Hf. simpl in Hf. lia.
Qed.

Lemma get_nowait_items x q q' :
  get_nowait q = Some (x, q') → q_items q = x :: q_items q' ∧ q_maxsize q' = q_maxsize q.
Proof. unfold get_nowait. by destruct (q_items q) eqn:E; intros [= <- <-]. Qed.

Lemma get_nowait_wf x q q' : get_nowait q = Some (x, q') → queue_wf q → queue_wf q'.
Proof.
  intros [Hq Hm]%get_nowait_items. unfold queue_wf. rewrite Hq, Hm. simpl. lia.
Qed.

Lemma get_nowait_none q : get_nowait q = None ↔ q_items q = [].
Proof. unfold get_nowait. by destruct (q_items q). Qed.

Lemma put_drop_oldest_arrived x q :
  queue_wf q → arrived (q_maxsize q) (q_items (po_queue (put_drop_oldest x q))) (q_items q ++ [x]).
Proof.
  intros Hwf. rewrite put_drop_oldest_items by done. destruct (q_full q) eqn:Hf; [|apply arrived_refl].
  apply q_full_true in Hf. split; [|lia]. apply sublist_app; [|done].
  destruct (q_items q); [done|by constructor].
Qed.

(** Putting a list of items keeps exactly the newest ones that fit. *)
Lemma put_many_items (xs : list A) q :
  queue_wf q →
  let q' := foldl (λ q x, po_queue (put_drop_oldest x q)) q xs in
  ∃ dropped, dropped ++ q_items q' = q_items q ++ xs ∧
    (0 < q_maxsize q →
      Z.of_nat (length (q_items q')) =
        Z.min (q_maxsize q) (Z.of_nat (length (q_items q ++ xs)))).
Proof.
  revert q. induction xs as [|x xs IH]; intros q Hwf; simpl.
  - exists []. rewrite app_nil_r. split; [done|]. unfold queue_wf in Hwf. lia.
  - destruct (IH _ (put_drop_oldest_wf x q Hwf)) as (dr & Heq & Hlen).
    rewrite put_drop_oldest_items, put_drop_oldest_maxsize in * by done.
    destruct (q_full q) eqn:Hf.
    + pose proof Hf as Hf'. apply q_full_true in Hf'.
      destruct (q_items q) as [|y ys] eqn:Hq; simpl in *; [lia|].
      exists (y :: dr). split; [simpl; rewrite Heq; by rewrite <-app_assoc|].
      intros Hm. rewrite Hlen by done.
      unfold queue_wf in Hwf. rewrite Hq in Hwf. simpl in Hwf.
      rewrite !length_app in *; simpl in *. lia.
    + exists dr. split; [rewrite Heq; by rewrite <-app_assoc|].
      intros Hm. rewrite Hlen by done. rewrite !length_app; simpl. lia.
Qed.
End queue_lemmas.

#[export] Hint Resolve put_drop_oldest_wf put_nowait_wf get_nowait_wf arrived_refl : ztna.
