(* ===== verification/PyStr.v ===== *)
(** * Python's [str] methods

    Text is modelled as byte strings in which every character the program
    treats specially is ASCII; [lower] and the character classes are those of
    ASCII.  The file holds the methods that the program uses: case folding,
    suffix and prefix tests, splitting, stripping, [int(...)] and [str(...)]. *)

From Stdlib Require Export Ascii.
From stdpp Require Export pretty.
From S2P Require Import Prelude.

#[global] Open Scope Z_scope.

(** ** Characters *)

Definition code (c : ascii) : Z := Z.of_N (N_of_ascii c).

Definition between (lo hi : Z) (c : ascii) : bool := (lo <=? code c) && (code c <=? hi).

Definition is_digit : ascii → bool := between 48 57.

(** [c.isspace()] *)
Definition is_space (c : ascii) : bool := between 9 13 c || between 28 32 c.

Definition digit_val (c : ascii) : option Z := if is_digit c then Some (code c - 48) else None.

(** The value of a hexadecimal digit. *)
Definition hex_val (c : ascii) : option Z :=
  if is_digit c then Some (code c - 48)
  else if between 97 102 c then Some (code c - 87)
  else if between 65 70 c then Some (code c - 55)
  else None.

Definition lower_char (c : ascii) : ascii :=
  if between 65 90 c then ascii_of_N (Z.to_N (code c + 32)) else c.

(** ** Methods *)

Fixpoint str_map (f : ascii → ascii) (s : string) : string :=
  match s with EmptyString => EmptyString | String c s' => String (f c) (str_map f s') end.

Definition lower : string → string := str_map lower_char.

Fixpoint str_forall (P : ascii → bool) (s : string) : bool :=
  match s with EmptyString => true | String c s' => P c && str_forall P s' end.

Fixpoint has_char (c : ascii) (s : string) : bool :=
  match s with EmptyString => false | String d s' => bool_decide (c = d) || has_char c s' end.

Fixpoint str_drop (n : nat) (s : string) : string :=
  match n, s with
  | O, _ => s
  | S _, EmptyString => EmptyString
  | S n', String _ s' => str_drop n' s'
  end.

Definition len (s : string) : Z := Z.of_nat (String.length s).

(** [s.startswith(p)] *)
Definition starts_with (s p : string) : bool := String.prefix p s.

(** [s.endswith(p)] *)
Definition ends_with (s p : string) : bool :=
  (String.length p <=? String.length s)%nat &&
  bool_decide (str_drop (String.length s - String.length p) s = p).

(** [s.lstrip(chars)] and [s.rstrip(chars)] for a class of characters. *)
Fixpoint lstrip_by (P : ascii → bool) (s : string) : string :=
  match s with
  | EmptyString => EmptyString
  | String c s' => if P c then lstrip_by P s' else s
  end.

Fixpoint rstrip_by (P : ascii → bool) (s : string) : string :=
  match s with
  | EmptyString => EmptyString
  | String c s' =>
      match rstrip_by P s' with
      | EmptyString => if P c then EmptyString else String c EmptyString
      | r => String c r
      end
  end.

Definition strip_by (P : ascii → bool) (s : string) : string := rstrip_by P (lstrip_by P s).

(** [s.strip()] *)
Definition strip : string → string := strip_by is_space.

Fixpoint str_take (n : nat) (s : string) : string :=
  match n, s with
  | S n', String c s' => String c (str_take n' s')
  | _, _ => EmptyString
  end.

(** [s.split(c)] *)
Fixpoint split_on (c : ascii) (s : string) : list string :=
  match s with
  | EmptyString => [EmptyString]
  | String d s' =>
      match split_on c s' with
      | [] => [String d EmptyString]
      | w :: ws => if decide (d = c) then EmptyString :: w :: ws else String d w :: ws
      end
  end.

(** [s.partition(c)]: the text before the first [c], and what follows it when
    there is one. *)
Fixpoint partition (c : ascii) (s : string) : string * option string :=
  match s with
  | EmptyString => (EmptyString, None)
  | String d s' =>
      if decide (d = c) then (EmptyString, Some s')
      else let '(a, b) := partition c s' in (String d a, b)
  end.

(** [c.join(ws)] *)
Fixpoint join (c : ascii) (ws : list string) : string :=
  match ws with
  | [] => EmptyString
  | [w] => w
  | w :: ws' => w +:+ String c (join c ws')
  end.

(** ** [int(s)] and [str(n)]

    [int] takes blanks around the number, a sign and underscores between
    digits, and refuses more than 4300 digits. *)

Fixpoint parse_digits (acc : Z) (s : string) : option Z :=
  match s with
  | EmptyString => Some acc
  | String c s' =>
      match digit_val c with
      | Some v => parse_digits (acc * 10 + v) s'
      | None =>
          if decide (c = "_"%char) then
            match s' with
            | String d s'' =>
                match digit_val d with
                | Some v => parse_digits (acc * 10 + v) s''
                | None => None
                end
            | EmptyString => None
            end
          else None
      end
  end.

Definition parse_nat (s : string) : option Z :=
  match s with
  | EmptyString => None
  | String c s' => v ← digit_val c; parse_digits v s'
  end.

Fixpoint count_digits (s : string) : Z :=
  match s with
  | EmptyString => 0
  | String c s' => (if is_digit c then 1 else 0) + count_digits s'
  end.

Definition parse_int (t : string) : result Z :=
  if 4300 <? count_digits t then Raise ValueError
  else need ValueError
    match t with
    | String "-" r => Z.opp <$> parse_nat r
    | String "+" r => parse_nat r
    | _ => parse_nat t
    end.

Definition py_int (s : string) : result Z := parse_int (strip s).

(** [int(b)] of bytes: the blanks are those of C. *)
Definition is_cspace (c : ascii) : bool := between 9 13 c || between 32 32 c.
Definition py_int_bytes (s : string) : result Z := parse_int (strip_by is_cspace s).

(** [str(n)] *)
Definition str_Z (n : Z) : string := pretty n.

(** ** Lemmas *)

Lemma app_cons_str c (a b : string) : String c a +:+ b = String c (a +:+ b).
Proof. done. Qed.

Lemma length_app_str (a b : string) : String.length (a +:+ b) = (String.length a + String.length b)%nat.
Proof. induction a as [|c a IH]; simpl; [done|]. f_equal. exact IH. Qed.

Lemma app_assoc_str (a b c : string) : (a +:+ b) +:+ c = a +:+ (b +:+ c).
Proof. induction a as [|x a IH]; [done|]. exact (f_equal (String x) IH). Qed.

Lemma str_drop_app (a b : string) : str_drop (String.length a) (a +:+ b) = b.
Proof. by induction a. Qed.

Lemma str_drop_suffix n s : (n ≤ String.length s)%nat → ∃ a, s = a +:+ str_drop n s ∧ String.length a = n.
Proof.
  revert s. induction n as [|n IH]; intros s Hn; [by exists ""|].
  destruct s as [|c s]; simpl in *; [lia|]. destruct (IH s ltac:(lia)) as (a & Ha & Hl).
  exists (String c a). simpl. split; [|lia]. exact (f_equal (String c) Ha).
Qed.

Lemma ends_with_spec s p : ends_with s p = true ↔ ∃ a, s = a +:+ p.
Proof.
  unfold ends_with. rewrite andb_true_iff, Nat.leb_le, bool_decide_eq_true. split.
  - intros [Hl Hd]. destruct (str_drop_suffix (String.length s - String.length p) s) as (a & Ha & _); [lia|].
    exists a. by rewrite Hd in Ha.
  - intros [a ->]. rewrite length_app_str. split; [lia|].
    replace (_ + _ - _)%nat with (String.length a) by lia. apply str_drop_app.
Qed.

Lemma ends_with_self s : ends_with s s = true.
Proof. apply ends_with_spec. by exists "". Qed.

Lemma split_on_nonempty c s : split_on c s ≠ [].
Proof. destruct s as [|d s]; simpl; [done|]. destruct (split_on c s); [done|]. by destruct (decide _). Qed.

Lemma join_split c s : join c (split_on c s) = s.
Proof.
  induction s as [|d s IH]; simpl; [done|].
  destruct (split_on c s) as [|w ws] eqn:E; [by apply split_on_nonempty in E|].
  destruct (decide (d = c)) as [->|]; simpl; [by rewrite <-IH|].
  rewrite <-IH. by destruct ws.
Qed.

Lemma has_char_app c a b : has_char c (a +:+ b) = has_char c a || has_char c b.
Proof. induction a as [|d a IH]; simpl; [done|]. rewrite IH. apply orb_assoc. Qed.

Lemma split_on_plain c s : has_char c s = false → split_on c s = [s].
Proof.
  induction s as [|d s IH]; simpl; [done|]. intros [Hd Hs]%orb_false_iff.
  apply bool_decide_eq_false in Hd. rewrite (IH Hs). rewrite decide_False; [done|congruence].
Qed.

Lemma split_on_app c a b : has_char c a = false → split_on c (a +:+ String c b) = a :: split_on c b.
Proof.
  induction a as [|d a IH]; simpl.
  - intros _. destruct (split_on c b) eqn:E; [by apply split_on_nonempty in E|]. by rewrite decide_True.
  - intros [Hd Ha]%orb_false_iff. apply bool_decide_eq_false in Hd. rewrite (IH Ha).
    rewrite decide_False; [done|congruence].
Qed.

Lemma split_join c ws :
  ws ≠ [] → Forall (λ w, has_char c w = false) ws → split_on c (join c ws) = ws.
Proof.
  intros Hne Hall. induction Hall as [|w ws Hw Hall IH]; [done|].
  destruct ws as [|w' ws]; [by apply split_on_plain|].
  change (join c (w :: w' :: ws)) with (w +:+ String c (join c (w' :: ws))).
  rewrite split_on_app by done. f_equal. by apply IH.
Qed.

Lemma partition_app c a b : has_char c a = false → partition c (a +:+ String c b) = (a, Some b).
Proof.
  induction a as [|d a IH]; simpl; [by rewrite decide_True|].
  intros [Hd Ha]%orb_false_iff. apply bool_decide_eq_false in Hd.
  rewrite decide_False by congruence. by rewrite (IH Ha).
Qed.

Lemma partition_spec c s :
  match partition c s with
  | (a, Some b) => s = a +:+ String c b ∧ has_char c a = false
  | (a, None) => s = a ∧ has_char c s = false
  end.
Proof.
  induction s as [|d s IH]; simpl; [done|]. destruct (decide (d = c)) as [->|Hne]; [done|].
  destruct (partition c s) as [a [b|]]; destruct IH as [-> Hc]; simpl.
  - rewrite Hc, bool_decide_false by congruence. done.
  - rewrite Hc, bool_decide_false by congruence. done.
Qed.

Lemma lstrip_plain P s : str_forall (λ c, negb (P c)) s = true → lstrip_by P s = s.
Proof.
  destruct s as [|c s]; simpl; [done|]. intros [Hc _]%andb_true_iff.
  apply negb_true_iff in Hc. by rewrite Hc.
Qed.

Lemma str_forall_app P (a b : string) : str_forall P (a +:+ b) = str_forall P a && str_forall P b.
Proof. induction a as [|c a IH]; [done|]. rewrite app_cons_str. simpl. by rewrite IH, andb_assoc. Qed.

Lemma rstrip_app P a b : rstrip_by P b = b → b ≠ "" → rstrip_by P (a +:+ b) = a +:+ b.
Proof.
  intros Hb Hne. induction a as [|c a IH]; [done|]. rewrite app_cons_str. simpl. rewrite IH.
  destruct a as [|d a]; [by destruct b|done].
Qed.

Lemma rstrip_plain P s : str_forall (λ c, negb (P c)) s = true → rstrip_by P s = s.
Proof.
  induction s as [|c s IH]; simpl; [done|]. intros [Hc Hs]%andb_true_iff.
  apply negb_true_iff in Hc. rewrite (IH Hs). destruct s; [by rewrite Hc|done].
Qed.

Lemma strip_plain P s : str_forall (λ c, negb (P c)) s = true → strip_by P s = s.
Proof. intros Hs. unfold strip_by. rewrite lstrip_plain by done. by apply rstrip_plain. Qed.

Lemma digit_val_char x : (x < 10)%N → digit_val (pretty_N_char x) = Some (Z.of_N x).
Proof.
  intros Hx. assert (x = 0 ∨ x = 1 ∨ x = 2 ∨ x = 3 ∨ x = 4 ∨ x = 5 ∨ x = 6 ∨ x = 7 ∨ x = 8 ∨ x = 9)%N
    as H by lia. by repeat destruct H as [->|H]; subst.
Qed.

Lemma is_digit_char x : (x < 10)%N → is_digit (pretty_N_char x) = true.
Proof. intros Hx%digit_val_char. unfold digit_val in Hx. by destruct (is_digit _). Qed.

Lemma is_digit_not_space c : is_digit c = true → is_space c = false.
Proof. unfold is_digit, is_space, between. rewrite andb_true_iff, !Z.leb_le. intros. lia. Qed.

Lemma pretty_N_go_parse x s : (0 < x)%N → parse_nat (pretty_N_go x s) = parse_digits (Z.of_N x) s.
Proof.
  revert s. induction (N.lt_wf_0 x) as [x _ IH]; intros s Hx.
  rewrite pretty_N_go_step by done. destruct (decide (x < 10)%N) as [Hlt|Hge].
  - rewrite N.div_small, N.mod_small by done. rewrite pretty_N_go_0. simpl. by rewrite digit_val_char.
  - rewrite IH; [|by apply N.div_lt|apply N.div_str_pos; lia]. simpl.
    rewrite digit_val_char by (by apply N.mod_lt). f_equal.
    rewrite (N.div_mod x 10) at 3 by done. lia.
Qed.

Lemma pretty_N_go_digits x s :
  str_forall is_digit (pretty_N_go x s) = str_forall is_digit s.
Proof.
  revert s. induction (N.lt_wf_0 x) as [x _ IH]; intros s.
  destruct (decide (0 < x)%N) as [Hx|]; [|by replace x with 0%N by lia].
  rewrite pretty_N_go_step, IH by (done || by apply N.div_lt). simpl.
  by rewrite is_digit_char by (by apply N.mod_lt).
Qed.

Lemma pretty_N_go_count x s k :
  (x < 10 ^ N.of_nat k)%N → count_digits (pretty_N_go x s) ≤ Z.of_nat k + count_digits s.
Proof.
  revert x s. induction k as [|k IH]; intros x s Hx.
  - simpl in Hx. replace x with 0%N by lia. rewrite pretty_N_go_0. lia.
  - destruct (decide (0 < x)%N) as [Hx0|]; [|replace x with 0%N by lia; rewrite pretty_N_go_0; lia].
    rewrite pretty_N_go_step by done. rewrite IH.
    + simpl. destruct (is_digit _); lia.
    + apply N.Div0.div_lt_upper_bound. rewrite Nat2N.inj_succ, N.pow_succ_r' in Hx. lia.
Qed.

Lemma pretty_N_parse (x : N) : parse_nat (pretty x) = Some (Z.of_N x).
Proof.
  unfold pretty, pretty_N. destruct (decide (x = 0%N)) as [->|]; [done|].
  rewrite pretty_N_go_parse by lia. done.
Qed.

Lemma pretty_N_digits (x : N) : str_forall is_digit (pretty x) = true.
Proof. unfold pretty, pretty_N. destruct (decide (x = 0%N)); [done|]. by rewrite pretty_N_go_digits. Qed.

Lemma pretty_N_count (x : N) k : (0 < k)%nat → (x < 10 ^ N.of_nat k)%N → count_digits (pretty x) ≤ Z.of_nat k.
Proof.
  intros Hk Hx. unfold pretty, pretty_N. destruct (decide (x = 0%N)); [simpl; lia|].
  etrans; [by apply pretty_N_go_count|]. simpl. lia.
Qed.

Lemma is_digit_not_cspace c : is_digit c = true → is_cspace c = false.
Proof. unfold is_digit, is_cspace, between. rewrite andb_true_iff, !Z.leb_le. intros. lia. Qed.

Lemma str_forall_impl (P Q : ascii → bool) s :
  (∀ c, P c = true → Q c = true) → str_forall P s = true → str_forall Q s = true.
Proof.
  intros HPQ. induction s as [|c s IH]; simpl; [done|]. rewrite !andb_true_iff. naive_solver.
Qed.

Lemma digits_no_strip P s :
  (∀ c, is_digit c = true → P c = false) → str_forall is_digit s = true → strip_by P s = s.
Proof.
  intros HP Hs. apply strip_plain. eapply str_forall_impl; [|exact Hs].
  intros c Hc. by rewrite HP.
Qed.

Lemma parse_nat_plain s n :
  str_forall is_digit s = true → count_digits s ≤ 4300 → parse_nat s = Some n →
  parse_int s = Ok n ∧ parse_int (String "-" s) = Ok (- n).
Proof.
  intros Hd Hc Hp. unfold parse_int. split.
  - rewrite (proj2 (Z.ltb_ge _ _)) by done. destruct s as [|c s]; [done|].
    assert (c ≠ "-"%char ∧ c ≠ "+"%char) as [H1 H2].
    { simpl in Hd. apply andb_true_iff in Hd as [Hd _]. split; by intros ->. }
    rewrite Hp. destruct c as [[] [] [] [] [] [] [] []]; done.
  - simpl count_digits. rewrite (proj2 (Z.ltb_ge _ _)) by done. by rewrite Hp.
Qed.

(** The integers of at most 4300 digits.  The bound is a name of its own, so that no
    tactic computes it. *)
Definition int_bound : Z := 10 ^ 4300.

Lemma int_bound_small n : n < 10 ^ 20 → n < int_bound.
Proof. intros Hn. eapply Z.lt_le_trans; [exact Hn|]. apply (Z.pow_le_mono_r 10 20 4300); done. Qed.

Lemma str_Z_parse n : Z.abs n < int_bound → parse_int (str_Z n) = Ok n.
Proof.
  intros Hn. assert (Hp : ∀ p, Z.pos p < int_bound →
    parse_int (pretty (Npos p)) = Ok (Z.pos p) ∧ parse_int (String "-" (pretty (Npos p))) = Ok (- Z.pos p)).
  { intros p Hp. apply parse_nat_plain.
    - apply pretty_N_digits.
    - change 4300 with (Z.of_nat 4300). apply pretty_N_count; [apply Nat.ltb_lt; done|].
      apply N2Z.inj_lt. rewrite N2Z.inj_pow. change (Z.of_N (N.of_nat 4300)) with 4300. exact Hp.
    - apply pretty_N_parse. }
  unfold str_Z, pretty, pretty_Z. destruct n as [|p|p]; [done|apply Hp, Hn|].
  apply (Hp p Hn).
Qed.

Lemma str_Z_digits n : 0 ≤ n → str_forall is_digit (str_Z n) = true.
Proof. intros Hn. destruct n as [|p|p]; [done|apply (pretty_N_digits (Npos p))|lia]. Qed.

Lemma str_Z_nonempty n : str_Z n ≠ "".
Proof.
  destruct n as [|p|p]; [done| |done]. unfold str_Z, pretty, pretty_Z, pretty, pretty_positive.
  intros He. pose proof (pretty_N_parse (Npos p)) as Hp. unfold pretty in *. by rewrite He in Hp.
Qed.

(** [int(str(n)) == n], also through bytes. *)
Lemma py_int_str_Z n : Z.abs n < int_bound → py_int (str_Z n) = Ok n.
Proof.
  intros Hn. unfold py_int, strip. rewrite strip_plain; [by apply str_Z_parse|].
  destruct n as [|p|p]; [done| |].
  - eapply str_forall_impl; [|apply (str_Z_digits (Z.pos p)); lia].
    intros c Hc. by rewrite is_digit_not_space.
  - change (str_Z (Z.neg p)) with (String "-" (str_Z (Z.pos p))). simpl str_forall.
    eapply str_forall_impl; [|apply (str_Z_digits (Z.pos p)); lia].
    intros c Hc. by rewrite is_digit_not_space.
Qed.

Lemma py_int_bytes_str_Z n : 0 ≤ n < int_bound → py_int_bytes (str_Z n) = Ok n.
Proof.
  intros Hn. unfold py_int_bytes. rewrite digits_no_strip.
  - apply str_Z_parse. rewrite Z.abs_eq by lia. lia.
  - apply is_digit_not_cspace.
  - apply str_Z_digits. lia.
Qed.

Lemma str_take_app (a b : string) : str_take (String.length a) (a +:+ b) = a.
Proof. induction a as [|c a IH]; [by destruct b|]. exact (f_equal (String c) IH). Qed.

Lemma str_take_drop n s : str_take n s +:+ str_drop n s = s.
Proof.
  revert s. induction n as [|n IH]; intros [|c s]; try done. exact (f_equal (String c) (IH s)).
Qed.

Lemma str_take_app_le n (a b : string) :
  (n ≤ String.length a)%nat → str_take n (a +:+ b) = str_take n a.
Proof.
  revert a. induction n as [|n IH]; intros [|c a] Hn; simpl in *; try done; [lia|].
  f_equal. apply IH. lia.
Qed.

Lemma str_drop_app_le n (a b : string) :
  (n ≤ String.length a)%nat → str_drop n (a +:+ b) = str_drop n a +:+ b.
Proof.
  revert a. induction n as [|n IH]; intros [|c a] Hn; simpl in *; try done; [lia|].
  apply IH. lia.
Qed.

Lemma str_drop_length n s : String.length (str_drop n s) = (String.length s - n)%nat.
Proof. revert s. induction n as [|n IH]; intros [|c s]; simpl; auto. Qed.

Lemma app_nil_str (s : string) : s +:+ "" = s.
Proof. induction s as [|c s IH]; [done|]. exact (f_equal (String c) IH). Qed.
