(* ===== verification/PyIp.v ===== *)
(** * Python's [ipaddress]

    The part of the standard module that the program uses: parsing of IPv4 and
    IPv6 addresses and networks, the strict and the lenient reading of a
    network, and membership of an address in a network.  Every failure of the
    module is a [ValueError] (its subclasses are told apart where the module
    itself does). *)

From S2P Require Import Prelude PyStr.

Inductive ip_version : Type := V4 | V6.

#[global] Instance ip_version_eq_dec : EqDecision ip_version.
Proof. solve_decision. Defined.

Definition max_prefixlen (v : ip_version) : Z := match v with V4 => 32 | V6 => 128 end.

Record ip_addr : Type := mkAddr {
  ip_ver : ip_version;
  ip_int : Z
}.

#[global] Instance ip_addr_eq_dec : EqDecision ip_addr.
Proof. solve_decision. Defined.

Record ip_net : Type := mkNet {
  net_ver : ip_version;
  net_addr : Z;
  net_prefixlen : Z
}.

(** ** Addresses *)

(** [IPv4Address._parse_octet] *)
Definition parse_octet (s : string) : option Z :=
  if negb (str_true s) || negb (str_forall is_digit s) || (3 <? len s) then None
  else if negb (bool_decide (s = "0")) && starts_with s "0" then None
  else v ← parse_nat s; if 255 <? v then None else Some v.

(** [IPv4Address._ip_int_from_string] *)
Definition parse_v4 (s : string) : option Z :=
  match split_on "." s with
  | [a; b; c; d] =>
      a' ← parse_octet a; b' ← parse_octet b; c' ← parse_octet c; d' ← parse_octet d;
      Some (((a' * 256 + b') * 256 + c') * 256 + d')
  | _ => None
  end.

(** [int(s, 16)] of a string of hexadecimal digits. *)
Fixpoint hex_digits (acc : Z) (s : string) : option Z :=
  match s with
  | EmptyString => Some acc
  | String c s' => v ← hex_val c; hex_digits (acc * 16 + v) s'
  end.

(** [IPv6Address._parse_hextet] *)
Definition parse_hextet (s : string) : option Z :=
  if negb (str_true s) || (4 <? len s) then None else hex_digits 0 s.

Definition hextets (ws : list string) : option (list Z) := mapM parse_hextet ws.

(** The value of a sequence of 16-bit groups. *)
Definition hextets_value (hs : list Z) : Z := foldl (λ acc h, Z.lor (Z.shiftl acc 16) h) 0 hs.

(** The indexes, not the first nor the last, of the empty parts. *)
Definition empty_inner (parts : list string) : list nat :=
  filter (λ i, parts !! i = Some "") (seq 1 (length parts - 2)).

(** A trailing IPv4 address counts as two groups. *)
Definition expand_v4_tail (parts : list string) : option (list (string + Z)) :=
  match last parts with
  | Some l =>
      if has_char "." l then
        v ← parse_v4 l;
        Some ((inl <$> removelast parts) ++ [inr (Z.land (Z.shiftr v 16) 65535); inr (Z.land v 65535)])
      else Some (inl <$> parts)
  | None => None
  end.

Definition part_text (p : string + Z) : string :=
  match p with inl s => s | inr _ => "x" end.

Definition part_value (p : string + Z) : option Z :=
  match p with inl s => parse_hextet s | inr v => Some v end.

(** [IPv6Address._ip_int_from_string] *)
Definition parse_v6 (s : string) : option Z :=
  let raw := split_on ":" s in
  if (length raw <? 3)%nat then None
  else
    parts ← expand_v4_tail raw;
    let n := length parts in
    let texts := part_text <$> parts in
    let head_empty := bool_decide (hd_opt texts = Some "") in
    let tail_empty := bool_decide (last texts = Some "") in
    if (9 <? n)%nat then None
    else match empty_inner texts with
         | [] =>
             if negb (n =? 8)%nat || head_empty || tail_empty then None
             else hextets_value <$> mapM part_value parts
         | [k] =>
             let hi := if head_empty then (k - 1)%nat else k in
             let lo := if tail_empty then (n - k - 2)%nat else (n - k - 1)%nat in
             if (head_empty && negb (hi =? 0)%nat) || (tail_empty && negb (lo =? 0)%nat) then None
             else if (8 <? hi + lo + 1)%nat then None
             else
               his ← mapM part_value (take hi parts);
               los ← mapM part_value (drop (n - lo) parts);
               Some (hextets_value (his ++ replicate (8 - (hi + lo)) 0 ++ los))
         | _ => None
         end.

(** [IPv6Address._split_scope_id] *)
Definition split_scope (s : string) : option string :=
  match partition "%" s with
  | (a, None) => Some a
  | (a, Some scope) => if negb (str_true scope) || has_char "%" scope then None else Some a
  end.

(** [IPv4Address(s)] and [IPv6Address(s)] *)
Definition v4_address (s : string) : option Z := if has_char "/" s then None else parse_v4 s.
Definition v6_address (s : string) : option Z :=
  if has_char "/" s then None else a ← split_scope s; parse_v6 a.

(** [ipaddress.ip_address(s)] *)
Definition ip_address (s : string) : result ip_addr :=
  match v4_address s with
  | Some n => Ok (mkAddr V4 n)
  | None => match v6_address s with
            | Some n => Ok (mkAddr V6 n)
            | None => Raise ValueError
            end
  end.

(** ** Networks *)

(** The integer of a netmask: [2^max - 2^(max - prefixlen)]. *)
Definition netmask (v : ip_version) (prefixlen : Z) : Z :=
  2 ^ max_prefixlen v - 2 ^ (max_prefixlen v - prefixlen).

(** [_prefix_from_prefix_string] *)
Definition prefix_from_string (v : ip_version) (s : string) : option Z :=
  if negb (str_true s) || negb (str_forall is_digit s) then None
  else n ← parse_nat s; if n <=? max_prefixlen v then Some n else None.

(** [_prefix_from_ip_int]: the prefix length whose netmask the integer is. *)
Definition prefix_from_int (n : Z) : option Z :=
  list_find (λ p, netmask V4 p = n) (Z.of_nat <$> seq 0 33) ≫= λ ip, Some ip.2.

(** [_prefix_from_ip_string]: a netmask, or else a host mask. *)
Definition prefix_from_mask (s : string) : option Z :=
  n ← parse_v4 s;
  match prefix_from_int n with
  | Some p => Some p
  | None => prefix_from_int (Z.lxor n (2 ^ 32 - 1))
  end.

(** [_make_netmask] *)
Definition make_prefixlen (v : ip_version) (mask : option string) : option Z :=
  match mask with
  | None => Some (max_prefixlen v)
  | Some m =>
      match prefix_from_string v m, v with
      | Some p, _ => Some p
      | None, V4 => prefix_from_mask m
      | None, V6 => None
      end
  end.

(** An address and a prefix length, when the text has that form. *)
Definition parse_net (v : ip_version) (s : string) : option (Z * Z) :=
  match split_on "/" s with
  | [a] => n ← (match v with V4 => v4_address a | V6 => v6_address a end);
           p ← make_prefixlen v None; Some (n, p)
  | [a; m] => n ← (match v with V4 => v4_address a | V6 => v6_address a end);
              p ← make_prefixlen v (Some m); Some (n, p)
  | _ => None
  end.

(** The network constructor once the text is read: with host bits set, the
    strict reading fails and the other clears them. *)
Definition make_net (strict : bool) (v : ip_version) (np : Z * Z) : result ip_net :=
  let '(n, p) := np in
  let base := Z.land n (netmask v p) in
  if base =? n then Ok (mkNet v n p)
  else if strict then Raise ValueError else Ok (mkNet v base p).

(** [ipaddress.ip_network(s, strict)] *)
Definition ip_network (strict : bool) (s : string) : result ip_net :=
  match parse_net V4 s with
  | Some np => make_net strict V4 np
  | None => match parse_net V6 s with
            | Some np => make_net strict V6 np
            | None => Raise ValueError
            end
  end.

(** [a in net] *)
Definition in_net (a : ip_addr) (net : ip_net) : bool :=
  bool_decide (ip_ver a = net_ver net) &&
  (Z.land (ip_int a) (netmask (net_ver net) (net_prefixlen net)) =? net_addr net).

(** ** Well-formed addresses and networks *)

Definition addr_wf (a : ip_addr) : Prop := 0 ≤ ip_int a < 2 ^ max_prefixlen (ip_ver a).

(** The addresses of a network: [2^(max - prefixlen)] of them, from the base. *)
Definition net_size (net : ip_net) : Z := 2 ^ (max_prefixlen (net_ver net) - net_prefixlen net).

Definition net_wf (net : ip_net) : Prop :=
  0 ≤ net_prefixlen net ≤ max_prefixlen (net_ver net) ∧
  0 ≤ net_addr net < 2 ^ max_prefixlen (net_ver net) ∧
  (net_size net | net_addr net).

Lemma netmask_shift v p :
  0 ≤ p ≤ max_prefixlen v → netmask v p = Z.shiftl (Z.ones p) (max_prefixlen v - p).
Proof.
  intros Hp. unfold netmask. rewrite Z.shiftl_mul_pow2, Z.ones_equiv by lia.
  replace (2 ^ max_prefixlen v) with (2 ^ p * 2 ^ (max_prefixlen v - p)); [lia|].
  rewrite <-Z.pow_add_r by lia. f_equal. lia.
Qed.

(** Masking an address keeps its top bits. *)
Lemma land_netmask v p n :
  0 ≤ p ≤ max_prefixlen v → 0 ≤ n < 2 ^ max_prefixlen v →
  Z.land n (netmask v p) = n - n `mod` 2 ^ (max_prefixlen v - p).
Proof.
  intros Hp Hn. set (k := max_prefixlen v - p). rewrite netmask_shift by done. fold k.
  assert (Hk : 0 ≤ k) by lia. assert (0 < max_prefixlen v) by (by destruct v).
  transitivity (Z.shiftl (Z.shiftr n k) k).
  - apply Z.bits_inj'. intros i Hi. rewrite Z.land_spec, !Z.shiftl_spec by done.
    destruct (Z.ltb_spec i k) as [Hlt|Hge].
    + rewrite !(Z.testbit_neg_r _ (i - k)) by lia. apply andb_false_r.
    + rewrite Z.shiftr_spec by lia. replace (i - k + k) with i by lia.
      destruct (Z.ltb_spec (i - k) p) as [Hlt|Hge'].
      * rewrite Z.ones_spec_low by lia. apply andb_true_r.
      * rewrite (Z.bits_above_log2 n i), andb_false_l; [done|lia|].
        destruct (Z.eq_dec n 0) as [->|]; [simpl; lia|]. apply Z.log2_lt_pow2; [lia|].
        eapply Z.lt_le_trans; [apply Hn|]. apply Z.pow_le_mono_r; lia.
  - rewrite Z.shiftl_mul_pow2, Z.shiftr_div_pow2 by done.
    assert (0 < 2 ^ k) by (apply Z.pow_pos_nonneg; lia).
    pose proof (Z.div_mod n (2 ^ k) ltac:(lia)). lia.
Qed.

(** Membership is a range test. *)
Lemma in_net_range a net :
  addr_wf a → net_wf net →
  in_net a net = true ↔
  ip_ver a = net_ver net ∧ net_addr net ≤ ip_int a < net_addr net + net_size net.
Proof.
  intros Ha (Hp & Hn & [q Hq]). unfold in_net. rewrite andb_true_iff, bool_decide_eq_true, Z.eqb_eq.
  destruct (decide (ip_ver a = net_ver net)) as [Hv|]; [|tauto].
  enough (Z.land (ip_int a) (netmask (net_ver net) (net_prefixlen net)) = net_addr net ↔
    net_addr net ≤ ip_int a < net_addr net + net_size net) by tauto.
  unfold addr_wf in Ha. rewrite Hv in Ha.
  rewrite land_netmask by done. unfold net_size in *.
  set (m := 2 ^ (max_prefixlen (net_ver net) - net_prefixlen net)) in *.
  assert (0 < m) by (apply Z.pow_pos_nonneg; lia).
  pose proof (Z.mod_pos_bound (ip_int a) m ltac:(lia)).
  split; [lia|]. intros Hr. rewrite Hq in *.
  assert (ip_int a `div` m = q); [|pose proof (Z.div_mod (ip_int a) m ltac:(lia)); lia].
  symmetry. apply (Z.div_unique_pos _ _ _ (ip_int a - q * m)); lia.
Qed.

(** ** The parser returns well-formed values *)

Lemma digit_val_bounds c v : digit_val c = Some v → 0 ≤ v ≤ 9.
Proof. unfold digit_val, is_digit, between. destruct (_ && _) eqn:E; [|done]. intros [= <-]. bool_to_prop. lia. Qed.

Lemma hex_val_bounds c v : hex_val c = Some v → 0 ≤ v ≤ 15.
Proof.
  unfold hex_val, is_digit, between.
  intros Hv. repeat case_match; simplify_eq; bool_to_prop; lia.
Qed.

Lemma parse_digits_nonneg acc s v : 0 ≤ acc → parse_digits acc s = Some v → 0 ≤ v.
Proof.
  remember (String.length s) as n eqn:Hn. revert acc s Hn.
  induction (lt_wf n) as [n _ IH]; intros acc s -> Ha. destruct s as [|c s]; simpl; [intros Hv; injection Hv as <-; exact Ha|].
  destruct (digit_val c) as [d|] eqn:Hd.
  - apply digit_val_bounds in Hd. intros Hv; eapply IH; [|reflexivity| |exact Hv]; simpl; lia.
  - destruct (decide _) as [_|]; [|done]. destruct s as [|e s]; [done|].
    destruct (digit_val e) as [d|] eqn:He; [|done]. apply digit_val_bounds in He.
    intros Hv; eapply IH; [|reflexivity| |exact Hv]; simpl; lia.
Qed.

Lemma parse_nat_nonneg s v : parse_nat s = Some v → 0 ≤ v.
Proof.
  destruct s as [|c s]; [done|]. simpl. destruct (digit_val c) as [d|] eqn:Hd; [|done]. simpl.
  apply digit_val_bounds in Hd. apply parse_digits_nonneg. lia.
Qed.

Lemma parse_octet_bounds s v : parse_octet s = Some v → 0 ≤ v ≤ 255.
Proof.
  unfold parse_octet. do 2 (destruct (_ : bool); [done|]).
  destruct (parse_nat s) as [n|] eqn:E; [|done]. simpl. apply parse_nat_nonneg in E.
  destruct (Z.ltb_spec 255 n); [done|]. intros [= <-]. lia.
Qed.

Lemma parse_v4_bounds s n : parse_v4 s = Some n → 0 ≤ n < 2 ^ 32.
Proof.
  unfold parse_v4. destruct (split_on _ _) as [|a [|b [|c [|d []]]]]; try done.
  destruct (parse_octet a) eqn:Ea; [|done]. destruct (parse_octet b) eqn:Eb; [|done].
  destruct (parse_octet c) eqn:Ec; [|done]. destruct (parse_octet d) eqn:Ed; [|done].
  intros [= <-]. apply parse_octet_bounds in Ea, Eb, Ec, Ed. lia.
Qed.

Lemma hex_digits_bounds acc s v k :
  0 ≤ acc < 16 ^ Z.of_nat k → hex_digits acc s = Some v → 0 ≤ v < 16 ^ Z.of_nat (k + String.length s).
Proof.
  revert acc k. induction s as [|c s IH]; intros acc k Ha; simpl.
  - intros [= <-]. by replace (k + 0)%nat with k by lia.
  - destruct (hex_val c) as [d|] eqn:Hd; [|done]. simpl. apply hex_val_bounds in Hd. intros Hv.
    replace (k + S (String.length s))%nat with (S k + String.length s)%nat by lia. eapply IH; [|exact Hv].
    rewrite Nat2Z.inj_succ, Z.pow_succ_r by lia. lia.
Qed.

Lemma parse_hextet_bounds s v : parse_hextet s = Some v → 0 ≤ v < 2 ^ 16.
Proof.
  unfold parse_hextet. destruct (_ || _) eqn:E; [done|]. bool_to_prop. intros Hv.
  eapply (hex_digits_bounds 0 s v 0) in Hv; [|simpl; lia]. unfold len in *.
  destruct Hv as [Hv0 Hv]. split; [done|]. eapply Z.lt_le_trans; [exact Hv|].
  change (2 ^ 16) with (16 ^ 4). apply Z.pow_le_mono_r; lia.
Qed.

Lemma lor_shift_bounds acc h b :
  0 ≤ b → 0 ≤ acc < 2 ^ b → 0 ≤ h < 2 ^ 16 → 0 ≤ Z.lor (Z.shiftl acc 16) h < 2 ^ (b + 16).
Proof.
  intros Hb Ha Hh. rewrite Z.shiftl_mul_pow2 by lia.
  replace (Z.lor (acc * 2 ^ 16) h) with (acc * 2 ^ 16 + h).
  - rewrite Z.pow_add_r by lia. lia.
  - rewrite <-Z.lxor_lor, <-Z.add_nocarry_lxor; try done;
      apply Z.bits_inj'; intros i Hi; rewrite Z.land_spec, Z.bits_0;
      (destruct (Z.ltb_spec i 16); [rewrite Z.mul_pow2_bits_low by lia; done|]);
      rewrite (Z.bits_above_log2 h i), andb_false_r; try done; try lia;
      (destruct (Z.eq_dec h 0) as [->|]; [simpl; lia|]);
      (apply Z.log2_lt_pow2; [lia|]); eapply Z.lt_le_trans; try apply Hh; apply Z.pow_le_mono_r; lia.
Qed.

Lemma hextets_value_bounds hs :
  Forall (λ h, 0 ≤ h < 2 ^ 16) hs → 0 ≤ hextets_value hs < 2 ^ (16 * Z.of_nat (length hs)).
Proof.
  unfold hextets_value. induction hs as [|h hs IH] using rev_ind; intros Hall; [done|].
  apply Forall_app in Hall as [Hall Hh]. inv Hh. rewrite foldl_snoc, length_app. simpl.
  replace (16 * Z.of_nat (length hs + 1)) with (16 * Z.of_nat (length hs) + 16) by lia.
  apply lor_shift_bounds; [lia|by apply IH|done].
Qed.

Definition small_part (p : string + Z) : Prop := ∀ v, part_value p = Some v → 0 ≤ v < 2 ^ 16.

Lemma small_part_inl s : small_part (inl s).
Proof. intros v. apply parse_hextet_bounds. Qed.

Lemma land_65535 n : 0 ≤ Z.land n 65535 < 2 ^ 16.
Proof. change 65535 with (Z.ones 16). rewrite Z.land_ones by lia. apply Z.mod_pos_bound. lia. Qed.

Lemma expand_v4_tail_small raw parts : expand_v4_tail raw = Some parts → Forall small_part parts.
Proof.
  assert (Hin : ∀ l : list string, Forall small_part (inl <$> l)).
  { intros l. apply Forall_fmap, Forall_true. intros s. apply small_part_inl. }
  unfold expand_v4_tail. destruct (last raw) as [l|]; [|done]. destruct (has_char _ l).
  - destruct (parse_v4 l) as [v|]; [|done]. intros [= <-]. apply Forall_app. split; [apply Hin|].
    apply Forall_cons; split; [|apply Forall_singleton]; intros w [= <-]; apply land_65535.
  - intros [= <-]. apply Hin.
Qed.

Lemma small_values parts hs :
  Forall small_part parts → mapM part_value parts = Some hs →
  Forall (λ h, 0 ≤ h < 2 ^ 16) hs ∧ length hs = length parts.
Proof.
  intros Hs Hm%mapM_Some. split; [|symmetry; by eapply Forall2_length].
  induction Hm as [|p h parts hs Hp Hm IH]; [done|]. inv Hs. constructor; [by eauto|by apply IH].
Qed.

Lemma hextets_value_128 hs :
  Forall (λ h, 0 ≤ h < 2 ^ 16) hs → (length hs ≤ 8)%nat → 0 ≤ hextets_value hs < 2 ^ 128.
Proof.
  intros Hall Hl. pose proof (hextets_value_bounds hs Hall) as [H1 H2]. split; [done|].
  eapply Z.lt_le_trans; [exact H2|]. apply Z.pow_le_mono_r; lia.
Qed.

Lemma parse_v6_bounds s n : parse_v6 s = Some n → 0 ≤ n < 2 ^ 128.
Proof.
  unfold parse_v6. destruct (_ <? _)%nat; [done|].
  destruct (expand_v4_tail _) as [parts|] eqn:Ep; [|done]. simpl.
  apply expand_v4_tail_small in Ep. destruct (9 <? _)%nat; [done|].
  destruct (empty_inner _) as [|k [|]]; [| |done].
  - destruct (negb (length parts =? 8)%nat) eqn:E8; [done|]. simpl. destruct (_ || _); [done|].
    destruct (mapM part_value parts) as [hs|] eqn:Em; [|done]. intros [= <-].
    apply small_values in Em as [Hh Hl]; [|done]. apply negb_false_iff, Nat.eqb_eq in E8.
    apply hextets_value_128; [done|lia].
  - set (hi := if bool_decide _ then (k - 1)%nat else k).
    set (lo := if bool_decide (last _ = _) then (_ - _ - 2)%nat else _).
    destruct (_ || _); [done|]. destruct (Nat.ltb_spec 8 (hi + lo + 1)) as [|Hle]; [done|].
    destruct (mapM part_value (take hi parts)) as [his|] eqn:E1; [|done]. simpl.
    destruct (mapM part_value (drop _ parts)) as [los|] eqn:E2; [|done]. intros [= <-].
    apply small_values in E1 as [H1 Hl1]; [|by apply Forall_take].
    apply small_values in E2 as [H2 Hl2]; [|by apply Forall_drop].
    rewrite length_take in Hl1. rewrite length_drop in Hl2.
    apply hextets_value_128.
    + rewrite !Forall_app. split_and!; try done. apply Forall_replicate. lia.
    + rewrite !length_app, length_replicate. lia.
Qed.

Lemma address_bounds v s n :
  match v with V4 => v4_address s | V6 => v6_address s end = Some n → 0 ≤ n < 2 ^ max_prefixlen v.
Proof.
  destruct v; unfold v4_address, v6_address; (destruct (has_char _ s); [done|]).
  - apply parse_v4_bounds.
  - destruct (split_scope s); [|done]. apply parse_v6_bounds.
Qed.

Lemma ip_address_wf s a : ip_address s = Ok a → addr_wf a.
Proof.
  unfold ip_address. destruct (v4_address s) eqn:E4; [intros [= <-]; by apply (address_bounds V4) in E4|].
  destruct (v6_address s) eqn:E6; [intros [= <-]; by apply (address_bounds V6) in E6|done].
Qed.

Lemma prefix_from_int_bounds n p : prefix_from_int n = Some p → 0 ≤ p ≤ 32.
Proof.
  unfold prefix_from_int. destruct (list_find _ _) as [[i x]|] eqn:E; [|done]. intros [= <-].
  apply list_find_Some in E as (Hx & _ & _). apply list_elem_of_lookup_2 in Hx.
  apply list_elem_of_fmap in Hx as (y & -> & Hy). apply elem_of_seq in Hy. simpl. lia.
Qed.

Lemma prefix_from_mask_bounds m p : prefix_from_mask m = Some p → 0 ≤ p ≤ 32.
Proof.
  unfold prefix_from_mask. destruct (parse_v4 m); [|done]. simpl.
  destruct (prefix_from_int _) eqn:E; [intros [= <-]|]; eauto using prefix_from_int_bounds.
Qed.

Lemma prefix_from_string_bounds v s p : prefix_from_string v s = Some p → 0 ≤ p ≤ max_prefixlen v.
Proof.
  unfold prefix_from_string. destruct (_ || _); [done|].
  destruct (parse_nat s) as [n|] eqn:En; [|done]. simpl. apply parse_nat_nonneg in En.
  destruct (Z.leb_spec n (max_prefixlen v)); [|done]. intros [= <-]. lia.
Qed.

Lemma make_prefixlen_bounds v m p : make_prefixlen v m = Some p → 0 ≤ p ≤ max_prefixlen v.
Proof.
  unfold make_prefixlen. destruct m as [m|]; [|intros [= <-]; by destruct v].
  destruct (prefix_from_string v m) eqn:E; [intros [= <-]; by eapply prefix_from_string_bounds|].
  destruct v; [|done]. apply prefix_from_mask_bounds.
Qed.

Lemma parse_net_bounds v s n p :
  parse_net v s = Some (n, p) → 0 ≤ n < 2 ^ max_prefixlen v ∧ 0 ≤ p ≤ max_prefixlen v.
Proof.
  unfold parse_net. destruct (split_on _ s) as [|a [|m []]]; try done.
  - destruct (match v with V4 => _ | V6 => _ end) as [n'|] eqn:En; [|done]. simpl. intros [= <- <-].
    split; [by eapply address_bounds|by destruct v].
  - destruct (match v with V4 => _ | V6 => _ end) as [n'|] eqn:En; [|done]. cbn [mbind option_bind].
    destruct (make_prefixlen v (Some m)) as [p'|] eqn:Ep; [|done]. intros [= <- <-].
    split; [by eapply address_bounds|by eapply make_prefixlen_bounds].
Qed.

Lemma make_net_wf strict v n p net :
  0 ≤ n < 2 ^ max_prefixlen v → 0 ≤ p ≤ max_prefixlen v →
  make_net strict v (n, p) = Ok net → net_wf net.
Proof.
  intros Hn Hp. unfold make_net. rewrite land_netmask by done.
  set (m := 2 ^ (max_prefixlen v - p)). assert (0 < m) by (apply Z.pow_pos_nonneg; lia).
  pose proof (Z.mod_pos_bound n m ltac:(lia)). pose proof (Z.mod_le n m ltac:(lia) ltac:(lia)).
  assert (Hdiv : (m | n - n `mod` m)).
  { exists (n `div` m). pose proof (Z.div_mod n m ltac:(lia)). lia. }
  destruct (Z.eqb_spec (n - n `mod` m) n) as [He|].
  - intros [= <-]. split; [done|]. split; [done|]. unfold net_size. simpl. fold m. by rewrite He in Hdiv.
  - destruct strict; [done|]. intros [= <-]. split; [done|]. split; [simpl; lia|done].
Qed.

Lemma ip_network_wf strict s net : ip_network strict s = Ok net → net_wf net.
Proof.
  unfold ip_network. destruct (parse_net V4 s) as [[n p]|] eqn:E4.
  { apply parse_net_bounds in E4 as [??]. by apply make_net_wf. }
  destruct (parse_net V6 s) as [[n p]|] eqn:E6; [|done].
  apply parse_net_bounds in E6 as [??]. by apply make_net_wf.
Qed.
