(* ===== verification/Utf8.v ===== *)
(** * [bytes.decode("utf-8", errors="replace")]

    Text is kept as its UTF-8 bytes, so decoding copies the well-formed
    sequences and puts U+FFFD (the bytes EF BF BD) for each maximal prefix of a
    sequence that is not well formed. *)

From S2P Require Import Prelude PyStr.

(** The range of the second byte of a sequence, by its first byte, and the number
    of bytes that follow it; [None] when no sequence starts with the byte. *)
Definition lead_byte (c : ascii) : option (Z * Z * nat) :=
  let n := code c in
  if n <? 128 then Some (0, 0, 0%nat)
  else if n <? 194 then None
  else if n <=? 223 then Some (128, 191, 1%nat)
  else if n =? 224 then Some (160, 191, 2%nat)
  else if n =? 237 then Some (128, 159, 2%nat)
  else if n <=? 239 then Some (128, 191, 2%nat)
  else if n =? 240 then Some (144, 191, 3%nat)
  else if n <=? 243 then Some (128, 191, 3%nat)
  else if n =? 244 then Some (128, 143, 3%nat)
  else None.

(** How many of the [k] continuation bytes are there: the first in [lo, hi], the
    others in [128, 191]. *)
Fixpoint continuation (lo hi : Z) (k : nat) (s : string) : nat :=
  match k, s with
  | S k', String c s' => if between lo hi c then S (continuation 128 191 k' s') else O
  | _, _ => O
  end.

Definition replacement : string :=
  String (ascii_of_nat 239) (String (ascii_of_nat 191) (String (ascii_of_nat 189) EmptyString)).

(** One character: the bytes to output, and how many input bytes it takes. *)
Definition decode_char (c : ascii) (s : string) : string * nat :=
  match lead_byte c with
  | None => (replacement, 1%nat)
  | Some (lo, hi, k) =>
      let m := continuation lo hi k s in
      if (m =? k)%nat then (String c (str_take k s), S k) else (replacement, S m)
  end.

Fixpoint decode (fuel : nat) (s : string) : string :=
  match fuel, s with
  | S f, String c s' =>
      let '(out, n) := decode_char c s' in out +:+ decode f (str_drop n s)
  | _, _ => EmptyString
  end.

(** Every character takes a byte at least, so the length is fuel enough. *)
Definition utf8_replace (s : string) : string := decode (String.length s) s.

Definition is_ascii (c : ascii) : bool := code c <? 128.

Lemma decode_char_pos c s : (1 ≤ (decode_char c s).2)%nat.
Proof.
  unfold decode_char. destruct (lead_byte c) as [[[lo hi] k]|]; simpl; [|lia].
  destruct (_ =? _)%nat; simpl; lia.
Qed.

(** More fuel changes nothing. *)
Lemma decode_fuel f s : (String.length s ≤ f)%nat → decode f s = utf8_replace s.
Proof.
  unfold utf8_replace. remember (String.length s) as n eqn:Hn. revert f s Hn.
  induction (lt_wf n) as [n _ IH]; intros f s -> Hf. destruct s as [|c s]; [by destruct f|].
  destruct f as [|f]; simpl in Hf; [lia|]. simpl.
  pose proof (decode_char_pos c s) as Hp. destruct (decode_char c s) as [out m]. simpl in Hp.
  destruct m as [|m]; [lia|]. simpl. f_equal. pose proof (str_drop_length m s) as Hd.
  rewrite (IH (String.length (str_drop m s))); [|simpl; lia|done|lia].
  symmetry. apply (IH (String.length (str_drop m s))); [simpl; lia|done|lia].
Qed.

(** ASCII text is decoded to itself. *)
Lemma utf8_replace_ascii s : str_forall is_ascii s = true → utf8_replace s = s.
Proof.
  unfold utf8_replace. induction s as [|c s IH]; simpl; [done|]. intros [Hc Hs]%andb_true_iff.
  unfold decode_char, lead_byte. unfold is_ascii in Hc. rewrite Hc. simpl. rewrite (IH Hs).
  by destruct s.
Qed.
