(* ===== verification/EventTypes.v ===== *)
(** * The shared event schema ([ztna_common/event_types.py])

    A [datetime] is modelled by its instant, in microseconds since the epoch
    (the resolution of Python's [datetime]); [ts.timestamp()] of a naive value
    is its instant too.  Strings are byte strings holding UTF-8 text: equality,
    concatenation, prefixes, suffixes and the code-point order of Python's
    [str] are those of the bytes. *)

From S2P Require Import Prelude.

(** One second, in microseconds. *)
Definition second : Z := 1000000.

Record FlowEvent : Type := mkFlowEvent {
  fe_ts : Z;
  fe_src_ip : string;
  fe_src_port : Z;
  fe_dst_ip : string;
  fe_dst_port : Z;
  fe_proto : Z;
  fe_bytes : Z;
  fe_packets : Z;
  fe_action : string;
  fe_fqdn : option string;
  fe_app_id : option string;
  fe_source : string;
  fe_raw_id : option string
}.

(** The identity events reach the correlator as decoded JSON objects, whose
    keys may be missing: every field that the code reads with [ev[k]] or
    [ev.get(k)] is an [option]. *)
Record IdentityEvent : Type := mkIdentityEvent {
  ie_ts : option Z;
  ie_src_ip : option string;
  ie_user_upn : option string;
  ie_source : option string;
  ie_event_type : option string;
  ie_confidence : option Z;
  ie_ttl_seconds : option Z;
  ie_mac : option string;
  ie_raw_id : option string
}.
