(* ===== verification/PyText.v ===== *)
(** * Text formats of the standard library

    What the firewall adapters use of [str], [csv], [shlex] and
    [datetime.strptime]: substring search, one record of the default CSV dialect,
    POSIX word splitting, and the two timestamp formats of PAN-OS. *)

From S2P Require Import Prelude PyStr EventTypes.

(** ** Substrings *)

(** The part of [s] from the first occurrence of [sub]. *)
Fixpoint find_sub (sub s : string) : option string :=
  if starts_with s sub then Some s
  else match s with
       | EmptyString => None
       | String _ s' => find_sub sub s'
       end.

(** [sub in s] *)
Definition contains (sub s : string) : bool := bool_decide (is_Some (find_sub sub s)).

(** [s.split(sep, 1)[-1] if sep in s else s] *)
Definition after_first (sep s : string) : string :=
  match find_sub sep s with
  | Some t => str_drop (String.length sep) t
  | None => s
  end.

(** ** [csv.reader] *)

Inductive csv_state : Type :=
  | StartRecord
  | StartField
  | InField
  | InQuoted
  | QuoteInQuoted
  | EatCrnl.

Record csv_acc : Type := mkCsv {
  cs_state : csv_state;
  cs_field : string;          (* the characters of the field, last first *)
  cs_fields : list string     (* the fields so far, last first *)
}.

Definition nl : ascii := ascii_of_nat 10.
Definition cret : ascii := ascii_of_nat 13.
Definition dquote : ascii := ascii_of_nat 34.

Definition is_eol (c : ascii) : bool := bool_decide (c = nl) || bool_decide (c = cret).

Definition csv_add (a : csv_acc) (c : ascii) (st : csv_state) : csv_acc :=
  mkCsv st (String c (cs_field a)) (cs_fields a).

Definition csv_save (a : csv_acc) (st : csv_state) : csv_acc :=
  mkCsv st "" (String.rev (cs_field a) :: cs_fields a).

(** The beginning of a field, also reached from the start of the record. *)
Definition csv_start (a : csv_acc) (c : ascii) : csv_acc :=
  if is_eol c then csv_save a EatCrnl
  else if decide (c = dquote) then mkCsv InQuoted (cs_field a) (cs_fields a)
  else if decide (c = ","%char) then csv_save a StartField
  else csv_add a c InField.

(** One character; [None] is [csv.Error] (a newline inside an unquoted field). *)
Definition csv_char (a : csv_acc) (c : ascii) : option csv_acc :=
  match cs_state a with
  | StartRecord => if is_eol c then Some (mkCsv EatCrnl (cs_field a) (cs_fields a)) else Some (csv_start a c)
  | StartField => Some (csv_start a c)
  | InField =>
      Some (if is_eol c then csv_save a EatCrnl
            else if decide (c = ","%char) then csv_save a StartField else csv_add a c InField)
  | InQuoted =>
      Some (if decide (c = dquote) then mkCsv QuoteInQuoted (cs_field a) (cs_fields a)
            else csv_add a c InQuoted)
  | QuoteInQuoted =>
      Some (if decide (c = dquote) then csv_add a c InQuoted
            else if decide (c = ","%char) then csv_save a StartField
            else if is_eol c then csv_save a EatCrnl
            else csv_add a c InField)
  | EatCrnl => if is_eol c then Some a else None
  end.

(** The end of an input line. *)
Definition csv_eol (a : csv_acc) : csv_acc :=
  match cs_state a with
  | StartRecord => a
  | StartField | InField | QuoteInQuoted => csv_save a StartRecord
  | InQuoted => a
  | EatCrnl => mkCsv StartRecord (cs_field a) (cs_fields a)
  end.

(** The rest of the input after the end of a line: the record is complete, or a
    quoted field goes on. *)
Fixpoint csv_go (a : csv_acc) (s : string) : result (list string) :=
  match s with
  | EmptyString =>
      let a' := csv_eol a in
      match cs_state a' with
      | InQuoted => Ok (rev (cs_fields (csv_save a' StartRecord)))
      | _ => Ok (rev (cs_fields a'))
      end
  | String c s' =>
      match csv_char a c with
      | None => Raise OtherError
      | Some a1 =>
          if decide (c = nl) then
            let a2 := csv_eol a1 in
            match cs_state a2 with
            | InQuoted =>
                match s' with
                | EmptyString => Ok (rev (cs_fields (csv_save a2 StartRecord)))
                | _ => csv_go a2 s'
                end
            | _ => Ok (rev (cs_fields a2))
            end
          else csv_go a1 s'
      end
  end.

(** [next(csv.reader(io.StringIO(s)), None)] *)
Definition csv_first (s : string) : result (option (list string)) :=
  match s with
  | EmptyString => Ok None
  | _ => Some <$> csv_go (mkCsv StartRecord "" []) s
  end.

(** ** [shlex.split] *)

Inductive shlex_state : Type :=
  | Between                          (* no token begun *)
  | InWord                           (* state "a" *)
  | InQuotes (q : ascii)
  | Escaped (back : option ascii).   (* the quote to go back to, if any *)

Record shlex_acc : Type := mkShlex {
  sx_state : shlex_state;
  sx_token : string;          (* last character first *)
  sx_quoted : bool;
  sx_tokens : list string     (* last first *)
}.

Definition squote : ascii := ascii_of_nat 39.
Definition backslash : ascii := ascii_of_nat 92.
Definition is_quote (c : ascii) : bool := bool_decide (c = squote) || bool_decide (c = dquote).
Definition is_shspace (c : ascii) : bool :=
  bool_decide (c = " "%char) || bool_decide (c = ascii_of_nat 9) || bool_decide (c = cret) || bool_decide (c = nl).

Definition sx_add (a : shlex_acc) (c : ascii) (st : shlex_state) : shlex_acc :=
  mkShlex st (String c (sx_token a)) (sx_quoted a) (sx_tokens a).

(** A token ends; an empty one counts only if it was quoted. *)
Definition sx_emit (a : shlex_acc) : shlex_acc :=
  if str_true (sx_token a) || sx_quoted a
  then mkShlex Between "" false (String.rev (sx_token a) :: sx_tokens a)
  else mkShlex Between "" false (sx_tokens a).

Definition sx_char (a : shlex_acc) (c : ascii) : shlex_acc :=
  match sx_state a with
  | Between | InWord =>
      if is_shspace c then sx_emit a
      else if decide (c = backslash) then mkShlex (Escaped None) (sx_token a) (sx_quoted a) (sx_tokens a)
      else if is_quote c then mkShlex (InQuotes c) (sx_token a) true (sx_tokens a)
      else sx_add a c InWord
  | InQuotes q =>
      if decide (c = q) then mkShlex InWord (sx_token a) true (sx_tokens a)
      else if decide (c = backslash ∧ q = dquote) then
        mkShlex (Escaped (Some q)) (sx_token a) true (sx_tokens a)
      else sx_add a c (InQuotes q)
  | Escaped None => sx_add a c InWord
  | Escaped (Some q) =>
      if decide (c ≠ backslash ∧ c ≠ q) then sx_add (sx_add a backslash (InQuotes q)) c (InQuotes q)
      else sx_add a c (InQuotes q)
  end.

Fixpoint sx_run (a : shlex_acc) (s : string) : shlex_acc :=
  match s with EmptyString => a | String c s' => sx_run (sx_char a c) s' end.

(** [shlex.split(s, posix=True)]; the text ends inside a quotation or after an
    escape: [ValueError]. *)
Definition shlex_split (s : string) : result (list string) :=
  let a := sx_run (mkShlex Between "" false []) s in
  match sx_state a with
  | Between | InWord => Ok (rev (sx_tokens (sx_emit a)))
  | InQuotes _ | Escaped _ => Raise ValueError
  end.

(** ** Matches of a pattern and replacement *)

(** [finditer] of a pattern, given by its match at a position: the value and the
    length of the match; the next search starts after it. *)
Fixpoint finditer {A} (m : string → option (A * nat)) (skip : nat) (s : string) : list A :=
  match s with
  | EmptyString => []
  | String _ r =>
      match skip with
      | S k => finditer m k r
      | O => match m s with Some (a, n) => a :: finditer m (pred n) r | None => finditer m 0 r end
      end
  end.

(** [search]: the first position where the pattern matches. *)
Fixpoint search {A} (m : string → option A) (s : string) : option A :=
  match m s with
  | Some a => Some a
  | None => match s with EmptyString => None | String _ r => search m r end
  end.

(** The longest prefix of characters of a class, and the rest. *)
Fixpoint span (P : ascii → bool) (s : string) : string * string :=
  match s with
  | EmptyString => ("", "")
  | String c r => if P c then let '(a, b) := span P r in (String c a, b) else ("", s)
  end.

(** [s.replace(c, w)] for a character. *)
Fixpoint replace_char (c : ascii) (w s : string) : string :=
  match s with
  | EmptyString => ""
  | String d r => if decide (d = c) then w +:+ replace_char c w r else String d (replace_char c w r)
  end.

(** ** [datetime.strptime] *)

(** Days from 1970-01-01 of a date of the proleptic Gregorian calendar. *)
Definition days_from_civil (y m d : Z) : Z :=
  let y' := if m <=? 2 then y - 1 else y in
  let era := y' / 400 in
  let yoe := y' - era * 400 in
  let doy := (153 * (m + (if 2 <? m then -3 else 9)) + 2) / 5 + d - 1 in
  let doe := yoe * 365 + yoe / 4 - yoe / 100 + doy in
  era * 146097 + doe - 719468.

Definition is_leap (y : Z) : bool :=
  (y mod 4 =? 0) && (negb (y mod 100 =? 0) || (y mod 400 =? 0)).

Definition days_in_month (y m : Z) : Z :=
  if m =? 2 then (if is_leap y then 29 else 28)
  else if (m =? 4) || (m =? 6) || (m =? 9) || (m =? 11) then 30 else 31.

(** A number of one or two digits in a range, and the rest of the text. *)
Definition num2 (lo hi : Z) (s : string) : option (Z * string) :=
  match s with
  | String a (String b r) =>
      x ← digit_val a;
      match digit_val b with
      | Some y => if (lo <=? 10 * x + y) && (10 * x + y <=? hi) then Some (10 * x + y, r) else None
      | None => if lo <=? x then Some (x, String b r) else None
      end
  | String a EmptyString => x ← digit_val a; if lo <=? x then Some (x, "") else None
  | EmptyString => None
  end.

(** [%Y]: four digits. *)
Definition num4 (s : string) : option (Z * string) :=
  match s with
  | String a (String b (String c (String d r))) =>
      w ← digit_val a; x ← digit_val b; y ← digit_val c; z ← digit_val d;
      Some (((w * 10 + x) * 10 + y) * 10 + z, r)
  | _ => None
  end.

(** [%d] also takes a blank before a single digit. *)
Definition num_day (s : string) : option (Z * string) :=
  match s with
  | String " " (String a r) =>
      x ← digit_val a; if 1 <=? x then Some (x, r) else None
  | _ => num2 1 31 s
  end.

(** A literal of the format, without regard to case. *)
Definition lit (c : ascii) (s : string) : option string :=
  match s with
  | String d r => if decide (lower_char d = lower_char c) then Some r else None
  | EmptyString => None
  end.

(** A blank of the format: one or more blanks. *)
Definition blanks (s : string) : option string :=
  match s with
  | String c r => if is_space c then Some (lstrip_by is_space r) else None
  | EmptyString => None
  end.

Definition at_end (s : string) : option () := match s with EmptyString => Some () | _ => None end.

(** The instant in microseconds, when the date exists. *)
Definition make_instant (y m d hh mm ss : Z) : option Z :=
  if (1 <=? y) && (d <=? days_in_month y m) && (ss <=? 59)
  then Some ((days_from_civil y m d * 86400 + hh * 3600 + mm * 60 + ss) * second) else None.

(** ["%Y/%m/%d %H:%M:%S"] *)
Definition strptime_slash (s : string) : option Z :=
  '(y, s) ← num4 s; s ← lit "/" s; '(m, s) ← num2 1 12 s; s ← lit "/" s; '(d, s) ← num_day s;
  s ← blanks s; '(hh, s) ← num2 0 23 s; s ← lit ":" s; '(mm, s) ← num2 0 59 s; s ← lit ":" s;
  '(ss, s) ← num2 0 61 s; _ ← at_end s; make_instant y m d hh mm ss.

(** ["%Y-%m-%dT%H:%M:%SZ"] *)
Definition strptime_iso (s : string) : option Z :=
  '(y, s) ← num4 s; s ← lit "-" s; '(m, s) ← num2 1 12 s; s ← lit "-" s; '(d, s) ← num_day s;
  s ← lit "T" s; '(hh, s) ← num2 0 23 s; s ← lit ":" s; '(mm, s) ← num2 0 59 s; s ← lit ":" s;
  '(ss, s) ← num2 0 61 s; s ← lit "Z" s; _ ← at_end s; make_instant y m d hh mm ss.

(** ** Writing CSV and reading it back *)

Fixpoint csv_double (s : string) : string :=
  match s with
  | EmptyString => EmptyString
  | String c s' => if decide (c = dquote) then String dquote (String dquote (csv_double s'))
                   else String c (csv_double s')
  end.

(** A field in quotes, its quotes doubled. *)
Definition csv_quote (f : string) : string := String dquote (csv_double f +:+ String dquote "").

Definition csv_render (fs : list string) : string := join "," (csv_quote <$> fs).

Lemma rev_app_app a b c : String.rev_app (String.rev_app a b) c = String.rev_app b (a +:+ c).
Proof.
  revert b. induction a as [|x a IH]; intros b; simpl; [done|]. rewrite IH. done.
Qed.

Lemma rev_rev_app f : String.rev (String.rev_app f "") = f.
Proof. unfold String.rev. rewrite rev_app_app. simpl. apply app_nil_str. Qed.

Lemma csv_in_quoted f field fields rest :
  csv_go (mkCsv InQuoted field fields) (csv_double f +:+ String dquote rest) =
  csv_go (mkCsv QuoteInQuoted (String.rev_app f field) fields) rest.
Proof.
  revert field. induction f as [|c f IH]; intros field; [done|]. simpl csv_double.
  destruct (decide (c = dquote)) as [->|Hne].
  - rewrite !app_cons_str. etrans; [|apply IH]. done.
  - rewrite app_cons_str. simpl csv_go. rewrite (decide_False (P := c = dquote)) by done.
    unfold csv_add. simpl. destruct (decide (c = nl)) as [->|].
    + pose proof (IH (String nl field)) as IHn.
      destruct (csv_double f +:+ String dquote rest) eqn:E; [by destruct (csv_double f)|]. exact IHn.
    + apply IH.
Qed.

(** A quoted field is read up to its end. *)
Lemma csv_go_quote st f fields rest :
  st = StartRecord ∨ st = StartField →
  csv_go (mkCsv st "" fields) (csv_quote f +:+ rest) =
  csv_go (mkCsv QuoteInQuoted (String.rev_app f "") fields) rest.
Proof.
  intros Hst. unfold csv_quote. rewrite app_cons_str, app_assoc_str, app_cons_str.
  etrans; [|apply csv_in_quoted]. by destruct Hst as [-> | ->].
Qed.

Lemma csv_go_render st fs fields :
  st = StartRecord ∨ st = StartField → fs ≠ [] →
  csv_go (mkCsv st "" fields) (csv_render fs) = Ok (rev fields ++ fs).
Proof.
  revert st fields. induction fs as [|f fs IH]; intros st fields Hst Hne; [done|].
  destruct fs as [|f' fs].
  - change (csv_render [f]) with (csv_quote f). rewrite <-(app_nil_str (csv_quote f)), csv_go_quote by done.
    simpl. by rewrite rev_rev_app.
  - change (csv_render (f :: f' :: fs)) with (csv_quote f +:+ String "," (csv_render (f' :: fs))).
    rewrite csv_go_quote by done. simpl csv_go at 1. unfold csv_save. simpl. rewrite rev_rev_app.
    rewrite IH by (by right || done). simpl. by rewrite <-app_assoc.
Qed.

Lemma csv_first_render fs : fs ≠ [] → csv_first (csv_render fs) = Ok (Some fs).
Proof.
  intros Hne. pose proof (csv_go_render StartRecord fs [] ltac:(by left) Hne) as Hgo.
  unfold csv_first. destruct (csv_render fs) eqn:E.
  - destruct fs as [|f fs]; [done|]. destruct fs; done.
  - by rewrite Hgo.
Qed.

Lemma find_sub_cons sub c s :
  find_sub sub (String c s) = if starts_with (String c s) sub then Some (String c s) else find_sub sub s.
Proof. done. Qed.

Lemma starts_with_cons a p b s :
  starts_with (String b s) (String a p) = bool_decide (a = b) && starts_with s p.
Proof.
  unfold starts_with. cbn [String.prefix]. destruct (ascii_dec a b) as [->|Hne].
  - by rewrite bool_decide_true.
  - by rewrite bool_decide_false.
Qed.

Lemma starts_with_nil s : starts_with s "" = true.
Proof. by destruct s. Qed.

Lemma after_first_prefix hdr x :
  find_sub ": " hdr = None → after_first ": " (hdr +:+ ": " +:+ x) = x.
Proof.
  intros Hn. unfold after_first.
  assert (Hf : find_sub ": " (hdr +:+ ": " +:+ x) = Some (": " +:+ x)); [|by rewrite Hf].
  induction hdr as [|c h IH].
  { change ("" +:+ ": " +:+ x) with (String ":" (String " " x)).
    by rewrite find_sub_cons, !starts_with_cons, starts_with_nil. }
  rewrite app_cons_str, find_sub_cons. rewrite find_sub_cons in Hn.
  destruct (starts_with (String c h) ": ") eqn:Es; [done|].
  rewrite starts_with_cons in Es |- *.
  destruct (bool_decide (":"%char = c)); simpl in *; [|by apply IH].
  destruct h as [|d h]; [by apply IH|].
  rewrite app_cons_str, starts_with_cons, starts_with_nil, andb_true_r in *.
  rewrite Es. by apply IH.
Qed.

(** ** Writing key-value words and reading them back *)

Fixpoint sh_escape (s : string) : string :=
  match s with
  | EmptyString => EmptyString
  | String c s' => if decide (c = dquote ∨ c = backslash) then String backslash (String c (sh_escape s'))
                   else String c (sh_escape s')
  end.

(** A key, an equals sign and the value in double quotes. *)
Definition sh_pair (kv : string * string) : string :=
  kv.1 +:+ String "=" (String dquote (sh_escape kv.2 +:+ String dquote "")).

Definition sh_render (kvs : list (string * string)) : string := join " " (sh_pair <$> kvs).

(** The characters that need no quotes. *)
Definition plain_char (c : ascii) : bool :=
  negb (is_shspace c) && negb (bool_decide (c = backslash)) && negb (is_quote c).

Lemma sx_run_plain st k tok quoted tokens rest :
  st = Between ∨ st = InWord → str_forall plain_char k = true → k ≠ "" →
  sx_run (mkShlex st tok quoted tokens) (k +:+ rest) =
  sx_run (mkShlex InWord (String.rev_app k tok) quoted tokens) rest.
Proof.
  revert st tok. induction k as [|c k IH]; intros st tok Hst Hp Hne; [done|].
  simpl in Hp. apply andb_true_iff in Hp as [Hc Hk]. unfold plain_char in Hc.
  rewrite !andb_true_iff, !negb_true_iff in Hc. destruct Hc as [[Hs Hb] Hq].
  apply bool_decide_eq_false in Hb. rewrite app_cons_str. simpl sx_run.
  assert (Hstep : sx_char (mkShlex st tok quoted tokens) c = mkShlex InWord (String c tok) quoted tokens).
  { unfold sx_char. simpl. destruct Hst as [-> | ->]; rewrite Hs, decide_False, Hq by done; done. }
  rewrite Hstep. destruct k as [|d k]; [done|]. apply IH; [by right|done|done].
Qed.

Lemma sx_run_value v tok tokens rest :
  sx_run (mkShlex (InQuotes dquote) tok true tokens) (sh_escape v +:+ String dquote rest) =
  sx_run (mkShlex InWord (String.rev_app v tok) true tokens) rest.
Proof.
  revert tok. induction v as [|c v IH]; intros tok; [done|]. simpl sh_escape.
  destruct (decide (c = dquote ∨ c = backslash)) as [Hc|Hc].
  - rewrite !app_cons_str. etrans; [|apply IH]. by destruct Hc as [-> | ->].
  - rewrite app_cons_str. etrans; [|apply IH]. simpl. f_equal. unfold sx_char. simpl.
    rewrite !decide_False by tauto. done.
Qed.

Lemma sx_run_pair kv tokens rest :
  str_forall plain_char kv.1 = true →
  sx_run (mkShlex Between "" false tokens) (sh_pair kv +:+ rest) =
  sx_run (mkShlex InWord (String.rev_app (kv.1 +:+ String "=" kv.2) "") true tokens) rest.
Proof.
  intros Hk. destruct kv as [k v]. unfold sh_pair. simpl in *.
  replace ((k +:+ String "=" (String dquote (sh_escape v +:+ String dquote ""))) +:+ rest)
    with ((k +:+ "=") +:+ String dquote (sh_escape v +:+ String dquote rest)).
  2: { rewrite !app_assoc_str, !app_cons_str. do 3 f_equal. by rewrite app_assoc_str. }
  rewrite sx_run_plain; [|by left| |by destruct k].
  2: { induction k as [|c k IH]; simpl in *; [done|]. apply andb_true_iff in Hk as [-> Hk]. by apply IH. }
  simpl sx_run. etrans; [apply (sx_run_value v)|]. f_equal. f_equal.
  assert (Hr : ∀ a b : string, String.rev_app (a +:+ b) "" = String.rev_app b (String.rev_app a "")).
  { intros a b. generalize "" as z. induction a as [|c a IH]; intros z; [done|].
    rewrite app_cons_str. simpl. apply IH. }
  rewrite (Hr k (String "=" v)), (Hr k "="). done.
Qed.

(** The words of the rendered pairs are the pairs. *)
Lemma shlex_render_go kvs tokens :
  Forall (λ kv, str_forall plain_char kv.1 = true) kvs → kvs ≠ [] →
  let a := sx_run (mkShlex Between "" false tokens) (sh_render kvs) in
  sx_state a = InWord ∧
  rev (sx_tokens (sx_emit a)) = rev tokens ++ ((λ kv, kv.1 +:+ String "=" kv.2) <$> kvs).
Proof.
  intros Hall. revert tokens. induction Hall as [|kv kvs Hkv Hall IH]; intros tokens Hne; [done|].
  destruct kvs as [|kv' kvs].
  - change (sh_render [kv]) with (sh_pair kv). rewrite <-(app_nil_str (sh_pair kv)), sx_run_pair by done. simpl.
    unfold sx_emit. simpl. rewrite orb_true_r. simpl. by rewrite rev_rev_app.
  - change (sh_render (kv :: kv' :: kvs)) with (sh_pair kv +:+ String " " (sh_render (kv' :: kvs))).
    rewrite sx_run_pair by done. simpl sx_run.
    assert (He : sx_char (mkShlex InWord (String.rev_app (kv.1 +:+ String "=" kv.2) "") true tokens) " " =
      mkShlex Between "" false ((kv.1 +:+ String "=" kv.2) :: tokens)).
    { unfold sx_char, sx_emit. simpl. by rewrite orb_true_r, rev_rev_app. }
    rewrite He. destruct (IH ((kv.1 +:+ String "=" kv.2) :: tokens)) as [Hs Ht]; [done|].
    split; [done|]. rewrite Ht. simpl. by rewrite <-app_assoc.
Qed.

Lemma shlex_split_render kvs :
  Forall (λ kv, str_forall plain_char kv.1 = true) kvs → kvs ≠ [] →
  shlex_split (sh_render kvs) = Ok ((λ kv, kv.1 +:+ String "=" kv.2) <$> kvs).
Proof.
  intros Hall Hne. destruct (shlex_render_go kvs [] Hall Hne) as [Hs Ht].
  unfold shlex_split. by rewrite Hs, Ht.
Qed.
