(* ===== verification/PyDatetime.v ===== *)
(** * Instants as text ([datetime.isoformat] and [datetime.fromisoformat])

    An instant is a number of microseconds since the epoch.  [isoformat] is that of
    a value in UTC, the zone of every timestamp the services write.
    [fromisoformat] follows the C implementation of the standard library, which
    works on the bytes of the text; a time without a zone is read as UTC. *)

From S2P Require Import Prelude PyStr EventTypes PyText.

Definition day_s : Z := 86400.

(** ** Writing *)

(** The date of a number of days since the epoch. *)
Definition civil_from_days (z : Z) : Z * Z * Z :=
  let z' := z + 719468 in
  let era := z' / 146097 in
  let doe := z' mod 146097 in
  let yoe := (doe - doe / 1460 + doe / 36524 - doe / 146096) / 365 in
  let doy := doe - (365 * yoe + yoe / 4 - yoe / 100) in
  let mp := (5 * doy + 2) / 153 in
  let d := doy - (153 * mp + 2) / 5 + 1 in
  let m := if mp <? 10 then mp + 3 else mp - 9 in
  (yoe + era * 400 + (if m <=? 2 then 1 else 0), m, d).

Definition digit_char (n : Z) : ascii := ascii_of_N (Z.to_N (48 + n)).

(** A number in exactly [k] digits. *)
Fixpoint pad (k : nat) (n : Z) : string :=
  match k with
  | O => ""
  | S k => String (digit_char (n / 10 ^ Z.of_nat k)) (pad k (n mod 10 ^ Z.of_nat k))
  end.

Definition isoformat (t : Z) : string :=
  let us := t mod second in
  let secs := t / second in
  let sod := secs mod day_s in
  let '(y, m, d) := civil_from_days (secs / day_s) in
  pad 4 y +:+ String "-" (pad 2 m +:+ String "-" (pad 2 d +:+ String "T"
    (pad 2 (sod / 3600) +:+ String ":" (pad 2 (sod / 60 mod 60) +:+ String ":" (pad 2 (sod mod 60) +:+
      (if us =? 0 then "" else String "." (pad 6 us)) +:+ "+00:00"))))).

(** ** Reading *)

(** [parse_digits]: exactly [k] digits. *)
Fixpoint take_digits (k : nat) (acc : Z) (s : string) : option (Z * string) :=
  match k with
  | O => Some (acc, s)
  | S k =>
      match s with
      | String c r => v ← digit_val c; take_digits k (acc * 10 + v) r
      | EmptyString => None
      end
  end.

(** The character at a position, and the text that starts there. *)
Definition char_at (i : nat) (s : string) (c : ascii) : bool := bool_decide (String.get i s = Some c).
Definition digit_at (i : nat) (s : string) : bool :=
  match String.get i s with Some c => is_digit c | None => false end.

(** The number of digits at the start. *)
Fixpoint digits_len (s : string) : nat :=
  match s with String c r => if is_digit c then S (digits_len r) else O | EmptyString => O end.

(** [_find_isoformat_datetime_separator] *)
Definition find_separator (s : string) : option nat :=
  let n := String.length s in
  if (n =? 7)%nat then Some 7%nat
  else if char_at 4 s "-" then
    if char_at 5 s "W" then
      if (n <? 8)%nat then None
      else if (8 <? n)%nat && char_at 8 s "-" then
        if (n =? 9)%nat then None
        else if (10 <? n)%nat && digit_at 10 s then Some 8%nat
        else Some 10%nat
      else Some 8%nat
    else Some 10%nat
  else if char_at 4 s "W" then
    let pos := (7 + digits_len (str_drop 7 s))%nat in
    if (pos <? 9)%nat then Some pos
    else if Nat.even pos then Some 7%nat else Some 8%nat
  else Some 8%nat.

Definition epoch_ordinal : Z := 719163.

(** Monday of week 1 of an ISO year, in days since the epoch. *)
Definition week1_monday (y : Z) : Z :=
  let first := days_from_civil y 1 1 in
  let wd := (first + epoch_ordinal + 6) mod 7 in
  first - wd + (if 3 <? wd then 7 else 0).

(** [iso_to_ymd], as days since the epoch. *)
Definition week_date (y w d : Z) : option Z :=
  let first_wd := (days_from_civil y 1 1 + epoch_ordinal) mod 7 in
  if negb ((1 <=? y) && (y <=? 9999)) then None
  else if negb (((0 <? w) && (w <? 53)) || ((w =? 53) && ((first_wd =? 4) || ((first_wd =? 3) && is_leap y)))) then None
  else if negb ((0 <? d) && (d <? 8)) then None
  else
    let days := week1_monday y + (w - 1) * 7 + (d - 1) in
    if days <=? days_from_civil 9999 12 31 then Some days else None.

(** The days of a calendar date that exists. *)
Definition civil_date (y m d : Z) : option Z :=
  if (1 <=? y) && (1 <=? m) && (m <=? 12) && (1 <=? d) && (d <=? days_in_month y m)
  then Some (days_from_civil y m d) else None.

(** A dash, where the separators are used. *)
Definition dash (sep : bool) (s : string) : option string :=
  if sep then match s with String "-" r => Some r | _ => None end else Some s.

(** The text after the mark of a week. *)
Definition week_mark (s : string) : option string :=
  match s with String "W" r => Some r | _ => None end.

(** [parse_isoformat_date] of a text whose date has [n] bytes. *)
Definition iso_date (n : nat) (s : string) : option Z :=
  '(y, s1) ← take_digits 4 0 s;
  let sep := char_at 0 s1 "-" in
  s2 ← dash sep s1;
  match week_mark s2 with
  | Some s3 =>
      '(w, s4) ← take_digits 2 0 s3;
      if (String.length s - String.length s4 <? n)%nat then
        s5 ← dash sep s4;
        '(d, _) ← take_digits 1 0 s5;
        week_date y w d
      else week_date y w 1
  | None =>
      '(m, s3) ← take_digits 2 0 s2;
      s4 ← dash sep s3;
      '(d, _) ← take_digits 2 0 s4;
      civil_date y m d
  end.

(** The fraction of a second, with the bytes up to the end of the time: the
    microseconds, and whether text remains after the digits. *)
Definition iso_fraction (s : string) (remains : Z) : option (Z * bool) :=
  let k := Z.to_nat (Z.min 6 remains) in
  '(us, r) ← take_digits k 0 s;
  Some (us * 10 ^ (6 - Z.of_nat k), negb (bool_decide (lstrip_by is_digit r = ""))).

(** [parse_hh_mm_ss_ff]: the text, the bytes up to its end, the components left and
    the ones read; the result says also whether text remains. *)
Fixpoint iso_clock (todo : nat) (first sep : bool) (s : string) (remains : Z) (acc : list Z) :
    option (list Z * Z * bool) :=
  match todo with
  | O => '(us, more) ← iso_fraction s remains; Some (acc, us, more)
  | S todo =>
      '(v, s1) ← take_digits 2 0 s;
      let acc := acc ++ [v] in
      let sep := if first then char_at 0 s1 ":" else sep in
      if remains - 3 <=? 0 then Some (acc, 0, negb (bool_decide (s1 = "")))
      else
        match s1 with
        | String c s2 =>
            if sep && bool_decide (c = ":"%char) then
              if (todo =? 0)%nat then None else iso_clock todo false sep s2 (remains - 3) acc
            else if bool_decide (c = "."%char) || bool_decide (c = ","%char) then
              '(us, more) ← iso_fraction s2 (remains - 3); Some (acc, us, more)
            else if negb sep then iso_clock todo false sep s1 (remains - 2) acc
            else None
        | EmptyString => None
        end
  end.

Definition nth0 (l : list Z) (i : nat) : Z := default 0 (l !! i).

(** The position of the zone: the first sign or [Z]. *)
Fixpoint zone_pos (s : string) : nat :=
  match s with
  | EmptyString => 0
  | String c r =>
      if bool_decide (c = "+"%char) || bool_decide (c = "-"%char) || bool_decide (c = "Z"%char) then 0 else S (zone_pos r)
  end.

Definition clock_seconds (l : list Z) : Z := nth0 l 0 * 3600 + nth0 l 1 * 60 + nth0 l 2.

(** [parse_isoformat_time]: the components, the microseconds and the offset in
    microseconds. *)
Definition iso_time (s : string) : option (list Z * Z * Z) :=
  let z := zone_pos s in
  '(hms, us, more) ← iso_clock 3 true true s (Z.of_nat z) [];
  match str_drop z s with
  | EmptyString => if more : bool then None else Some (hms, us, 0)
  | String c r =>
      if bool_decide (c = "Z"%char) then if bool_decide (r = "") then Some (hms, us, 0) else None
      else
        '(tz, tzus, tzmore) ← iso_clock 3 true true r (len r) [];
        if tzmore : bool then None
        else
          let off := clock_seconds tz * second + tzus in
          if off <? day_s * second then Some (hms, us, if bool_decide (c = "-"%char) then - off else off)
          else None
  end.

(** The bytes of the character that separates the date from the time. *)
Definition sep_width (s : string) : nat :=
  match s with
  | EmptyString => 1
  | String c _ =>
      if code c <? 128 then 1
      else if code c / 16 =? 14 then 3 else if code c / 16 =? 15 then 4 else 2
  end.

Definition fromisoformat (s : string) : result Z :=
  need ValueError
    (if len s <? 7 then None
     else
       sep ← find_separator s;
       days ← iso_date sep s;
       '(hms, us, off) ← (if (sep <? String.length s)%nat
                          then iso_time (str_drop (sep_width (str_drop sep s)) (str_drop sep s))
                          else Some ([], 0, 0));
       if (nth0 hms 0 <? 24) && (nth0 hms 1 <? 60) && (nth0 hms 2 <? 60)
       then Some ((days * day_s + clock_seconds hms) * second + us - off) else None).

(** ** Reading what was written *)

(** The year of a day of an era, and the first day of a year; years start in March. *)
Definition yoe_of (doe : Z) : Z := (doe - doe / 1460 + doe / 36524 - doe / 146096) / 365.
Definition year_start (y : Z) : Z := 365 * y + y / 4 - y / 100 + y / 400.

Definition year_ok (y : Z) : bool :=
  (yoe_of (year_start y) =? y) && (yoe_of (year_start (y + 1) - 1) =? y) &&
  (year_start (y + 1) - year_start y =? 365 + (if is_leap (y + 1) then 1 else 0)).

Lemma years_ok : forallb year_ok (seqZ 0 400) = true.
Proof. vm_compute. reflexivity. Qed.

(** The month and the day of the month of a day of the year. *)
Definition month_of (doy : Z) : Z :=
  let mp := (5 * doy + 2) / 153 in if mp <? 10 then mp + 3 else mp - 9.
Definition mday_of (doy : Z) : Z := doy - (153 * ((5 * doy + 2) / 153) + 2) / 5 + 1.

Definition doy_ok (doy : Z) : bool :=
  let m := month_of doy in
  let d := mday_of doy in
  (1 <=? m) && (m <=? 12) && (1 <=? d) && (d <=? days_in_month (if doy =? 365 then 4 else 1) m) &&
  ((153 * (m + (if 2 <? m then -3 else 9)) + 2) / 5 + d - 1 =? doy) &&
  ((doy <? 365) || (m =? 2)).

Lemma doys_ok : forallb doy_ok (seqZ 0 366) = true.
Proof. vm_compute. reflexivity. Qed.

Lemma forallb_seqZ f n z : forallb f (seqZ 0 n) = true → 0 ≤ z < n → f z = true.
Proof. intros H Hz. rewrite forallb_forall in H. apply H, list_elem_of_In, elem_of_seqZ. lia. Qed.

Lemma yoe_mono a b : 0 ≤ a ≤ b → b < 146097 → yoe_of a ≤ yoe_of b.
Proof.
  intros Hab Hb. apply Z.div_le_mono; [lia|].
  assert (Hstep : ∀ k : nat, a + Z.of_nat k < 146097 →
    a - a / 1460 + a / 36524 - a / 146096 ≤
    (a + Z.of_nat k) - (a + Z.of_nat k) / 1460 + (a + Z.of_nat k) / 36524 - (a + Z.of_nat k) / 146096).
  { intros k. induction k as [|k IH]; intros Hk; [rewrite Z.add_0_r; lia|].
    etrans; [apply IH; lia|]. replace (a + Z.of_nat (S k)) with (a + Z.of_nat k + 1) by lia.
    assert (Hc : 0 ≤ a + Z.of_nat k < 146096) by lia. generalize dependent (a + Z.of_nat k). intros c _ Hc.
    assert ((c + 1) / 1460 ≤ c / 1460 + 1) by (rewrite <-Z.div_add by lia; apply Z.div_le_mono; lia).
    assert (c / 36524 ≤ (c + 1) / 36524) by (apply Z.div_le_mono; lia).
    destruct (decide (c = 146095)) as [->|]; [by vm_compute|].
    rewrite !(Z.div_small _ 146096) by lia. lia. }
  specialize (Hstep (Z.to_nat (b - a))). rewrite Z2Nat.id in Hstep by lia.
  replace (a + (b - a)) with b in Hstep by lia. auto.
Qed.

(** Every day of an era lies in one of its years. *)
Lemma year_exists doe : 0 ≤ doe < 146097 → ∃ y, 0 ≤ y < 400 ∧ year_start y ≤ doe < year_start (y + 1).
Proof.
  intros Hd. assert (H : ∀ n : nat, doe < year_start (Z.of_nat n) →
    ∃ y, 0 ≤ y < Z.of_nat n ∧ year_start y ≤ doe < year_start (y + 1)).
  { induction n as [|n IH]; intros Hn; [change (year_start (Z.of_nat 0)) with 0 in Hn; lia|].
    destruct (decide (doe < year_start (Z.of_nat n))) as [Hlt|].
    - destruct (IH Hlt) as (y & ? & ?). exists y. lia.
    - exists (Z.of_nat n). replace (Z.of_nat (S n)) with (Z.of_nat n + 1) in Hn by lia. lia. }
  destruct (H 400%nat) as (y & ? & ?); [change (year_start (Z.of_nat 400)) with 146097; lia|]. exists y. lia.
Qed.

Lemma yoe_of_year y doe :
  0 ≤ y < 400 → 0 ≤ doe < 146097 → year_start y ≤ doe < year_start (y + 1) → yoe_of doe = y.
Proof.
  intros Hy Hd Hr. pose proof (forallb_seqZ _ _ _ years_ok Hy) as Hok.
  unfold year_ok in Hok. rewrite !andb_true_iff, !Z.eqb_eq in Hok. destruct Hok as [[H1 H2] _].
  assert (0 ≤ year_start y) by (unfold year_start; divlia).
  assert (year_start (y + 1) ≤ 146097) by (unfold year_start; divlia).
  pose proof (yoe_mono (year_start y) doe). pose proof (yoe_mono doe (year_start (y + 1) - 1)). lia.
Qed.

Lemma days_in_month_era y m e : days_in_month (y + 400 * e) m = days_in_month y m.
Proof.
  unfold days_in_month, is_leap.
  replace ((y + 400 * e) mod 4) with (y mod 4) by divlia.
  replace ((y + 400 * e) mod 100) with (y mod 100) by divlia.
  by replace ((y + 400 * e) mod 400) with (y mod 400) by divlia.
Qed.

Lemma days_from_civil_era y m d e : days_from_civil (y + 400 * e) m d = days_from_civil y m d + 146097 * e.
Proof.
  unfold days_from_civil. destruct (m <=? 2); cbv zeta.
  - replace ((y + 400 * e - 1) / 400) with ((y - 1) / 400 + e) by divlia.
    replace (y + 400 * e - 1 - ((y - 1) / 400 + e) * 400) with (y - 1 - (y - 1) / 400 * 400) by lia. lia.
  - replace ((y + 400 * e) / 400) with (y / 400 + e) by divlia.
    replace (y + 400 * e - (y / 400 + e) * 400) with (y - y / 400 * 400) by lia. lia.
Qed.

(** The date of a day is one that exists, and it is the date of that day. *)
Lemma civil_from_days_spec z y m d :
  civil_from_days z = (y, m, d) →
  1 ≤ m ≤ 12 ∧ 1 ≤ d ≤ days_in_month y m ∧ days_from_civil y m d = z ∧
  400 * ((z + 719468) / 146097) ≤ y ≤ 400 * ((z + 719468) / 146097) + 400.
Proof.
  unfold civil_from_days. set (e := (z + 719468) / 146097). set (doe := (z + 719468) mod 146097).
  assert (Hdoe : 0 ≤ doe < 146097) by (apply Z.mod_pos_bound; lia).
  assert (Hz : z = doe - 719468 + 146097 * e) by (subst e doe; divlia).
  destruct (year_exists doe Hdoe) as (yoe & Hy & Hr).
  pose proof (forallb_seqZ _ _ _ years_ok Hy) as Hok.
  unfold year_ok in Hok. rewrite !andb_true_iff, !Z.eqb_eq in Hok. destruct Hok as [_ Hlen].
  fold (yoe_of doe). rewrite (yoe_of_year yoe doe) by done. cbv zeta.
  set (doy := doe - (365 * yoe + yoe / 4 - yoe / 100)).
  assert (Hq : yoe / 400 = 0) by divlia.
  assert (Hdoy : 0 ≤ doy < 365 + (if is_leap (yoe + 1) then 1 else 0))
    by (unfold year_start in Hr, Hlen; lia).
  assert (Hdoy' : 0 ≤ doy < 366) by (destruct (is_leap _); lia).
  pose proof (forallb_seqZ _ _ _ doys_ok Hdoy') as Hd. unfold doy_ok in Hd.
  rewrite !andb_true_iff, orb_true_iff, !Z.leb_le, !Z.ltb_lt, !Z.eqb_eq in Hd.
  destruct Hd as [[[[[Hm1 Hm2] Hd1] Hd2] Hinv] Hfeb].
  fold (mday_of doy). fold (month_of doy). intros [= <- <- <-].
  generalize dependent (month_of doy). generalize dependent (mday_of doy). intros d Hd1 m ? ? Hd2 Hinv Hfeb.
  assert (Hleap : d ≤ days_in_month (yoe + e * 400 + (if m <=? 2 then 1 else 0)) m).
  { replace (yoe + e * 400 + _) with (yoe + (if m <=? 2 then 1 else 0) + 400 * e) by lia.
    rewrite days_in_month_era. unfold days_in_month in *.
    destruct (Z.eqb_spec m 2) as [->|]; [|done]. simpl. destruct (is_leap (yoe + 1)); destruct (Z.eqb_spec doy 365);
      simpl in Hd2; lia. }
  split; [lia|]. split; [lia|]. split; [|destruct (m <=? 2); lia].
  replace (yoe + e * 400 + (if m <=? 2 then 1 else 0)) with (yoe + (if m <=? 2 then 1 else 0) + 400 * e) by lia.
  rewrite days_from_civil_era. unfold days_from_civil.
  assert (Hy' : (if m <=? 2 then yoe + (if m <=? 2 then 1 else 0) - 1 else yoe + (if m <=? 2 then 1 else 0)) = yoe)
    by (destruct (m <=? 2); lia).
  rewrite Hy'. cbv zeta. rewrite Hinv, Hq. replace (yoe - 0 * 400) with yoe by lia. unfold doy. lia.
Qed.

Lemma digit_val_digit n : 0 ≤ n < 10 → digit_val (digit_char n) = Some n.
Proof.
  intros. assert (Hn : n ∈ seqZ 0 10) by (apply elem_of_seqZ; lia). revert n Hn H.
  apply (Forall_forall (λ n, 0 ≤ n < 10 → digit_val (digit_char n) = Some n)). by repeat constructor.
Qed.

Lemma take_digits_pad k n acc s :
  0 ≤ n < 10 ^ Z.of_nat k → take_digits k acc (pad k n +:+ s) = Some (acc * 10 ^ Z.of_nat k + n, s).
Proof.
  revert n acc. induction k as [|k IH]; intros n acc Hn.
  - simpl in *. do 2 f_equal. lia.
  - cbn [pad]. rewrite app_cons_str. cbn [take_digits].
    assert (Hp : 0 < 10 ^ Z.of_nat k) by (apply Z.pow_pos_nonneg; lia).
    assert (E : 10 ^ Z.of_nat (S k) = 10 * 10 ^ Z.of_nat k) by (rewrite Nat2Z.inj_succ, Z.pow_succ_r; lia).
    rewrite E in *. rewrite digit_val_digit.
    + cbn [mbind option_bind]. rewrite IH by (apply Z.mod_pos_bound; lia). do 2 f_equal.
      pose proof (Z.div_mod n (10 ^ Z.of_nat k)). nia.
    + split; [apply Z.div_pos; lia|]. apply Z.div_lt_upper_bound; lia.
Qed.

Lemma pad_length k n : String.length (pad k n) = k.
Proof. revert n. induction k as [|k IH]; intros n; simpl; [done|]. by rewrite IH. Qed.

Lemma str_get_pad k n s : (String.get k (pad k n +:+ s)) = String.get 0 s.
Proof. revert n. induction k as [|k IH]; intros n; simpl; [by destruct s|apply IH]. Qed.

(** The instants a [datetime] can hold. *)
Definition instant_ok (t : Z) : Prop :=
  days_from_civil 1 1 1 * day_s * second ≤ t < (days_from_civil 9999 12 31 + 1) * day_s * second.

Lemma iso_clock_pair todo first n s remains acc :
  (0 < todo)%nat → 0 ≤ n < 100 → 3 < remains →
  iso_clock (S todo) first true (pad 2 n +:+ String ":" s) remains acc =
  iso_clock todo false true s (remains - 3) (acc ++ [n]).
Proof.
  intros Ht Hn Hr. cbn [iso_clock]. rewrite take_digits_pad by (simpl; lia). cbn [mbind option_bind].
  rewrite (proj2 (Z.leb_gt _ _)) by lia. replace (0 * 10 ^ Z.of_nat 2 + n) with n by lia.
  rewrite (proj2 (Nat.eqb_neq todo 0)) by lia. by destruct first.
Qed.

Lemma digit_char_cases n (P : ascii → Prop) :
  P "0"%char → P "1"%char → P "2"%char → P "3"%char → P "4"%char → P "5"%char → P "6"%char → P "7"%char →
  P "8"%char → P "9"%char → 0 ≤ n < 10 → P (digit_char n).
Proof.
  intros. assert (Hn : n ∈ seqZ 0 10) by (apply elem_of_seqZ; lia).
  revert n Hn H9. apply (Forall_forall (λ n, 0 ≤ n < 10 → P (digit_char n))). by repeat constructor.
Qed.

Lemma pad_head k n : 0 ≤ n < 10 ^ Z.of_nat (S k) → 0 ≤ n / 10 ^ Z.of_nat k < 10.
Proof.
  intros Hn. rewrite Nat2Z.inj_succ, Z.pow_succ_r in Hn by lia.
  assert (0 < 10 ^ Z.of_nat k) by (apply Z.pow_pos_nonneg; lia).
  split; [apply Z.div_pos; lia|]. apply Z.div_lt_upper_bound; lia.
Qed.

Lemma zone_pos_digits k n s :
  0 ≤ n < 10 ^ Z.of_nat k → zone_pos (pad k n +:+ s) = (k + zone_pos s)%nat.
Proof.
  revert n. induction k as [|k IH]; intros n Hn; [done|]. cbn [pad]. rewrite app_cons_str. cbn [zone_pos].
  rewrite IH by (apply Z.mod_pos_bound, Z.pow_pos_nonneg; lia).
  pattern (digit_char (n / 10 ^ Z.of_nat k)). by apply digit_char_cases; [..|apply pad_head].
Qed.

Definition iso_tail (us : Z) : string := (if us =? 0 then "" else String "." (pad 6 us)) +:+ "+00:00".

Definition iso_clock_text (h m s us : Z) : string :=
  pad 2 h +:+ String ":" (pad 2 m +:+ String ":" (pad 2 s +:+ iso_tail us)).

Lemma zone_pos_clock h m s us :
  0 ≤ h < 100 → 0 ≤ m < 100 → 0 ≤ s < 100 → 0 ≤ us < second →
  zone_pos (iso_clock_text h m s us) = (if us =? 0 then 8%nat else 15%nat) ∧
  str_drop (zone_pos (iso_clock_text h m s us)) (iso_clock_text h m s us) = "+00:00".
Proof.
  intros Hh Hm Hs Hu. unfold second in Hu. unfold iso_clock_text, iso_tail.
  assert (E : zone_pos (pad 2 h +:+ String ":" (pad 2 m +:+ String ":" (pad 2 s +:+
     ((if us =? 0 then "" else String "." (pad 6 us)) +:+ "+00:00")))) = (if us =? 0 then 8%nat else 15%nat)).
  { rewrite zone_pos_digits by (simpl; lia). cbn [zone_pos]. rewrite zone_pos_digits by (simpl; lia).
    cbn [zone_pos]. rewrite zone_pos_digits by (simpl; lia). destruct (us =? 0); [done|].
    rewrite app_cons_str. cbn [zone_pos]. by rewrite zone_pos_digits by (simpl; lia). }
  rewrite E. split; [done|]. destruct (us =? 0); reflexivity.
Qed.

Lemma iso_time_text h m s us :
  0 ≤ h < 100 → 0 ≤ m < 100 → 0 ≤ s < 100 → 0 ≤ us < second →
  iso_time (iso_clock_text h m s us) = Some ([h; m; s], us, 0).
Proof.
  intros Hh Hm Hs Hu. destruct (zone_pos_clock h m s us) as [Hz Hd]; [done..|].
  unfold iso_time. rewrite Hd, Hz.
  assert (E : iso_clock 3 true true (iso_clock_text h m s us) (Z.of_nat (if us =? 0 then 8%nat else 15%nat)) []
              = Some ([h; m; s], us, true)).
  { unfold iso_clock_text. rewrite iso_clock_pair by (lia || (destruct (us =? 0); lia)).
    rewrite iso_clock_pair by (lia || (destruct (us =? 0); lia)). cbn [iso_clock].
    rewrite take_digits_pad by (simpl; lia). cbn [mbind option_bind].
    replace (0 * 10 ^ Z.of_nat 2 + s) with s by lia. unfold iso_tail.
    destruct (Z.eqb_spec us 0) as [->|Hne]; [done|]. cbn -[take_digits pad iso_fraction].
    rewrite app_cons_str. cbn -[take_digits pad iso_fraction]. unfold iso_fraction.
    change (Z.to_nat (Z.min 6 _)) with 6%nat. unfold second in Hu.
    rewrite take_digits_pad by (simpl; lia). cbn [mbind option_bind]. do 2 f_equal.
    f_equal. change (10 ^ (6 - Z.of_nat 6)) with 1. lia. }
  rewrite E. reflexivity.
Qed.

Lemma iso_date_text y m d s :
  0 ≤ y < 10000 → 0 ≤ m < 100 → 0 ≤ d < 100 →
  iso_date 10 (pad 4 y +:+ String "-" (pad 2 m +:+ String "-" (pad 2 d +:+ s))) = civil_date y m d.
Proof.
  intros Hy Hm Hd. unfold iso_date. rewrite take_digits_pad by (simpl; lia). cbn [mbind option_bind].
  replace (0 * 10 ^ Z.of_nat 4 + y) with y by lia.
  assert (E : ∀ r, week_mark (pad 2 m +:+ r) = None).
  { intros r. cbn [pad]. rewrite app_cons_str. pattern (digit_char (m / 10 ^ Z.of_nat 1)).
    by apply digit_char_cases; [..|apply (pad_head 1)]. }
  change (dash (char_at 0 (String "-" ?r) "-") (String "-" ?r)) with (Some r). cbn [mbind option_bind].
  rewrite E, take_digits_pad by (simpl; lia). cbn [mbind option_bind].
  change (dash (char_at 0 (String "-" ?r) "-") (String "-" ?q)) with (Some q). cbn [mbind option_bind].
  rewrite take_digits_pad by (simpl; lia). cbn [mbind option_bind]. f_equal; lia.
Qed.

Lemma find_separator_text y m d s :
  0 ≤ m < 100 → (0 < String.length s)%nat →
  find_separator (pad 4 y +:+ String "-" (pad 2 m +:+ String "-" (pad 2 d +:+ s))) = Some 10%nat.
Proof.
  intros Hm Hs. unfold find_separator. rewrite !length_app_str. cbn [String.length].
  rewrite !length_app_str. cbn [String.length]. rewrite !length_app_str, !pad_length.
  rewrite (proj2 (Nat.eqb_neq _ 7)) by lia.
  change (char_at 4 _ "-") with true. cbv iota.
  assert (E : char_at 5 (pad 4 y +:+ String "-" (pad 2 m +:+ String "-" (pad 2 d +:+ s))) "W" = false).
  { unfold char_at. cbn [pad]. rewrite !app_cons_str. cbn [String.get].
    change ("" +:+ ?x) with x. cbn [String.get].
    pattern (digit_char (m / 10 ^ Z.of_nat 1)). by apply digit_char_cases; [..|apply (pad_head 1)]. }
  by rewrite E.
Qed.

Lemma clock_text_length h m s us : (0 < String.length (iso_clock_text h m s us))%nat.
Proof. unfold iso_clock_text. rewrite length_app_str, pad_length. lia. Qed.

Lemma str_drop_date y m d c s :
  str_drop 10 (pad 4 y +:+ String "-" (pad 2 m +:+ String "-" (pad 2 d +:+ String c s))) = String c s.
Proof. reflexivity. Qed.

Lemma isoformat_text t y m d :
  civil_from_days (t / second / day_s) = (y, m, d) →
  let sod := (t / second) mod day_s in
  isoformat t = pad 4 y +:+ String "-" (pad 2 m +:+ String "-" (pad 2 d +:+ String "T"
    (iso_clock_text (sod / 3600) (sod / 60 mod 60) (sod mod 60) (t mod second)))).
Proof. intros E. unfold isoformat. by rewrite E. Qed.

Lemma days_in_month_le y m : days_in_month y m ≤ 31.
Proof. unfold days_in_month. repeat case_match; lia. Qed.

Lemma year_range z y m d :
  civil_from_days z = (y, m, d) → days_from_civil 1 1 1 ≤ z ≤ days_from_civil 9999 12 31 → 1 ≤ y ≤ 9999.
Proof.
  intros E Hz. destruct (civil_from_days_spec z y m d E) as (Hm & Hd & Hz' & _).
  change (days_from_civil 1 1 1) with (-719162) in Hz. change (days_from_civil 9999 12 31) with 2932896 in Hz.
  pose proof (days_in_month_le y m) as Hdm.
  unfold days_from_civil in Hz'. destruct (Z.leb_spec m 2); cbv zeta in Hz'.
  - rewrite (proj2 (Z.ltb_ge 2 m)) in Hz' by lia. split; divlia.
  - rewrite (proj2 (Z.ltb_lt 2 m)) in Hz' by lia. split; divlia.
Qed.

(** The date of an instant that a [datetime] can hold. *)
Lemma instant_date t y m d :
  instant_ok t → civil_from_days (t / second / day_s) = (y, m, d) → 1 ≤ y ≤ 9999 ∧ 1 ≤ m ≤ 12 ∧ 1 ≤ d ≤ 31.
Proof.
  intros Ht E. pose proof (civil_from_days_spec _ _ _ _ E) as (Hm & Hd & Hz & _).
  pose proof (days_in_month_le y m). split; [|lia].
  eapply year_range; [exact E|]. unfold instant_ok in Ht. revert Ht.
  change (days_from_civil 1 1 1) with (-719162). change (days_from_civil 9999 12 31) with 2932896.
  unfold day_s, second. divlia.
Qed.

(** Reading gives back the instant that was written. *)
Lemma fromisoformat_isoformat t : instant_ok t → fromisoformat (isoformat t) = Ok t.
Proof.
  intros Ht. destruct (civil_from_days (t / second / day_s)) as [[y m] d] eqn:E.
  pose proof (civil_from_days_spec _ _ _ _ E) as (Hm & Hd & Hz & _).
  destruct (instant_date t y m d Ht E) as (Hy & _ & Hdm).
  rewrite (isoformat_text t y m d E). set (sod := (t / second) mod day_s).
  assert (Hsod : 0 ≤ sod < 86400) by (subst sod; apply Z.mod_pos_bound; unfold day_s; lia).
  assert (Hus : 0 ≤ t mod second < second) by (apply Z.mod_pos_bound; unfold second; lia).
  unfold fromisoformat, len. rewrite find_separator_text by (simpl; lia).
  rewrite !length_app_str, pad_length. rewrite (proj2 (Z.ltb_ge _ 7)) by (simpl; lia).
  cbn [mbind option_bind]. rewrite iso_date_text by lia. unfold civil_date.
  rewrite !(proj2 (Z.leb_le _ _)) by lia. cbn [andb mbind option_bind].
  rewrite (proj2 (Nat.ltb_lt _ _)) by (cbn [String.length]; rewrite !length_app_str; cbn [String.length];
    rewrite !length_app_str; cbn [String.length]; rewrite ?pad_length; lia).
  rewrite str_drop_date. change (str_drop (sep_width (String "T" ?r)) (String "T" ?r)) with r.
  rewrite iso_time_text by (done || divlia). cbn [mbind option_bind]. unfold nth0, clock_seconds. simpl.
  rewrite !(proj2 (Z.ltb_lt _ _)) by divlia. cbn [andb need]. f_equal. rewrite Hz.
  assert (Hs : nth0 [sod / 3600; sod / 60 mod 60; sod mod 60] 0 * 3600 +
               nth0 [sod / 3600; sod / 60 mod 60; sod mod 60] 1 * 60 +
               nth0 [sod / 3600; sod / 60 mod 60; sod mod 60] 2 = sod) by (unfold nth0; simpl; divlia).
  rewrite Hs. subst sod. unfold day_s, second. divlia.
Qed.
