(* ===== verification/TextFormats.v ===== *)
(** * Writing the text formats of the traffic generators

    The generators write comma-separated fields without quotes, key-value words of which
    some are quoted, and dates with [strftime]; the readers of [PyText] give back what
    was written. *)

From S2P Require Import Prelude PyStr EventTypes PyText PyDatetime.

(** ** Classes of characters *)

Lemma empty_app_str (s : string) : "" +:+ s = s.
Proof. reflexivity. Qed.

Lemma str_forall_join P c fs :
  P c = true → Forall (λ f, str_forall P f = true) fs → str_forall P (join c fs) = true.
Proof.
  intros Hc. induction 1 as [|f fs Hf Hall IH]; [done|]. destruct fs as [|f' fs]; [exact Hf|].
  change (join c (f :: f' :: fs)) with (f +:+ String c (join c (f' :: fs))).
  rewrite str_forall_app. cbn [str_forall]. by rewrite Hf, Hc, IH.
Qed.

Lemma str_forall_no_char P c s : P c = false → str_forall P s = true → has_char c s = false.
Proof.
  intros Hc. induction s as [|d s IH]; [done|]. cbn [str_forall has_char]. intros [Hd Hs]%andb_true_iff.
  rewrite IH, orb_false_r by done. apply bool_decide_eq_false. intros ->. congruence.
Qed.

Lemma str_Z_true n : str_true (str_Z n) = true.
Proof. pose proof (str_Z_nonempty n). by destruct (str_Z n). Qed.

Lemma digits_str_Z P n : 0 ≤ n → (∀ c, is_digit c = true → P c = true) → str_forall P (str_Z n) = true.
Proof. intros Hn HP. eapply str_forall_impl; [exact HP|by apply str_Z_digits]. Qed.

Lemma is_digit_char_ok n : 0 ≤ n < 10 → is_digit (digit_char n) = true.
Proof.
  intros. assert (Hn : n ∈ seqZ 0 10) by (apply elem_of_seqZ; lia). revert n Hn H.
  apply (Forall_forall (λ n, 0 ≤ n < 10 → is_digit (digit_char n) = true)). by repeat constructor.
Qed.

Lemma digits_pad P k n : 0 ≤ n < 10 ^ Z.of_nat k → (∀ c, is_digit c = true → P c = true) → str_forall P (pad k n) = true.
Proof.
  intros Hn HP. revert n Hn. induction k as [|k IH]; intros n Hn; [done|]. cbn [pad str_forall].
  rewrite HP by (apply is_digit_char_ok; by apply pad_head). simpl. apply IH. apply Z.mod_pos_bound.
  apply Z.pow_pos_nonneg; lia.
Qed.

(** ** Substrings that do not occur *)

Lemma find_sub_no_char c p s : has_char c s = false → find_sub (String c p) s = None.
Proof.
  induction s as [|d s IH]; [done|]. cbn [has_char]. intros [Hd Hs]%orb_false_iff.
  rewrite find_sub_cons, starts_with_cons. rewrite bool_decide_eq_false in Hd. rewrite bool_decide_false by congruence.
  by apply IH.
Qed.

(** A text without [a], before a text that does not have [a] and [b] in a row. *)
Lemma find_pair_app a b s t :
  has_char a s = false → find_sub (String a (String b "")) t = None → find_sub (String a (String b "")) (s +:+ t) = None.
Proof.
  intros Hs Ht. induction s as [|d s IH]; [done|]. cbn [has_char] in Hs. apply orb_false_iff in Hs as [Hd Hs].
  rewrite app_cons_str, find_sub_cons, starts_with_cons. apply bool_decide_eq_false in Hd.
  rewrite bool_decide_false by congruence. by apply IH.
Qed.

(** A text that ends in another character than [a]. *)
Lemma find_pair_last a b c s t :
  c ≠ a → find_sub (String a (String b "")) (s +:+ String c "") = None → find_sub (String a (String b "")) t = None →
  find_sub (String a (String b "")) (s +:+ String c t) = None.
Proof.
  intros Hc. induction s as [|d s IH]; intros Hs Ht.
  - rewrite empty_app_str, find_sub_cons, starts_with_cons, bool_decide_false by congruence. done.
  - rewrite app_cons_str, find_sub_cons, starts_with_cons in Hs |- *.
    destruct (bool_decide (a = d)); [|by apply IH]. cbn [andb] in *.
    assert (E : starts_with (s +:+ String c t) (String b "") = starts_with (s +:+ String c "") (String b "")).
    { destruct s as [|e s]; [rewrite !empty_app_str|rewrite !app_cons_str]; by rewrite !starts_with_cons, !starts_with_nil. }
    rewrite E. destruct (starts_with _ _); [done|]. by apply IH.
Qed.

Lemma find_pair_cons a b c t :
  c ≠ b → find_sub (String a (String b "")) (String c t) = None →
  find_sub (String a (String b "")) (String a (String c t)) = None.
Proof.
  intros Hc Ht. rewrite find_sub_cons, starts_with_cons, starts_with_cons, (bool_decide_false (b = c)) by congruence.
  by rewrite andb_false_r.
Qed.

Lemma find_sub_here p s : find_sub p (p +:+ s) = Some (p +:+ s).
Proof.
  assert (Hs : starts_with (p +:+ s) p = true).
  { induction p as [|c p IH]; [apply starts_with_nil|]. by rewrite app_cons_str, starts_with_cons, bool_decide_true. }
  destruct (p +:+ s) eqn:E; [by destruct p|]. cbn [find_sub]. by rewrite Hs.
Qed.

Lemma contains_app p a b : contains p b = true → contains p (a +:+ b) = true.
Proof.
  unfold contains. rewrite !bool_decide_eq_true. induction a as [|c a IH]; [done|]. intros Hb.
  rewrite app_cons_str, find_sub_cons. destruct (starts_with _ p); [done|by apply IH].
Qed.

Lemma contains_here p s : contains p (p +:+ s) = true.
Proof. unfold contains. by rewrite find_sub_here, bool_decide_true. Qed.

(** ** Fields without quotes *)

Definition csv_plain (c : ascii) : bool :=
  negb (is_eol c) && negb (bool_decide (c = dquote)) && negb (bool_decide (c = ","%char)).

Lemma csv_plain_char st g fields c s :
  csv_plain c = true → st = StartRecord ∨ st = StartField ∨ st = InField →
  csv_go (mkCsv st g fields) (String c s) = csv_go (mkCsv InField (String c g) fields) s.
Proof.
  unfold csv_plain. rewrite !andb_true_iff, !negb_true_iff. intros ((He & Hq%bool_decide_eq_false) & Hc%bool_decide_eq_false) Hst.
  assert (Hn : c ≠ nl) by (intros ->; vm_compute in He; discriminate).
  assert (Hch : csv_char (mkCsv st g fields) c = Some (mkCsv InField (String c g) fields)).
  { unfold csv_char, csv_start. destruct Hst as [-> | [-> | -> ] ]; cbn [cs_state]; rewrite ?He, ?decide_False by done; done. }
  cbn [csv_go]. by rewrite Hch, decide_False.
Qed.

Lemma csv_plain_field f g st fields rest :
  str_forall csv_plain f = true → f ≠ "" → st = StartRecord ∨ st = StartField ∨ st = InField →
  csv_go (mkCsv st g fields) (f +:+ rest) = csv_go (mkCsv InField (String.rev_app f g) fields) rest.
Proof.
  revert g st. induction f as [|c f IH]; intros g st Hf Hne Hst; [done|]. cbn [str_forall] in Hf.
  apply andb_true_iff in Hf as [Hc Hf]. rewrite app_cons_str, csv_plain_char by done.
  destruct f as [|d f]; [done|]. apply IH; [done|done|by right; right].
Qed.

Lemma csv_go_join f fs st fields :
  Forall (λ f, str_forall csv_plain f = true) (f :: fs) → st = StartField ∨ st = StartRecord ∧ f ≠ "" →
  csv_go (mkCsv st "" fields) (join "," (f :: fs)) = Ok (rev fields ++ f :: fs).
Proof.
  revert f st fields. induction fs as [|f' fs IH]; intros f st fields Hall Hst; apply Forall_cons in Hall as [Hf Hall].
  - change (join "," [f]) with f. destruct (decide (f = "")) as [->|Hne].
    + destruct Hst as [-> | [-> ?] ]; [|done]. simpl. unfold csv_save. simpl. done.
    + rewrite <- (app_nil_str f) at 1. rewrite csv_plain_field by (naive_solver). simpl. by rewrite rev_rev_app.
  - change (join "," (f :: f' :: fs)) with (f +:+ String "," (join "," (f' :: fs))).
    assert (Hgo : csv_go (mkCsv st "" fields) (f +:+ String "," (join "," (f' :: fs))) =
                  csv_go (mkCsv StartField "" (f :: fields)) (join "," (f' :: fs))).
    { destruct (decide (f = "")) as [->|Hne].
      - destruct Hst as [-> | [-> ?] ]; done.
      - rewrite csv_plain_field by naive_solver. simpl. unfold csv_save. simpl. by rewrite rev_rev_app. }
    rewrite Hgo, IH by (auto). simpl. by rewrite <- app_assoc.
Qed.

Lemma csv_first_join f fs :
  Forall (λ f, str_forall csv_plain f = true) (f :: fs) → f ≠ "" → csv_first (join "," (f :: fs)) = Ok (Some (f :: fs)).
Proof.
  intros Hall Hne. pose proof (csv_go_join f fs StartRecord [] Hall ltac:(by right)) as Hgo.
  unfold csv_first. destruct (join "," (f :: fs)) eqn:E; [|by rewrite Hgo].
  by destruct f, fs.
Qed.

(** ** Dates *)

(** [strftime] with ["%Y/%m/%d %H:%M:%S"], ["%Y-%m-%d"] and ["%H:%M:%S"], for years of four
    digits. *)
Definition clock_text (t : Z) : string :=
  let sod := (t / second) mod day_s in
  pad 2 (sod / 3600) +:+ ":" +:+ pad 2 (sod / 60 mod 60) +:+ ":" +:+ pad 2 (sod mod 60).

Definition strftime_date (sep : ascii) (t : Z) : string :=
  let '(y, m, d) := civil_from_days (t / second / day_s) in
  pad 4 y +:+ String sep (pad 2 m +:+ String sep (pad 2 d)).

Definition strftime_slash (t : Z) : string := strftime_date "/" t +:+ " " +:+ clock_text t.

Lemma num2_pad lo hi n s : 0 ≤ lo → lo ≤ n ≤ hi → hi < 100 → num2 lo hi (pad 2 n +:+ s) = Some (n, s).
Proof.
  intros Hlo Hn Hhi. change (pad 2 n +:+ s) with (String (digit_char (n / 10)) (String (digit_char (n mod 10 / 1)) s)).
  rewrite Z.div_1_r. cbn [num2]. rewrite !digit_val_digit by divlia. cbn [mbind option_bind].
  replace (10 * (n / 10) + n mod 10) with n by divlia.
  by rewrite (proj2 (Z.leb_le lo n)), (proj2 (Z.leb_le n hi)) by lia.
Qed.

Lemma num_day_pad d s : 1 ≤ d ≤ 31 → num_day (pad 2 d +:+ s) = Some (d, s).
Proof.
  intros Hd. rewrite <- (num2_pad 1 31 d s) by lia.
  change (pad 2 d +:+ s) with (String (digit_char (d / 10)) (String (digit_char (d mod 10 / 1)) s)).
  generalize (String (digit_char (d mod 10 / 1)) s). intros r.
  apply (digit_char_cases (d / 10) (λ c, num_day (String c r) = num2 1 31 (String c r))); [reflexivity..|]. divlia.
Qed.

Lemma num4_pad y s : 0 ≤ y < 10000 → num4 (pad 4 y +:+ s) = Some (y, s).
Proof.
  intros Hy. pose proof (take_digits_pad 4 y 0 s ltac:(exact Hy)) as Ht. revert Ht.
  generalize (pad_length 4 y). by destruct (pad 4 y) as [|a [|b [|c [|d [|e r] ] ] ] ].
Qed.

Lemma lit_here c s : lit c (String c s) = Some s.
Proof. unfold lit. by rewrite decide_True. Qed.

Lemma blanks_pad n s : 0 ≤ n < 100 → blanks (String " " (pad 2 n +:+ s)) = Some (pad 2 n +:+ s).
Proof.
  intros Hn. cbn [blanks]. change (is_space " ") with true. cbv iota. f_equal.
  change (pad 2 n +:+ s) with (String (digit_char (n / 10)) (String (digit_char (n mod 10 / 1)) s)).
  cbn [lstrip_by]. by rewrite is_digit_not_space by (apply is_digit_char_ok; divlia).
Qed.

(** A date and clock in the format of the firewall is read to the second. *)
Lemma strptime_strftime t : instant_ok t → strptime_slash (strftime_slash t) = Some (t / second * second).
Proof.
  intros Ht. unfold strftime_slash, strftime_date, clock_text.
  destruct (civil_from_days (t / second / day_s)) as [[y m] d] eqn:E.
  destruct (instant_date _ _ _ _ Ht E) as (Hy & Hm & Hd). destruct (civil_from_days_spec _ _ _ _ E) as (_ & Hdm & Hz & _).
  set (sod := (t / second) mod day_s).
  assert (Hs : 0 ≤ sod < 86400) by (unfold sod, day_s; apply Z.mod_pos_bound; lia).
  rewrite !app_assoc_str, !app_cons_str, !app_assoc_str, !app_cons_str, !empty_app_str. unfold strptime_slash.
  rewrite num4_pad by lia. cbn [mbind option_bind]. rewrite lit_here. cbn [mbind option_bind].
  rewrite num2_pad by lia. cbn [mbind option_bind]. rewrite lit_here. cbn [mbind option_bind].
  rewrite num_day_pad by lia. cbn [mbind option_bind]. rewrite blanks_pad by divlia. cbn [mbind option_bind].
  rewrite num2_pad by divlia. cbn [mbind option_bind]. rewrite lit_here. cbn [mbind option_bind].
  rewrite num2_pad by divlia. cbn [mbind option_bind]. rewrite lit_here. cbn [mbind option_bind].
  rewrite <- (app_nil_str (pad 2 (sod mod 60))), num2_pad by divlia. cbn [mbind option_bind at_end].
  unfold make_instant. rewrite (proj2 (Z.leb_le 1 y)), (proj2 (Z.leb_le d _)), (proj2 (Z.leb_le _ 59)) by (lia || divlia).
  cbn [andb]. rewrite Hz. do 2 f_equal. unfold sod, day_s. divlia.
Qed.

(** ** Key-value words, some of them quoted *)

(** A key, a value, and whether the value is in quotes. *)
Abbreviation word := (string * string * bool)%type.

Definition sh_word (w : word) : string := if w.2 then sh_pair w.1 else w.1.1 +:+ String "=" w.1.2.
Definition word_text (w : word) : string := w.1.1 +:+ String "=" w.1.2.
Definition word_ok (w : word) : bool :=
  str_forall plain_char w.1.1 && (w.2 || str_forall plain_char w.1.2).

Lemma sx_run_word w tokens rest :
  word_ok w = true →
  sx_run (mkShlex Between "" false tokens) (sh_word w +:+ rest) =
  sx_run (mkShlex InWord (String.rev_app (word_text w) "") w.2 tokens) rest.
Proof.
  destruct w as [[k v] q]. unfold word_ok, sh_word, word_text. cbn [fst snd]. intros [Hk Hv]%andb_true_iff.
  destruct q; [by apply (sx_run_pair (k, v))|]. apply sx_run_plain; [by left| |by destruct k].
  rewrite str_forall_app, Hk. exact Hv.
Qed.

Lemma sx_emit_word w tokens :
  sx_emit (mkShlex InWord (String.rev_app (word_text w) "") w.2 tokens) = mkShlex Between "" false (word_text w :: tokens).
Proof.
  unfold sx_emit. cbn [sx_token sx_quoted sx_tokens]. rewrite rev_rev_app.
  assert (Ht : str_true (String.rev_app (word_text w) "") = true); [|by rewrite Ht].
  destruct (String.rev_app (word_text w) "") eqn:E; [|done]. pose proof (rev_rev_app (word_text w)) as Hr.
  rewrite E in Hr. unfold word_text in Hr. by destruct w as [[[] ?] ?].
Qed.

Lemma shlex_words ws :
  ws ≠ [] → Forall (λ w, word_ok w = true) ws → shlex_split (join " " (sh_word <$> ws)) = Ok (word_text <$> ws).
Proof.
  intros Hne Hall.
  assert (Hgo : ∀ tokens, let a := sx_run (mkShlex Between "" false tokens) (join " " (sh_word <$> ws)) in
    sx_state a = InWord ∧ rev (sx_tokens (sx_emit a)) = rev tokens ++ (word_text <$> ws)).
  { induction Hall as [|w ws Hw Hall IH]; [done|]. intros tokens. destruct ws as [|w' ws].
    - change (join " " (sh_word <$> [w])) with (sh_word w). rewrite <-(app_nil_str (sh_word w)), sx_run_word by done.
      cbn [sx_run]. by rewrite sx_emit_word.
    - change (join " " (sh_word <$> w :: w' :: ws)) with (sh_word w +:+ String " " (join " " (sh_word <$> w' :: ws))).
      rewrite sx_run_word by done. cbn [sx_run].
      change (sx_char ?a " ") with (sx_emit a). rewrite sx_emit_word.
      destruct (IH ltac:(done) (word_text w :: tokens)) as [Hs Ht]. split; [done|]. rewrite Ht. simpl.
      by rewrite <- app_assoc. }
  destruct (Hgo []) as [Hs Ht]. unfold shlex_split. by rewrite Hs, Ht.
Qed.

Lemma sh_escape_plain v : str_forall plain_char v = true → sh_escape v = v.
Proof.
  induction v as [|c v IH]; [done|]. cbn [str_forall sh_escape]. intros [Hc Hv]%andb_true_iff.
  unfold plain_char, is_quote in Hc. rewrite !andb_true_iff, !negb_true_iff, orb_false_iff, !bool_decide_eq_false in Hc.
  rewrite decide_False by tauto. by rewrite IH.
Qed.
