(* ===== verification/PyJson.v ===== *)
(** * JSON text ([json.loads] and [json.dumps] of the standard library)

    The values, the decoder as CPython's scanner works through the text, and the
    encoder with [ensure_ascii].  An integer is exact; a number with a fraction or
    an exponent is kept as its literal.  A [\u] escape of a lone surrogate decodes
    to the three bytes that a surrogate would have in UTF-8. *)

From S2P Require Import Prelude PyDict PyStr PyText.

Inductive json : Type :=
  | JNull
  | JBool (b : bool)
  | JInt (z : Z)
  | JFloat (lit : string)
  | JStr (s : string)
  | JArr (l : list json)
  | JObj (d : pydict string json).

(** ** Decoding *)

Definition is_jspace (c : ascii) : bool := between 9 10 c || between 13 13 c || between 32 32 c.

Definition skip_ws : string → string := lstrip_by is_jspace.

Definition chr_Z (z : Z) : ascii := ascii_of_N (Z.to_N z).

(** The UTF-8 bytes of a code point. *)
Definition utf8_encode (u : Z) : string :=
  if u <? 128 then String (chr_Z u) ""
  else if u <? 2048 then String (chr_Z (192 + u / 64)) (String (chr_Z (128 + u mod 64)) "")
  else if u <? 65536 then
    String (chr_Z (224 + u / 4096)) (String (chr_Z (128 + (u / 64) mod 64)) (String (chr_Z (128 + u mod 64)) ""))
  else
    String (chr_Z (240 + u / 262144))
      (String (chr_Z (128 + (u / 4096) mod 64))
         (String (chr_Z (128 + (u / 64) mod 64)) (String (chr_Z (128 + u mod 64)) ""))).

(** Four hexadecimal digits, and what follows them. *)
Definition hex4 (s : string) : option (Z * string) :=
  match s with
  | String a (String b (String c (String d r))) =>
      x ← hex_val a; y ← hex_val b; z ← hex_val c; w ← hex_val d;
      Some (((x * 16 + y) * 16 + z) * 16 + w, r)
  | _ => None
  end.

(** The escapes of one character. *)
Definition simple_escape (e : ascii) : option ascii :=
  if bool_decide (e = dquote) then Some dquote
  else if bool_decide (e = backslash) then Some backslash
  else if bool_decide (e = "/"%char) then Some "/"%char
  else if bool_decide (e = "b"%char) then Some (ascii_of_nat 8)
  else if bool_decide (e = "f"%char) then Some (ascii_of_nat 12)
  else if bool_decide (e = "n"%char) then Some nl
  else if bool_decide (e = "r"%char) then Some cret
  else if bool_decide (e = "t"%char) then Some (ascii_of_nat 9)
  else None.

Definition is_high (u : Z) : bool := (55296 <=? u) && (u <=? 56319).
Definition is_low (u : Z) : bool := (56320 <=? u) && (u <=? 57343).

(** The low surrogate that follows a high one, if it does. *)
Definition low_after (r : string) : option Z :=
  match r with
  | String b (String u r') =>
      if bool_decide (b = backslash) && bool_decide (u = "u"%char) then
        match hex4 r' with
        | Some (u2, _) => if is_low u2 then Some u2 else None
        | None => None
        end
      else None
  | _ => None
  end.

(** The text after a backslash: what it stands for and its length. *)
Definition escape (r : string) : option (string * nat) :=
  match r with
  | EmptyString => None
  | String e r1 =>
      if bool_decide (e = "u"%char) then
        match hex4 r1 with
        | None => None
        | Some (u, r2) =>
            match (if is_high u then low_after r2 else None) with
            | Some u2 => Some (utf8_encode (65536 + (u - 55296) * 1024 + (u2 - 56320)), 11%nat)
            | None => Some (utf8_encode u, 5%nat)
            end
        end
      else match simple_escape e with Some c => Some (String c "", 1%nat) | None => None end
  end.

(** [scanstring] with the number of characters of an escape still to skip. *)
Fixpoint scan_string (skip : nat) (s : string) : result (string * string) :=
  match s with
  | EmptyString => Raise ValueError
  | String c rest =>
      match skip with
      | S k => scan_string k rest
      | O =>
          if bool_decide (c = dquote) then Ok ("", rest)
          else if bool_decide (c = backslash) then
            match escape rest with
            | None => Raise ValueError
            | Some (t, n) => '(u, r) ← scan_string n rest; Ok (t +:+ u, r)
            end
          else if code c <? 32 then Raise ValueError
          else '(u, r) ← scan_string 0 rest; Ok (String c u, r)
      end
  end.

(** The longest run of digits, and the rest. *)
Fixpoint digit_run (s : string) : string * string :=
  match s with
  | EmptyString => ("", "")
  | String c r => if is_digit c then let '(d, r') := digit_run r in (String c d, r') else ("", s)
  end.

(** The integer part of a number: zero alone, or no leading zero. *)
Definition int_part (s : string) : option (string * string) :=
  match s with
  | EmptyString => None
  | String c r =>
      if bool_decide (c = "0"%char) then Some ("0", r)
      else if is_digit c then Some (digit_run s) else None
  end.

Definition frac_part (s : string) : string * string :=
  match s with
  | String "." r => let '(d, r') := digit_run r in if str_true d then (String "." d, r') else ("", s)
  | _ => ("", s)
  end.

Definition exp_sign (s : string) : string * string :=
  match s with
  | String c r => if bool_decide (c = "+"%char) || bool_decide (c = "-"%char) then (String c "", r) else ("", s)
  | EmptyString => ("", s)
  end.

Definition exp_part (s : string) : string * string :=
  match s with
  | String c r =>
      if bool_decide (c = "e"%char) || bool_decide (c = "E"%char) then
        let '(sg, r1) := exp_sign r in
        let '(d, r2) := digit_run r1 in
        if str_true d then (String c (sg +:+ d), r2) else ("", s)
      else ("", s)
  | EmptyString => ("", s)
  end.

(** [NUMBER_RE] at the start of the text. *)
Definition scan_number (s : string) : option (result json * string) :=
  let '(sg, s1) := match s with String "-" r => ("-", r) | _ => ("", s) end in
  '(i, s2) ← int_part s1;
  let '(f, s3) := frac_part s2 in
  let '(e, s4) := exp_part s3 in
  if str_true f || str_true e then Some (Ok (JFloat (sg +:+ i +:+ f +:+ e)), s4)
  else Some (JInt <$> parse_int (sg +:+ i), s4).

(** A literal word at the start of the text. *)
Definition literal (w : string) (v : json) (s : string) : option (json * string) :=
  if starts_with s w then Some (v, str_drop (String.length w) s) else None.

Fixpoint first_some {A} (l : list (option A)) : option A :=
  match l with [] => None | Some a :: _ => Some a | None :: r => first_some r end.

(** The scalars that are not strings. *)
Definition scan_scalar (s : string) : result (json * string) :=
  match first_some [literal "null" JNull s; literal "true" (JBool true) s; literal "false" (JBool false) s] with
  | Some r => Ok r
  | None =>
      match scan_number s with
      | Some (v, r) => v ← v; Ok (v, r)
      | None =>
          need ValueError
            (first_some [literal "NaN" (JFloat "NaN") s; literal "Infinity" (JFloat "Infinity") s;
                         literal "-Infinity" (JFloat "-Infinity") s])
      end
  end.

(** The text after an expected character. *)
Definition expect (c : ascii) (s : string) : result string :=
  match s with
  | String d r => if bool_decide (d = c) then Ok r else Raise ValueError
  | EmptyString => Raise ValueError
  end.

(** After the blanks that follow an opening bracket: the closing one, or the first
    item. *)
Definition after_open (close : ascii) (empty : json) (items : string → result (json * string))
    (rest : string) : result (json * string) :=
  match skip_ws rest with
  | String c r => if bool_decide (c = close) then Ok (empty, r) else items (String c r)
  | EmptyString => items ""
  end.

(** After an item: the closing bracket, or a comma and the next item. *)
Definition after_item (close : ascii) (whole : json) (items : string → result (json * string))
    (rest : string) : result (json * string) :=
  match skip_ws rest with
  | String c r =>
      if bool_decide (c = close) then Ok (whole, r)
      else if bool_decide (c = ","%char) then items (skip_ws r)
      else Raise ValueError
  | EmptyString => Raise ValueError
  end.

(** [scan_once], and the loops of [JSONArray] and [JSONObject]. *)
Fixpoint value (n : nat) (s : string) : result (json * string) :=
  match n with
  | O => Raise OtherError
  | S n =>
      match s with
      | EmptyString => Raise ValueError
      | String c rest =>
          if bool_decide (c = dquote) then '(t, r) ← scan_string 0 rest; Ok (JStr t, r)
          else if bool_decide (c = "["%char) then after_open "]" (JArr []) (json_elements n []) rest
          else if bool_decide (c = "{"%char) then after_open "}" (JObj []) (json_members n []) rest
          else scan_scalar s
      end
  end
with json_elements (n : nat) (acc : list json) (s : string) : result (json * string) :=
  match n with
  | O => Raise OtherError
  | S n =>
      '(v, r) ← value n s;
      after_item "]" (JArr (acc ++ [v])) (json_elements n (acc ++ [v])) r
  end
with json_members (n : nat) (acc : pydict string json) (s : string) : result (json * string) :=
  match n with
  | O => Raise OtherError
  | S n =>
      r ← expect dquote s;
      '(k, r) ← scan_string 0 r;
      r ← expect ":" (skip_ws r);
      '(v, r) ← value n (skip_ws r);
      after_item "}" (JObj (dset k v acc)) (json_members n (dset k v acc)) r
  end.

(** Enough fuel for a text. *)
Definition json_fuel (s : string) : nat := (2 * String.length s + 1)%nat.

Definition bom : string := utf8_encode 65279.

Definition loads (s : string) : result json :=
  if starts_with s bom then Raise ValueError
  else
    '(v, r) ← value (json_fuel (skip_ws s)) (skip_ws s);
    if decide (skip_ws r = "") then Ok v else Raise ValueError.

(** ** Encoding *)

Definition hex_char (n : Z) : ascii := chr_Z (if n <? 10 then 48 + n else 87 + n).

(** The [\u] escape of a 16-bit unit. *)
Definition u_escape (u : Z) : string :=
  String backslash
    (String "u" (String (hex_char (u / 4096)) (String (hex_char ((u / 256) mod 16))
       (String (hex_char ((u / 16) mod 16)) (String (hex_char (u mod 16)) ""))))).

(** [ESCAPE_DCT] *)
Definition short_escape (c : ascii) : option ascii :=
  if bool_decide (c = dquote) then Some dquote
  else if bool_decide (c = backslash) then Some backslash
  else if bool_decide (c = nl) then Some "n"%char
  else if bool_decide (c = cret) then Some "r"%char
  else if bool_decide (c = ascii_of_nat 9) then Some "t"%char
  else if bool_decide (c = ascii_of_nat 12) then Some "f"%char
  else if bool_decide (c = ascii_of_nat 8) then Some "b"%char
  else None.

Definition dump_char (c : ascii) : string :=
  match short_escape c with
  | Some e => String backslash (String e "")
  | None => if between 32 126 c then String c "" else u_escape (code c)
  end.

Definition low6 (s : string) (i : nat) : Z :=
  match String.get i s with Some c => code c mod 64 | None => 0 end.

(** The code point that starts with a byte of 128 or more, and the number of bytes
    that follow. *)
Definition code_point (c : ascii) (r : string) : Z * nat :=
  if code c <? 224 then ((code c mod 32) * 64 + low6 r 0, 1%nat)
  else if code c <? 240 then (((code c mod 16) * 64 + low6 r 0) * 64 + low6 r 1, 2%nat)
  else ((((code c mod 8) * 64 + low6 r 0) * 64 + low6 r 1) * 64 + low6 r 2, 3%nat).

Definition dump_code_point (u : Z) : string :=
  if u <? 65536 then u_escape u
  else u_escape (55296 + (u - 65536) / 1024) +:+ u_escape (56320 + (u - 65536) mod 1024).

Fixpoint dump_chars (skip : nat) (s : string) : string :=
  match s with
  | EmptyString => ""
  | String c r =>
      match skip with
      | S k => dump_chars k r
      | O =>
          if code c <? 128 then dump_char c +:+ dump_chars 0 r
          else let '(u, k) := code_point c r in dump_code_point u +:+ dump_chars k r
      end
  end.

Definition dump_string (s : string) : string := String dquote (dump_chars 0 s +:+ String dquote "").

(** [json.dumps] with the separators of items and of keys. *)
Fixpoint dumps (isep ksep : string) (v : json) : string :=
  match v with
  | JNull => "null"
  | JBool b => if b then "true" else "false"
  | JInt z => str_Z z
  | JFloat lit => lit
  | JStr s => dump_string s
  | JArr l => String "[" (String.concat isep (map (dumps isep ksep) l) +:+ "]")
  | JObj d =>
      String "{"
        (String.concat isep (map (λ kv, dump_string kv.1 +:+ ksep +:+ dumps isep ksep kv.2) d) +:+ "}")
  end.

Definition dumps_compact : json → string := dumps "," ":".
Definition dumps_default : json → string := dumps ", " ": ".

(** ** Reading a decoded value *)

(** [d.get(k)] on an object; another value has no [get]. *)
Definition jget (k : string) (v : json) : result (option json) :=
  match v with JObj d => Ok (dget k d) | _ => Raise AttributeError end.

(** [v[k]] *)
Definition jitem (k : string) (v : json) : result json :=
  match v with JObj d => need KeyError (dget k d) | _ => Raise TypeError end.

(** What the language does with values the development does not take apart:
    whether the double of a number with a fraction equals an integer, its text and
    its integer part, and the text of a list or a dictionary. *)
Class PyPrims : Type := {
  float_is : string → Z → bool;
  float_str : string → string;
  container_str : json → string;
  float_trunc : string → result Z
}.

(** The truth value. *)
Definition jtrue `{PyPrims} (v : json) : bool :=
  match v with
  | JNull => false
  | JBool b => b
  | JInt z => negb (z =? 0)
  | JFloat lit => negb (float_is lit 0)
  | JStr s => str_true s
  | JArr l => match l with [] => false | _ => true end
  | JObj d => match d with [] => false | _ => true end
  end.

(** [v == z] for an integer [z]. *)
Definition jeq_int `{PyPrims} (v : json) (z : Z) : bool :=
  match v with
  | JInt x => x =? z
  | JBool b => (if b then 1 else 0) =? z
  | JFloat lit => float_is lit z
  | _ => false
  end.

(** [v == s] for a text [s]. *)
Definition jeq_str (v : json) (s : string) : bool :=
  match v with JStr t => bool_decide (t = s) | _ => false end.

(** [str(v)] *)
Definition json_str `{PyPrims} (v : json) : string :=
  match v with
  | JNull => "None"
  | JBool b => if b then "True" else "False"
  | JInt z => str_Z z
  | JFloat lit => float_str lit
  | JStr s => s
  | JArr _ | JObj _ => container_str v
  end.

(** [int(v)] *)
Definition json_int `{PyPrims} (v : json) : result Z :=
  match v with
  | JInt z => Ok z
  | JBool b => Ok (if b then 1 else 0)
  | JFloat lit => float_trunc lit
  | JStr s => py_int s
  | JNull | JArr _ | JObj _ => Raise TypeError
  end.

(** [d.get(k, v0)] and [d.get(k)] with [None] for an absent key. *)
Definition jget_or (k : string) (v0 : json) (v : json) : result json :=
  o ← jget k v; Ok (default v0 o).
Definition jget_none (k : string) (v : json) : result json := jget_or k JNull v.

(** A method of [str] on a value. *)
Definition as_str (v : json) : result string :=
  match v with JStr s => Ok s | _ => Raise AttributeError end.

(** The items of [for x in v]. *)
Definition iter_json (v : json) : result (list json) :=
  match v with
  | JArr l => Ok l
  | JObj d => Ok (JStr <$> dkeys d)
  | JStr s => Ok ((λ c, JStr (String c "")) <$> String.list_ascii_of_string s)
  | _ => Raise TypeError
  end.

(** ** The fuel is enough *)

Lemma lstrip_by_length P s : (String.length (lstrip_by P s) ≤ String.length s)%nat.
Proof. induction s as [|c s IH]; simpl; [lia|]. destruct (P c); simpl; lia. Qed.

Lemma skip_ws_length s : (String.length (skip_ws s) ≤ String.length s)%nat.
Proof. apply lstrip_by_length. Qed.

Lemma scan_string_length k s t r :
  scan_string k s = Ok (t, r) → (String.length r < String.length s)%nat.
Proof.
  revert k t r. induction s as [|c s IH]; intros k t r; simpl; [done|].
  destruct k as [|k]; [|intros H%IH; lia].
  destruct (bool_decide (c = dquote)); [intros [= <- <-]; lia|].
  destruct (bool_decide (c = backslash)).
  - destruct (escape s) as [[u n]|]; [|done].
    destruct (scan_string n s) as [[v r']|] eqn:E; simpl; [|done]. intros [= <- <-]. apply IH in E. lia.
  - destruct (code c <? 32); [done|].
    destruct (scan_string 0 s) as [[v r']|] eqn:E; simpl; [|done]. intros [= <- <-]. apply IH in E. lia.
Qed.

Lemma digit_run_length s : (String.length (digit_run s).2 ≤ String.length s)%nat.
Proof.
  induction s as [|c s IH]; simpl; [lia|]. destruct (is_digit c); simpl; [|lia].
  destruct (digit_run s); simpl in *; lia.
Qed.

Lemma int_part_length s i r : int_part s = Some (i, r) → (String.length r < String.length s)%nat.
Proof.
  destruct s as [|c s]; simpl; [done|]. destruct (bool_decide _); [intros [= <- <-]; lia|].
  destruct (is_digit c) eqn:Hd; [|done].
  pose proof (digit_run_length s). destruct (digit_run s); simpl in *. intros [= <- <-]. lia.
Qed.

Lemma frac_part_length s : (String.length (frac_part s).2 ≤ String.length s)%nat.
Proof.
  destruct s as [|c s]; simpl; [lia|]. pose proof (digit_run_length s).
  destruct c as [[] [] [] [] [] [] [] []]; simpl; try lia.
  destruct (digit_run s) as [d r]; simpl in *. destruct (str_true d); simpl; lia.
Qed.

Lemma exp_sign_length s : (String.length (exp_sign s).2 ≤ String.length s)%nat.
Proof. destruct s as [|c s]; simpl; [lia|]. destruct (_ || _); simpl; lia. Qed.

Lemma exp_part_length s : (String.length (exp_part s).2 ≤ String.length s)%nat.
Proof.
  destruct s as [|c s]; simpl; [lia|]. destruct (_ || _); simpl; [|lia].
  pose proof (exp_sign_length s). destruct (exp_sign s) as [sg r1]; simpl in *.
  pose proof (digit_run_length r1). destruct (digit_run r1) as [d r2]; simpl in *.
  destruct (str_true d); simpl; lia.
Qed.

Lemma scan_number_length s v r :
  scan_number s = Some (v, r) → (String.length r < String.length s)%nat.
Proof.
  unfold scan_number.
  set (sgn := match s with String "-" r => ("-", r) | _ => ("", s) end).
  assert (Hs : (String.length sgn.2 ≤ String.length s)%nat).
  { subst sgn. destruct s as [|c s]; simpl; [lia|]. destruct c as [[] [] [] [] [] [] [] []]; simpl; lia. }
  destruct sgn as [sg s1]. simpl in Hs. destruct (int_part s1) as [[i s2]|] eqn:Ei; simpl; [|done].
  apply int_part_length in Ei. pose proof (frac_part_length s2). destruct (frac_part s2) as [f s3]; simpl in *.
  pose proof (exp_part_length s3). destruct (exp_part s3) as [e s4]; simpl in *.
  destruct (_ || _); intros [= <- <-]; lia.
Qed.

Lemma str_drop_lt n s : (0 < n)%nat → s ≠ "" → (String.length (str_drop n s) < String.length s)%nat.
Proof. intros. rewrite str_drop_length. destruct s; simpl; [done|lia]. Qed.

Lemma literal_length w v s x r :
  w ≠ "" → literal w v s = Some (x, r) → (String.length r < String.length s)%nat.
Proof.
  intros Hw. unfold literal. destruct (starts_with s w) eqn:E; [|done]. intros [= <- <-].
  apply str_drop_lt; [destruct w; simpl; [done|lia]|]. by destruct s, w.
Qed.

Lemma first_some_spec {A} (l : list (option A)) a : first_some l = Some a → Some a ∈ l.
Proof. induction l as [|[b|] l IH]; simpl; [done|intros [= ->]; left|intros; right; auto]. Qed.

Lemma literals_length l s v r :
  Forall (λ wv, wv.1 ≠ "") l →
  first_some (map (λ wv, literal wv.1 wv.2 s) l) = Some (v, r) → (String.length r < String.length s)%nat.
Proof.
  intros Hl Hin%first_some_spec%list_elem_of_In%in_map_iff. destruct Hin as [[w x] [Hw Hin%list_elem_of_In]].
  rewrite Forall_forall in Hl. apply Hl in Hin. by eapply literal_length.
Qed.

Lemma scan_scalar_length s v r : scan_scalar s = Ok (v, r) → (String.length r < String.length s)%nat.
Proof.
  unfold scan_scalar. destruct (first_some _) as [[x y]|] eqn:E1.
  { intros [= <- <-].
    apply (literals_length [("null", JNull); ("true", JBool true); ("false", JBool false)] s) in E1;
      [done|]. by repeat constructor. }
  destruct (scan_number s) as [[[x|] y]|] eqn:E2; simpl.
  - intros [= <- <-]. by eapply scan_number_length.
  - done.
  - intros E3. unfold need in E3.
    case_match eqn:E4; [|done]. injection E3 as ->. rename E4 into E3.
    apply (literals_length [("NaN", JFloat "NaN"); ("Infinity", JFloat "Infinity");
                            ("-Infinity", JFloat "-Infinity")] s) in E3; [done|]. by repeat constructor.
Qed.

Lemma expect_length c s r : expect c s = Ok r → String.length s = S (String.length r).
Proof. destruct s as [|d s]; simpl; [done|]. destruct (bool_decide _); [|done]. by intros [= <-]. Qed.

(** What follows the decoded item is shorter than the text. *)
Definition shorter (s : string) (x : result (json * string)) : Prop :=
  ∀ v r, x = Ok (v, r) → (String.length r < String.length s)%nat.

Lemma after_open_shorter close e items rest s :
  (∀ s, shorter s (items s)) → (String.length rest < String.length s)%nat →
  shorter s (after_open close e items rest).
Proof.
  intros IH Hl v r. unfold after_open. pose proof (skip_ws_length rest).
  destruct (skip_ws rest) as [|c r']; [intros E%IH; simpl in *; lia|].
  destruct (bool_decide _); [intros [= <- <-]; simpl in *; lia|]. intros E%IH. lia.
Qed.

Lemma after_item_shorter close w items rest s :
  (∀ s, shorter s (items s)) → (String.length rest < String.length s)%nat →
  shorter s (after_item close w items rest).
Proof.
  intros IH Hl v r. unfold after_item. pose proof (skip_ws_length rest).
  destruct (skip_ws rest) as [|c r']; [done|]. pose proof (skip_ws_length r').
  destruct (bool_decide _); [intros [= <- <-]; simpl in *; lia|].
  destruct (bool_decide _); [|done]. intros E%IH. simpl in *. lia.
Qed.

Lemma value_shorter n :
  (∀ s, shorter s (value n s)) ∧ (∀ acc s, shorter s (json_elements n acc s)) ∧
  (∀ acc s, shorter s (json_members n acc s)).
Proof.
  induction n as [|n (IHv & IHe & IHm)]; [done|]. split; [|split]; intros; intros v r.
  - destruct s as [|c rest]; simpl; [done|].
    destruct (bool_decide _).
    { destruct (scan_string 0 rest) as [[t r']|] eqn:E; simpl; [|done]. intros [= <- <-].
      apply scan_string_length in E. lia. }
    destruct (bool_decide _); [apply (after_open_shorter _ _ _ rest (String c rest)); [apply IHe|simpl; lia]|].
    destruct (bool_decide _); [apply (after_open_shorter _ _ _ rest (String c rest)); [apply IHm|simpl; lia]|].
    apply scan_scalar_length.
  - simpl. destruct (value n s) as [[v' r']|] eqn:E; simpl; [|done]. apply IHv in E.
    by apply (after_item_shorter _ _ _ r' s).
  - simpl. destruct (expect dquote s) as [r1|] eqn:E1; simpl; [|done]. apply expect_length in E1.
    destruct (scan_string 0 r1) as [[k r2]|] eqn:E2; simpl; [|done]. apply scan_string_length in E2.
    destruct (expect ":" _) as [r3|] eqn:E3; simpl; [|done]. apply expect_length in E3.
    destruct (value n _) as [[v' r4]|] eqn:E4; simpl; [|done]. apply IHv in E4.
    pose proof (skip_ws_length r2). pose proof (skip_ws_length r3).
    apply (after_item_shorter _ _ _ r4 s); [apply IHm|lia].
Qed.

Lemma after_open_ext close e f g rest s :
  (String.length rest ≤ String.length s)%nat →
  (∀ t, (String.length t ≤ String.length s)%nat → f t = g t) →
  after_open close e f rest = after_open close e g rest.
Proof.
  intros Hl Hf. unfold after_open. pose proof (skip_ws_length rest).
  destruct (skip_ws rest) as [|c r]; [apply Hf; simpl; lia|].
  destruct (bool_decide _); [done|]. apply Hf. lia.
Qed.

Lemma after_item_ext close e f g rest :
  (∀ t, (String.length t < String.length rest)%nat → f t = g t) →
  after_item close e f rest = after_item close e g rest.
Proof.
  intros Hf. unfold after_item. pose proof (skip_ws_length rest).
  destruct (skip_ws rest) as [|c r]; [done|]. pose proof (skip_ws_length r).
  destruct (bool_decide _); [done|]. destruct (bool_decide _); [|done]. apply Hf. simpl in *. lia.
Qed.

(** Two amounts of fuel that cover the text give the same result. *)
Lemma value_fuel n m :
  (∀ s, (2 * String.length s + 1 ≤ n)%nat → (2 * String.length s + 1 ≤ m)%nat → value n s = value m s) ∧
  (∀ acc s, (2 * String.length s + 2 ≤ n)%nat → (2 * String.length s + 2 ≤ m)%nat →
     json_elements n acc s = json_elements m acc s) ∧
  (∀ acc s, (2 * String.length s + 2 ≤ n)%nat → (2 * String.length s + 2 ≤ m)%nat →
     json_members n acc s = json_members m acc s).
Proof.
  revert m. induction n as [|n IH]; intros m; [split; [|split]; intros; lia|].
  destruct m as [|m]; [split; [|split]; intros; lia|]. destruct (IH m) as (IHv & IHe & IHm).
  destruct (value_shorter m) as (Sv & _ & _). split; [|split]; simpl.
  - intros [|c rest] Hn Hm; [done|]. simpl in Hn, Hm. repeat case_bool_decide; try done;
      apply after_open_ext with (s := rest); try lia; intros t Ht.
    + apply IHe; lia.
    + apply IHm; lia.
  - intros acc s Hn Hm. rewrite IHv by lia. destruct (value m s) as [[v r]|] eqn:E; simpl; [|done].
    apply Sv in E. apply after_item_ext. intros t Ht. apply IHe; lia.
  - intros acc s Hn Hm. destruct (expect dquote s) as [r1|] eqn:E1; simpl; [|done]. apply expect_length in E1.
    destruct (scan_string 0 r1) as [[k r2]|] eqn:E2; simpl; [|done]. apply scan_string_length in E2.
    destruct (expect ":" _) as [r3|] eqn:E3; simpl; [|done]. apply expect_length in E3.
    pose proof (skip_ws_length r2). pose proof (skip_ws_length r3). rewrite IHv by lia.
    destruct (value m _) as [[v r4]|] eqn:E4; simpl; [|done]. apply Sv in E4.
    apply after_item_ext. intros t Ht. apply IHm; lia.
Qed.

(** ** Decoding what was encoded *)

(** The code points that text is made of: no surrogates. *)
Definition scalar (u : Z) : Prop := 0 ≤ u < 55296 ∨ 57344 ≤ u < 1114112.

(** Well-formed UTF-8 text. *)
Inductive text_ok : string → Prop :=
  | text_nil : text_ok ""
  | text_cons u s : scalar u → text_ok s → text_ok (utf8_encode u +:+ s).

Lemma code_chr z : 0 ≤ z < 256 → code (chr_Z z) = z.
Proof. intros. unfold code, chr_Z. rewrite N_ascii_embedding by lia. lia. Qed.

Lemma chr_code c : chr_Z (code c) = c.
Proof. unfold code, chr_Z. rewrite N2Z.id. apply ascii_N_embedding. Qed.

Lemma code_bounds c : 0 ≤ code c < 256.
Proof. unfold code. pose proof (N_ascii_bounded c). lia. Qed.

Lemma ascii_text_ok s : str_forall (λ c, code c <? 128) s = true → text_ok s.
Proof.
  induction s as [|c s IH]; simpl; [constructor|]. intros [Hc Hs]%andb_true_iff.
  apply Z.ltb_lt in Hc. pose proof (code_bounds c).
  replace (String c s) with (utf8_encode (code c) +:+ s).
  - constructor; [unfold scalar; lia|auto].
  - unfold utf8_encode. rewrite (proj2 (Z.ltb_lt _ _)) by lia. by rewrite chr_code, app_cons_str.
Qed.

Lemma hex_val_char n : 0 ≤ n < 16 → hex_val (hex_char n) = Some n.
Proof.
  intros. assert (Hn : n ∈ seqZ 0 16) by (apply elem_of_seqZ; lia). revert n Hn H.
  apply (Forall_forall (λ n, 0 ≤ n < 16 → hex_val (hex_char n) = Some n)). by repeat constructor.
Qed.

Lemma hex4_escape u rest :
  0 ≤ u < 65536 →
  hex4 (String (hex_char (u / 4096)) (String (hex_char ((u / 256) mod 16))
          (String (hex_char ((u / 16) mod 16)) (String (hex_char (u mod 16)) rest)))) = Some (u, rest).
Proof.
  intros Hu. unfold hex4. rewrite !hex_val_char; [|divlia..]. simpl. do 2 f_equal. divlia.
Qed.

Lemma scan_string_skip a b : scan_string (String.length a) (a +:+ b) = scan_string 0 b.
Proof. induction a as [|c a IH]; [by destruct b|]. rewrite app_cons_str. exact IH. Qed.

Lemma dump_chars_skip a b : dump_chars (String.length a) (a +:+ b) = dump_chars 0 b.
Proof. induction a as [|c a IH]; [by destruct b|]. rewrite app_cons_str. exact IH. Qed.

Definition prepend (t : string) (x : result (string * string)) : result (string * string) :=
  '(u, r) ← x; Ok (t +:+ u, r).

Lemma scan_escape body t n tail :
  escape (body +:+ tail) = Some (t, n) → n = String.length body →
  scan_string 0 (String backslash body +:+ tail) = prepend t (scan_string 0 tail).
Proof.
  intros He ->. rewrite app_cons_str. cbn [scan_string]. rewrite bool_decide_false by done.
  rewrite bool_decide_true by done. rewrite He. by rewrite scan_string_skip.
Qed.

Lemma scan_dump_ascii c tail :
  code c < 128 → scan_string 0 (dump_char c +:+ tail) = prepend (String c "") (scan_string 0 tail).
Proof.
  intros Hc. unfold dump_char.
  destruct (short_escape c) as [e|] eqn:He.
  - apply scan_escape with (n := 1%nat); [|done]. rewrite app_cons_str.
    destruct c as [[] [] [] [] [] [] [] []]; vm_compute in He; simplify_eq; done.
  - destruct (between 32 126 c) eqn:Hb.
    + rewrite app_cons_str. destruct c as [[] [] [] [] [] [] [] []]; vm_compute in He, Hb; simplify_eq; done.
    + pose proof (code_bounds c). unfold u_escape. apply scan_escape with (n := 5%nat); [|done].
      rewrite !app_cons_str. unfold escape. rewrite bool_decide_true by done.
      change ("" +:+ tail) with tail. rewrite hex4_escape by lia. unfold is_high.
      rewrite (proj2 (Z.leb_gt _ _)) by lia. simpl. unfold utf8_encode.
      rewrite (proj2 (Z.ltb_lt _ _)) by lia. by rewrite chr_code.
Qed.

Definition dump_scalar (u : Z) : string := if u <? 128 then dump_char (chr_Z u) else dump_code_point u.

Lemma code_point_2 u r : 128 ≤ u < 2048 →
  code_point (chr_Z (192 + u / 64)) (String (chr_Z (128 + u mod 64)) r) = (u, 1%nat).
Proof.
  intros. unfold code_point, low6. simpl. rewrite !code_chr by divlia.
  rewrite (proj2 (Z.ltb_lt _ _)) by divlia. f_equal. divlia.
Qed.

Lemma code_point_3 u r : 2048 ≤ u < 65536 →
  code_point (chr_Z (224 + u / 4096)) (String (chr_Z (128 + (u / 64) mod 64)) (String (chr_Z (128 + u mod 64)) r))
  = (u, 2%nat).
Proof.
  intros. unfold code_point, low6. simpl. rewrite !code_chr by divlia.
  rewrite (proj2 (Z.ltb_ge _ _)), (proj2 (Z.ltb_lt _ _)) by divlia. f_equal. divlia.
Qed.

Lemma code_point_4 u r : 65536 ≤ u < 1114112 →
  code_point (chr_Z (240 + u / 262144))
    (String (chr_Z (128 + (u / 4096) mod 64)) (String (chr_Z (128 + (u / 64) mod 64)) (String (chr_Z (128 + u mod 64)) r)))
  = (u, 3%nat).
Proof.
  intros. unfold code_point, low6. simpl. rewrite !code_chr by divlia.
  rewrite !(proj2 (Z.ltb_ge _ _)) by divlia. f_equal. divlia.
Qed.

Lemma dump_chars_lead c a u s :
  128 ≤ code c → (∀ r, code_point c (a +:+ r) = (u, String.length a)) →
  dump_chars 0 (String c a +:+ s) = dump_code_point u +:+ dump_chars 0 s.
Proof.
  intros Hc Hp. rewrite app_cons_str. cbn [dump_chars]. rewrite (proj2 (Z.ltb_ge _ _)) by lia.
  by rewrite Hp, dump_chars_skip.
Qed.

Lemma dump_chars_scalar u s :
  scalar u → dump_chars 0 (utf8_encode u +:+ s) = dump_scalar u +:+ dump_chars 0 s.
Proof.
  intros Hu. unfold scalar in Hu. unfold utf8_encode, dump_scalar.
  destruct (Z.ltb_spec u 128).
  { rewrite app_cons_str. cbn [dump_chars]. rewrite code_chr by lia.
    by rewrite (proj2 (Z.ltb_lt _ _)) by lia. }
  destruct (Z.ltb_spec u 2048); [|destruct (Z.ltb_spec u 65536)]; apply dump_chars_lead;
    rewrite ?code_chr by divlia; try divlia; intros r; rewrite !app_cons_str.
  - apply code_point_2. lia.
  - apply code_point_3. lia.
  - apply code_point_4. lia.
Qed.

Lemma scan_dump_unit u tail :
  0 ≤ u < 65536 → (is_high u = true → low_after tail = None) →
  scan_string 0 (u_escape u +:+ tail) = prepend (utf8_encode u) (scan_string 0 tail).
Proof.
  intros Hu Hl. unfold u_escape. apply scan_escape with (n := 5%nat); [|done].
  rewrite !app_cons_str. unfold escape. rewrite bool_decide_true by done.
  change ("" +:+ tail) with tail. rewrite hex4_escape by lia. destruct (is_high u); [|done].
  by rewrite Hl.
Qed.

Lemma scan_dump_pair u tail :
  65536 ≤ u < 1114112 →
  scan_string 0 (dump_code_point u +:+ tail) = prepend (utf8_encode u) (scan_string 0 tail).
Proof.
  intros Hu. unfold dump_code_point. rewrite (proj2 (Z.ltb_ge _ _)) by lia.
  set (h := 55296 + _). set (l := 56320 + _).
  assert (Hh : 55296 ≤ h < 56320) by (subst h; divlia).
  assert (Hl : 56320 ≤ l < 57344) by (subst l; divlia).
  assert (Hj : 65536 + (h - 55296) * 1024 + (l - 56320) = u) by (subst h l; divlia).
  unfold u_escape at 1. rewrite app_cons_str.
  apply scan_escape with (n := 11%nat); [|done].
  rewrite !app_cons_str. change ("" +:+ ?x) with x. unfold escape. rewrite bool_decide_true by done.
  unfold u_escape. rewrite !app_cons_str. change ("" +:+ ?x) with x.
  rewrite hex4_escape by lia. unfold is_high. rewrite (proj2 (Z.leb_le _ _)), (proj2 (Z.leb_le _ _)) by lia.
  cbn [andb]. unfold low_after. rewrite !bool_decide_true by done. cbn [andb].
  rewrite hex4_escape by lia. unfold is_low. rewrite (proj2 (Z.leb_le _ _)), (proj2 (Z.leb_le _ _)) by lia.
  cbn [andb]. by rewrite Hj.
Qed.

Lemma scan_dump_scalar u tail :
  scalar u → scan_string 0 (dump_scalar u +:+ tail) = prepend (utf8_encode u) (scan_string 0 tail).
Proof.
  intros Hu. unfold scalar in Hu. unfold dump_scalar. destruct (Z.ltb_spec u 128).
  { rewrite scan_dump_ascii by (rewrite code_chr; lia). unfold utf8_encode.
    by rewrite (proj2 (Z.ltb_lt _ _)) by lia. }
  destruct (Z.ltb_spec u 65536); [|apply scan_dump_pair; lia].
  unfold dump_code_point. rewrite (proj2 (Z.ltb_lt _ _)) by lia. apply scan_dump_unit; [lia|].
  unfold is_high. rewrite andb_true_iff, !Z.leb_le. lia.
Qed.

(** A string literal decodes to the text it was written from. *)
Lemma scan_dump_string s rest :
  text_ok s → scan_string 0 (dump_chars 0 s +:+ String dquote rest) = Ok (s, rest).
Proof.
  induction 1 as [|u s Hu Hs IH]; [done|].
  rewrite dump_chars_scalar, app_assoc_str, scan_dump_scalar by done. by rewrite IH.
Qed.

(** Text that cannot continue a number. *)
Definition number_char (c : ascii) : bool :=
  is_digit c || bool_decide (c = "."%char) || bool_decide (c = "e"%char) || bool_decide (c = "E"%char).

Definition stops (s : string) : Prop :=
  match s with String c _ => number_char c = false | EmptyString => True end.

Lemma digit_run_app d s :
  str_forall is_digit d = true → stops s → digit_run (d +:+ s) = (d, s).
Proof.
  intros Hd Hs. induction d as [|c d IH].
  - change ("" +:+ s) with s. destruct s as [|x s]; [done|]. simpl in *. unfold number_char in Hs.
    by destruct (is_digit x).
  - simpl in Hd. apply andb_true_iff in Hd as [Hc Hd]. rewrite app_cons_str. simpl. rewrite Hc.
    by rewrite IH.
Qed.

Lemma frac_exp_stop s : stops s → frac_part s = ("", s) ∧ exp_part s = ("", s).
Proof.
  destruct s as [|c s]; [done|]. intros Hs. simpl in Hs.
  destruct c as [[] [] [] [] [] [] [] []]; vm_compute in Hs; done.
Qed.

Lemma pretty_N_go_head x s :
  (0 < x)%N → ∃ c t, pretty_N_go x s = String c t ∧ is_digit c = true ∧ c ≠ "0"%char.
Proof.
  revert s. induction (N.lt_wf_0 x) as [x _ IH]; intros s Hx.
  rewrite pretty_N_go_step by done. destruct (decide (x < 10)%N) as [Hlt|Hge].
  - rewrite N.div_small, N.mod_small by done. rewrite pretty_N_go_0. do 2 eexists. split; [done|].
    split; [by apply is_digit_char|]. intros E. pose proof (digit_val_char x Hlt) as Hv. rewrite E in Hv.
    change (digit_val "0") with (Some 0) in Hv. injection Hv as Hv. lia.
  - apply IH; [by apply N.div_lt|apply N.div_str_pos; lia].
Qed.

(** The decimal text of a natural number is an integer part. *)
Lemma int_part_pretty (x : N) s : stops s → int_part (pretty x +:+ s) = Some (pretty x, s).
Proof.
  intros Hs. pose proof (pretty_N_digits x) as Hd. unfold pretty, pretty_N in *.
  destruct (decide (x = 0%N)) as [->|Hx]; [done|].
  destruct (pretty_N_go_head x "") as (c & t & E & Hc & Hne); [lia|]. rewrite E in *.
  rewrite app_cons_str. cbn [int_part]. rewrite bool_decide_false, Hc by done. f_equal.
  rewrite <-app_cons_str. by apply digit_run_app.
Qed.

Lemma scan_number_int z s :
  Z.abs z < int_bound → stops s → scan_number (str_Z z +:+ s) = Some (Ok (JInt z), s).
Proof.
  intros Hz Hs. destruct (frac_exp_stop s Hs) as [Hf He].
  pose proof (str_Z_parse z Hz) as Hp. unfold scan_number.
  assert (∃ sg x, str_Z z = sg +:+ pretty (x : N) ∧
    match str_Z z +:+ s with String "-" r => ("-", r) | _ => ("", str_Z z +:+ s) end = (sg, pretty x +:+ s))
    as (sg & x & E & Esg).
  { unfold str_Z, pretty, pretty_Z. destruct z as [|p|p].
    - by exists "", 0%N.
    - exists "", (Npos p). split; [done|]. unfold pretty, pretty_N.
      rewrite decide_False by done.
      destruct (pretty_N_go_head (Npos p) "") as (c & t & E & Hc & Hne); [lia|].
      assert (pretty_positive p = String c t) as -> by (by rewrite <-E). rewrite E, app_cons_str.
      clear -Hc. destruct c as [[] [] [] [] [] [] [] []]; vm_compute in Hc; solve [done|discriminate Hc].
    - by exists "-", (Npos p). }
  rewrite Esg, int_part_pretty by done. simpl. rewrite Hf, He. simpl. by rewrite <-E, Hp.
Qed.

Lemma str_Z_head z : ∃ c t, str_Z z = String c t ∧ (is_digit c = true ∨ c = "-"%char).
Proof.
  destruct (decide (0 ≤ z)) as [Hz|Hz].
  - pose proof (str_Z_digits z Hz) as Hd. pose proof (str_Z_nonempty z).
    destruct (str_Z z) as [|c t]; [done|]. simpl in Hd. apply andb_true_iff in Hd as [Hd _]. eauto.
  - unfold str_Z, pretty, pretty_Z. destruct z; [lia..|]. eauto.
Qed.

Lemma number_head_scalar c t s :
  is_digit c = true ∨ c = "-"%char → s = String c t →
  first_some [literal "null" JNull s; literal "true" (JBool true) s; literal "false" (JBool false) s] = None ∧
  c ≠ dquote ∧ c ≠ "["%char ∧ c ≠ "{"%char ∧ is_jspace c = false.
Proof.
  intros Hc ->. destruct c as [[] [] [] [] [] [] [] []]; vm_compute in Hc; try (destruct Hc; congruence); done.
Qed.

Lemma value_int n z s :
  Z.abs z < int_bound → stops s → value (S n) (str_Z z +:+ s) = Ok (JInt z, s).
Proof.
  intros Hz Hs. pose proof (scan_number_int z s Hz Hs) as Hn.
  destruct (str_Z_head z) as (c & t & E & Hc). rewrite E, app_cons_str in *.
  destruct (number_head_scalar c (t +:+ s) _ Hc eq_refl) as (Hl & H1 & H2 & H3 & _).
  cbn [value]. rewrite !bool_decide_false by done. unfold scan_scalar. rewrite Hl, Hn. done.
Qed.

(** The values that the encoder writes exactly: no numbers with a fraction, text
    in well-formed UTF-8, distinct keys, integers within the digit limit. *)
Inductive json_ok : json → Prop :=
  | ok_null : json_ok JNull
  | ok_bool b : json_ok (JBool b)
  | ok_int z : Z.abs z < int_bound → json_ok (JInt z)
  | ok_str s : text_ok s → json_ok (JStr s)
  | ok_arr l : Forall json_ok l → json_ok (JArr l)
  | ok_obj d : dict_wf d → Forall (λ kv, text_ok kv.1) d → Forall json_ok d.*2 → json_ok (JObj d).

Lemma json_ok_rec (P : json → Prop) :
  P JNull → (∀ b, P (JBool b)) → (∀ z, Z.abs z < int_bound → P (JInt z)) → (∀ s, text_ok s → P (JStr s)) →
  (∀ l, Forall P l → P (JArr l)) →
  (∀ d, dict_wf d → Forall (λ kv, text_ok kv.1) d → Forall P d.*2 → P (JObj d)) →
  ∀ v, json_ok v → P v.
Proof.
  intros H1 H2 H3 H4 H5 H6. fix go 2. intros v Hv. destruct Hv as [|b|z Hz|s Hs|l Hl|d Hd Hk Hd2]; auto.
  - apply H5. induction Hl; constructor; auto.
  - apply H6; auto. clear -go Hd2. induction Hd2; constructor; auto.
Qed.

Section separators.
Context (wi wk : string) (Hwi : str_forall is_jspace wi = true) (Hwk : str_forall is_jspace wk = true).

Let isep : string := String "," wi.
Let ksep : string := String ":" wk.

Lemma skip_ws_blank w s : str_forall is_jspace w = true → skip_ws (w +:+ s) = skip_ws s.
Proof.
  induction w as [|c w IH]; [done|]. simpl. intros [Hc Hw]%andb_true_iff. rewrite app_cons_str.
  unfold skip_ws in *. simpl. rewrite Hc. auto.
Qed.

Lemma dumps_head v :
  json_ok v → ∃ c t, dumps isep ksep v = String c t ∧ is_jspace c = false ∧ c ≠ "]"%char ∧ code c < 128.
Proof.
  intros Hv. destruct Hv as [|[]|z _| | |]; try (do 2 eexists; done).
  destruct (str_Z_head z) as (c & t & E & Hc). exists c, t. split; [exact E|].
  clear E. destruct c as [[] [] [] [] [] [] [] []]; vm_compute in Hc; try (destruct Hc; congruence); done.
Qed.

Lemma skip_ws_dumps v s :
  json_ok v → skip_ws (dumps isep ksep v +:+ s) = dumps isep ksep v +:+ s.
Proof.
  intros (c & t & -> & Hc & _)%dumps_head. rewrite app_cons_str. unfold skip_ws. simpl. by rewrite Hc.
Qed.

Lemma skip_ws_nonspace c s : is_jspace c = false → skip_ws (String c s) = String c s.
Proof. intros Hc. unfold skip_ws. simpl. by rewrite Hc. Qed.

(** Decoding from the text of a value, with enough fuel. *)
Definition decodes (v : json) : Prop :=
  json_ok v ∧ ∀ n s, stops s → (2 * String.length (dumps isep ksep v +:+ s) + 1 ≤ n)%nat →
    value n (dumps isep ksep v +:+ s) = Ok (v, s).

Lemma elements_dumps l x n acc s :
  Forall decodes (x :: l) →
  let t := String.concat isep (map (dumps isep ksep) (x :: l)) +:+ String "]" s in
  (2 * String.length t + 2 ≤ n)%nat → json_elements n acc t = Ok (JArr (acc ++ x :: l), s).
Proof.
  revert x n acc. induction l as [|y l IH]; intros x n acc Hall t Hn.
  - subst t. simpl in *. inv Hall. destruct H1 as [Hok Hx]. destruct n as [|n]; [lia|].
    cbn [json_elements]. rewrite Hx by (done || lia). simpl. done.
  - destruct n as [|n]; [lia|]. inv Hall. destruct H1 as [Hok Hx].
    assert (E : t = dumps isep ksep x +:+ String "," (wi +:+ String.concat isep (map (dumps isep ksep) (y :: l)) +:+ String "]" s)).
    { subst t. cbn [map String.concat]. unfold isep at 2. change (String "," wi +:+ ?a) with (String "," (wi +:+ a)).
      rewrite app_assoc_str, app_cons_str, app_assoc_str. done. }
    rewrite E in *. clear t E. cbn [json_elements]. rewrite Hx by (done || lia). cbn [mbind result_bind].
    unfold after_item. rewrite skip_ws_nonspace by done. rewrite bool_decide_false, bool_decide_true by done.
    rewrite skip_ws_blank by done. inv H2.
    assert (Hs : skip_ws (String.concat isep (map (dumps isep ksep) (y :: l)) +:+ String "]" s) =
                 String.concat isep (map (dumps isep ksep) (y :: l)) +:+ String "]" s).
    { destruct H1 as [Hoky _]. destruct l; cbn [map String.concat]; rewrite ?app_assoc_str; by apply skip_ws_dumps. }
    rewrite Hs. rewrite IH; [by rewrite <-app_assoc|by constructor|].
    revert Hn. generalize (String.concat isep (map (dumps isep ksep) (y :: l))). intros cat.
    rewrite !length_app_str. cbn [String.length]. rewrite !length_app_str. cbn [String.length]. lia.
Qed.

Definition dump_member (kv : string * json) : string := dump_string kv.1 +:+ ksep +:+ dumps isep ksep kv.2.

(** One member of an object, and what the loop does after it. *)
Lemma members_one k v n acc tail :
  text_ok k → decodes v → stops tail →
  (2 * String.length (dump_member (k, v) +:+ tail) + 2 ≤ S n)%nat →
  json_members (S n) acc (dump_member (k, v) +:+ tail) =
  after_item "}" (JObj (dset k v acc)) (json_members n (dset k v acc)) tail.
Proof.
  intros Hk [Hok Hv] Ht. unfold dump_member, dump_string. cbn [fst snd].
  rewrite !app_cons_str, !app_assoc_str, !app_cons_str.
  change ("" +:+ ksep +:+ ?x) with (String ":" (wk +:+ x)). cbn [String.length].
  rewrite !length_app_str. cbn [String.length]. rewrite !length_app_str. intros Hn.
  cbn [json_members expect]. rewrite bool_decide_true by done. cbn [mbind result_bind].
  rewrite scan_dump_string by done. cbn [mbind result_bind]. rewrite skip_ws_nonspace by done.
  cbn [expect]. rewrite bool_decide_true by done. cbn [mbind result_bind].
  rewrite skip_ws_blank, skip_ws_dumps by done. rewrite Hv; [done|done|].
  rewrite length_app_str. lia.
Qed.

Lemma skip_ws_members x d s :
  skip_ws (String.concat isep (map dump_member (x :: d)) +:+ s) =
  String.concat isep (map dump_member (x :: d)) +:+ s.
Proof. destruct d; cbn [map String.concat]; unfold dump_member, dump_string; rewrite ?app_cons_str; done. Qed.

Lemma members_dumps d x n acc s :
  Forall (λ kv, text_ok kv.1) (x :: d) → Forall decodes (x :: d).*2 →
  let t := String.concat isep (map dump_member (x :: d)) +:+ String "}" s in
  (2 * String.length t + 2 ≤ n)%nat →
  json_members n acc t = Ok (JObj (foldl (λ a kv, dset kv.1 kv.2 a) acc (x :: d)), s).
Proof.
  revert x n acc. induction d as [|y d IH]; intros [k v] n acc Hk Hv t Hn; (destruct n as [|n]; [lia|]);
    rewrite Forall_cons in Hk; rewrite fmap_cons, Forall_cons in Hv; destruct Hk as [Hk1 Hk], Hv as [Hv1 Hv].
  - subst t. cbn [map String.concat] in *. by rewrite members_one.
  - set (more := String.concat isep (map dump_member (y :: d)) +:+ String "}" s).
    assert (E : t = dump_member (k, v) +:+ String "," (wi +:+ more)).
    { subst t more. cbn [map String.concat]. unfold isep at 2.
      by rewrite app_assoc_str, app_cons_str, app_assoc_str. }
    rewrite E in *. clear t E. rewrite members_one by done. unfold after_item.
    rewrite skip_ws_nonspace by done. rewrite bool_decide_false, bool_decide_true by done.
    rewrite skip_ws_blank by done. unfold more. rewrite skip_ws_members. rewrite IH; [done|done|done|].
    fold more. rewrite length_app_str in Hn. cbn [String.length] in Hn. rewrite length_app_str in Hn. lia.
Qed.

(** The three words. *)
Lemma value_word n w v s :
  (w, v) ∈ [("null", JNull); ("true", JBool true); ("false", JBool false)] →
  value (S n) (w +:+ s) = Ok (v, s).
Proof.
  rewrite !elem_of_cons, elem_of_nil. intros H. destruct_or! H; simplify_eq; rewrite ?app_cons_str;
    cbn [value]; rewrite !bool_decide_false by done; unfold scan_scalar, literal, starts_with;
    change ("" +:+ s) with s; cbn [String.prefix ascii_dec]; simpl; by destruct s.
Qed.

Lemma dict_rebuild (d : pydict string json) :
  dict_wf d → foldl (λ a kv, dset kv.1 kv.2 a) [] d = d.
Proof.
  intros Hd. cut (∀ a, NoDup (dkeys (a ++ d)) → foldl (λ a kv, dset kv.1 kv.2 a) a d = a ++ d).
  { intros H. by apply (H []). }
  clear Hd. induction d as [|[k v] d IH]; intros a Ha; simpl; [by rewrite app_nil_r|].
  assert (E : dset k v a = a ++ [(k, v)]).
  { apply dset_fresh. unfold dkeys in *. rewrite fmap_app in Ha. apply NoDup_app in Ha as (_ & Hd & _).
    intros Hk. apply (Hd k Hk). left. }
  rewrite E, IH; by rewrite <-app_assoc.
Qed.

Lemma dumps_decodes v : json_ok v → decodes v.
Proof.
  intros Hv. pose proof Hv as Hok. revert Hok.
  induction Hv as [|b|z Hz|s Hs|l Hl|d Hd Hk Hd2] using json_ok_rec; intros Hok; (split; [exact Hok|]);
    intros n s' Hs' Hn; (destruct n as [|n]; [lia|]).
  - apply (value_word n "null"). left.
  - destruct b; [apply (value_word n "true")|apply (value_word n "false")]; repeat constructor.
  - by apply value_int.
  - cbn [dumps]. unfold dump_string. rewrite app_cons_str, app_assoc_str, app_cons_str. change ("" +:+ s') with s'. cbn [value].
    rewrite bool_decide_true by done. by rewrite scan_dump_string.
  - cbn [dumps] in *. rewrite app_cons_str, app_assoc_str in *. cbn [value].
    rewrite bool_decide_false, bool_decide_true by done. destruct l as [|x l]; [done|].
    change ("]" +:+ s') with (String "]" s') in *. cbn [String.length] in Hn.
    inversion Hok as [| | | |? Hoks|]; subst. assert (Hd : Forall decodes (x :: l)).
    { eapply Forall_impl; [apply Forall_and; split; [exact Hl|exact Hoks]|]. naive_solver. }
    unfold after_open.
    assert (Hsk : ∃ c t, String.concat isep (map (dumps isep ksep) (x :: l)) +:+ String "]" s' = String c t ∧
                         is_jspace c = false ∧ c ≠ "]"%char).
    { apply Forall_cons in Hoks as [Hx _]. destruct (dumps_head x Hx) as (c & t & E & Hc & Hb & _).
      destruct l; cbn [map String.concat]; rewrite E, !app_cons_str; eauto. }
    destruct Hsk as (c & t & E & Hc & Hb). rewrite E in *. rewrite skip_ws_nonspace by done.
    rewrite bool_decide_false by done. rewrite <-E in *. by rewrite elements_dumps by (done || lia).
  - cbn [dumps] in *. rewrite app_cons_str, app_assoc_str in *. cbn [value].
    rewrite !bool_decide_false, bool_decide_true by done. destruct d as [|x d]; [done|].
    change ("}" +:+ s') with (String "}" s') in *. cbn [String.length] in Hn.
    inversion Hok as [| | | | |? _ _ Hoks]; subst. assert (Hds : Forall decodes (x :: d).*2).
    { eapply Forall_impl; [apply Forall_and; split; [exact Hd2|exact Hoks]|]. naive_solver. }
    fold dump_member in *. unfold after_open. rewrite skip_ws_members.
    assert (Hq : ∃ t, String.concat isep (map dump_member (x :: d)) +:+ String "}" s' = String dquote t)
      by (destruct d; eexists; reflexivity).
    destruct Hq as [t E]. rewrite E. rewrite bool_decide_false by done. rewrite <-E.
    rewrite members_dumps by (done || lia). do 3 f_equal. by apply dict_rebuild.
Qed.

(** Text that was encoded decodes to the value, blanks after the separators or not. *)
Lemma loads_dumps v : json_ok v → loads (dumps isep ksep v) = Ok v.
Proof.
  intros Hv. destruct (dumps_decodes v Hv) as [_ Hd]. unfold loads.
  destruct (dumps_head v Hv) as (c & t & E & Hc & _ & Hlt).
  assert (Hb : starts_with (dumps isep ksep v) bom = false).
  { rewrite E. unfold starts_with. clear -Hlt.
    destruct c as [[] [] [] [] [] [] [] []]; vm_compute in Hlt; done. }
  rewrite Hb, <-(app_nil_str (dumps isep ksep v)), skip_ws_dumps by done.
  rewrite Hd by done. done.
Qed.

End separators.

Lemma loads_compact v : json_ok v → loads (dumps_compact v) = Ok v.
Proof. by apply (loads_dumps "" ""). Qed.

Lemma loads_default v : json_ok v → loads (dumps_default v) = Ok v.
Proof. by apply (loads_dumps " " " "). Qed.

(** [json_ok] of a concrete value whose text is ASCII. *)
Ltac plain_text := apply ascii_text_ok; vm_compute; reflexivity.

Ltac plain_json :=
  repeat first
    [ apply ok_obj; [apply (bool_decide_unpack _); vm_compute; exact I|..]
    | apply ok_arr | apply ok_str; plain_text | apply ok_int; vm_compute; reflexivity | apply ok_bool | apply ok_null
    | apply Forall_cons; split; [plain_text|] | apply Forall_cons; split | apply Forall_nil; exact I ].

(** ** Values can be compared and enumerated *)

Lemma json_forall_ind (P : json → Prop) :
  P JNull → (∀ b, P (JBool b)) → (∀ z, P (JInt z)) → (∀ l, P (JFloat l)) → (∀ s, P (JStr s)) →
  (∀ l, Forall P l → P (JArr l)) → (∀ d, Forall (λ kv, P kv.2) d → P (JObj d)) → ∀ v, P v.
Proof.
  intros H1 H2 H3 H4 H5 H6 H7. fix go 1.
  intros [|b|z|l|s|l|d]; [apply H1|apply H2|apply H3|apply H4|apply H5| |].
  - apply H6. induction l as [|v l IH]; constructor; [apply go|exact IH].
  - apply H7. induction d as [|[k v] d IH]; constructor; [apply go|exact IH].
Qed.

Definition json_leaf : Type := bool + Z + string.

Fixpoint json_tree (v : json) : gen_tree json_leaf :=
  match v with
  | JNull => GenNode 0 []
  | JBool b => GenLeaf (inl (inl b))
  | JInt z => GenLeaf (inl (inr z))
  | JStr s => GenLeaf (inr s)
  | JFloat l => GenNode 1 [GenLeaf (inr l)]
  | JArr l => GenNode 2 (map json_tree l)
  | JObj d => GenNode 3 (map (λ kv, GenNode 4 [GenLeaf (inr kv.1); json_tree kv.2]) d)
  end.

Fixpoint tree_json (t : gen_tree json_leaf) : json :=
  match t with
  | GenLeaf (inl (inl b)) => JBool b
  | GenLeaf (inl (inr z)) => JInt z
  | GenLeaf (inr s) => JStr s
  | GenNode 1 [GenLeaf (inr l)] => JFloat l
  | GenNode 2 l => JArr (map tree_json l)
  | GenNode 3 l =>
      JObj (map (λ t, match t with GenNode _ [GenLeaf (inr k); v] => (k, tree_json v) | _ => ("", JNull) end) l)
  | _ => JNull
  end.

Lemma tree_json_tree v : tree_json (json_tree v) = v.
Proof.
  induction v as [| | | | |l IH|d IH] using json_forall_ind; simpl; try done.
  - f_equal. induction IH; simpl; congruence.
  - f_equal. induction IH as [|[k v] d Hv _ IH]; simpl in *; congruence.
Qed.

#[global] Instance json_eq_dec : EqDecision json.
Proof.
  intros x y. refine (cast_if (decide (json_tree x = json_tree y))).
  - rewrite <-(tree_json_tree x), <-(tree_json_tree y). congruence.
  - congruence.
Defined.

#[global] Instance json_countable : Countable json := inj_countable' json_tree tree_json tree_json_tree.
