(* ===== verification/PyBase64.v ===== *)
(** * URL-safe base64 ([base64.urlsafe_b64encode] and [base64.urlsafe_b64decode])

    The decoder is the lenient one of the standard library: characters outside the
    alphabet are skipped, and decoding stops at the padding that completes a group. *)

From S2P Require Import Prelude PyStr PyText PyJson.

(** ** Encoding *)

Definition b64_char (i : Z) : ascii :=
  if i <? 26 then chr_Z (65 + i)
  else if i <? 52 then chr_Z (71 + i)
  else if i <? 62 then chr_Z (i - 4)
  else if i =? 62 then "-"%char else "_"%char.

Fixpoint b64_encode (s : string) : string :=
  match s with
  | EmptyString => ""
  | String a EmptyString =>
      String (b64_char (code a / 4)) (String (b64_char (code a mod 4 * 16)) "==")
  | String a (String b EmptyString) =>
      String (b64_char (code a / 4)) (String (b64_char (code a mod 4 * 16 + code b / 16))
        (String (b64_char (code b mod 16 * 4)) "="))
  | String a (String b (String c r)) =>
      String (b64_char (code a / 4)) (String (b64_char (code a mod 4 * 16 + code b / 16))
        (String (b64_char (code b mod 16 * 4 + code c / 64)) (String (b64_char (code c mod 64)) (b64_encode r))))
  end.

(** ** Decoding *)

Definition b64_val (c : ascii) : option Z :=
  if between 65 90 c then Some (code c - 65)
  else if between 97 122 c then Some (code c - 71)
  else if is_digit c then Some (code c + 4)
  else if bool_decide (c = "+"%char) || bool_decide (c = "-"%char) then Some 62
  else if bool_decide (c = "/"%char) || bool_decide (c = "_"%char) then Some 63
  else None.

Definition str_push (c : Z) (r : result string) : result string := t ← r; Ok (String (chr_Z c) t).

(** The position in the group, the bits left over, and the padding seen. *)
Fixpoint b64_scan (quad : nat) (rem : Z) (pads : nat) (s : string) : result string :=
  match s with
  | EmptyString => if (quad =? 0)%nat then Ok "" else Raise ValueError
  | String c r =>
      if bool_decide (c = "="%char) then
        if (2 <=? quad)%nat then
          if (4 <=? quad + S pads)%nat then Ok "" else b64_scan quad rem (S pads) r
        else b64_scan quad rem pads r
      else
        match b64_val c with
        | None => b64_scan quad rem pads r
        | Some v =>
            match quad with
            | 0%nat => b64_scan 1 v 0 r
            | 1%nat => str_push (rem * 4 + v / 16) (b64_scan 2 (v mod 16) 0 r)
            | 2%nat => str_push (rem * 16 + v / 4) (b64_scan 3 (v mod 4) 0 r)
            | _ => str_push (rem * 64 + v) (b64_scan 0 0 0 r)
            end
        end
  end.

Definition b64_decode (s : string) : result string := b64_scan 0 0 0 s.

(** ** Decoding what was encoded *)

Lemma b64_char_val i : 0 ≤ i < 64 → b64_val (b64_char i) = Some i ∧ b64_char i ≠ "="%char.
Proof.
  intros Hi. assert (Hn : i ∈ seqZ 0 64) by (apply elem_of_seqZ; lia). revert i Hn Hi.
  apply (Forall_forall (λ i, 0 ≤ i < 64 → b64_val (b64_char i) = Some i ∧ b64_char i ≠ "="%char)).
  by repeat constructor.
Qed.

(** A character of the alphabet moves the decoder one place on. *)
Lemma b64_scan_char quad rem pads i r :
  0 ≤ i < 64 →
  b64_scan quad rem pads (String (b64_char i) r) =
  match quad with
  | 0%nat => b64_scan 1 i 0 r
  | 1%nat => str_push (rem * 4 + i / 16) (b64_scan 2 (i mod 16) 0 r)
  | 2%nat => str_push (rem * 16 + i / 4) (b64_scan 3 (i mod 4) 0 r)
  | _ => str_push (rem * 64 + i) (b64_scan 0 0 0 r)
  end.
Proof.
  intros Hi. destruct (b64_char_val i Hi) as [Hv Hne]. cbn [b64_scan].
  rewrite bool_decide_false by done. by rewrite Hv.
Qed.

Lemma chr_code_eq z c : z = code c → chr_Z z = c.
Proof. intros ->. apply chr_code. Qed.

Lemma b64_decode_encode s : b64_decode (b64_encode s) = Ok s.
Proof.
  unfold b64_decode. assert (∀ n s, (String.length s ≤ n)%nat → b64_scan 0 0 0 (b64_encode s) = Ok s) as H.
  { clear s. induction n as [|n IH]; intros [|a [|b [|c r]]] Hl; simpl in Hl; try lia; cbn [b64_encode]; try done;
      pose proof (code_bounds a); try pose proof (code_bounds b); try pose proof (code_bounds c);
      rewrite !b64_scan_char by divlia.
    - change (b64_scan 2 ?x 0 "==") with (Ok ""). unfold str_push. cbn [mbind result_bind].
      repeat f_equal; apply chr_code_eq; divlia.
    - change (b64_scan 3 ?x 0 "=") with (Ok ""). unfold str_push. cbn [mbind result_bind].
      repeat f_equal; apply chr_code_eq; divlia.
    - rewrite IH by lia. unfold str_push. cbn [mbind result_bind].
      repeat f_equal; apply chr_code_eq; divlia. }
  by apply (H (String.length s)).
Qed.

(** ** Without the padding *)

(** [token + "=" * (-len(token) % 4)] *)
Fixpoint pad_chars (n : nat) : string := match n with O => "" | S n => String "=" (pad_chars n) end.

(** [len(token)]: the number of characters, which is the number of bytes that do not
    continue a UTF-8 sequence. *)
Fixpoint char_len (s : string) : Z :=
  match s with EmptyString => 0 | String c r => (if between 128 191 c then 0 else 1) + char_len r end.

Definition repad (token : string) : string := token +:+ pad_chars (Z.to_nat ((- char_len token) mod 4)).

Lemma char_len_ascii s : str_forall (λ c, code c <? 128) s = true → char_len s = len s.
Proof.
  unfold len. induction s as [|c s IH]; [done|]. cbn [str_forall char_len String.length].
  intros [Hc%Z.ltb_lt Hs]%andb_true_iff. rewrite IH by done. unfold between.
  rewrite (proj2 (Z.leb_gt _ _)) by lia. simpl. lia.
Qed.

Definition is_pad (c : ascii) : bool := bool_decide (c = "="%char).

Lemma rstrip_pads body n :
  str_forall (λ c, negb (is_pad c)) body = true → rstrip_by is_pad (body +:+ pad_chars n) = body.
Proof.
  intros Hb. assert (Hp : rstrip_by is_pad (pad_chars n) = "") by (induction n as [|n IH]; simpl; [done|by rewrite IH]).
  induction body as [|c body IH]; [exact Hp|]. simpl in Hb. apply andb_true_iff in Hb as [Hc Hb].
  rewrite app_cons_str. simpl. rewrite IH by done. apply negb_true_iff in Hc. rewrite Hc. by destruct body.
Qed.

Lemma b64_char_ascii i : 0 ≤ i < 64 → code (b64_char i) <? 128 = true.
Proof.
  intros Hi. assert (Hn : i ∈ seqZ 0 64) by (apply elem_of_seqZ; lia). revert i Hn Hi.
  apply (Forall_forall (λ i, 0 ≤ i < 64 → code (b64_char i) <? 128 = true)). by repeat constructor.
Qed.

(** An encoding is a body of the alphabet and the padding to a multiple of four. *)
Lemma b64_encode_shape s :
  ∃ body k, b64_encode s = body +:+ pad_chars k ∧ str_forall (λ c, negb (is_pad c)) body = true ∧
    str_forall (λ c, code c <? 128) body = true ∧ k = Z.to_nat ((- len body) mod 4).
Proof.
  assert (Hc : ∀ i, 0 ≤ i < 64 → negb (is_pad (b64_char i)) = true).
  { intros i Hi. apply b64_char_val in Hi as [_ Hi]. unfold is_pad. by rewrite bool_decide_false. }
  pose proof b64_char_ascii as Ha.
  assert (∀ n s, (String.length s ≤ n)%nat → ∃ body k, b64_encode s = body +:+ pad_chars k ∧
    str_forall (λ c, negb (is_pad c)) body = true ∧ str_forall (λ c, code c <? 128) body = true ∧
    k = Z.to_nat ((- len body) mod 4)) as H.
  { clear s. induction n as [|n IH]; intros [|a [|b [|c r]]] Hl; simpl in Hl; try lia; try (by exists "", 0%nat);
      pose proof (code_bounds a); try pose proof (code_bounds b); try pose proof (code_bounds c).
    - exists (String (b64_char (code a / 4)) (String (b64_char (code a mod 4 * 16)) "")), 2%nat.
      split; [done|]. split; [simpl; by rewrite !Hc by divlia|]. split; [|done]. simpl. by rewrite !Ha by divlia.
    - exists (String (b64_char (code a / 4)) (String (b64_char (code a mod 4 * 16 + code b / 16))
                (String (b64_char (code b mod 16 * 4)) ""))), 1%nat.
      split; [done|]. split; [simpl; by rewrite !Hc by divlia|]. split; [|done]. simpl. by rewrite !Ha by divlia.
    - destruct (IH r) as (body & k & E & Hb & Hba & Hk); [lia|].
      exists (String (b64_char (code a / 4)) (String (b64_char (code a mod 4 * 16 + code b / 16))
                (String (b64_char (code b mod 16 * 4 + code c / 64)) (String (b64_char (code c mod 64)) body)))), k.
      split; [cbn [b64_encode]; rewrite E; by rewrite !app_cons_str|].
      split; [cbn [str_forall]; rewrite !Hc by divlia; exact Hb|].
      split; [cbn [str_forall]; rewrite !Ha by divlia; exact Hba|].
      rewrite Hk. unfold len. cbn [String.length]. f_equal. divlia. }
  by apply (H (String.length s)).
Qed.

Lemma repad_strip s : repad (rstrip_by is_pad (b64_encode s)) = b64_encode s.
Proof.
  destruct (b64_encode_shape s) as (body & k & E & Hb & Ha & ->). rewrite E, rstrip_pads by done.
  unfold repad. by rewrite char_len_ascii.
Qed.
