(* ===== verification/SyslogReceiver.v ===== *)
(** * The syslog receiver ([ztna_common/syslog_receiver.py])

    Datagrams and TCP streams of syslog messages become lines on a bounded queue.
    A stream may frame messages by octet counting or by newlines; [drain_buffer]
    takes the complete messages from the front of the buffer. *)

From S2P Require Import Prelude PyQueue PyStr Utf8.

(** [(peer_ip, line)] *)
Abbreviation Message := (string * string)%type.

Record SyslogReceiver : Type := mkReceiver {
  rc_queue : queue Message;
  rc_backpressure_drops : Z
}.

Definition new_receiver (queue_max : Z) : SyslogReceiver := mkReceiver (Queue queue_max []) 0.

(** [_enqueue] *)
Definition enqueue (r : SyslogReceiver) (peer_ip line : string) : SyslogReceiver :=
  let po := put_drop_oldest (peer_ip, line) (rc_queue r) in
  mkReceiver (po_queue po)
    (if po_was_full po then rc_backpressure_drops r + 1 else rc_backpressure_drops r).

Definition cr : ascii := ascii_of_nat 13.
Definition lf : ascii := ascii_of_nat 10.
Definition is_cr (c : ascii) : bool := bool_decide (c = cr).
Definition is_crlf (c : ascii) : bool := bool_decide (c = cr) || bool_decide (c = lf).

(** [_UDPProtocol.datagram_received] *)
Definition datagram_received (r : SyslogReceiver) (peer_ip data : string) : SyslogReceiver :=
  let line := utf8_replace (rstrip_by is_crlf data) in
  if str_true line then enqueue r peer_ip line else r.

(** ** [_drain_buffer] *)

Definition starts_with_digit (buf : string) : bool :=
  match buf with String c _ => is_digit c | EmptyString => false end.

(** One iteration of the loop: the line to enqueue, if any, and the rest of the
    buffer; [None] when the loop returns the buffer as it is. *)
Definition drain_step (buf : string) : option (option string * string) :=
  if starts_with_digit buf then
    match partition " " buf with
    | (_, None) => None
    | (digits, Some rest) =>
        let length_ := match py_int_bytes digits with Ok n => n | Raise _ => -1 end in
        if (0 <=? length_) && (length_ <=? len rest)
        then Some (Some (utf8_replace (str_take (Z.to_nat length_) rest)),
                   str_drop (Z.to_nat length_) rest)
        else None
    end
  else
    match partition lf buf with
    | (_, None) => None
    | (line, Some rest) =>
        let line := rstrip_by is_cr line in
        Some (if str_true line then Some (utf8_replace line) else None, rest)
    end.

(** The lines taken from a buffer, and what is left of it. *)
Fixpoint drain (fuel : nat) (buf : string) : list string * string :=
  match fuel, buf with
  | S f, String _ _ =>
      match drain_step buf with
      | None => ([], buf)
      | Some (o, rest) =>
          let '(lines, rest') := drain f rest in
          (option_list o ++ lines, rest')
      end
  | _, _ => ([], buf)
  end.

Definition drain_buffer (buf : string) : list string * string := drain (String.length buf) buf.

(** [_handle_tcp_client]: the chunks read until the end of the stream. *)
Definition tcp_chunk (s : list string * string) (chunk : string) : list string * string :=
  let '(lines, rest) := drain_buffer (s.2 +:+ chunk) in (s.1 ++ lines, rest).

Definition tcp_client (chunks : list string) : list string * string := foldl tcp_chunk ([], "") chunks.

(** The receiver after a client's stream. *)
Definition tcp_receive (r : SyslogReceiver) (peer_ip : string) (chunks : list string) : SyslogReceiver :=
  foldl (λ r line, enqueue r peer_ip line) r (tcp_client chunks).1.

(** ** Specification vocabulary *)

(** A framed message: by octet counting, or a line ended by a newline. *)
Inductive frame : Type :=
  | Octets (body : string)
  | Line (text : string).

Definition frame_bytes (f : frame) : string :=
  match f with
  | Octets body => str_Z (len body) +:+ String " " body
  | Line text => text +:+ String lf ""
  end.

Definition frame_text (f : frame) : string :=
  match f with Octets body => body | Line text => text end.

(** A line is not empty, does not start with a digit, has no newline and does
    not end in a carriage return; the length of a body fits in 4300 digits. *)
Definition frame_ok (f : frame) : Prop :=
  match f with
  | Octets body => len body < int_bound
  | Line text => text ≠ "" ∧ starts_with_digit text = false ∧ has_char lf text = false ∧
                 rstrip_by is_cr text = text
  end.

Definition stream_of (fs : list frame) : string := foldr (λ f s, frame_bytes f +:+ s) "" fs.

(** All the bytes of the chunks. *)
Definition all_bytes (chunks : list string) : string := foldr (λ c s, c +:+ s) "" chunks.

(** ** Lemmas *)

Lemma partition_more c buf b line rest :
  partition c buf = (line, Some rest) → partition c (buf +:+ b) = (line, Some (rest +:+ b)).
Proof.
  intros Hp. pose proof (partition_spec c buf) as Hs. rewrite Hp in Hs. destruct Hs as [-> Hc].
  rewrite app_assoc_str. by apply partition_app.
Qed.

Lemma partition_length c buf line rest :
  partition c buf = (line, Some rest) → String.length buf = S (String.length line + String.length rest).
Proof.
  intros Hp. pose proof (partition_spec c buf) as Hs. rewrite Hp in Hs. destruct Hs as [-> _].
  rewrite length_app_str. simpl. lia.
Qed.

(** Every iteration that goes on takes something from the buffer. *)
Lemma drain_step_shrinks buf o rest :
  drain_step buf = Some (o, rest) → (String.length rest < String.length buf)%nat.
Proof.
  unfold drain_step. destruct (starts_with_digit buf).
  - destruct (partition " " buf) as [digits [r|]] eqn:Hp; [|done]. apply partition_length in Hp.
    destruct (_ && _); [|done]. intros [= _ <-]. rewrite str_drop_length. lia.
  - destruct (partition lf buf) as [line [r|]] eqn:Hp; [|done]. apply partition_length in Hp.
    intros [= _ <-]. lia.
Qed.

(** An iteration does not look past what it takes. *)
Lemma drain_step_more buf b o rest :
  drain_step buf = Some (o, rest) → drain_step (buf +:+ b) = Some (o, rest +:+ b).
Proof.
  unfold drain_step. destruct buf as [|c buf]; [done|].
  change (starts_with_digit (String c buf +:+ b)) with (is_digit c). simpl starts_with_digit.
  destruct (is_digit c).
  - destruct (partition " " (String c buf)) as [digits [r|]] eqn:Hp; [|done].
    rewrite (partition_more _ _ b _ _ Hp).
    set (n := match py_int_bytes digits with Ok n => n | Raise _ => -1 end).
    destruct (Z.leb_spec 0 n); [|done]. simpl. unfold len.
    destruct (Z.leb_spec n (Z.of_nat (String.length r))) as [Hn|]; [|done]. intros [= <- <-].
    rewrite length_app_str, (proj2 (Z.leb_le _ _)) by lia.
    by rewrite str_take_app_le, str_drop_app_le by lia.
  - destruct (partition lf (String c buf)) as [line [r|]] eqn:Hp; [|done].
    rewrite (partition_more _ _ b _ _ Hp). by intros [= <- <-].
Qed.

Lemma drain_fuel f buf : (String.length buf ≤ f)%nat → drain f buf = drain_buffer buf.
Proof.
  unfold drain_buffer. remember (String.length buf) as n eqn:Hn. revert f buf Hn.
  induction (lt_wf n) as [n _ IH]; intros f buf -> Hf. destruct buf as [|c buf]; [by destruct f|].
  destruct f as [|f]; simpl in Hf; [lia|]. simpl drain.
  destruct (drain_step (String c buf)) as [[o rest]|] eqn:E; [|done].
  apply drain_step_shrinks in E. simpl in E.
  rewrite (IH (String.length rest)) by (simpl; lia || done).
  by rewrite (IH (String.length rest) ltac:(simpl; lia) (String.length buf)) by (done || lia).
Qed.

(** The equations of the loop. *)
Lemma drain_buffer_step buf o rest :
  drain_step buf = Some (o, rest) →
  drain_buffer buf = (option_list o ++ (drain_buffer rest).1, (drain_buffer rest).2).
Proof.
  intros E. pose proof (drain_step_shrinks _ _ _ E) as Hl.
  unfold drain_buffer at 1. destruct buf as [|c buf]; [done|]. simpl drain. rewrite E.
  rewrite drain_fuel by (simpl in Hl; lia). by destruct (drain_buffer rest).
Qed.

Lemma drain_buffer_stop buf : drain_step buf = None → drain_buffer buf = ([], buf).
Proof. intros E. unfold drain_buffer. destruct buf; [done|]. simpl. by rewrite E. Qed.

(** Draining what came first and then the rest is draining everything. *)
Lemma drain_buffer_app a b :
  drain_buffer (a +:+ b) =
    ((drain_buffer a).1 ++ (drain_buffer ((drain_buffer a).2 +:+ b)).1,
     (drain_buffer ((drain_buffer a).2 +:+ b)).2).
Proof.
  remember (String.length a) as n eqn:Hn. revert a Hn.
  induction (lt_wf n) as [n _ IH]; intros a ->.
  destruct (drain_step a) as [[o rest]|] eqn:E.
  - rewrite (drain_buffer_step _ _ _ E). simpl.
    rewrite (drain_buffer_step _ _ _ (drain_step_more _ b _ _ E)).
    rewrite (IH _ (drain_step_shrinks _ _ _ E) rest eq_refl). simpl. by rewrite app_assoc.
  - rewrite (drain_buffer_stop _ E). simpl. by destruct (drain_buffer (a +:+ b)).
Qed.

Lemma all_bytes_snoc chunks c : all_bytes (chunks ++ [c]) = all_bytes chunks +:+ c.
Proof.
  unfold all_bytes. induction chunks as [|x chunks IH]; [apply app_nil_str|].
  etrans; [exact (f_equal (String.append x) IH)|]. symmetry. apply app_assoc_str.
Qed.

(** The reader's state after the chunks is the drain of all their bytes. *)
Lemma tcp_client_all chunks : tcp_client chunks = drain_buffer (all_bytes chunks).
Proof.
  unfold tcp_client. induction chunks as [|c chunks IH] using rev_ind; [done|].
  rewrite foldl_snoc, IH. unfold tcp_chunk.
  rewrite all_bytes_snoc, (drain_buffer_app (all_bytes chunks) c).
  by destruct (drain_buffer ((drain_buffer (all_bytes chunks)).2 +:+ c)).
Qed.

Lemma digits_no_blank s : str_forall is_digit s = true → has_char " " s = false.
Proof.
  induction s as [|c s IH]; simpl; [done|]. intros [Hc Hs]%andb_true_iff. rewrite (IH Hs), orb_false_r.
  apply bool_decide_eq_false. by intros <-.
Qed.

Lemma stream_nonempty_step f rest :
  frame_ok f →
  drain_step (frame_bytes f +:+ rest) = Some (Some (utf8_replace (frame_text f)), rest).
Proof.
  destruct f as [body|text]; simpl; intros Hok.
  - assert (Hlen : 0 ≤ len body) by (unfold len; lia).
    rewrite app_assoc_str, app_cons_str. pose proof (str_Z_digits _ Hlen) as Hd.
    pose proof (str_Z_nonempty (len body)) as Hne.
    pose proof (py_int_bytes_str_Z (len body) ltac:(done)) as Hint.
    unfold drain_step.
    destruct (str_Z (len body)) as [|c ds] eqn:Hs; [done|].
    assert (Hc : is_digit c = true) by (simpl in Hd; by apply andb_true_iff in Hd as [? _]).
    change (starts_with_digit (String c ds +:+ String " " (body +:+ rest))) with (is_digit c).
    rewrite Hc, partition_app; [|by apply digits_no_blank]. rewrite Hint.
    unfold len at 3. rewrite length_app_str. unfold len in *.
    rewrite !(proj2 (Z.leb_le _ _)) by lia. simpl. rewrite Nat2Z.id.
    by rewrite str_take_app, str_drop_app.
  - destruct Hok as (Hne & Hd & Hlf & Hcr). rewrite app_assoc_str, app_cons_str.
    unfold drain_step. destruct text as [|c text]; [done|].
    change (starts_with_digit (String c text +:+ String lf ("" +:+ rest))) with (is_digit c).
    simpl in Hd. rewrite Hd, partition_app by done. rewrite Hcr. done.
Qed.

Lemma drain_stream fs rest :
  Forall frame_ok fs →
  drain_buffer (stream_of fs +:+ rest) =
    ((utf8_replace ∘ frame_text <$> fs) ++ (drain_buffer rest).1, (drain_buffer rest).2).
Proof.
  induction 1 as [|f fs Hf Hfs IH].
  { change (stream_of [] +:+ rest) with rest. by destruct (drain_buffer rest). }
  change (stream_of (f :: fs)) with (frame_bytes f +:+ stream_of fs). rewrite app_assoc_str.
  rewrite (drain_buffer_step _ _ _ (stream_nonempty_step f _ Hf)), IH. done.
Qed.

Lemma enqueue_all q n (msgs : list Message) :
  queue_wf q →
  let r := foldl (λ r m, enqueue r m.1 m.2) (mkReceiver q n) msgs in
  ∃ dropped, dropped ++ q_items (rc_queue r) = q_items q ++ msgs ∧
    (0 < q_maxsize q → Z.of_nat (length (q_items (rc_queue r))) =
       Z.min (q_maxsize q) (Z.of_nat (length (q_items q ++ msgs)))) ∧
    rc_backpressure_drops r = n + Z.of_nat (length dropped).
Proof.
  revert q n. induction msgs as [|[p l] msgs IH]; intros q n Hwf; simpl.
  - exists []. rewrite app_nil_r. split_and!; [done| |simpl; lia]. unfold queue_wf in Hwf. lia.
  - unfold enqueue at 2 4 6. cbn [rc_queue rc_backpressure_drops].
    destruct (IH (po_queue (put_drop_oldest (p, l) q))
      (if po_was_full (put_drop_oldest (p, l) q) then n + 1 else n)) as (dr & Hi & Hn & Hd);
      [by apply put_drop_oldest_wf|].
    rewrite put_drop_oldest_was_full, put_drop_oldest_items, put_drop_oldest_maxsize in * by done.
    destruct (q_full q) eqn:Hf.
    + pose proof Hf as Hf'. apply q_full_true in Hf'.
      destruct (q_items q) as [|y ys] eqn:Hq; simpl in *; [lia|]. exists (y :: dr).
      split_and!; [simpl; rewrite Hi; by rewrite <-app_assoc| |simpl; lia].
      intros Hm. rewrite Hn by done. unfold queue_wf in Hwf. rewrite Hq in Hwf. simpl in Hwf.
      rewrite !length_app in *; simpl in *. lia.
    + exists dr. split_and!; [rewrite Hi; by rewrite <-app_assoc| |done].
      intros Hm. rewrite Hn by done. rewrite !length_app; simpl. lia.
Qed.

(** ** Theorems *)

(** The framing does not depend on how the stream is cut: for any chunks, the
    reader has enqueued exactly the messages of all their bytes taken at once,
    and keeps the same remainder; the loop always ends, each iteration taking
    at least a byte. *)
Theorem framing_chunk_independent chunks1 chunks2 :
  all_bytes chunks1 = all_bytes chunks2 → tcp_client chunks1 = tcp_client chunks2.
Proof. intros Heq. by rewrite !tcp_client_all, Heq. Qed.

(** C8. Round trip of the framing: however a stream of messages, each framed by
    octet counting or as a line, is cut into chunks, the receiver enqueues
    exactly those messages (decoded), in order, and leaves nothing behind. *)
Theorem framing_roundtrip fs chunks :
  Forall frame_ok fs → all_bytes chunks = stream_of fs →
  tcp_client chunks = (utf8_replace ∘ frame_text <$> fs, "").
Proof.
  intros Hfs Hc. rewrite tcp_client_all, Hc, <-(app_nil_str (stream_of fs)).
  rewrite drain_stream by done. simpl. by rewrite app_nil_r.
Qed.

(** A line that starts with a digit and whose first word is not a number stops
    the connection: whatever follows it, no message of the stream is ever
    enqueued again and the buffer only grows. *)
Theorem digit_line_stalls digits rest chunks e :
  starts_with_digit digits = true → has_char " " digits = false → py_int_bytes digits = Raise e →
  tcp_client ((digits +:+ String " " rest) :: chunks) =
    ([], all_bytes ((digits +:+ String " " rest) :: chunks)).
Proof.
  intros Hd Hs He. rewrite tcp_client_all. apply drain_buffer_stop.
  change (all_bytes ((digits +:+ String " " rest) :: chunks)) with
    ((digits +:+ String " " rest) +:+ all_bytes chunks).
  rewrite app_assoc_str, app_cons_str. unfold drain_step.
  destruct digits as [|c ds]; [done|].
  change (starts_with_digit (String c ds +:+ String " " (rest +:+ all_bytes chunks))) with (is_digit c).
  simpl in Hd. rewrite Hd, partition_app by done. by rewrite He.
Qed.

(** The receiver's queue is bounded and keeps the newest messages: after any
    messages it holds the last of them, as many as fit, and counts one drop for
    each message that it pushed out. *)
Theorem enqueue_keeps_newest queue_max (msgs : list Message) :
  0 < queue_max →
  let r := foldl (λ r m, enqueue r m.1 m.2) (new_receiver queue_max) msgs in
  Z.of_nat (length (q_items (rc_queue r))) = Z.min queue_max (Z.of_nat (length msgs)) ∧
  ∃ dropped, dropped ++ q_items (rc_queue r) = msgs ∧
    rc_backpressure_drops r = Z.of_nat (length dropped).
Proof.
  intros Hq r. destruct (enqueue_all (Queue queue_max []) 0 msgs) as (dropped & Hi & Hn & Hd).
  { right. simpl. lia. }
  simpl in Hn. subst r. unfold new_receiver. split; [by apply Hn|]. exists dropped. split; [exact Hi|].
  rewrite Hd. lia.
Qed.

(** ** A receiver and the reader of its queue *)

Definition enqueue_lines (r : SyslogReceiver) (ms : list Message) : SyslogReceiver :=
  foldl (λ r m, enqueue r m.1 m.2) r ms.

(** What [datagram_received] hands to [_enqueue]. *)
Definition datagram_messages (peer data : string) : list Message :=
  let line := utf8_replace (rstrip_by is_crlf data) in if str_true line then [(peer, line)] else [].

(** What was received, with what a reader has taken: lines come in order, drops are
    counted, and nothing is lost when the queue has no bound. *)
Definition receiver_inv (m : Z) (r : SyslogReceiver) (taken received : list Message) : Prop :=
  (queue_wf (rc_queue r) ∧ q_maxsize (rc_queue r) = m) ∧
  arrived m (taken ++ q_items (rc_queue r)) received ∧
  rc_backpressure_drops r + Z.of_nat (length taken) + Z.of_nat (length (q_items (rc_queue r))) =
    Z.of_nat (length received).

Lemma enqueue_drops r p l :
  queue_wf (rc_queue r) →
  rc_backpressure_drops (enqueue r p l) + Z.of_nat (length (q_items (rc_queue (enqueue r p l)))) =
    rc_backpressure_drops r + Z.of_nat (length (q_items (rc_queue r))) + 1.
Proof.
  intros Hwf. unfold enqueue. simpl. rewrite put_drop_oldest_was_full, put_drop_oldest_items by done.
  rewrite length_app. destruct (q_full (rc_queue r)) eqn:Hf; simpl; [|lia].
  apply q_full_true in Hf. destruct (q_items (rc_queue r)); simpl in *; lia.
Qed.

Lemma enqueue_lines_spec ms r :
  queue_wf (rc_queue r) →
  let r' := enqueue_lines r ms in
  queue_wf (rc_queue r') ∧ q_maxsize (rc_queue r') = q_maxsize (rc_queue r) ∧
  arrived (q_maxsize (rc_queue r)) (q_items (rc_queue r')) (q_items (rc_queue r) ++ ms) ∧
  rc_backpressure_drops r' + Z.of_nat (length (q_items (rc_queue r'))) =
    rc_backpressure_drops r + Z.of_nat (length (q_items (rc_queue r))) + Z.of_nat (length ms).
Proof.
  revert r. induction ms as [|[p l] ms IH]; intros r Hwf; simpl.
  { rewrite app_nil_r. split_and!; auto with ztna. lia. }
  pose proof (enqueue_drops r p l Hwf) as Hd.
  assert (Hwf' : queue_wf (rc_queue (enqueue r p l))) by (simpl; auto with ztna).
  destruct (IH _ Hwf') as (H1 & H2 & H3 & H4). unfold enqueue_lines in *.
  rewrite H2 in *. simpl q_maxsize in H3, H2 |- *. rewrite put_drop_oldest_maxsize in *.
  split_and!; [done|done| |lia].
  eapply arrived_trans; [exact H3|]. rewrite (app_assoc _ [(p, l)] ms : _ ++ (p, l) :: ms = _).
  apply arrived_app; [by apply put_drop_oldest_arrived|apply arrived_refl].
Qed.

Lemma datagram_enqueue r peer data :
  datagram_received r peer data = enqueue_lines r (datagram_messages peer data).
Proof. unfold datagram_received, datagram_messages. by destruct (str_true _). Qed.

Lemma receiver_inv_receive m r taken received ms :
  receiver_inv m r taken received → receiver_inv m (enqueue_lines r ms) taken (received ++ ms).
Proof.
  intros ((Hwf & Hm) & Ha & Hd). destruct (enqueue_lines_spec ms r Hwf) as (H1 & H2 & H3 & H4). rewrite Hm in *.
  split; [by split; [|rewrite H2]|]. split; [|rewrite length_app; lia].
  eapply arrived_trans; [apply arrived_app; [apply arrived_refl|exact H3]|].
  rewrite app_assoc. by apply arrived_app; [|apply arrived_refl].
Qed.

Lemma receiver_inv_take m r taken received msg q :
  receiver_inv m r taken received → get_nowait (rc_queue r) = Some (msg, q) →
  receiver_inv m (mkReceiver q (rc_backpressure_drops r)) (taken ++ [msg]) received.
Proof.
  intros ((Hwf & Hm) & Ha & Hd) Hg. unfold receiver_inv. cbn [rc_queue rc_backpressure_drops].
  pose proof (get_nowait_wf _ _ _ Hg Hwf). apply get_nowait_items in Hg as [Hq Hmq]. rewrite Hq in Ha, Hd.
  split; [by split; [|rewrite Hmq]|]. split; [by rewrite <-app_assoc|]. simpl in Hd. rewrite length_app. simpl. lia.
Qed.

(** *** Witnesses *)

Definition ex_frames : list frame := [Octets "5 <14>x"; Line "<13>host app"; Octets ""].

Lemma ex_frames_ok : Forall frame_ok ex_frames.
Proof. repeat constructor; try done; intros Hx; discriminate Hx. Qed.

Lemma framing_roundtrip_witness :
  tcp_client ["7 5 <1"; "4>x<13>host"; ""; " app" +:+ String lf "0 "] = (["5 <14>x"; "<13>host app"; ""], "").
Proof.
  rewrite (framing_roundtrip ex_frames); [reflexivity|exact ex_frames_ok|vm_compute; reflexivity].
Defined.

Lemma framing_chunk_independent_witness :
  tcp_client ["3 a"; "bc4 d"] = tcp_client ["3 abc"; "4"; " d"] ∧
  tcp_client ["3 a"; "bc4 d"] = (["abc"], "4 d").
Proof.
  split; [apply framing_chunk_independent; reflexivity|vm_compute; reflexivity].
Defined.

Lemma digit_line_stalls_witness :
  tcp_client ["2026-04-22T10:00:00Z fw1 TRAFFIC" +:+ String lf ""; "<14>good line" +:+ String lf ""] =
    ([], "2026-04-22T10:00:00Z fw1 TRAFFIC" +:+ String lf ("<14>good line" +:+ String lf "")).
Proof.
  apply (digit_line_stalls "2026-04-22T10:00:00Z" ("fw1 TRAFFIC" +:+ String lf "")
    ["<14>good line" +:+ String lf ""] ValueError); reflexivity.
Defined.

Lemma enqueue_keeps_newest_witness :
  let r := foldl (λ r m, enqueue r m.1 m.2) (new_receiver 2) [("p", "a"); ("p", "b"); ("p", "c")] in
  q_items (rc_queue r) = [("p", "b"); ("p", "c")] ∧ rc_backpressure_drops r = 1 ∧
  Z.of_nat (length (q_items (rc_queue r))) = 2.
Proof.
  intros r. split; [reflexivity|]. split; [reflexivity|].
  exact (proj1 (enqueue_keeps_newest 2 [("p", "a"); ("p", "b"); ("p", "c")] ltac:(lia))).
Defined.
