(* ===== verification/RedisBus.v ===== *)
(** * Publishing on Redis streams ([ztna_common/redis_bus.py])

    [RedisFlowPublisher] buffers encoded events and sends a full buffer in one
    pipeline of [XADD]s; [RedisStreamProducer] sends each event at once.  The
    encoding is the argument [jsonify]; the outcome of a pipeline is an input. *)

From S2P Require Import Prelude EventTypes.

(** One [XADD]: the stream, the payload and the approximate length bound. *)
Record xadd_cmd : Type := mkXadd {
  xa_stream : string;
  xa_payload : string;
  xa_maxlen : option Z
}.

Record RedisFlowPublisher : Type := mkFlowPublisher {
  fp_stream : string;
  fp_max_batch : Z;
  fp_maxlen_approx : option Z;
  fp_buf : list string
}.

Definition new_flow_publisher (stream : string) (max_batch : Z) (maxlen : option Z) : RedisFlowPublisher :=
  mkFlowPublisher stream max_batch maxlen [].

Definition with_buf (p : RedisFlowPublisher) (buf : list string) : RedisFlowPublisher :=
  mkFlowPublisher (fp_stream p) (fp_max_batch p) (fp_maxlen_approx p) buf.

(** The commands of a pipeline. *)
Definition xadds (p : RedisFlowPublisher) (buf : list string) : list xadd_cmd :=
  (λ payload, mkXadd (fp_stream p) payload (fp_maxlen_approx p)) <$> buf.
Arguments xadds : simpl never.

(** [_flush_locked]: the pipeline, if there is one, and the outcome; the buffer is
    cleared also when the pipeline raises. *)
Definition flush_locked (p : RedisFlowPublisher) (redis : result ()) :
    RedisFlowPublisher * list (list xadd_cmd) * result () :=
  match fp_buf p with
  | [] => (p, [], Ok ())
  | buf => (with_buf p [], [xadds p buf], redis)
  end.

(** [publish] and [flush], under the lock. *)
Definition publish_flow (jsonify : FlowEvent → string) (p : RedisFlowPublisher) (ev : FlowEvent)
    (redis : result ()) : RedisFlowPublisher * list (list xadd_cmd) * result () :=
  let p1 := with_buf p (fp_buf p ++ [jsonify ev]) in
  if fp_max_batch p <=? Z.of_nat (length (fp_buf p1)) then flush_locked p1 redis
  else (p1, [], Ok ()).

Inductive bus_op : Type :=
  | BusPublish (ev : FlowEvent)
  | BusFlush.

Definition bus_step (jsonify : FlowEvent → string) (p : RedisFlowPublisher) (o : bus_op * result ()) :
    RedisFlowPublisher * list (list xadd_cmd) * result () :=
  match o.1 with
  | BusPublish ev => publish_flow jsonify p ev o.2
  | BusFlush => flush_locked p o.2
  end.

(** A run: the publisher, and the pipelines sent with their outcome. *)
Fixpoint bus_run (jsonify : FlowEvent → string) (p : RedisFlowPublisher) (ops : list (bus_op * result ())) :
    RedisFlowPublisher * list (list xadd_cmd * result ()) :=
  match ops with
  | [] => (p, [])
  | o :: rest =>
      let '(p1, sent, res) := bus_step jsonify p o in
      let '(p2, out) := bus_run jsonify p1 rest in
      (p2, ((λ b, (b, res)) <$> sent) ++ out)
  end.

(** [RedisStreamProducer.xadd] *)
Record RedisStreamProducer : Type := mkProducer { pr_stream : string; pr_maxlen : option Z }.

Definition producer_xadd (jsonify : IdentityEvent → string) (p : RedisStreamProducer) (ev : IdentityEvent)
    (redis : result ()) : list xadd_cmd * result () :=
  ([mkXadd (pr_stream p) (jsonify ev) (pr_maxlen p)], redis).

(** ** Specification vocabulary *)

Definition published (jsonify : FlowEvent → string) (ops : list (bus_op * result ())) : list string :=
  omap (λ o, match o.1 with BusPublish ev => Some (jsonify ev) | BusFlush => None end) ops.

(** ** Lemmas *)

Lemma xadds_payload p buf : xa_payload <$> xadds p buf = buf.
Proof. unfold xadds. rewrite <-list_fmap_compose. apply list_fmap_id. Qed.

Lemma flush_locked_spec p redis p' sent res :
  flush_locked p redis = (p', sent, res) →
  (xa_payload <$> concat sent) ++ fp_buf p' = fp_buf p ∧ fp_buf p' = [] ∧
  fp_max_batch p' = fp_max_batch p ∧ Forall (λ b, b ≠ [] ∧ length b = length (fp_buf p)) sent.
Proof.
  unfold flush_locked. destruct (fp_buf p) as [|x buf] eqn:E; intros [= <- <- <-].
  - by split_and!.
  - cbn [concat fp_buf with_buf]. rewrite !app_nil_r, xadds_payload. split_and!; try done.
    apply Forall_singleton. split; [done|]. apply length_fmap.
Qed.

Lemma bus_step_spec jsonify p o p' sent res :
  Z.of_nat (length (fp_buf p)) < fp_max_batch p →
  bus_step jsonify p o = (p', sent, res) →
  (xa_payload <$> concat sent) ++ fp_buf p' = fp_buf p ++ published jsonify [o] ∧
  Z.of_nat (length (fp_buf p')) < fp_max_batch p ∧ fp_max_batch p' = fp_max_batch p ∧
  Forall (λ b, b ≠ [] ∧ Z.of_nat (length b) ≤ fp_max_batch p) sent.
Proof.
  intros Hlt. unfold bus_step, published. destruct o as [[ev|] redis]; simpl.
  - unfold publish_flow. cbn [fp_buf with_buf].
    destruct (Z.leb_spec (fp_max_batch p) (Z.of_nat (length (fp_buf p ++ [jsonify ev])))) as [Hle|Hgt].
    + intros Hf. apply flush_locked_spec in Hf as (H1 & H2 & H3 & H4). cbn [fp_buf with_buf] in *.
      split_and!; [done|rewrite H2; simpl; lia|done|]. eapply Forall_impl; [exact H4|].
      intros b [Hb Hl]. split; [done|]. rewrite Hl, length_app. simpl. lia.
    + intros [= <- <- <-]. simpl. by split_and!.
  - intros Hf. apply flush_locked_spec in Hf as (H1 & H2 & H3 & H4). rewrite app_nil_r.
    split_and!; [done|rewrite H2; simpl; lia|done|]. eapply Forall_impl; [exact H4|].
    intros b [Hb Hl]. split; [done|]. rewrite Hl. lia.
Qed.

Lemma bus_run_spec jsonify p ops p' out :
  Z.of_nat (length (fp_buf p)) < fp_max_batch p →
  bus_run jsonify p ops = (p', out) →
  (xa_payload <$> concat out.*1) ++ fp_buf p' = fp_buf p ++ published jsonify ops ∧
  Z.of_nat (length (fp_buf p')) < fp_max_batch p ∧
  Forall (λ b, b.1 ≠ [] ∧ Z.of_nat (length b.1) ≤ fp_max_batch p) out.
Proof.
  revert p out. induction ops as [|o ops IH]; intros p out Hlt; simpl.
  - intros [= <- <-]. unfold published. simpl. rewrite app_nil_r. by split_and!.
  - destruct (bus_step jsonify p o) as [[p1 sent] res] eqn:E1.
    destruct (bus_run jsonify p1 ops) as [p2 out2] eqn:E2. intros [= <- <-].
    destruct (bus_step_spec _ _ _ _ _ _ Hlt E1) as (H1 & H2 & H3 & H4). rewrite <-H3 in H2.
    destruct (IH p1 out2 H2 E2) as (G1 & G2 & G3). rewrite H3 in *.
    split_and!; [|done|].
    + rewrite fmap_app, concat_app, fmap_app, <-app_assoc, G1, app_assoc, <-list_fmap_compose.
      change (fst ∘ _) with (@id (list xadd_cmd)). rewrite list_fmap_id, H1, <-app_assoc.
      unfold published. by rewrite <-(omap_app _ [o] ops).
    + apply Forall_app. split; [|done]. apply Forall_fmap. eapply Forall_impl; [exact H4|]. done.
Qed.

(** ** Theorems *)

(** Every published event is sent to the stream exactly once and in order, or
    is still in the buffer; no pipeline is empty or larger than the batch size,
    and the buffer stays below it.  (The events of a pipeline that raised are
    lost, and nothing else.) *)
Theorem bus_in_order jsonify stream max_batch maxlen ops :
  0 < max_batch →
  let '(p, out) := bus_run jsonify (new_flow_publisher stream max_batch maxlen) ops in
  (xa_payload <$> concat out.*1) ++ fp_buf p = published jsonify ops ∧
  Z.of_nat (length (fp_buf p)) < max_batch ∧
  Forall (λ b, b.1 ≠ [] ∧ Z.of_nat (length b.1) ≤ max_batch) out.
Proof.
  intros Hm. destruct (bus_run _ _ ops) as [p out] eqn:E. by apply bus_run_spec in E.
Qed.

(** Nothing but the number of events triggers a send: fewer events than the
    batch size stay in the buffer, however long ago they were published, until
    an explicit flush. *)
Theorem partial_batch_waits jsonify stream max_batch maxlen (evs : list (FlowEvent * result ())) :
  Z.of_nat (length evs) < max_batch →
  bus_run jsonify (new_flow_publisher stream max_batch maxlen) ((λ e, (BusPublish e.1, e.2)) <$> evs) =
    (mkFlowPublisher stream max_batch maxlen (jsonify <$> evs.*1), []).
Proof.
  intros Hl. unfold new_flow_publisher.
  assert (Hgen : ∀ buf, Z.of_nat (length buf + length evs) < max_batch →
    bus_run jsonify (mkFlowPublisher stream max_batch maxlen buf) ((λ e, (BusPublish e.1, e.2)) <$> evs) =
    (mkFlowPublisher stream max_batch maxlen (buf ++ (jsonify <$> evs.*1)), [])); [|by apply Hgen].
  clear Hl. induction evs as [|e evs IH]; intros buf Hl; csimpl; [by rewrite app_nil_r|].
  unfold bus_step, publish_flow, with_buf. simpl in *. rewrite length_app. simpl.
  rewrite (proj2 (Z.leb_gt _ _)) by lia. rewrite IH by (rewrite length_app; simpl; lia).
  by rewrite <-app_assoc.
Qed.

(** *** Witnesses *)

Definition ex_event (n : Z) : FlowEvent :=
  mkFlowEvent n "10.0.0.1" 40000 "52.97.1.1" 443 6 n 10 "allow" None None "palo_alto" None.

Definition ex_json (ev : FlowEvent) : string :=
  if decide (fe_bytes ev = 1) then "1" else if decide (fe_bytes ev = 2) then "2" else "3".

Lemma bus_in_order_witness :
  let '(p, out) := bus_run ex_json (new_flow_publisher "flows.raw" 2 (Some 1000000))
    [(BusPublish (ex_event 1), Ok ()); (BusPublish (ex_event 2), Raise OtherError);
     (BusPublish (ex_event 3), Ok ())] in
  (λ b : list xadd_cmd * result (), (xa_payload <$> b.1, b.2)) <$> out = [(["1"; "2"], Raise OtherError)] ∧ fp_buf p = ["3"] ∧
  Z.of_nat (length (fp_buf p)) < 2.
Proof.
  pose proof (bus_in_order ex_json "flows.raw" 2 (Some 1000000)
    [(BusPublish (ex_event 1), Ok ()); (BusPublish (ex_event 2), Raise OtherError);
     (BusPublish (ex_event 3), Ok ())] ltac:(lia)) as H.
  destruct (bus_run _ _ _) as [p out] eqn:E. destruct H as (_ & Hl & _).
  vm_compute in E. injection E as <- <-. split; [reflexivity|]. split; [reflexivity|]. exact Hl.
Defined.

Lemma partial_batch_waits_witness :
  bus_run ex_json (new_flow_publisher "flows.raw" 50 None)
    [(BusPublish (ex_event 1), Ok ()); (BusPublish (ex_event 2), Ok ())] =
    (mkFlowPublisher "flows.raw" 50 None ["1"; "2"], []).
Proof.
  apply (partial_batch_waits ex_json "flows.raw" 50 None [(ex_event 1, Ok ()); (ex_event 2, Ok ())]).
  simpl. lia.
Defined.
