(* ===== verification/FlowAdapters.v ===== *)
(** * The firewall adapters ([flow_ingest/adapters/*.py] and [flow_ingest/main.py])

    Parsing of PAN-OS traffic lines (CSV or LEEF) and FortiGate traffic lines
    into flow events, and the loop that takes lines from the syslog queue.  The
    wall clock is the argument [now]. *)

From S2P Require Import Prelude PyDict PyQueue PyStr PyText EventTypes SyslogReceiver RedisBus.

(** ** Palo Alto *)

Definition some_true (s : string) : option string := if str_true s then Some s else None.

(** [_proto] *)
Definition proto_by_name (val : string) : option Z :=
  if decide (val = "tcp") then Some 6
  else if decide (val = "udp") then Some 17
  else if decide (val = "icmp") then Some 1 else None.

Definition proto_of (val : string) : Z :=
  let v := lower (strip val) in
  match proto_by_name v with
  | Some n => n
  | None => match py_int v with Ok n => n | Raise _ => 0 end
  end.

(** [_ts] *)
Definition pan_ts (now : Z) (s : string) : Z :=
  match strptime_slash s with
  | Some t => t
  | None => match strptime_iso s with Some t => t | None => now end
  end.

(** [fields[i]] *)
Definition field (fs : list string) (i : nat) : result string := need IndexError (fs !! i).

(** [int(s or 0)] *)
Definition int_or_0 (s : string) : result Z := if str_true s then py_int s else Ok 0.

(** The event of a row of fields, with the exceptions of its construction. *)
Definition csv_event (now : Z) (fs : list string) : result FlowEvent :=
  ts ← field fs 6; src ← field fs 7; sport ← field fs 24; sport ← int_or_0 sport;
  dst ← field fs 8; dport ← field fs 25; dport ← int_or_0 dport; proto ← field fs 29;
  bytes ← field fs 31; bytes ← int_or_0 bytes; packets ← field fs 32; packets ← int_or_0 packets;
  action ← field fs 30; app ← field fs 14;
  mret (mkFlowEvent (pan_ts now ts) src sport dst dport (proto_of proto) bytes packets action None
          (some_true app) "palo_alto" None).

Definition ok_or_none {A} (r : result A) : option A := match r with Ok a => Some a | Raise _ => None end.

(** [_parse_csv] after the record is read. *)
Definition csv_row (now : Z) (fs : list string) : option FlowEvent :=
  if (length fs <? 32)%nat || negb (bool_decide (fs !! 3%nat = Some "TRAFFIC")) then None
  else if negb (bool_decide (fs !! 4%nat = Some "end")) then None
  else ok_or_none (csv_event now fs).

Definition parse_csv (now : Z) (line : string) : result (option FlowEvent) :=
  fields ← csv_first (after_first ": " line);
  match fields with
  | None => mret None
  | Some fs => mret (csv_row now fs)
  end.

(** [kvs[k.strip()] = v.strip()] for a pair with an equals sign. *)
Definition add_pair (kvs : gmap string string) (pair : string) : gmap string string :=
  match partition "=" pair with
  | (k, Some v) => <[strip k := strip v]> kvs
  | (_, None) => kvs
  end.

Definition add_default (kvs : gmap string string) (segment : string) : gmap string string :=
  match partition "=" segment with
  | (k, Some v) =>
      match kvs !! strip k with Some _ => kvs | None => <[strip k := strip v]> kvs end
  | (_, None) => kvs
  end.

Definition tab : ascii := ascii_of_nat 9.

Definition leef_pairs (parts : list string) : gmap string string :=
  let kvs := foldl (λ m seg, foldl add_pair m (split_on tab seg)) ∅ (drop 5 parts) in
  foldl add_default kvs parts.

(** [int(kvs.get(k, 0))] *)
Definition int_of_key (kvs : gmap string string) (k : string) : result Z :=
  match kvs !! k with Some v => py_int v | None => Ok 0 end.

Definition leef_event (now : Z) (kvs : gmap string string) : result FlowEvent :=
  src ← need KeyError (kvs !! "src"); sport ← int_of_key kvs "srcPort";
  dst ← need KeyError (kvs !! "dst"); dport ← int_of_key kvs "dstPort";
  bytes ← int_of_key kvs "bytesTotal"; packets ← int_of_key kvs "packetsTotal";
  mret (mkFlowEvent now src sport dst dport (proto_of (default "tcp" (kvs !! "proto"))) bytes packets
          (default "allow" (kvs !! "action")) (h ← kvs !! "hostname"; some_true h)
          (a ← kvs !! "app"; some_true a) "palo_alto" None).

Definition parse_leef (now : Z) (line : string) : option FlowEvent :=
  match find_sub "LEEF:" line with
  | None => None
  | Some tail =>
      let parts := split_on "|" tail in
      if (length parts <? 6)%nat then None else ok_or_none (leef_event now (leef_pairs parts))
  end.

(** [PaloAltoAdapter.parse_line] *)
Definition pan_parse_line (now : Z) (line : string) : result (option FlowEvent) :=
  if contains "LEEF:" line && contains "Palo Alto Networks" line then Ok (parse_leef now line)
  else if contains "TRAFFIC" line then parse_csv now line
  else Ok None.

(** ** FortiGate *)

(** [_PRI_PREFIX.sub("", line)]: the pattern is a less-than sign, digits, a
    greater-than sign, at the start. *)
Definition drop_pri (line : string) : string :=
  match line with
  | String "<" rest =>
      match partition ">" rest with
      | (digits, Some after) => if str_true digits && str_forall is_digit digits then after else line
      | (_, None) => line
      end
  | _ => line
  end.

Definition add_token (kv : gmap string string) (tok : string) : gmap string string :=
  match partition "=" tok with
  | (k, Some v) => <[k := v]> kv
  | (_, None) => kv
  end.

(** [_kv] *)
Definition forti_kv (line : string) : result (gmap string string) :=
  tokens ← shlex_split (strip (drop_pri line));
  mret (foldl add_token ∅ tokens).

Definition forti_event (now : Z) (kv : gmap string string) : result FlowEvent :=
  src ← need KeyError (kv !! "srcip"); sport ← int_of_key kv "srcport";
  dst ← need KeyError (kv !! "dstip"); dport ← int_of_key kv "dstport"; proto ← int_of_key kv "proto";
  sent ← int_of_key kv "sentbyte"; rcvd ← int_of_key kv "rcvdbyte";
  sentp ← int_of_key kv "sentpkt"; rcvdp ← int_of_key kv "rcvdpkt";
  mret (mkFlowEvent now src sport dst dport proto (sent + rcvd) (sentp + rcvdp)
          (default "close" (kv !! "action")) (h ← kv !! "hostname"; some_true h)
          (a ← kv !! "app"; some_true a) "fortigate" (kv !! "logid")).

(** [FortiGateAdapter.parse_line] *)
Definition forti_parse_line (now : Z) (line : string) : option FlowEvent :=
  match forti_kv line with
  | Raise _ => None
  | Ok kv =>
      if negb (bool_decide (kv !! "type" = Some "traffic")) then None
      else if negb (bool_decide (kv !! "subtype" = Some "forward")) then None
      else if negb (bool_decide (kv !! "status" = Some "close")) then None
      else ok_or_none (forti_event now kv)
  end.

(** ** The adapters' loop *)

(** An adapter: its parser and its allow list, if any. *)
Record FlowAdapter : Type := mkFlowAdapter {
  fa_parse : Z → string → result (option FlowEvent);
  fa_allowlist : option (gset string)
}.

Definition palo_alto (allow : option (gset string)) : FlowAdapter := mkFlowAdapter pan_parse_line allow.
Definition fortigate (allow : option (gset string)) : FlowAdapter :=
  mkFlowAdapter (λ now line, Ok (forti_parse_line now line)) allow.

(** [if self.peer_allowlist and peer not in self.peer_allowlist]: an empty list
    allows every peer. *)
Definition peer_allowed (a : FlowAdapter) (peer : string) : bool :=
  match fa_allowlist a with
  | None => true
  | Some s => bool_decide (s = ∅) || bool_decide (peer ∈ s)
  end.

(** One turn of [run] on a message: the event to publish, if any. *)
Definition adapter_step (a : FlowAdapter) (now : Z) (m : Message) : option FlowEvent :=
  if peer_allowed a m.1 then
    match fa_parse a now m.2 with
    | Raise _ => None
    | Ok o => o
    end
  else None.

(** Adapters that share the receiver's queue: each message is taken by one of
    them, which the schedule says. *)
Definition shared_run (adapters : list FlowAdapter) (now : Z) (taken : list (nat * Message)) :
    list FlowEvent :=
  omap (λ t, a ← adapters !! t.1; adapter_step a now t.2) taken.

(** [list_enabled_adapters] over the registry. *)
Definition list_enabled_adapters (registry : list string) (configs : pydict string bool) : list string :=
  filter (λ n, n ∈ registry) (omap (λ c, if c.2 : bool then Some c.1 else None) configs).

(** ** Lemmas *)

Lemma rstrip_last P s c : P c = false → rstrip_by P (s +:+ String c "") = s +:+ String c "".
Proof.
  intros Hc. induction s as [|d s IH]; [change ("" +:+ String c "") with (String c ""); simpl; by rewrite Hc|].
  rewrite app_cons_str. simpl. rewrite IH. destruct s; done.
Qed.

Lemma sh_pair_last kv : ∃ x, sh_pair kv = x +:+ String dquote "".
Proof.
  destruct kv as [k v]. unfold sh_pair. exists (k +:+ String "=" (String dquote (sh_escape v))).
  by rewrite app_assoc_str, !app_cons_str.
Qed.

Lemma sh_render_last kvs : kvs ≠ [] → ∃ x, sh_render kvs = x +:+ String dquote "".
Proof.
  induction kvs as [|kv kvs IH]; [done|]. intros _. destruct kvs as [|kv' kvs]; [apply sh_pair_last|].
  destruct IH as [x Hx]; [done|].
  exists (sh_pair kv +:+ String " " x).
  change (sh_render (kv :: kv' :: kvs)) with (sh_pair kv +:+ String " " (sh_render (kv' :: kvs))).
  by rewrite Hx, app_assoc_str, app_cons_str.
Qed.

(** A key that can be written without quotes. *)
Definition key_char (c : ascii) : bool :=
  plain_char c && negb (is_space c) && negb (bool_decide (c = "="%char)).

Definition key_ok (k : string) : Prop := k ≠ "" ∧ str_forall key_char k = true.

Lemma key_ok_plain k : key_ok k → str_forall plain_char k = true.
Proof.
  intros [_ Hk]. eapply str_forall_impl; [|exact Hk]. intros c. unfold key_char.
  rewrite !andb_true_iff. tauto.
Qed.

Lemma key_ok_no_eq k : key_ok k → has_char "=" k = false.
Proof.
  intros [_ Hk]. induction k as [|c k IH]; [done|]. simpl in *. apply andb_true_iff in Hk as [Hc Hk].
  rewrite IH by done. unfold key_char in Hc. rewrite !andb_true_iff, !negb_true_iff in Hc.
  destruct Hc as [_ Hc]. apply bool_decide_eq_false in Hc. rewrite bool_decide_false; [done|congruence].
Qed.

Lemma strip_render kvs :
  Forall (λ kv, key_ok kv.1) kvs → kvs ≠ [] → strip (sh_render kvs) = sh_render kvs.
Proof.
  intros Hall Hne. unfold strip, strip_by.
  assert (Hl : lstrip_by is_space (sh_render kvs) = sh_render kvs).
  { destruct kvs as [|[k v] kvs]; [done|]. inv Hall. destruct k as [|c k]; [by destruct H1|].
    assert (Hs : ∃ r, sh_render ((String c k, v) :: kvs) = String c r).
    { destruct kvs; eexists; reflexivity. }
    destruct Hs as [r ->]. destruct H1 as [_ Hk]. simpl in Hk. apply andb_true_iff in Hk as [Hc _].
    unfold key_char in Hc. rewrite !andb_true_iff, !negb_true_iff in Hc. destruct Hc as [[_ Hc] _].
    simpl. by rewrite Hc. }
  rewrite Hl. destruct (sh_render_last kvs Hne) as [x ->]. by apply rstrip_last.
Qed.

Lemma drop_pri_lt rest :
  drop_pri (String "<" rest) =
  match partition ">" rest with
  | (digits, Some after) => if str_true digits && str_forall is_digit digits then after else String "<" rest
  | (_, None) => String "<" rest
  end.
Proof. done. Qed.

Lemma drop_pri_prefix pri line :
  0 ≤ pri → drop_pri ("<" +:+ str_Z pri +:+ ">" +:+ line) = line.
Proof.
  intros Hp.
  change ("<" +:+ str_Z pri +:+ ">" +:+ line) with (String "<" (str_Z pri +:+ String ">" line)).
  rewrite drop_pri_lt.
  assert (Hd : str_forall is_digit (str_Z pri) = true) by by apply str_Z_digits.
  assert (Hg : has_char ">" (str_Z pri) = false).
  { clear Hp. induction (str_Z pri) as [|c s IH]; simpl in *; [done|].
    apply andb_true_iff in Hd as [Hc Hd]. rewrite (IH Hd), orb_false_r.
    apply bool_decide_eq_false. by intros <-. }
  rewrite partition_app by done. rewrite Hd. pose proof (str_Z_nonempty pri). by destruct (str_Z pri).
Qed.

Lemma add_token_pair kv m : key_ok kv.1 → add_token m (kv.1 +:+ String "=" kv.2) = <[kv.1 := kv.2]> m.
Proof. intros Hk. unfold add_token. by rewrite partition_app by (by apply key_ok_no_eq). Qed.

Lemma forti_kv_render pri kvs :
  0 ≤ pri → Forall (λ kv, key_ok kv.1) kvs → kvs ≠ [] →
  forti_kv ("<" +:+ str_Z pri +:+ ">" +:+ sh_render kvs) =
    Ok (foldl (λ m kv, <[kv.1 := kv.2]> m) ∅ kvs).
Proof.
  intros Hp Hall Hne. unfold forti_kv. rewrite drop_pri_prefix, strip_render by done.
  rewrite shlex_split_render; [|eapply Forall_impl; [exact Hall|]; intros kv; apply key_ok_plain|done].
  simpl. f_equal. clear Hne. generalize (∅ : gmap string string).
  induction Hall as [|kv kvs Hkv Hall IH]; intros m; csimpl; [done|]. by rewrite add_token_pair.
Qed.

Lemma field_ok fs i s : field fs i = Ok s ↔ fs !! i = Some s.
Proof. unfold field, need. destruct (fs !! i); naive_solver. Qed.

(** The constructor reads the 33rd field. *)
Lemma csv_event_length now fs ev : csv_event now fs = Ok ev → (33 ≤ length fs)%nat.
Proof.
  unfold csv_event. intros He. repeat (apply bind_ok in He as (? & ? & He)).
  repeat match goal with H : field _ _ = Ok _ |- _ => apply field_ok, lookup_lt_Some in H end. lia.
Qed.

(** ** Theorems *)


(** A FortiGate line of key-value pairs is read back exactly, whatever the
    values contain (blanks, quotes, backslashes, equals signs): the adapter sees
    the map of the pairs, later ones winning, and emits an event exactly for a
    closed forward traffic record with addresses and well-formed numbers, with
    the bytes and packets of both directions added. *)
Theorem forti_line_roundtrip now pri kvs :
  0 ≤ pri → Forall (λ kv, key_ok kv.1) kvs → kvs ≠ [] →
  let kv := foldl (λ m kv, <[kv.1 := kv.2]> m) ∅ kvs in
  forti_parse_line now ("<" +:+ str_Z pri +:+ ">" +:+ sh_render kvs) =
    if decide (kv !! "type" = Some "traffic" ∧ kv !! "subtype" = Some "forward" ∧
               kv !! "status" = Some "close")
    then ok_or_none (forti_event now kv) else None.
Proof.
  intros Hp Hall Hne kv. unfold forti_parse_line. rewrite forti_kv_render by done. fold kv.
  destruct (decide (kv !! "type" = Some "traffic")) as [H1|H1]; simpl;
    [rewrite bool_decide_true by done|rewrite bool_decide_false by done; by rewrite decide_False by tauto].
  destruct (decide (kv !! "subtype" = Some "forward")) as [H2|H2]; simpl;
    [rewrite bool_decide_true by done|rewrite bool_decide_false by done; by rewrite decide_False by tauto].
  destruct (decide (kv !! "status" = Some "close")) as [H3|H3]; simpl;
    [rewrite bool_decide_true by done|rewrite bool_decide_false by done; by rewrite decide_False by tauto].
  by rewrite decide_True.
Qed.

(** *** Witnesses and concrete runs *)

(** A row of 33 fields; the rule name holds a comma and a quote. *)
Definition ex_pan_row : list string :=
  ["1"; "2026/04/22 10:00:00"; "0011"; "TRAFFIC"; "end"; "1"; "2026/04/22 10:00:01"; "10.0.0.1"; "52.97.1.1";
   "0.0.0.0"; "0.0.0.0"; "allow, " +:+ String dquote "all"; "corp\ann"; ""; "ms-teams"; "vsys1"; "trust";
   "untrust"; "e1"; "e2"; "log"; ""; "77"; "1"; "40000"; "443"; "0"; "0"; "0x0"; "tcp"; "allow"; "1500"; "12"].


Definition ex_forti : list (string * string) :=
  [("type", "traffic"); ("subtype", "forward"); ("status", "close"); ("srcip", "10.0.0.2");
   ("dstip", "1.1.1.1"); ("dstport", "443"); ("sentbyte", "10"); ("rcvdbyte", "32");
   ("app", "A " +:+ String dquote "quoted" +:+ String backslash "=name")].

Lemma ex_forti_keys : Forall (λ kv, key_ok kv.1) ex_forti.
Proof. repeat (apply Forall_cons; split; [split; [discriminate|reflexivity]|]). apply Forall_nil. exact I. Qed.

Lemma forti_line_roundtrip_witness :
  fe_bytes <$> forti_parse_line 5 ("<" +:+ str_Z 134 +:+ ">" +:+ sh_render ex_forti) = Some 42 ∧
  (fe_app_id <$> forti_parse_line 5 ("<" +:+ str_Z 134 +:+ ">" +:+ sh_render ex_forti)) =
    Some (Some ("A " +:+ String dquote "quoted" +:+ String backslash "=name")).
Proof.
  rewrite (forti_line_roundtrip 5 134 ex_forti); [|lia|exact ex_forti_keys|discriminate].
  vm_compute. split; reflexivity.
Defined.

(** The adapters share one queue: a traffic line is published only if the adapter
    of its vendor happens to take it. *)
Example wrong_adapter_loses_line :
  let line := ("10.9.9.9", csv_render ex_pan_row) in
  length (shared_run [palo_alto None; fortigate None] 0 [(0%nat, line)]) = 1%nat ∧
  shared_run [palo_alto None; fortigate None] 0 [(1%nat, line)] = [].
Proof. vm_compute. split; reflexivity. Qed.

Example leef_run :
  (λ e, (fe_src_ip e, fe_dst_port e, fe_bytes e, fe_fqdn e)) <$>
    parse_leef 0 ("LEEF:2.0|Palo Alto Networks|PAN-OS|10.1|TRAFFIC|x09|src=10.0.0.1" +:+ String tab
      "dst=1.1.1.1" +:+ String tab "dstPort=443" +:+ String tab "bytesTotal=99") =
  Some ("10.0.0.1", 443, 99, None).
Proof. vm_compute. reflexivity. Qed.
