(* ===== verification/IdAdapters.v ===== *)
(** * The identity adapters ([id_ingest/adapters/*.py])

    Parsing of Windows logon records, of RADIUS accounting from Cisco ISE and of
    Aruba ClearPass events, and the poll of the Entra sign-in log, into identity
    events.  The wall clock is the argument [now]; the answers of the HTTP client
    are arguments.  The classes [\s] and [\d] of the patterns are those of ASCII. *)

From S2P Require Import Prelude PyDict PyStr PyText PyDatetime PyJson PyIp Utf8 EventTypes SyslogReceiver.

(** The event an adapter yields: a dictionary whose texts may come from a JSON
    document as any value. *)
Record IdentityDict : Type := mkIdentityDict {
  id_ts : Z;
  id_src_ip : json;
  id_user_upn : json;
  id_source : string;
  id_event_type : string;
  id_confidence : Z;
  id_ttl_seconds : Z;
  id_mac : json;
  id_raw_id : json
}.

Definition opt_str (o : option string) : json := match o with Some s => JStr s | None => JNull end.

(** The [except Exception] of the parsers: an error gives no event. *)
Definition no_event {A} (r : result (option A)) : option A :=
  match r with Ok o => o | Raise _ => None end.

(** ** Windows logons *)

Module Ad4624.

Definition CONFIDENCE_BY_LOGON_TYPE : pydict string Z := [("2", 90); ("10", 90); ("11", 50); ("3", 70)].
Definition DEFAULT_TTL_S : Z := 8 * 3600.
Definition ACCEPTED_LOGON_TYPES : list string := ["2"; "3"; "10"; "11"].
Definition LOGON_EVENT_ID : Z := 4624.

Section parse.
Context `{PyPrims}.

(** [f"{user}@{domain}".rstrip("@")] *)
Definition upn_of (user domain : json) : string :=
  rstrip_by (λ c, bool_decide (c = "@"%char)) (json_str user +:+ String "@" (json_str domain)).

Definition event_of_doc (doc : json) : result (option IdentityDict) :=
  eid ← jget_none "event_id" doc;
  if negb (jeq_int eid LOGON_EVENT_ID) then Ok None
  else
    winlog ← jget_or "winlog" (JObj []) doc;
    data ← jget_or "event_data" (JObj []) winlog;
    lt ← jget_or "LogonType" (JStr "") data;
    ip ← jget_none "IpAddress" data;
    let logon_type := json_str lt in
    if negb (bool_decide (logon_type ∈ ACCEPTED_LOGON_TYPES)) || negb (jtrue ip) || jeq_str ip "-" then Ok None
    else
      user ← jitem "TargetUserName" data;
      domain ← jget_or "TargetDomainName" (JStr "") data;
      tsv ← jitem "@timestamp" doc;
      ts ← as_str tsv;
      ts ← fromisoformat (replace_char "Z" "+00:00" ts);
      guid ← jget_none "LogonGuid" data;
      Ok (Some (mkIdentityDict ts ip (JStr (upn_of user domain)) "ad_4624" "logon"
                  (default 50 (dget logon_type CONFIDENCE_BY_LOGON_TYPE)) DEFAULT_TTL_S JNull guid)).

(** [Ad4624Adapter.parse] *)
Definition parse (line : string) : option IdentityDict :=
  no_event (doc ← loads (after_first ": " (utf8_replace line)); event_of_doc doc).

End parse.
End Ad4624.

(** ** Cisco ISE *)

Module CiscoIse.

Definition DEFAULT_TTL : Z := 12 * 3600.

Definition is_alpha (c : ascii) : bool := between 65 90 c || between 97 122 c.
Definition is_alnum (c : ascii) : bool := is_alpha c || is_digit c.
Definition key_char (c : ascii) : bool := is_alnum c || bool_decide (c = "-"%char).
Definition not_comma (c : ascii) : bool := negb (bool_decide (c = ","%char)).

(** The last character of a run of blanks, which the pattern gives back to the
    value when nothing else is left for it. *)
Definition last_char (s : string) : string := str_drop (pred (String.length s)) s.

(** [_KV] at a position: the pair and the length of the match. *)
Definition kv_match (s : string) : option ((string * string) * nat) :=
  match s with
  | String c r =>
      if is_alpha c then
        let '(k, r1) := span key_char r in
        let '(_, r2) := span is_space r1 in
        match r2 with
        | String "=" r3 =>
            let '(blanks, r4) := span is_space r3 in
            let '(v, r5) := span not_comma r4 in
            let v := if str_true v then v else last_char blanks in
            if str_true v then Some ((String c k, v), (String.length s - String.length r5)%nat) else None
        | _ => None
        end
      else None
  | EmptyString => None
  end.

Definition kv_of (text : string) : gmap string string :=
  foldl (λ kv p, <[p.1 := strip p.2]> kv) ∅ (finditer kv_match 0 text).

Definition event_of_kv (now : Z) (kv : gmap string string) : result (option IdentityDict) :=
  let status := default "" (kv !! "Acct-Status-Type") in
  match kv !! "Framed-IP-Address", kv !! "UserName" with
  | Some ip, Some user =>
      if negb (str_true ip) || negb (str_true user) ||
         negb (bool_decide (status = "Start") || bool_decide (status = "Stop")) then Ok None
      else
        let stop := bool_decide (status = "Stop") in
        ttl ← (if stop then Ok 0 else py_int (default (str_Z DEFAULT_TTL) (kv !! "Session-Timeout")));
        Ok (Some (mkIdentityDict now (JStr ip) (JStr user) "cisco_ise"
                    (if stop then "nac-auth-stop" else "nac-auth") 95 ttl
                    (opt_str (kv !! "Calling-Station-ID")) (opt_str (kv !! "Acct-Session-Id"))))
  | _, _ => Ok None
  end.

(** [CiscoIseAdapter.parse] *)
Definition parse (now : Z) (line : string) : option IdentityDict :=
  let text := utf8_replace line in
  if negb (contains "CISE_RADIUS_Accounting" text) then None
  else no_event (event_of_kv now (kv_of text)).

End CiscoIse.

(** ** Aruba ClearPass *)

Module ArubaClearpass.

Definition DEFAULT_TTL : Z := 12 * 3600.

Definition not_bar (c : ascii) : bool := negb (bool_decide (c = "|"%char)).
Definition not_space (c : ascii) : bool := negb (is_space c).
Definition not_nl (c : ascii) : bool := negb (bool_decide (c = nl)).

(** A field of a class of characters and the bar after it. *)
Definition bar_field (P : ascii → bool) (s : string) : option (string * string) :=
  match span P s with
  | (a, String "|" r) => if str_true a then Some (a, r) else None
  | _ => None
  end.

Definition literal_prefix (p s : string) : option string :=
  if starts_with s p then Some (str_drop (String.length p) s) else None.

(** [_HEADER] at a position: the name and the extension. *)
Definition header_match (s : string) : option (string * string) :=
  s ← literal_prefix "CEF:0|" s;
  '(_, s) ← bar_field not_bar s;
  s ← literal_prefix "ClearPass|" s;
  '(_, s) ← bar_field not_bar s;
  '(_, s) ← bar_field is_digit s;
  '(name, s) ← bar_field not_bar s;
  '(_, s) ← bar_field is_digit s;
  Some (name, (span not_nl s).1).

(** [_CEF_FIELDS] at a position. *)
Definition field_match (s : string) : option ((string * string) * nat) :=
  match span CiscoIse.is_alnum s with
  | (k, String "=" r) =>
      let '(v, r') := span not_space r in
      if str_true k && str_true v then Some ((k, v), (String.length s - String.length r')%nat) else None
  | _ => None
  end.

Definition kv_of (ext : string) : gmap string string :=
  foldl (λ kv p, <[p.1 := p.2]> kv) ∅ (finditer field_match 0 ext).

Definition session_ttl (kv : gmap string string) : result Z :=
  match kv !! "cs2Label", kv !! "cs2" with
  | Some l, Some v => if decide (l = "Session-Timeout") then py_int v else Ok DEFAULT_TTL
  | _, _ => Ok DEFAULT_TTL
  end.

Definition event_of_kv (now : Z) (name : string) (kv : gmap string string) : result (option IdentityDict) :=
  ttl ← session_ttl kv;
  let is_stop := contains "Stop" name in
  src ← need KeyError (kv !! "src");
  user ← need KeyError (kv !! "suser");
  Ok (Some (mkIdentityDict now (JStr src) (JStr user) "aruba_clearpass"
              (if is_stop then "nac-auth-stop" else "nac-auth") 95 (if is_stop then 0 else ttl)
              (opt_str (kv !! "smac")) (opt_str (kv !! "externalId")))).

(** [ArubaClearpassAdapter.parse] *)
Definition parse (now : Z) (line : string) : option IdentityDict :=
  match search header_match (utf8_replace line) with
  | None => None
  | Some (name, ext) => no_event (event_of_kv now name (kv_of ext))
  end.

End ArubaClearpass.

(** ** The loop of the syslog adapters *)

(** [run]: the events of the lines taken from the receiver's queue; each line comes
    with the clock at its parsing. *)
Definition syslog_run (parse : Z → string → option IdentityDict) (taken : list (Z * Message)) :
    list IdentityDict :=
  omap (λ m, parse m.1 m.2.2) taken.
