(* ===== verification/IdAdapterProofs.v ===== *)
(** * What the identity adapters read from a line

    A line written from key and value pairs, or from a document, is parsed to the
    event with exactly those fields; the guards of each parser are shown on every
    accepted and rejected status. *)

From S2P Require Import Prelude PyDict PyStr PyText PyDatetime PyJson Utf8 EventTypes IdAdapters.

(** ** Runs of characters *)

Lemma span_app P a c r :
  str_forall P a = true → P c = false → span P (a +:+ String c r) = (a, String c r).
Proof.
  intros Ha Hc. induction a as [|d a IH].
  - change ("" +:+ String c r) with (String c r). simpl. by rewrite Hc.
  - simpl in Ha. apply andb_true_iff in Ha as [Hd Ha]. rewrite app_cons_str. simpl. by rewrite Hd, IH.
Qed.

Lemma span_all P a : str_forall P a = true → span P a = (a, "").
Proof.
  induction a as [|d a IH]; [done|]. simpl. intros [Hd Ha]%andb_true_iff. by rewrite Hd, IH.
Qed.

(** A run inside a text that stops at the latest at a character outside the class. *)
Lemma span_within P a c r :
  P c = false → ∃ a1 a2, a = a1 +:+ a2 ∧ span P (a +:+ String c r) = (a1, a2 +:+ String c r).
Proof.
  intros Hc. induction a as [|d a IH].
  - exists "", "". split; [done|]. change ("" +:+ String c r) with (String c r). simpl. by rewrite Hc.
  - rewrite app_cons_str. simpl. destruct (P d) eqn:Hd.
    + destruct IH as (a1 & a2 & -> & E). exists (String d a1), a2. rewrite E. by rewrite app_cons_str.
    + by exists "", (String d a).
Qed.

Lemma finditer_skip {A} (m : string → option (A * nat)) a b :
  finditer m (String.length a) (a +:+ b) = finditer m 0 b.
Proof. induction a as [|c a IH]; [by destruct b|]. rewrite app_cons_str. exact IH. Qed.

(** A match of the text [a], then the rest. *)
Lemma finditer_match {A} (m : string → option (A * nat)) a b x :
  a ≠ "" → m (a +:+ b) = Some (x, String.length a) → finditer m 0 (a +:+ b) = x :: finditer m 0 b.
Proof.
  intros Ha Hm. destruct a as [|c a]; [done|]. rewrite app_cons_str in *. cbn [finditer]. rewrite Hm.
  cbn [String.length pred]. by rewrite finditer_skip.
Qed.

Lemma finditer_none {A} (m : string → option (A * nat)) a b :
  (∀ a1 a2, a = a1 +:+ a2 → a2 ≠ "" → m (a2 +:+ b) = None) → finditer m 0 (a +:+ b) = finditer m 0 b.
Proof.
  induction a as [|c a IH]; intros Hm; [done|]. rewrite app_cons_str. cbn [finditer].
  rewrite <-app_cons_str, (Hm "" (String c a)) by done. apply IH. intros a1 a2 -> Hne.
  apply (Hm (String c a1)); [|done]. by rewrite app_cons_str.
Qed.

Lemma has_char_suffix c a b : has_char c (a +:+ b) = false → has_char c b = false.
Proof. rewrite has_char_app. by intros [_ H]%orb_false_iff. Qed.

Lemma str_drop_prefix_length a b : (String.length (a +:+ b) - String.length b)%nat = String.length a.
Proof. rewrite length_app_str. lia. Qed.

(** ** Cisco ISE *)

Section ise.
Import CiscoIse.

(** A key and a value as the appliance writes them. *)
Definition ise_key (k : string) : Prop :=
  match k with String c r => is_alpha c = true ∧ str_forall key_char r = true | EmptyString => False end.

Definition trimmed (v : string) : Prop := lstrip_by is_space v = v ∧ rstrip_by is_space v = v.

Definition ise_value (v : string) : Prop := v ≠ "" ∧ has_char "," v = false ∧ trimmed v.

Definition ise_pair (p : string * string) : string := p.1 +:+ String "=" p.2.

(** The pairs, each after a comma and a blank. *)
Fixpoint ise_pairs (ps : list (string * string)) : string :=
  match ps with [] => "" | p :: ps => String "," (String " " (ise_pair p +:+ ise_pairs ps)) end.

Definition pairs_map (ps : list (string * string)) : gmap string string :=
  foldl (λ kv p, <[p.1 := p.2]> kv) ∅ ps.

Lemma no_comma_forall v : has_char "," v = false → str_forall not_comma v = true.
Proof.
  induction v as [|c v IH]; [done|]. simpl. intros [Hc Hv]%orb_false_iff.
  apply bool_decide_eq_false in Hc. rewrite IH by done. unfold not_comma.
  by rewrite bool_decide_false by congruence.
Qed.

Lemma head_not_space v : lstrip_by is_space v = v → v ≠ "" → span is_space v = ("", v).
Proof.
  destruct v as [|c v]; [done|]. simpl. destruct (is_space c); [|done]. intros E _.
  exfalso. pose proof (lstrip_by_length is_space v). rewrite E in *. simpl in *. lia.
Qed.

(** The text ends or goes on with a comma. *)
Definition comma_or_end (s : string) : Prop := s = "" ∨ ∃ r, s = String "," r.

Lemma span_value v s : has_char "," v = false → comma_or_end s → span not_comma (v +:+ s) = (v, s).
Proof.
  intros Hv%no_comma_forall [->|[r ->]]; [|by apply span_app].
  rewrite app_nil_str. by apply span_all.
Qed.

Lemma span_space_app v s : lstrip_by is_space v = v → v ≠ "" → span is_space (v +:+ s) = ("", v +:+ s).
Proof.
  intros Hv Hne. pose proof (head_not_space v Hv Hne) as Hs. destruct v as [|c v]; [done|].
  rewrite app_cons_str. simpl in *. destruct (is_space c); [|done]. by destruct (span is_space v).
Qed.

Lemma kv_match_pair k v s :
  ise_key k → ise_value v → comma_or_end s →
  kv_match (ise_pair (k, v) +:+ s) = Some ((k, v), String.length (ise_pair (k, v))).
Proof.
  intros Hk (Hne & Hcm & Hl & _) Hs. destruct k as [|c k]; [done|]. destruct Hk as [Hc Hk].
  unfold ise_pair. cbn [fst snd]. rewrite !app_assoc_str, !app_cons_str. unfold kv_match. rewrite Hc.
  rewrite span_app by done. cbn [span]. change (is_space "=") with false. cbv beta iota zeta.
  rewrite span_space_app by done. rewrite span_value by done.
  assert (Ht : str_true v = true) by (by destruct v). rewrite Ht, Ht. do 2 f_equal.
  cbn [String.length].   rewrite ?length_app_str. cbn [String.length]. rewrite ?length_app_str. cbn [String.length].
  rewrite ?length_app_str. lia.
Qed.

Lemma kv_match_no_eq a r : has_char "=" a = false → kv_match (a +:+ String "," r) = None.
Proof.
  destruct a as [|c a]; [done|]. rewrite app_cons_str. simpl. intros [_ Ha]%orb_false_iff.
  destruct (is_alpha c); [|done].
  destruct (span_within key_char a "," r) as (a1 & a2 & -> & ->); [done|].
  apply has_char_suffix in Ha.
  destruct (span_within is_space a2 "," r) as (a3 & a4 & -> & ->); [done|].
  apply has_char_suffix in Ha. destruct a4 as [|d a4]; [done|]. rewrite app_cons_str.
  simpl in Ha. apply orb_false_iff in Ha as [Hd _]. apply bool_decide_eq_false in Hd.
  destruct d as [[] [] [] [] [] [] [] []]; done.
Qed.

(** The pairs of a line are found in order. *)
Lemma finditer_pairs ps :
  Forall (λ p, ise_key p.1 ∧ ise_value p.2) ps → finditer kv_match 0 (ise_pairs ps) = ps.
Proof.
  induction ps as [|[k v] ps IH]; intros Hps; [done|]. apply Forall_cons in Hps as [[Hk Hv] Hps].
  cbn [ise_pairs]. cbn [finditer]. change (kv_match (String "," ?x)) with (@None ((string * string) * nat)).
  cbv iota. cbn [finditer]. change (kv_match (String " " ?x)) with (@None ((string * string) * nat)). cbv iota.
  rewrite (finditer_match kv_match _ _ (k, v)).
  - by rewrite IH.
  - by destruct k.
  - apply kv_match_pair; [done|done|]. destruct ps as [|p ps]; [by left|]. right. by eexists.
Qed.

Lemma kv_of_line h ps :
  has_char "=" h = false → ps ≠ [] → Forall (λ p, ise_key p.1 ∧ ise_value p.2) ps →
  kv_of (h +:+ ise_pairs ps) = pairs_map ps.
Proof.
  intros Hh Hne Hps. unfold kv_of.
  assert (Hc : ∃ r, ise_pairs ps = String "," r) by (destruct ps; [done|by eexists]).
  rewrite finditer_none.
  - rewrite finditer_pairs by done. unfold pairs_map. generalize (∅ : gmap string string).
    induction Hps as [|[k v] ps (_ & _ & _ & Hl & Hr) Hps IH]; intros m; [done|]. cbn [fst snd] in *. cbn [foldl fst snd].
    assert (Hs : strip v = v) by (unfold strip, strip_by; by rewrite Hl, Hr). rewrite Hs.
    destruct ps as [|p ps]; [done|]. apply IH; [done|by eexists].
  - intros a1 a2 -> Hne2. destruct Hc as [r ->]. apply kv_match_no_eq. by eapply has_char_suffix.
Qed.

Lemma pairs_map_value ps k v :
  Forall (λ p, ise_key p.1 ∧ ise_value p.2) ps → pairs_map ps !! k = Some v → ise_value v.
Proof.
  intros Hps. unfold pairs_map. cut (∀ m : gmap string string, (∀ k v, m !! k = Some v → ise_value v) →
    ∀ v, foldl (λ kv p, <[p.1 := p.2]> kv) m ps !! k = Some v → ise_value v).
  { intros H. apply H. intros ? ? E. by rewrite lookup_empty in E. }
  clear v. induction Hps as [|[k' v'] ps [_ Hv] Hps IH]; intros m Hm v; [apply Hm|]. simpl. apply IH.
  intros k2 v2. destruct (decide (k' = k2)) as [->|]; [|rewrite lookup_insert_ne by done; apply Hm].
  rewrite lookup_insert_eq. intros [= <-]. exact Hv.
Qed.

Lemma ise_value_true v : ise_value v → str_true v = true.
Proof. intros [Hne _]. by destruct v. Qed.

(** The event of an accounting record. *)
Definition ise_event (now : Z) (ip user : string) (stop : bool) (ttl : Z) (kv : gmap string string) : IdentityDict :=
  mkIdentityDict now (JStr ip) (JStr user) "cisco_ise" (if stop then "nac-auth-stop" else "nac-auth") 95 ttl
    (opt_str (kv !! "Calling-Station-ID")) (opt_str (kv !! "Acct-Session-Id")).

(** An accounting line written from a header without an equals sign and from
    comma-separated pairs gives, for a [Stop], a [nac-auth-stop] event with a TTL of
    zero; for a [Start], a [nac-auth] event whose TTL is the session timeout of the
    line or twelve hours; and no event for any other status. The address, user, MAC
    and session are those of the last pair with their key. *)
Theorem ise_line_event now h ps ip user :
  utf8_replace (h +:+ ise_pairs ps) = h +:+ ise_pairs ps →
  contains "CISE_RADIUS_Accounting" (h +:+ ise_pairs ps) = true →
  has_char "=" h = false → Forall (λ p, ise_key p.1 ∧ ise_value p.2) ps →
  pairs_map ps !! "Framed-IP-Address" = Some ip → pairs_map ps !! "UserName" = Some user →
  (pairs_map ps !! "Acct-Status-Type" = Some "Stop" →
     parse now (h +:+ ise_pairs ps) = Some (ise_event now ip user true 0 (pairs_map ps))) ∧
  (∀ ttl, pairs_map ps !! "Acct-Status-Type" = Some "Start" →
     py_int (default "43200" (pairs_map ps !! "Session-Timeout")) = Ok ttl →
     parse now (h +:+ ise_pairs ps) = Some (ise_event now ip user false ttl (pairs_map ps))) ∧
  (∀ status, pairs_map ps !! "Acct-Status-Type" = status → status ≠ Some "Start" → status ≠ Some "Stop" →
     parse now (h +:+ ise_pairs ps) = None).
Proof.
  intros Hu Hc Hh Hps Hip Huser.
  assert (Hne : ps ≠ []) by (by intros ->).
  assert (E : parse now (h +:+ ise_pairs ps) = no_event (event_of_kv now (pairs_map ps))).
  { unfold parse. rewrite Hu, Hc. simpl. by rewrite kv_of_line. }
  rewrite E. unfold event_of_kv. rewrite Hip, Huser.
  rewrite (ise_value_true ip), (ise_value_true user) by (by eapply pairs_map_value).
  change (str_Z DEFAULT_TTL) with "43200". repeat split.
  - intros ->. done.
  - intros ttl -> Ht. simpl. rewrite Ht. done.
  - intros [st|] -> H1 H2; [|done]. simpl. rewrite !bool_decide_false by congruence. done.
Qed.

End ise.

(** ** Aruba ClearPass *)

Section clearpass.
Import ArubaClearpass.

(** A key and a value of the extension, and the extension they are written to. *)
Definition cef_pair_ok (p : string * string) : Prop :=
  p.1 ≠ "" ∧ str_forall CiscoIse.is_alnum p.1 = true ∧ p.2 ≠ "" ∧ str_forall not_space p.2 = true.

Fixpoint cef_ext (ps : list (string * string)) : string :=
  match ps with
  | [] => ""
  | [p] => ise_pair p
  | p :: ps => ise_pair p +:+ String " " (cef_ext ps)
  end.

(** A field of the header. *)
Definition bar_ok (P : ascii → bool) (a : string) : Prop := a ≠ "" ∧ str_forall P a = true.

Definition cef_line (pre vendor ver sig name sev : string) (ps : list (string * string)) : string :=
  pre +:+ ("CEF:0|" +:+ (vendor +:+ String "|" ("ClearPass|" +:+ (ver +:+ String "|" (sig +:+ String "|"
    (name +:+ String "|" (sev +:+ String "|" (cef_ext ps)))))))).

Lemma bar_field_app P a s : bar_ok P a → P "|"%char = false → bar_field P (a +:+ String "|" s) = Some (a, s).
Proof.
  intros [Hne Ha] Hb. unfold bar_field. rewrite span_app by done.
  assert (str_true a = true) as -> by (by destruct a). done.
Qed.

Lemma literal_prefix_app p s : literal_prefix p (p +:+ s) = Some s.
Proof.
  unfold literal_prefix. assert (starts_with (p +:+ s) p = true) as ->.
  { induction p as [|c p IH]; [by destruct s|]. rewrite app_cons_str. unfold starts_with in *. simpl.
    by destruct (ascii_dec c c). }
  by rewrite str_drop_app.
Qed.

Lemma ext_no_nl ps : Forall cef_pair_ok ps → str_forall not_nl (cef_ext ps) = true.
Proof.
  assert (Happ : ∀ a b, str_forall not_nl (a +:+ b) = str_forall not_nl a && str_forall not_nl b).
  { intros a b. induction a as [|c a IH]; [done|]. rewrite app_cons_str. simpl. by rewrite IH, andb_assoc. }
  assert (Hp : ∀ p, cef_pair_ok p → str_forall not_nl (ise_pair p) = true).
  { intros [k v] (_ & Hk & _ & Hv). unfold ise_pair. cbn [fst snd] in *. rewrite Happ. simpl.
    rewrite (str_forall_impl _ not_nl k) with (2 := Hk), (str_forall_impl _ not_nl v) with (2 := Hv); [done|..].
    - intros c. unfold not_space, not_nl. case_bool_decide as E; [|done]. by subst.
    - intros c. unfold not_nl. case_bool_decide as E; [|done]. by subst. }
  induction 1 as [|p ps H1 H2 IH]; [done|]. destruct ps as [|q ps]; [by apply Hp|].
  change (cef_ext (p :: q :: ps)) with (ise_pair p +:+ String " " (cef_ext (q :: ps))).
  rewrite Happ, Hp by done. exact IH.
Qed.

Lemma header_match_line vendor ver sig name sev ps :
  bar_ok not_bar vendor → bar_ok not_bar ver → bar_ok is_digit sig → bar_ok not_bar name → bar_ok is_digit sev →
  Forall cef_pair_ok ps →
  header_match (cef_line "" vendor ver sig name sev ps) = Some (name, cef_ext ps).
Proof.
  intros. unfold header_match, cef_line. change ("" +:+ ?x) with x.
  rewrite literal_prefix_app. cbn [mbind option_bind]. rewrite bar_field_app by done. cbn [mbind option_bind].
  rewrite literal_prefix_app. cbn [mbind option_bind]. rewrite !bar_field_app by done. cbn [mbind option_bind].
  rewrite !bar_field_app by done. cbn [mbind option_bind].
  rewrite !bar_field_app by done. cbn [mbind option_bind].
  rewrite !bar_field_app by done. cbn [mbind option_bind].
  by rewrite span_all by (by apply ext_no_nl).
Qed.

(** A text without a bar before the header holds no start of a header. *)
Lemma no_header_before a s :
  has_char "|" a = false → a ≠ "" → starts_with (a +:+ ("CEF:0|" +:+ s)) "CEF:0|" = false.
Proof.
  intros Hb Hne. unfold starts_with.
  destruct (String.prefix _ _) eqn:E; [|done]. exfalso.
  do 6 (destruct a as [|? a];
    [try done; rewrite ?app_cons_str in E; change ("" +:+ ?x) with x in E; rewrite ?app_cons_str in E;
     cbn [String.prefix] in E; repeat case_match; congruence|]).
  rewrite !app_cons_str in E. cbn [String.prefix] in E. repeat case_match; try congruence.
  subst. by simpl in Hb.
Qed.

Lemma search_skip {A} (m : string → option A) a b :
  (∀ a1 a2, a = a1 +:+ a2 → a2 ≠ "" → m (a2 +:+ b) = None) → search m (a +:+ b) = search m b.
Proof.
  induction a as [|c a IH]; intros Hm; [done|]. rewrite app_cons_str. cbn [search].
  rewrite <-app_cons_str, (Hm "" (String c a)) by done. apply IH. intros a1 a2 -> Hne.
  apply (Hm (String c a1)); [|done]. by rewrite app_cons_str.
Qed.

Lemma search_hit {A} (m : string → option A) s x : m s = Some x → search m s = Some x.
Proof. intros E. destruct s; cbn [search]; by rewrite E. Qed.

Lemma search_line pre vendor ver sig name sev ps :
  has_char "|" pre = false →
  bar_ok not_bar vendor → bar_ok not_bar ver → bar_ok is_digit sig → bar_ok not_bar name → bar_ok is_digit sev →
  Forall cef_pair_ok ps →
  search header_match (cef_line pre vendor ver sig name sev ps) = Some (name, cef_ext ps).
Proof.
  intros Hpre **. unfold cef_line at 1. rewrite search_skip.
  - apply search_hit. by apply header_match_line.
  - intros a1 a2 -> Hne. unfold header_match, literal_prefix.
    rewrite no_header_before; [done|by eapply has_char_suffix|done].
Qed.

Lemma field_match_pair k v s :
  cef_pair_ok (k, v) → s = "" ∨ (∃ r, s = String " " r) →
  field_match (ise_pair (k, v) +:+ s) = Some ((k, v), String.length (ise_pair (k, v))).
Proof.
  intros (Hk & Hka & Hv & Hva) Hs. cbn [fst snd] in *. unfold ise_pair, field_match. cbn [fst snd].
  rewrite app_assoc_str, app_cons_str, span_app by done. cbv iota.
  assert (E : span not_space (v +:+ s) = (v, s)).
  { destruct Hs as [->|[r ->]]; [rewrite app_nil_str; by apply span_all|by apply span_app]. }
  rewrite E. assert (str_true k = true) as -> by (by destruct k). assert (str_true v = true) as -> by (by destruct v).
  simpl. do 2 f_equal. rewrite !length_app_str. cbn [String.length]. rewrite ?length_app_str. lia.
Qed.

Lemma finditer_ext ps : Forall cef_pair_ok ps → finditer field_match 0 (cef_ext ps) = ps.
Proof.
  induction ps as [|[k v] ps IH]; intros Hps; [done|]. apply Forall_cons in Hps as [Hp Hps].
  assert (Hne : ise_pair (k, v) ≠ "") by (by destruct Hp as [? _]; destruct k).
  destruct ps as [|q ps].
  - change (cef_ext [(k, v)]) with (ise_pair (k, v)). rewrite <-(app_nil_str (ise_pair (k, v))).
    rewrite (finditer_match field_match _ _ (k, v)); [done|done|]. apply field_match_pair; auto.
  - change (cef_ext ((k, v) :: q :: ps)) with (ise_pair (k, v) +:+ String " " (cef_ext (q :: ps))).
    rewrite (finditer_match field_match _ _ (k, v)); [|done|apply field_match_pair; eauto].
    cbn [finditer]. change (field_match (String " " ?x)) with (@None ((string * string) * nat)). cbv iota.
    by rewrite IH.
Qed.

(** A ClearPass line written from a header and from blank-separated pairs gives
    an event with the address, user, MAC and session of the pairs: a [nac-auth-stop]
    with a TTL of zero when the event's name contains [Stop], else a [nac-auth] whose
    TTL is the [cs2] field if [cs2Label] is [Session-Timeout], else twelve hours. *)
Theorem clearpass_line_event now pre vendor ver sig name sev ps src user ttl :
  utf8_replace (cef_line pre vendor ver sig name sev ps) = cef_line pre vendor ver sig name sev ps →
  has_char "|" pre = false →
  bar_ok not_bar vendor → bar_ok not_bar ver → bar_ok is_digit sig → bar_ok not_bar name → bar_ok is_digit sev →
  Forall cef_pair_ok ps →
  pairs_map ps !! "src" = Some src → pairs_map ps !! "suser" = Some user →
  (pairs_map ps !! "cs2Label" = Some "Session-Timeout" ∧ (∃ t, pairs_map ps !! "cs2" = Some t ∧ py_int t = Ok ttl) ∨
   pairs_map ps !! "cs2Label" ≠ Some "Session-Timeout" ∧ ttl = 43200) →
  parse now (cef_line pre vendor ver sig name sev ps) =
  Some (mkIdentityDict now (JStr src) (JStr user) "aruba_clearpass"
          (if contains "Stop" name then "nac-auth-stop" else "nac-auth") 95
          (if contains "Stop" name then 0 else ttl)
          (opt_str (pairs_map ps !! "smac")) (opt_str (pairs_map ps !! "externalId"))).
Proof.
  intros Hu Hpre Hv Hr Hs Hn He Hps Hsrc Huser Httl. unfold parse. rewrite Hu, search_line by done.
  assert (E : kv_of (cef_ext ps) = pairs_map ps) by (unfold kv_of; by rewrite finditer_ext).
  rewrite E. unfold event_of_kv.
  assert (Ht : session_ttl (pairs_map ps) = Ok ttl).
  { unfold session_ttl. destruct Httl as [[-> (t & -> & Hi)]|[Hl ->]].
    - by rewrite decide_True.
    - destruct (pairs_map ps !! "cs2Label"), (pairs_map ps !! "cs2"); try done.
      rewrite decide_False; [done|congruence]. }
  by rewrite Ht, Hsrc, Huser.
Qed.

End clearpass.

(** ** Windows logons *)

Section ad.
Import Ad4624.
Context `{PyPrims}.

(** The account of a logon: the user in the domain. *)
Lemma upn_of_domain user dom :
  has_char "@" dom = false → dom ≠ "" → upn_of (JStr user) (JStr dom) = user +:+ String "@" dom.
Proof.
  intros Hd Hne. unfold upn_of. simpl.
  change (user +:+ String "@" dom) with (user +:+ ("@" +:+ dom)). rewrite <-app_assoc_str.
  apply rstrip_app; [|done]. apply rstrip_plain. clear Hne. induction dom as [|c dom IH]; [done|].
  simpl in *. apply orb_false_iff in Hd as [Hc Hd]. apply bool_decide_eq_false in Hc.
  rewrite IH by done. by rewrite bool_decide_false by congruence.
Qed.

(** The confidence of a logon, by its type. *)
Definition logon_confidence (lt : string) : option Z :=
  if decide (lt = "2" ∨ lt = "10") then Some 90
  else if decide (lt = "3") then Some 70
  else if decide (lt = "11") then Some 50 else None.

Lemma accepted_confidence lt :
  if bool_decide (lt ∈ ACCEPTED_LOGON_TYPES)
  then logon_confidence lt = Some (default 50 (dget lt CONFIDENCE_BY_LOGON_TYPE))
  else logon_confidence lt = None.
Proof.
  unfold logon_confidence, ACCEPTED_LOGON_TYPES. case_bool_decide as E.
  - rewrite !elem_of_cons, elem_of_nil in E. by destruct_or! E; subst.
  - rewrite !elem_of_cons, elem_of_nil in E. rewrite !decide_False by naive_solver. done.
Qed.

(** C40. A logon record framed after a syslog header gives an event exactly when its
    logon type is one of the four accepted and it carries an address other than a
    dash; the event has the user in the domain, the confidence of the type (90
    for interactive and remote, 70 for network, 50 for cached logons), a TTL of
    eight hours and the logon's GUID. *)
Theorem ad_line_event hdr d w e lt ip user dom tsv ts :
  json_ok (JObj d) → find_sub ": " hdr = None →
  utf8_replace (hdr +:+ ": " +:+ dumps_compact (JObj d)) = hdr +:+ ": " +:+ dumps_compact (JObj d) →
  dget "event_id" d = Some (JInt 4624) → dget "winlog" d = Some (JObj w) → dget "event_data" w = Some (JObj e) →
  dget "LogonType" e = Some (JStr lt) → dget "IpAddress" e = Some (JStr ip) →
  dget "TargetUserName" e = Some (JStr user) → dget "TargetDomainName" e = Some (JStr dom) →
  has_char "@" dom = false → dom ≠ "" →
  dget "@timestamp" d = Some (JStr tsv) → fromisoformat (replace_char "Z" "+00:00" tsv) = Ok ts →
  parse (hdr +:+ ": " +:+ dumps_compact (JObj d)) =
  (conf ← logon_confidence lt;
   if decide (ip = "" ∨ ip = "-") then None
   else Some (mkIdentityDict ts (JStr ip) (JStr (user +:+ String "@" dom)) "ad_4624" "logon" conf 28800 JNull
                (default JNull (dget "LogonGuid" e)))).
Proof.
  intros Hok Hh Hu He Hw Hd Hl Hi Hus Hdo Hat Hne Ht Hts. unfold parse. rewrite Hu.
  rewrite after_first_prefix, loads_compact by done. cbn [mbind result_bind].
  unfold event_of_doc, jget_none, jget_or. cbn [jget jitem]. rewrite He, Hw. cbn -[fromisoformat].
  rewrite Hd. cbn -[fromisoformat]. rewrite Hl, Hi, Hus, Hdo, Ht. cbn -[fromisoformat bool_decide decide].
  rewrite Hts. pose proof (accepted_confidence lt) as Hc.
  destruct (bool_decide (lt ∈ ACCEPTED_LOGON_TYPES)); rewrite Hc; [|done]. cbn [mbind option_bind].
  destruct (decide (ip = "" ∨ ip = "-")) as [[->| ->]|Hip]; [done..|].
  assert (str_true ip = true) as -> by (destruct ip; naive_solver).
  rewrite bool_decide_false by naive_solver. cbn. by rewrite upn_of_domain.
Qed.

End ad.

(** ** Witnesses *)

Definition ise_header : string :=
  "<14>2026-04-22T12:10:00Z ise01 CISE_RADIUS_Accounting 0000012345 1 0 NOTICE Radius-Accounting: RADIUS Accounting start request".

Definition ise_sample : list (string * string) :=
  [("ConfigVersionId", "123"); ("UserName", "alice"); ("Framed-IP-Address", "10.0.12.34");
   ("Calling-Station-ID", "AA-BB"); ("Acct-Status-Type", "Start"); ("Session-Timeout", "3600")].

Lemma ise_line_event_witness :
  CiscoIse.parse 5 (ise_header +:+ ise_pairs ise_sample) =
  Some (ise_event 5 "10.0.12.34" "alice" false 3600 (pairs_map ise_sample)).
Proof.
  apply (ise_line_event 5 ise_header ise_sample "10.0.12.34" "alice"); try (vm_compute; reflexivity).
  repeat (apply Forall_cons; split; [vm_compute; repeat split; congruence|]). apply Forall_nil. exact I.
Defined.

Definition cef_sample : list (string * string) :=
  [("src", "10.0.20.12"); ("suser", "bob@corp.example"); ("cs2Label", "Session-Timeout"); ("cs2", "7200")].

Lemma clearpass_line_event_witness :
  ArubaClearpass.parse 5 (cef_line "<14>cppm01 " "Aruba Networks" "6.11" "2002" "Accounting-Start" "1" cef_sample) =
  Some (mkIdentityDict 5 (JStr "10.0.20.12") (JStr "bob@corp.example") "aruba_clearpass" "nac-auth" 95 7200 JNull JNull).
Proof.
  apply (clearpass_line_event 5 "<14>cppm01 " "Aruba Networks" "6.11" "2002" "Accounting-Start" "1" cef_sample
           "10.0.20.12" "bob@corp.example" 7200); try (vm_compute; reflexivity); try (by split).
  - repeat (apply Forall_cons; split; [vm_compute; repeat split; congruence|]). by apply Forall_nil.
  - left. split; [reflexivity|]. by exists "7200".
Defined.

#[local] Instance no_prims : PyPrims :=
  {| float_is := λ _ _, false; float_str := id; container_str := λ _, ""; float_trunc := λ _, Raise OverflowError |}.

Definition ad_data : pydict string json :=
  [("TargetUserName", JStr "alice"); ("TargetDomainName", JStr "CORP"); ("LogonType", JStr "2");
   ("IpAddress", JStr "10.0.12.34"); ("LogonGuid", JStr "g1")].
Definition ad_doc : pydict string json :=
  [("event_id", JInt 4624); ("@timestamp", JStr "2026-04-22T12:00:00.000Z");
   ("winlog", JObj [("event_data", JObj ad_data)])].

Lemma ad_doc_ok : json_ok (JObj ad_doc).
Proof. plain_json. Qed.

Lemma ad_line_event_witness :
  Ad4624.parse ("<13>DC01 winlogbeat[1234]" +:+ ": " +:+ dumps_compact (JObj ad_doc)) =
  Some (mkIdentityDict 1776859200000000 (JStr "10.0.12.34") (JStr "alice@CORP") "ad_4624" "logon" 90 28800 JNull
          (JStr "g1")).
Proof.
  apply (ad_line_event "<13>DC01 winlogbeat[1234]" ad_doc [("event_data", JObj ad_data)] ad_data "2" "10.0.12.34"
           "alice" "CORP" "2026-04-22T12:00:00.000Z" 1776859200000000 ad_doc_ok);
    try (vm_compute; reflexivity). done.
Defined.
