(* ===== verification/GraphApi.v ===== *)
(** * Paged reads of the Graph API
      ([id_ingest/adapters/entra_signin_adapter.py], [id_ingest/group_sync/entra_sync.py])

    Both clients follow [@odata.nextLink] from page to page.  The HTTP client and
    the token end point are arguments: [get token url] is the decoded body of a
    page, or the exception of the request, of [raise_for_status] or of [json()]. *)

From S2P Require Import Prelude PyDict PyStr PyText PyDatetime PyJson PyIp EventTypes IdAdapters.

Section graph.
Context `{PyPrims}.

(** The address of a request; the client refuses anything but a text. *)
Definition as_url (v : json) : result string :=
  match v with JStr s => Ok s | _ => Raise TypeError end.

(** [while url: body = get(url); ...; url = body.get("@odata.nextLink")], with what
    is done with a page as the argument [page].  The fuel bounds the pages. *)
Fixpoint follow {S} (get : string → result json) (page : S → json → S * result ()) (fuel : nat) (url : json)
    (s : S) : S * result () :=
  if negb (jtrue url) then (s, Ok ())
  else
    match fuel with
    | O => (s, Raise OtherError)
    | S fuel =>
        match (u ← as_url url; get u) with
        | Raise e => (s, Raise e)
        | Ok body =>
            let '(s1, r) := page s body in
            match (_ ← r; jget_none "@odata.nextLink" body) with
            | Raise e => (s1, Raise e)
            | Ok next => follow get page fuel next s1
            end
        end
    end.

(** A loop over the items of a page that adds to a list, up to the first error. *)
Fixpoint each {A} (f : json → result (list A)) (items : list json) (acc : list A) : list A * result () :=
  match items with
  | [] => (acc, Ok ())
  | x :: items =>
      match f x with
      | Ok l => each f items (acc ++ l)
      | Raise e => (acc, Raise e)
      end
  end.

(** [for x in body.get("value", [])] *)
Definition each_value {A} (f : json → result (list A)) (body : json) (acc : list A) : list A * result () :=
  match (v ← jget_or "value" (JArr []) body; iter_json v) with
  | Ok items => each f items acc
  | Raise e => (acc, Raise e)
  end.

(** ** The Entra sign-in log *)

Definition CONF_IN : Z := 80.
Definition CONF_OUT : Z := 40.
Definition TTL_S : Z := 3600.
Definition SIGNINS_URL : string :=
  "https://graph.microsoft.com/v1.0/auditLogs/signIns?$filter=status/errorCode eq 0".

(** [ip_address(ip)] of a decoded value; an integer is an address of its size. *)
Definition json_address (v : json) : result ip_addr :=
  let of_int n :=
    if (0 <=? n) && (n <? 2 ^ 32) then Ok (mkAddr V4 n)
    else if (0 <=? n) && (n <? 2 ^ 128) then Ok (mkAddr V6 n) else Raise ValueError in
  match v with
  | JStr s => ip_address s
  | JInt n => of_int n
  | JBool b => of_int (if b then 1 else 0)
  | _ => Raise ValueError
  end.

(** [_confidence] *)
Definition confidence (cidrs : list ip_net) (ip : json) : Z :=
  match json_address ip with
  | Raise _ => CONF_OUT
  | Ok addr => if existsb (in_net addr) cidrs then CONF_IN else CONF_OUT
  end.

(** The event of a sign-in, if it gives one. *)
Definition signin_event (cidrs : list ip_net) (item : json) : result (list IdentityDict) :=
  status ← jget_or "status" (JObj []) item;
  code ← jget_none "errorCode" status;
  if negb (jeq_int code 0) then Ok []
  else
    ip ← jget_none "ipAddress" item;
    upn ← jget_none "userPrincipalName" item;
    if negb (jtrue ip) || negb (jtrue upn) then Ok []
    else
      created ← jitem "createdDateTime" item;
      created ← as_str created;
      ts ← fromisoformat (replace_char "Z" "+00:00" created);
      raw ← jget_none "id" item;
      Ok [mkIdentityDict ts ip upn "entra_signin" "logon" (confidence cidrs ip) TTL_S JNull raw].

(** A page of sign-ins: the events, and the delta link of the last page. *)
Definition signin_page (cidrs : list ip_net) (s : list IdentityDict * json) (body : json) :
    (list IdentityDict * json) * result () :=
  let '(out, r) := each_value (signin_event cidrs) body s.1 in
  match (_ ← r; next ← jget_none "@odata.nextLink" body; delta ← jget_none "@odata.deltaLink" body;
         Ok (next, delta)) with
  | Raise e => ((out, s.2), Raise e)
  | Ok (next, delta) => ((out, if negb (jtrue next) && jtrue delta then delta else s.2), Ok ())
  end.

(** [poll_once]: the events yielded, the delta link and how the poll ended. *)
Definition poll_once (cidrs : list ip_net) (token : result string) (get : string → string → result json)
    (fuel : nat) (delta : json) : (list IdentityDict * json) * result () :=
  match token with
  | Raise e => (([], delta), Raise e)
  | Ok tok =>
      follow (get tok) (signin_page cidrs) fuel (if jtrue delta then delta else JStr SIGNINS_URL) ([], delta)
  end.

(** [run]: one poll after another; an error ends a poll and is logged. *)
Fixpoint entra_run (cidrs : list ip_net) (fuel : nat)
    (polls : list (result string * (string → string → result json))) (delta : json) : list IdentityDict * json :=
  match polls with
  | [] => ([], delta)
  | (token, get) :: polls =>
      let '((out, delta1), _) := poll_once cidrs token get fuel delta in
      let '(rest, delta2) := entra_run cidrs fuel polls delta1 in
      (out ++ rest, delta2)
  end.

(** ** Entra groups *)

Record GroupUpsert : Type := mkGroupUpsert {
  gu_user_upn : json;
  gu_group_id : json;
  gu_group_name : json;
  gu_group_source : string
}.

Definition group_upsert (upn : json) (g : json) : result (list GroupUpsert) :=
  ty ← jget_none "@odata.type" g;
  if negb (jeq_str ty "#microsoft.graph.group") then Ok []
  else
    gid ← jitem "id" g;
    name ← jget_none "displayName" g;
    Ok [mkGroupUpsert upn gid (if jtrue name then name else gid) "entra"].

(** [EntraGroupSync.sync_user] *)
Definition entra_sync_user (token : result string) (get : string → string → result json) (fuel : nat) (upn : json) :
    result (list GroupUpsert) :=
  tok ← token;
  let '(out, r) :=
    follow (get tok) (λ acc body, each_value (group_upsert upn) body acc) fuel
      (JStr ("https://graph.microsoft.com/v1.0/users/" +:+ json_str upn +:+ "/transitiveMemberOf")) [] in
  _ ← r; Ok out.

(** The upserts of a user of a page of [sync_all]. *)
Definition user_upserts (sync_user : json → result (list GroupUpsert)) (u : json) : result (list GroupUpsert) :=
  upn ← jget_none "userPrincipalName" u;
  if jtrue upn then sync_user upn else Ok [].

(** [EntraGroupSync.sync_all] *)
Definition entra_sync_all (token : result string) (get : string → string → result json) (fuel : nat) :
    result (list GroupUpsert) :=
  tok ← token;
  let '(out, r) :=
    follow (get tok) (λ acc body, each_value (user_upserts (entra_sync_user token get fuel)) body acc) fuel
      (JStr "https://graph.microsoft.com/v1.0/users?$select=userPrincipalName") [] in
  _ ← r; Ok out.

(** ** The pages a client sees *)

(** The bodies from a link to the last page. *)
Inductive pages (get : string → result json) : json → list json → Prop :=
  | pages_end url : jtrue url = false → pages get url []
  | pages_next s body next rest :
      s ≠ "" → get s = Ok body → jget_none "@odata.nextLink" body = Ok next → pages get next rest →
      pages get (JStr s) (body :: rest).

(** The work on a list of pages, up to the first error. *)
Fixpoint page_fold {S} (page : S → json → S * result ()) (bodies : list json) (s : S) : S * result () :=
  match bodies with
  | [] => (s, Ok ())
  | b :: bodies =>
      let '(s1, r) := page s b in
      match r with Raise e => (s1, Raise e) | Ok _ => page_fold page bodies s1 end
  end.

Lemma follow_pages {S} get (page : S → json → S * result ()) fuel url bodies s :
  pages get url bodies → (length bodies ≤ fuel)%nat → follow get page fuel url s = page_fold page bodies s.
Proof.
  intros Hp. revert fuel s. induction Hp as [url Hu|u body next rest Hne Hg Hn Hp IH]; intros fuel s Hf.
  - destruct fuel; simpl; by rewrite Hu.
  - simpl in Hf. destruct fuel as [|fuel]; [lia|]. cbn [follow].
    assert (jtrue (JStr u) = true) as -> by (by destruct u). cbn [negb as_url mbind result_bind]. rewrite Hg.
    cbn [page_fold]. destruct (page s body) as [s1 [[]|e]]; [|done]. cbn [mbind result_bind].
    rewrite Hn. apply IH. lia.
Qed.

Lemma each_app {A} (f : json → result (list A)) items acc out :
  Forall2 (λ x l, f x = Ok l) items out → each f items acc = (acc ++ concat out, Ok ()).
Proof.
  intros HF. revert acc. induction HF as [|x l items out Hx HF IH]; intros acc; simpl.
  - by rewrite app_nil_r.
  - rewrite Hx, IH. by rewrite app_assoc.
Qed.

(** The items of a page. *)
Definition page_items (body : json) (items : list json) : Prop :=
  ∃ d, body = JObj d ∧ dget "value" d = Some (JArr items).

Lemma each_value_items {A} (f : json → result (list A)) body items acc out :
  page_items body items → Forall2 (λ x l, f x = Ok l) items out →
  each_value f body acc = (acc ++ concat out, Ok ()).
Proof.
  intros (d & -> & Hv) HF. unfold each_value, jget_or. simpl. rewrite Hv. simpl. by apply each_app.
Qed.

(** An accumulating read of every page. *)
Lemma page_fold_items {A} (f : json → result (list A)) bodies itemss outs acc :
  Forall2 page_items bodies itemss → Forall2 (Forall2 (λ x l, f x = Ok l)) itemss outs →
  page_fold (λ acc body, each_value f body acc) bodies acc = (acc ++ concat (map (@concat _) outs), Ok ()).
Proof.
  intros HF. revert outs acc. induction HF as [|b items bodies itemss Hb HF IH]; intros outs acc Ho;
    inversion Ho as [|? o ? os Hi Hos]; subst.
  - simpl. by rewrite app_nil_r.
  - simpl. rewrite (each_value_items f b items acc o Hb Hi), (IH os) by done. by rewrite app_assoc.
Qed.

(** Reading a user's groups follows every page and returns exactly the groups
    of all pages in order: the other directory objects are left out, and a group
    without a display name is named by its id. *)
Theorem entra_groups_complete tok get fuel upn bodies itemss outs :
  pages (get tok)
    (JStr ("https://graph.microsoft.com/v1.0/users/" +:+ json_str upn +:+ "/transitiveMemberOf")) bodies →
  (length bodies ≤ fuel)%nat → Forall2 page_items bodies itemss →
  Forall2 (Forall2 (λ g ups,
    ∃ d, g = JObj d ∧
      (ups = [] ∧ dget "@odata.type" d ≠ Some (JStr "#microsoft.graph.group") ∨
       dget "@odata.type" d = Some (JStr "#microsoft.graph.group") ∧
       ∃ gid, dget "id" d = Some gid ∧
         ups = [mkGroupUpsert upn gid
                  (match dget "displayName" d with Some n => if jtrue n then n else gid | None => gid end) "entra"])))
    itemss outs →
  entra_sync_user (Ok tok) get fuel upn = Ok (concat (map (@concat _) outs)).
Proof.
  intros Hp Hf Hi Ho. unfold entra_sync_user. cbn [mbind result_bind].
  rewrite (follow_pages _ _ _ _ bodies) by done. rewrite (page_fold_items _ _ itemss outs); [done|done|].
  eapply Forall2_impl; [exact Ho|]. intros gs ups Hg. eapply Forall2_impl; [exact Hg|].
  intros g u (d & -> & Hd). unfold group_upsert, jget_none, jget_or. cbn.
  destruct Hd as [[-> Ht]|(Ht & gid & Hid & ->)].
  - destruct (dget "@odata.type" d) as [[]|]; try done. simpl. rewrite bool_decide_false by congruence. done.
  - rewrite Ht. simpl. rewrite Hid. simpl. by destruct (dget "displayName" d).
Qed.

(** ** Polling the sign-in log *)

Lemma signin_page_delta cidrs s body s1 r :
  signin_page cidrs s body = (s1, r) →
  match r with
  | Raise _ => s1.2 = s.2
  | Ok _ => ∃ next, jget_none "@odata.nextLink" body = Ok next ∧ (jtrue next = true → s1.2 = s.2)
  end.
Proof.
  unfold signin_page. destruct (each_value _ body s.1) as [out [[]|e]]; cbn [mbind result_bind].
  - destruct (jget_none "@odata.nextLink" body) as [next|e]; cbn [mbind result_bind]; [|by intros [= <- <-]].
    destruct (jget_none "@odata.deltaLink" body) as [delta|e]; cbn [mbind result_bind]; [|by intros [= <- <-]].
    intros [= <- <-]. exists next. split; [done|]. simpl. by intros ->.
  - by intros [= <- <-].
Qed.

(** A poll that fails, on any page and for any reason, keeps the delta link it
    started from: the next poll reads again from the same point, so that no
    sign-in is skipped. *)
Theorem failed_poll_keeps_delta cidrs token get fuel delta out delta1 e :
  poll_once cidrs token get fuel delta = ((out, delta1), Raise e) → delta1 = delta.
Proof.
  unfold poll_once. destruct token as [tok|]; [|congruence].
  generalize (if jtrue delta then delta else JStr SIGNINS_URL). intros url.
  cut (∀ url s s1, follow (get tok) (signin_page cidrs) fuel url s = (s1, Raise e) → s1.2 = s.2).
  { intros H0 E. apply H0 in E. done. }
  clear. induction fuel as [|fuel IH]; intros url s s1; cbn [follow]; (destruct (negb (jtrue url)); [congruence|]);
    [congruence|].
  destruct (as_url url ≫= get tok) as [body|]; [|congruence].
  destruct (signin_page cidrs s body) as [s2 r] eqn:Hp. apply signin_page_delta in Hp.
  destruct r as [[]|]; cbn [mbind result_bind]; [|congruence]. destruct Hp as (next & -> & Hd).
  intros E. destruct (jtrue next) eqn:Hn; [rewrite <-Hd by done; by eapply IH|].
  exfalso. destruct fuel; cbn [follow] in E; rewrite Hn in E; done.
Qed.

(** Inside one of the networks of the organisation. *)
Definition inside (cidrs : list ip_net) (ip : string) : Prop :=
  ∃ addr net, ip_address ip = Ok addr ∧ net ∈ cidrs ∧ in_net addr net = true.

Lemma confidence_spec cidrs ip :
  (inside cidrs ip → confidence cidrs (JStr ip) = 80) ∧ (¬ inside cidrs ip → confidence cidrs (JStr ip) = 40).
Proof.
  unfold confidence, inside. simpl. destruct (ip_address ip) as [addr|]; [|by split; [intros (? & ? & ? & _)|]].
  destruct (existsb (in_net addr) cidrs) eqn:E; split; try done.
  - intros Hn. apply existsb_exists in E as (net & Hin%list_elem_of_In & Hnet). destruct Hn. eauto.
  - intros (a & net & [= <-] & Hin%list_elem_of_In & Hnet). exfalso.
    assert (existsb (in_net addr) cidrs = true) by (apply existsb_exists; eauto). congruence.
Qed.

(** What a sign-in yields: nothing when it failed or lacks an address or a user,
    else one logon. *)
Definition signin_yields (cidrs : list ip_net) (item : json) (l : list IdentityDict) : Prop :=
  ∃ d st code, item = JObj d ∧ dget "status" d = Some (JObj st) ∧ dget "errorCode" st = Some (JInt code) ∧
  (l = [] ∧ (code ≠ 0 ∨ dget "ipAddress" d = None ∨ dget "userPrincipalName" d = None) ∨
   code = 0 ∧ ∃ ip upn created ts conf,
     ip ≠ "" ∧ upn ≠ "" ∧ dget "ipAddress" d = Some (JStr ip) ∧ dget "userPrincipalName" d = Some (JStr upn) ∧
     dget "createdDateTime" d = Some (JStr created) ∧ fromisoformat (replace_char "Z" "+00:00" created) = Ok ts ∧
     (inside cidrs ip ∧ conf = 80 ∨ ¬ inside cidrs ip ∧ conf = 40) ∧
     l = [mkIdentityDict ts (JStr ip) (JStr upn) "entra_signin" "logon" conf 3600 JNull
            (default JNull (dget "id" d))]).

Lemma signin_yields_event cidrs item l : signin_yields cidrs item l → signin_event cidrs item = Ok l.
Proof.
  intros (d & st & code & -> & Hs & Hc & Hl). unfold signin_event, jget_none, jget_or. cbn.
  rewrite Hs. cbn. rewrite Hc. cbn [default mbind result_bind jeq_int]. change (jeq_int (id (JInt code)) 0) with (code =? 0).
  destruct Hl as [[-> Hl]|(-> & ip & upn & created & ts & conf & Hip0 & Hupn0 & Hip & Hupn & Hcr & Hts & Hconf & ->)].
  - destruct (Z.eqb_spec code 0) as [->|]; [|done]. destruct Hl as [|[-> | ->]]; [done|done|].
    destruct (dget "ipAddress" d); cbn; [|done]. by rewrite orb_true_r.
  - rewrite Hip, Hupn, Hcr. cbn -[fromisoformat].
    assert (str_true ip = true) as -> by (by destruct ip). assert (str_true upn = true) as -> by (by destruct upn).
    cbn -[fromisoformat]. rewrite Hts. cbn. destruct (confidence_spec cidrs ip) as [H1 H2].
    destruct Hconf as [[Hi ->]|[Hi ->]]; [by rewrite H1|by rewrite H2].
Qed.

(** The delta link after a complete poll. *)
Definition final_delta (bodies : list json) (delta : json) : json :=
  match last bodies with
  | Some (JObj d) => match dget "@odata.deltaLink" d with Some v => if jtrue v then v else delta | None => delta end
  | _ => delta
  end.

Lemma page_fold_signins cidrs get url bodies itemss outs acc delta :
  pages get url bodies → Forall2 page_items bodies itemss →
  Forall2 (Forall2 (λ x l, signin_event cidrs x = Ok l)) itemss outs →
  page_fold (signin_page cidrs) bodies (acc, delta) =
  ((acc ++ concat (map (@concat _) outs), final_delta bodies delta), Ok ()).
Proof.
  intros Hp. revert itemss outs acc. induction Hp as [url Hu|u body next rest Hne Hg Hn Hp IH];
    intros itemss outs acc Hi Ho.
  { inv Hi. inv Ho. simpl. by rewrite app_nil_r. }
  inversion Hi as [|? items ? itemss' Hb Hi']; subst. inversion Ho as [|? o ? os Ho1 Ho']; subst.
  cbn [page_fold]. unfold signin_page at 1. cbn [fst snd]. rewrite (each_value_items _ _ items _ o) by done.
  cbn [mbind result_bind]. rewrite Hn. cbn [mbind result_bind].
  destruct Hb as (d & -> & _). unfold jget_none at 1, jget_or at 1. cbn [jget mbind result_bind].
  inversion Hp as [? Hf|s2 body2 next2 rest2 Hne2]; subst.
  - inv Hi'. inv Ho'. rewrite Hf. simpl. rewrite app_nil_r. unfold final_delta. simpl.
    by destruct (dget "@odata.deltaLink" d).
  - assert (Ht : jtrue (JStr s2) = true) by (by destruct s2). rewrite Ht. cbn [negb andb].
    rewrite (IH itemss' os) by done. rewrite <-app_assoc. done.
Qed.

(** A poll whose pages all answer yields, in order and exactly once each, the
    successful sign-ins of all the pages, with confidence 80 inside the
    organisation's networks and 40 outside, and stores the delta link of the last
    page. *)
Theorem poll_complete cidrs tok get fuel delta bodies itemss outs :
  pages (get tok) (if jtrue delta then delta else JStr SIGNINS_URL) bodies → (length bodies ≤ fuel)%nat →
  Forall2 page_items bodies itemss → Forall2 (Forall2 (signin_yields cidrs)) itemss outs →
  poll_once cidrs (Ok tok) get fuel delta =
  ((concat (map (@concat _) outs), final_delta bodies delta), Ok ()).
Proof.
  intros Hp Hf Hi Ho. unfold poll_once. rewrite (follow_pages _ _ _ _ bodies) by done.
  rewrite (page_fold_signins cidrs _ _ bodies itemss outs [] delta Hp Hi); [done|].
  eapply Forall2_impl; [exact Ho|]. intros items l Hl. eapply Forall2_impl; [exact Hl|].
  intros x y. apply signin_yields_event.
Qed.

End graph.

(** ** Witnesses *)

#[local] Instance no_prims : PyPrims :=
  {| float_is := λ _ _, false; float_str := id; container_str := λ _, ""; float_trunc := λ _, Raise OverflowError |}.

Definition signin_item : json :=
  JObj [("id", JStr "a1"); ("createdDateTime", JStr "2026-04-22T12:05:00Z"); ("userPrincipalName", JStr "alice@corp");
        ("ipAddress", JStr "10.0.12.34"); ("status", JObj [("errorCode", JInt 0)])].
Definition signin_body1 : json := JObj [("@odata.nextLink", JStr "p2"); ("value", JArr [signin_item])].
Definition signin_body2 : json := JObj [("@odata.deltaLink", JStr "d1"); ("value", JArr [])].
Definition signin_get (tok url : string) : result json :=
  if decide (url = SIGNINS_URL) then Ok signin_body1
  else if decide (url = "p2") then Ok signin_body2 else Raise OtherError.

Definition signin_item_event : IdentityDict :=
  mkIdentityDict 1776859500000000 (JStr "10.0.12.34") (JStr "alice@corp") "entra_signin" "logon" 40 3600 JNull (JStr "a1").

Lemma signin_item_yields : signin_yields [] signin_item [signin_item_event].
Proof.
  do 3 eexists. split; [reflexivity|]. split; [reflexivity|]. split; [reflexivity|].
  right. split; [done|]. do 5 eexists. split; [|split; [|split; [reflexivity|split; [reflexivity|split;
    [reflexivity|split; [vm_compute; reflexivity|split; [|reflexivity]]]]]]]; [done|done|].
  right. split; [|done]. intros (? & ? & _ & Hin & _). by apply not_elem_of_nil in Hin.
Qed.

Lemma poll_complete_witness :
  poll_once [] (Ok "t") signin_get 2 JNull =
  (([signin_item_event], JStr "d1"), Ok ()).
Proof.
  apply (poll_complete [] "t" signin_get 2 JNull [signin_body1; signin_body2] [[signin_item]; []]
           [[[signin_item_event]]; []]).
  - eapply pages_next; [done|reflexivity|reflexivity|]. eapply pages_next; [done|reflexivity|reflexivity|].
    by apply pages_end.
  - simpl. lia.
  - repeat constructor; eexists; split; reflexivity.
  - repeat constructor. apply signin_item_yields.
Defined.

Lemma failed_poll_keeps_delta_witness : poll_once [] (Ok "t") signin_get 1 (JStr "p3") = (([], JStr "p3"), Raise OtherError)
  ∧ JStr "p3" = JStr "p3".
Proof.
  assert (E : poll_once [] (Ok "t") signin_get 1 (JStr "p3") = (([], JStr "p3"), Raise OtherError))
    by (vm_compute; reflexivity).
  split; [exact E|]. exact (failed_poll_keeps_delta [] (Ok "t") signin_get 1 (JStr "p3") [] (JStr "p3") OtherError E).
Defined.

Definition group_item : json :=
  JObj [("@odata.type", JStr "#microsoft.graph.group"); ("id", JStr "g1"); ("displayName", JStr "Sales")].
Definition group_get (tok url : string) : result json := Ok (JObj [("value", JArr [group_item])]).

Lemma entra_groups_complete_witness :
  entra_sync_user (Ok "t") group_get 1 (JStr "alice") =
  Ok [mkGroupUpsert (JStr "alice") (JStr "g1") (JStr "Sales") "entra"].
Proof.
  apply (entra_groups_complete "t" group_get 1 (JStr "alice") [JObj [("value", JArr [group_item])]] [[group_item]]
           [[[mkGroupUpsert (JStr "alice") (JStr "g1") (JStr "Sales") "entra"]]]).
  - eapply pages_next; [done|reflexivity|reflexivity|]. by apply pages_end.
  - done.
  - repeat constructor. eexists. split; reflexivity.
  - repeat constructor. eexists. split; [reflexivity|]. right. split; [done|]. eexists. split; reflexivity.
Defined.
