(* ===== verification/GraphHttp.v ===== *)
(** * The Graph clients over HTTP
      ([id_ingest/adapters/entra_signin_adapter.py], [id_ingest/group_sync/entra_sync.py])

    The requests that the two clients of [GraphApi] send: the token of the client
    credentials, the pages with it, and the check of every status.  The transport is an
    argument: the answer to a request, or the exception of the connection.  A poll, or a
    read of a user, sees one transport; successive polls see different ones. *)

From S2P Require Import Prelude PyDict PyStr PyJson PyIp EventTypes IdAdapters GraphApi.

Definition GRAPH_BASE : string := "https://graph.microsoft.com/v1.0".
Definition AUTH_BASE : string := "https://login.microsoftonline.com".

Inductive http_request : Type :=
  | Post (url : string) (form : list (string * string))
  | Get (url authorization : string).

Record http_answer : Type := mkAnswer {
  ha_status : Z;
  ha_json : result json                  (* [json()] of the body *)
}.

Definition transport := http_request → result http_answer.

(** [raise_for_status]: anything but a success is an error, redirections included. *)
Definition raise_for_status (a : http_answer) : result http_answer :=
  if (200 <=? ha_status a) && (ha_status a <? 300) then Ok a else Raise OtherError.

Definition checked (t : transport) (rq : http_request) : result json :=
  a ← t rq; a ← raise_for_status a; ha_json a.

(** ** The token *)

Record Credentials : Type := mkCredentials { cr_tenant_id : string; cr_client_id : string; cr_client_secret : string }.

Definition token_request (c : Credentials) : http_request :=
  Post (AUTH_BASE +:+ "/" +:+ cr_tenant_id c +:+ "/oauth2/v2.0/token")
    [("grant_type", "client_credentials"); ("client_id", cr_client_id c); ("client_secret", cr_client_secret c);
     ("scope", "https://graph.microsoft.com/.default")].

Section http.
Context `{PyPrims}.

(** [_token] of both clients; what is there is put into the header as a text. *)
Definition token (t : transport) (c : Credentials) : result string :=
  body ← checked t (token_request c);
  tok ← jitem "access_token" body;
  Ok (json_str tok).

Definition page_get (t : transport) (tok url : string) : result json := checked t (Get url ("Bearer " +:+ tok)).

(** ** The sign-in adapter *)

Record EntraSigninAdapter : Type := mkEntra {
  es_credentials : Credentials;
  es_cidrs : list ip_net;
  es_poll : Z;
  es_delta_link : json
}.

Definition new_entra (c : Credentials) (cidrs : list ip_net) (poll : Z) : EntraSigninAdapter := mkEntra c cidrs poll JNull.

(** [poll_once]: what it yields, the adapter after it, and how it ended. *)
Definition adapter_poll (fuel : nat) (a : EntraSigninAdapter) (t : transport) :
    list IdentityDict * EntraSigninAdapter * result () :=
  let '((out, delta), r) := poll_once (es_cidrs a) (token t (es_credentials a)) (page_get t) fuel (es_delta_link a) in
  (out, mkEntra (es_credentials a) (es_cidrs a) (es_poll a) delta, r).

(** [run], with the transport of each poll. *)
Fixpoint adapter_run (fuel : nat) (a : EntraSigninAdapter) (ts : list transport) : list IdentityDict * EntraSigninAdapter :=
  match ts with
  | [] => ([], a)
  | t :: ts =>
      let '(out, a1, _) := adapter_poll fuel a t in
      let '(rest, a2) := adapter_run fuel a1 ts in
      (out ++ rest, a2)
  end.

Definition healthcheck (a : EntraSigninAdapter) : json :=
  JObj [("adapter", JStr "entra_signin"); ("delta_link_seen", JBool (jtrue (es_delta_link a)))].

(** ** The group synchroniser *)

Definition http_sync_user (fuel : nat) (c : Credentials) (t : transport) (upn : json) : result (list GroupUpsert) :=
  entra_sync_user (token t c) (page_get t) fuel upn.
Definition http_sync_all (fuel : nat) (c : Credentials) (t : transport) : result (list GroupUpsert) :=
  entra_sync_all (token t c) (page_get t) fuel.

(** ** Answers *)

Definition success (status : Z) : Prop := 200 ≤ status < 300.

(** The transport answers a request with a success and a body. *)
Definition answers (t : transport) (rq : http_request) (body : json) : Prop :=
  ∃ status, success status ∧ t rq = Ok (mkAnswer status (Ok body)).

Lemma checked_spec t rq body : checked t rq = Ok body ↔ answers t rq body.
Proof.
  unfold checked, raise_for_status, answers, success. split.
  - destruct (t rq) as [ [st j]|]; cbn; [|done]. destruct (_ && _) eqn:E; cbn; [|done].
    intros ->. apply andb_true_iff in E as [?%Z.leb_le ?%Z.ltb_lt]. by exists st.
  - intros (st & [H1 H2] & ->). cbn. apply Z.leb_le in H1. apply Z.ltb_lt in H2. by rewrite H1, H2.
Qed.

Lemma token_answer t c tok d :
  answers t (token_request c) (JObj d) → dget "access_token" d = Some (JStr tok) → token t c = Ok tok.
Proof. intros Ha Hd. apply checked_spec in Ha. unfold token. rewrite Ha. cbn. by rewrite Hd. Qed.

(** The pages from an address, each answered with a success under the token. *)
Inductive page_answers (t : transport) (tok : string) : json → list json → Prop :=
  | answers_end url : jtrue url = false → page_answers t tok url []
  | answers_next u body next rest :
      u ≠ "" → answers t (Get u ("Bearer " +:+ tok)) body → jget_none "@odata.nextLink" body = Ok next →
      page_answers t tok next rest → page_answers t tok (JStr u) (body :: rest).

Lemma page_answers_pages t tok url bodies : page_answers t tok url bodies → pages (page_get t tok) url bodies.
Proof.
  induction 1 as [url Hu|u body next rest Hne Ha Hn _ IH]; [by constructor|].
  eapply pages_next; [done| |done|done]. by apply checked_spec.
Qed.

(** ** The adapter over its polls *)

Lemma adapter_poll_keeps fuel a t out a' r :
  adapter_poll fuel a t = (out, a', r) → es_credentials a' = es_credentials a ∧ es_cidrs a' = es_cidrs a ∧ es_poll a' = es_poll a.
Proof. unfold adapter_poll. destruct (poll_once _ _ _ _ _) as [ [o d] r']. by intros [= _ <- _]. Qed.

Lemma failed_poll_keeps fuel a t out a' e : adapter_poll fuel a t = (out, a', Raise e) → a' = a.
Proof.
  unfold adapter_poll. destruct (poll_once _ _ _ _ _) as [ [o d] r] eqn:Hp. intros [= _ <- ->].
  apply failed_poll_keeps_delta in Hp as ->. by destruct a.
Qed.

Lemma adapter_run_app fuel a ts us :
  adapter_run fuel a (ts ++ us) =
    let '(out, a1) := adapter_run fuel a ts in let '(rest, a2) := adapter_run fuel a1 us in (out ++ rest, a2).
Proof.
  revert a. induction ts as [|t ts IH]; intros a; cbn [adapter_run app].
  - by destruct (adapter_run fuel a us).
  - destruct (adapter_poll fuel a t) as [ [o a1] r]. rewrite IH. destruct (adapter_run fuel a1 ts) as [o1 a2].
    destruct (adapter_run fuel a2 us) as [o2 a3]. by rewrite app_assoc.
Qed.

(** A transport on which a poll of the adapter fails. *)
Definition poll_fails (fuel : nat) (a : EntraSigninAdapter) (t : transport) : Prop := is_ok (adapter_poll fuel a t).2 = false.

Lemma failing_run fuel a ts : Forall (poll_fails fuel a) ts → (adapter_run fuel a ts).2 = a.
Proof.
  induction 1 as [|t ts Ht _ IH]; [done|]. cbn [adapter_run]. unfold poll_fails in Ht.
  destruct (adapter_poll fuel a t) as [ [o a1] [[]|e]] eqn:Hp; [done|]. apply failed_poll_keeps in Hp as ->.
  by destruct (adapter_run fuel a ts).
Qed.

(** C22. A sign-in is yielded at least once.  After any number of polls that fail, for whatever
    reason (a connection, a status, an expired token, a body), the first poll whose
    token and pages are answered yields every successful sign-in of every page from the
    point where the last complete poll ended, and moves the adapter to the next one. *)
Theorem polls_catch_up fuel a ts t tok d bodies itemss outs :
  Forall (poll_fails fuel a) ts →
  answers t (token_request (es_credentials a)) (JObj d) → dget "access_token" d = Some (JStr tok) →
  page_answers t tok (if jtrue (es_delta_link a) then es_delta_link a else JStr SIGNINS_URL) bodies →
  (length bodies ≤ fuel)%nat → Forall2 page_items bodies itemss →
  Forall2 (Forall2 (signin_yields (es_cidrs a))) itemss outs →
  ∃ early, adapter_run fuel a (ts ++ [t]) =
    (early ++ concat (map (@concat _) outs),
     mkEntra (es_credentials a) (es_cidrs a) (es_poll a) (final_delta bodies (es_delta_link a))).
Proof.
  intros Hts Ht Hd Hp Hf Hi Ho. rewrite adapter_run_app. pose proof (failing_run _ _ _ Hts) as Ha.
  destruct (adapter_run fuel a ts) as [early a1]. cbn [snd] in Ha. subst a1. exists early.
  cbn [adapter_run]. unfold adapter_poll. rewrite (token_answer _ _ _ _ Ht Hd).
  rewrite (poll_complete (es_cidrs a) tok (page_get t) fuel (es_delta_link a) bodies itemss outs);
    [by rewrite app_nil_r|by apply page_answers_pages|done..].
Qed.

(** ** The health check *)

Lemma follow_delta_seen cidrs get fuel url s :
  jtrue s.2 = true → jtrue (follow get (signin_page cidrs) fuel url s).1.2 = true.
Proof.
  revert url s. induction fuel as [|fuel IH]; intros url s Hs; cbn [follow]; (destruct (negb (jtrue url)); [done|]); [done|].
  destruct (as_url url ≫= get) as [body|]; [|done].
  assert (H1 : jtrue (signin_page cidrs s body).1.2 = true).
  { unfold signin_page. destruct (each_value _ body s.1) as [out [[]|e]]; cbn [mbind result_bind]; [|done].
    destruct (jget_none "@odata.nextLink" body) as [next|]; cbn [mbind result_bind]; [|done].
    destruct (jget_none "@odata.deltaLink" body) as [delta|]; cbn [mbind result_bind]; [|done].
    cbn [fst snd]. destruct (negb (jtrue next)); cbn [andb]; [|done]. by destruct (jtrue delta) eqn:E. }
  destruct (signin_page cidrs s body) as [s1 [[]|e]]; cbn [mbind result_bind fst] in *; [|done].
  destruct (jget_none "@odata.nextLink" body); [by apply IH|done].
Qed.

(** Once the health check has shown a delta link, it shows one after any further polls. *)
Theorem delta_seen_stays fuel a ts :
  healthcheck a = JObj [("adapter", JStr "entra_signin"); ("delta_link_seen", JBool true)] →
  healthcheck (adapter_run fuel a ts).2 = healthcheck a.
Proof.
  unfold healthcheck. intros [= Hd]. rewrite Hd. do 4 f_equal.
  enough (jtrue (es_delta_link (adapter_run fuel a ts).2) = true) as -> by done.
  revert a Hd. induction ts as [|t ts IH]; intros a Hd; [done|]. cbn [adapter_run].
  destruct (adapter_poll fuel a t) as [ [o a1] r] eqn:Hp.
  assert (H1 : jtrue (es_delta_link a1) = true).
  { unfold adapter_poll, poll_once in Hp. destruct (token t _) as [tok|]; [|by injection Hp as _ <- _].
    pose proof (follow_delta_seen (es_cidrs a) (page_get t tok) fuel
      (if jtrue (es_delta_link a) then es_delta_link a else JStr SIGNINS_URL) ([], es_delta_link a) Hd) as Hf.
    destruct (follow _ _ _ _ _) as [ [o' d'] r']. by injection Hp as _ <- _. }
  specialize (IH a1 H1). by destruct (adapter_run fuel a1 ts).
Qed.
End http.

(** ** A concrete run: a poll refused with 429, one whose token has expired, and a good one *)

#[local] Instance http_prims : PyPrims :=
  {| float_is := λ _ _, false; float_str := id; container_str := λ _, ""; float_trunc := λ _, Raise OverflowError |}.

Definition ex_credentials : Credentials := mkCredentials "tenant" "app" "secret".

Definition token_body : json := JObj [("access_token", JStr "t0")].
Definition good_transport (rq : http_request) : result http_answer :=
  match rq with
  | Post _ _ => Ok (mkAnswer 200 (Ok token_body))
  | Get url auth =>
      if decide (auth = "Bearer t0") then mkAnswer 200 <$> (Ok <$> signin_get "t0" url) else Ok (mkAnswer 401 (Ok JNull))
  end.
Definition busy_transport (rq : http_request) : result http_answer := Ok (mkAnswer 429 (Ok JNull)).
Definition expired_transport (rq : http_request) : result http_answer :=
  match rq with Post _ _ => Ok (mkAnswer 200 (Ok token_body)) | Get url _ =>
    if decide (url = SIGNINS_URL) then mkAnswer 200 <$> (Ok <$> signin_get "t0" url) else Ok (mkAnswer 401 (Ok JNull)) end.

(** The event of the first page is yielded by the failed poll and again by the good one. *)
Example three_polls :
  (λ r : list IdentityDict * EntraSigninAdapter, (length r.1, healthcheck r.2))
    (adapter_run 2 (new_entra ex_credentials [] 60) [busy_transport; expired_transport; good_transport]) =
  (2%nat, JObj [("adapter", JStr "entra_signin"); ("delta_link_seen", JBool true)]).
Proof. vm_compute. reflexivity. Qed.

Lemma polls_catch_up_witness :
  ∃ early, adapter_run 2 (new_entra ex_credentials [] 60) ([busy_transport; expired_transport] ++ [good_transport]) =
    (early ++ [signin_item_event],
     mkEntra ex_credentials [] 60 (JStr "d1")).
Proof.
  apply (polls_catch_up 2 (new_entra ex_credentials [] 60) [busy_transport; expired_transport] good_transport "t0"
           [("access_token", JStr "t0")] [signin_body1; signin_body2] [[signin_item]; []]
           [[[signin_item_event]]; []]).
  - repeat constructor; vm_compute; reflexivity.
  - exists 200. split; [split; [discriminate|reflexivity]|reflexivity].
  - reflexivity.
  - eapply answers_next; [done|exists 200; split; [split; [discriminate|reflexivity]|reflexivity]|reflexivity|].
    eapply answers_next; [done|exists 200; split; [split; [discriminate|reflexivity]|reflexivity]|reflexivity|].
    by apply answers_end.
  - done.
  - repeat constructor; eexists; split; reflexivity.
  - repeat constructor. apply signin_item_yields.
Defined.
