(* ===== verification/MockGen.v ===== *)
(** * The traffic generators ([mockgen/templates.py], [mockgen/main.py], [loadtest/generators/*.py])

    The lines that the mock generator and the load test send, as functions of the clock
    and of the random choices, and what the adapters of the two ingest services make of
    them: every line of the mock generator becomes the flow it was made of, while of the
    load test only the FortiGate lines do. *)

From S2P Require Import Prelude PyStr Utf8 EventTypes PyText PyDatetime TextFormats PyJson SyslogReceiver.
From S2P Require Import FlowAdapters IdAdapters.

(** ** [mockgen/templates.py] *)

Definition APPS_PAN : list string := ["ms-office365"; "ms-teams"; "github"; "salesforce"; "zoom"; "slack"].
Definition APPS_FGT : list string := ["SharePoint"; "Teams"; "GitHub"; "Salesforce"; "Zoom"; "Slack"].
Definition FQDNS : list string :=
  ["outlook.office365.com"; "teams.microsoft.com"; "api.github.com"; "login.salesforce.com"; "zoom.us";
   "wss-mobile.slack.com"].
Definition PORTS : list Z := [443; 80; 22; 53].

(** The random choices of a line, with the bounds of their generators. *)
Record pan_choice : Type := mkPanChoice {
  pc_src : Z; pc_dst : Z; pc_sport : Z; pc_dport : Z; pc_app : string; pc_bytes : Z; pc_pkts : Z
}.

Definition pan_choice_ok (c : pan_choice) : Prop :=
  1 ≤ pc_src c ≤ 250 ∧ 1 ≤ pc_dst c ≤ 250 ∧ 10000 ≤ pc_sport c ≤ 60000 ∧ pc_dport c ∈ PORTS ∧ pc_app c ∈ APPS_PAN ∧
  500 ≤ pc_bytes c ≤ 50000 ∧ 1 ≤ pc_pkts c ≤ 100.

Record fgt_choice : Type := mkFgtChoice {
  fc_src : Z; fc_dst : Z; fc_sport : Z; fc_dport : Z; fc_sent : Z; fc_rcvd : Z; fc_spkt : Z; fc_rpkt : Z;
  fc_app : string; fc_fqdn : string
}.

Definition fgt_choice_ok (c : fgt_choice) : Prop :=
  1 ≤ fc_src c ≤ 250 ∧ 1 ≤ fc_dst c ≤ 250 ∧ 10000 ≤ fc_sport c ≤ 60000 ∧ fc_dport c ∈ PORTS ∧
  500 ≤ fc_sent c ≤ 50000 ∧ 500 ≤ fc_rcvd c ≤ 50000 ∧ 1 ≤ fc_spkt c ≤ 100 ∧ 1 ≤ fc_rpkt c ≤ 100 ∧
  fc_app c ∈ APPS_FGT ∧ fc_fqdn c ∈ FQDNS.

(** [pan_line]: [PAN_FIELDS] with its holes filled. *)
Definition pan_line (now : Z) (c : pan_choice) : string :=
  let ts := strftime_slash now in
  "1," +:+ ts +:+ ",001801000000,TRAFFIC,end,2560," +:+ ts +:+ "," +:+
  ("10.0.0." +:+ str_Z (pc_src c)) +:+ "," +:+ ("52.97.1." +:+ str_Z (pc_dst c)) +:+ ",,,allow-all,,," +:+ pc_app c +:+
  ",vsys1,trust,untrust,ae1,ae2,,,,," +:+ str_Z (pc_sport c) +:+ "," +:+ str_Z (pc_dport c) +:+
  ",,,0x400000,tcp,allow," +:+ str_Z (pc_bytes c) +:+ "," +:+ str_Z (pc_pkts c).

(** A text in double quotes. *)
Definition quoted (v : string) : string := String dquote (v +:+ String dquote "").

(** [fgt_line]: [FGT_FIELDS] with its holes filled. *)
Definition fgt_line (now : Z) (c : fgt_choice) : string :=
  "<189>date=" +:+ strftime_date "-" now +:+ " time=" +:+ clock_text now +:+ " devname=" +:+ quoted "fw02" +:+
  " logid=" +:+ quoted "0000000013" +:+ " type=" +:+ quoted "traffic" +:+ " subtype=" +:+ quoted "forward" +:+
  " eventtype=" +:+ quoted "forward" +:+ " level=" +:+ quoted "notice" +:+ " vd=" +:+ quoted "root" +:+
  " srcip=" +:+ ("10.0.1." +:+ str_Z (fc_src c)) +:+ " srcport=" +:+ str_Z (fc_sport c) +:+
  " dstip=" +:+ ("52.97.2." +:+ str_Z (fc_dst c)) +:+ " dstport=" +:+ str_Z (fc_dport c) +:+
  " proto=6 action=" +:+ quoted "close" +:+ " sentbyte=" +:+ str_Z (fc_sent c) +:+ " rcvdbyte=" +:+ str_Z (fc_rcvd c) +:+
  " sentpkt=" +:+ str_Z (fc_spkt c) +:+ " rcvdpkt=" +:+ str_Z (fc_rpkt c) +:+
  " appcat=" +:+ quoted "Collaboration" +:+ " app=" +:+ quoted (fc_app c) +:+ " status=" +:+ quoted "close" +:+
  " hostname=" +:+ quoted (fc_fqdn c).

(** ** [mockgen/main.py] *)

(** The vendors of the settings. *)
Definition mock_vendors (setting : string) : list string :=
  filter (λ v, str_true v = true) (strip <$> split_on "," setting).

(** The datagram of one turn of [_run], for the vendor chosen. *)
Definition mock_datagram (vendor : string) (now : Z) (p : pan_choice) (f : fgt_choice) : string :=
  (if decide (vendor = "palo_alto") then pan_line now p else fgt_line now f) +:+ String nl "".

(** The flows that the lines stand for. *)
Definition pan_flow (now : Z) (c : pan_choice) : FlowEvent :=
  mkFlowEvent (now / second * second) ("10.0.0." +:+ str_Z (pc_src c)) (pc_sport c) ("52.97.1." +:+ str_Z (pc_dst c))
    (pc_dport c) 6 (pc_bytes c) (pc_pkts c) "allow" None (Some (pc_app c)) "palo_alto" None.

Definition fgt_flow (now : Z) (c : fgt_choice) : FlowEvent :=
  mkFlowEvent now ("10.0.1." +:+ str_Z (fc_src c)) (fc_sport c) ("52.97.2." +:+ str_Z (fc_dst c)) (fc_dport c) 6
    (fc_sent c + fc_rcvd c) (fc_spkt c + fc_rpkt c) "close" (Some (fc_fqdn c)) (Some (fc_app c)) "fortigate"
    (Some "0000000013").

(** ** The Palo Alto lines *)

Definition pan_fields (now : Z) (c : pan_choice) : list string :=
  let ts := strftime_slash now in
  ["1"; ts; "001801000000"; "TRAFFIC"; "end"; "2560"; ts; "10.0.0." +:+ str_Z (pc_src c); "52.97.1." +:+ str_Z (pc_dst c);
   ""; ""; "allow-all"; ""; ""; pc_app c; "vsys1"; "trust"; "untrust"; "ae1"; "ae2"; ""; ""; ""; "";
   str_Z (pc_sport c); str_Z (pc_dport c); ""; ""; "0x400000"; "tcp"; "allow"; str_Z (pc_bytes c); str_Z (pc_pkts c)].

Lemma pan_line_join now c : pan_line now c = join "," (pan_fields now c).
Proof. unfold pan_line, pan_fields. generalize (strftime_slash now). intros ts. reflexivity. Qed.

(** The characters of the texts that were chosen. *)
Lemma clock_chars (P : ascii → bool) t :
  (∀ c, is_digit c = true → P c = true) → P ":"%char = true → str_forall P (clock_text t) = true.
Proof.
  intros HP Hc. unfold clock_text. set (sod := (t / second) mod day_s).
  assert (Hs : 0 ≤ sod < 86400) by (unfold sod, day_s; apply Z.mod_pos_bound; lia).
  rewrite !str_forall_app. cbn [str_forall]. rewrite Hc, !(digits_pad P) by (done || (simpl; divlia)). done.
Qed.

Lemma date_chars (P : ascii → bool) sep t :
  instant_ok t → (∀ c, is_digit c = true → P c = true) → P sep = true → str_forall P (strftime_date sep t) = true.
Proof.
  intros Ht HP Hc. unfold strftime_date. destruct (civil_from_days _) as [[y m] d] eqn:E.
  destruct (instant_date _ _ _ _ Ht E) as (Hy & Hm & Hd).
  rewrite !str_forall_app. cbn [str_forall]. rewrite !str_forall_app. cbn [str_forall].
  by rewrite Hc, !(digits_pad P) by (done || (simpl; lia)).
Qed.

Lemma port_nonneg p : p ∈ PORTS → 0 ≤ p < 1000.
Proof. unfold PORTS. set_unfold. lia. Qed.

(** The characters of a line: ASCII, without ends of lines. *)
Definition line_char (c : ascii) : bool := is_ascii c && negb (is_crlf c).

(** No field holds a separator, a quote or the letter [P]. *)
Definition pan_char (c : ascii) : bool := csv_plain c && line_char c && negb (bool_decide (c = "P"%char)).

Lemma digit_pan_char c : is_digit c = true → pan_char c = true.
Proof. destruct c as [[] [] [] [] [] [] [] []]; vm_compute; congruence. Qed.

Lemma pan_fields_chars now c :
  instant_ok now → pan_choice_ok c → Forall (λ f, str_forall pan_char f = true) (pan_fields now c).
Proof.
  intros Hn (H1 & H2 & H3 & H4%port_nonneg & H5 & H6 & H7).
  assert (Hts : str_forall pan_char (strftime_slash now) = true).
  { unfold strftime_slash. rewrite !str_forall_app.
    by rewrite date_chars, clock_chars by (done || apply digit_pan_char). }
  assert (Happ : str_forall pan_char (pc_app c) = true).
  { revert H5. generalize (pc_app c). apply (Forall_forall (λ a, str_forall pan_char a = true)). by repeat constructor. }
  assert (Hz : ∀ z, 0 ≤ z → str_forall pan_char (str_Z z) = true) by (intros; apply digits_str_Z; [done|apply digit_pan_char]).
  unfold pan_fields. repeat (apply Forall_cons; split); try apply Forall_nil; try exact I; try done;
    rewrite ?str_forall_app, ?Hz by lia; reflexivity.
Qed.

Lemma pan_line_no_P now c : instant_ok now → pan_choice_ok c → has_char "P" (pan_line now c) = false.
Proof.
  intros Hn Hc. apply (str_forall_no_char (λ c, negb (bool_decide (c = "P"%char)))); [done|].
  rewrite pan_line_join. apply str_forall_join; [done|].
  eapply Forall_impl; [by apply pan_fields_chars|]. intros f. apply str_forall_impl. intros d.
  unfold pan_char. by intros [_ ?]%andb_true_iff.
Qed.

(** A colon is never followed by a blank. *)
Lemma clock_no_header t s :
  find_sub ": " s = None → find_sub ": " (clock_text t +:+ s) = None.
Proof.
  intros Hs. unfold clock_text. set (sod := (t / second) mod day_s).
  assert (Hb : 0 ≤ sod < 86400) by (unfold sod, day_s; apply Z.mod_pos_bound; lia).
  assert (Hd : ∀ n, 0 ≤ n < 100 → has_char ":" (pad 2 n) = false).
  { intros n Hn. apply (str_forall_no_char is_digit); [done|]. by apply digits_pad. }
  assert (Hc : ∀ n r, 0 ≤ n < 100 → find_sub ": " r = None → find_sub ": " (":" +:+ pad 2 n +:+ r) = None).
  { intros n r Hn Hr. change (":" +:+ pad 2 n +:+ r) with (String ":" (String (digit_char (n / 10)) (pad 1 (n mod 10) +:+ r))).
    apply find_pair_cons.
    - intros E. pose proof (is_digit_char_ok (n / 10) ltac:(divlia)) as Hx. by rewrite E in Hx.
    - by apply (find_pair_app ":" " " (pad 2 n)); [apply Hd|]. }
  rewrite !app_assoc_str. apply find_pair_app; [apply Hd; divlia|]. apply Hc; [divlia|]. by apply Hc; [divlia|].
Qed.

Lemma pan_line_no_header now c : instant_ok now → pan_choice_ok c → find_sub ": " (pan_line now c) = None.
Proof.
  intros Hn (H1 & H2 & H3 & H4%port_nonneg & H5 & H6 & H7).
  assert (Hd : has_char ":" (strftime_date "/" now) = false).
  { apply (str_forall_no_char (λ d, is_digit d || bool_decide (d = "/"%char))); [done|].
    apply date_chars; [done| |done]. by intros d ->. }
  assert (Hz : ∀ z, 0 ≤ z → has_char ":" (str_Z z) = false).
  { intros z Hz. apply (str_forall_no_char is_digit); [done|]. by apply str_Z_digits. }
  assert (Ha : has_char ":" (pc_app c) = false).
  { revert H5. generalize (pc_app c). apply (Forall_forall (λ a, has_char ":" a = false)). by repeat constructor. }
  unfold pan_line, strftime_slash. rewrite !(app_assoc_str (strftime_date _ _)), !(app_assoc_str " ").
  do 2 (apply find_pair_app; [done|]; apply find_pair_app; [done|]; apply find_pair_app; [done|]; apply clock_no_header).
  apply find_sub_no_char. rewrite !has_char_app, !Hz, Ha by lia. reflexivity.
Qed.

(** The event of a row, from its fields. *)
Lemma csv_row_fields clock fs ts src dst app sport dport proto bytes pkts action :
  (33 ≤ length fs)%nat → fs !! 3%nat = Some "TRAFFIC" → fs !! 4%nat = Some "end" → fs !! 6%nat = Some ts →
  fs !! 7%nat = Some src → fs !! 8%nat = Some dst → fs !! 14%nat = Some app → fs !! 24%nat = Some (str_Z sport) →
  fs !! 25%nat = Some (str_Z dport) → fs !! 29%nat = Some proto → fs !! 30%nat = Some action →
  fs !! 31%nat = Some (str_Z bytes) → fs !! 32%nat = Some (str_Z pkts) →
  Forall (λ z, 0 ≤ z < 100000) [sport; dport; bytes; pkts] →
  csv_row clock fs = Some (mkFlowEvent (pan_ts clock ts) src sport dst dport (proto_of proto) bytes pkts action None
                             (some_true app) "palo_alto" None).
Proof.
  intros Hl H3 H4 H6 H7 H8 H14 H24 H25 H29 H30 H31 H32 Hz.
  assert (Hi : ∀ z, 0 ≤ z < 100000 → int_or_0 (str_Z z) = Ok z).
  { intros z Hb. unfold int_or_0. rewrite str_Z_true. apply py_int_str_Z. pose proof (int_bound_small z). lia. }
  rewrite !Forall_cons in Hz. destruct Hz as (Z1 & Z2 & Z3 & Z4 & _).
  unfold csv_row. rewrite (proj2 (Nat.ltb_ge _ _)) by lia. rewrite !bool_decide_true by done. cbn [negb orb].
  unfold csv_event, field. rewrite H6, H7, H8, H14, H24, H25, H29, H30, H31, H32. cbn [need mbind result_bind].
  rewrite !Hi by done. reflexivity.
Qed.

(** The adapter reads a generated line. *)
Lemma pan_row_event clock now c :
  instant_ok now → pan_choice_ok c → csv_row clock (pan_fields now c) = Some (pan_flow now c).
Proof.
  intros Hn (H1 & H2 & H3 & H4%port_nonneg & H5 & H6 & H7).
  rewrite (csv_row_fields clock (pan_fields now c) (strftime_slash now) ("10.0.0." +:+ str_Z (pc_src c))
    ("52.97.1." +:+ str_Z (pc_dst c)) (pc_app c) (pc_sport c) (pc_dport c) "tcp" (pc_bytes c) (pc_pkts c) "allow");
    try reflexivity; [|by repeat (apply Forall_cons; split; [lia|])].
  unfold pan_ts. rewrite strptime_strftime by done. unfold pan_flow. do 2 f_equal.
  revert H5. generalize (pc_app c). apply (Forall_forall (λ a, some_true a = Some a)). by repeat constructor.
Qed.

Lemma pan_line_flow clock now c :
  instant_ok now → pan_choice_ok c → pan_parse_line clock (pan_line now c) = Ok (Some (pan_flow now c)).
Proof.
  intros Hn Hc. unfold pan_parse_line.
  assert (Hp : contains "Palo Alto Networks" (pan_line now c) = false).
  { unfold contains. rewrite find_sub_no_char by (by apply pan_line_no_P). done. }
  assert (Ht : contains "TRAFFIC" (pan_line now c) = true).
  { unfold pan_line. apply contains_app, contains_app.
    match goal with |- contains _ (_ +:+ ?rest) = _ =>
      change (contains "TRAFFIC" (",001801000000," +:+ ("TRAFFIC" +:+ (",end,2560," +:+ rest))) = true) end.
    apply contains_app, contains_here. }
  rewrite Hp, Ht, andb_false_r. unfold parse_csv, after_first. rewrite pan_line_no_header by done.
  rewrite pan_line_join. unfold pan_fields at 1. rewrite csv_first_join; [|fold (pan_fields now c)|done].
  - cbn [mbind result_bind]. fold (pan_fields now c). by rewrite pan_row_event.
  - eapply Forall_impl; [by apply pan_fields_chars|]. intros f. apply str_forall_impl. intros d.
    unfold pan_char. rewrite !andb_true_iff. tauto.
Qed.

(** ** The FortiGate lines *)

Lemma rstrip_join P ws w : rstrip_by P w = w → w ≠ "" → rstrip_by P (join " " (ws ++ [w])) = join " " (ws ++ [w]).
Proof.
  intros Hw Hne. induction ws as [|v ws IH]; [exact Hw|].
  assert (Hj : join " " ((v :: ws) ++ [w]) = (v +:+ " ") +:+ join " " (ws ++ [w])).
  { destruct ws; simpl; by rewrite app_assoc_str. }
  rewrite Hj. apply rstrip_app; [done|]. destruct ws as [|u ws]; [done|]. destruct ws; by destruct u.
Qed.

(** The map of a line of words: the last value of a key. *)
Definition words_map (ws : list word) : gmap string string := foldl (λ m w, <[w.1.1 := w.1.2]> m) ∅ ws.

Lemma forti_kv_words pri ws w :
  0 ≤ pri → Forall (λ w, word_ok w = true ∧ has_char "=" w.1.1 = false) (ws ++ [w]) →
  lstrip_by is_space (join " " (sh_word <$> ws ++ [w])) = join " " (sh_word <$> ws ++ [w]) →
  rstrip_by is_space (sh_word w) = sh_word w →
  forti_kv ("<" +:+ str_Z pri +:+ ">" +:+ join " " (sh_word <$> ws ++ [w])) = Ok (words_map (ws ++ [w])).
Proof.
  intros Hp Hall Hl Hr. unfold forti_kv. rewrite drop_pri_prefix by done.
  unfold strip, strip_by. rewrite Hl, fmap_app. cbn [fmap list_fmap]. rewrite rstrip_join; [|done|].
  2: { destruct w as [[[|] v] []]; done. }
  change [sh_word w] with (sh_word <$> [w]). rewrite <- fmap_app.
  rewrite shlex_words; [|by destruct ws|by eapply Forall_impl; [exact Hall|intros ? [? _]]].
  cbn [mbind result_bind mret result_ret]. f_equal. unfold words_map. clear Hl. generalize (∅ : gmap string string).
  induction Hall as [|x xs [_ Hx] Hall IH]; intros m; [done|]. csimpl. unfold add_token at 2, word_text.
  rewrite partition_app by done. apply IH.
Qed.

Definition fgt_words (date time src sport dst dport sent rcvd spkt rpkt app : string) : list word :=
  [("date", date, false); ("time", time, false); ("devname", "fw02", true); ("logid", "0000000013", true);
   ("type", "traffic", true); ("subtype", "forward", true); ("eventtype", "forward", true); ("level", "notice", true);
   ("vd", "root", true); ("srcip", src, false); ("srcport", sport, false); ("dstip", dst, false); ("dstport", dport, false);
   ("proto", "6", false); ("action", "close", true); ("sentbyte", sent, false); ("rcvdbyte", rcvd, false);
   ("sentpkt", spkt, false); ("rcvdpkt", rpkt, false); ("appcat", "Collaboration", true); ("app", app, true);
   ("status", "close", true)].

Lemma sh_word_quoted k v : str_forall plain_char v = true → sh_word (k, v, true) = k +:+ String "=" (quoted v).
Proof. intros Hv. unfold sh_word, sh_pair. cbn [fst snd]. by rewrite sh_escape_plain. Qed.

Lemma fgt_line_words now c :
  str_forall plain_char (fc_app c) = true → str_forall plain_char (fc_fqdn c) = true →
  fgt_line now c = "<" +:+ str_Z 189 +:+ ">" +:+ join " " (sh_word <$>
    fgt_words (strftime_date "-" now) (clock_text now) ("10.0.1." +:+ str_Z (fc_src c)) (str_Z (fc_sport c))
      ("52.97.2." +:+ str_Z (fc_dst c)) (str_Z (fc_dport c)) (str_Z (fc_sent c)) (str_Z (fc_rcvd c)) (str_Z (fc_spkt c))
      (str_Z (fc_rpkt c)) (fc_app c) ++ [("hostname", fc_fqdn c, true)]).
Proof.
  intros Ha Hf. unfold fgt_line, fgt_words. generalize (strftime_date "-" now), (clock_text now),
    (str_Z (fc_src c)), (str_Z (fc_sport c)), (str_Z (fc_dst c)), (str_Z (fc_dport c)), (str_Z (fc_sent c)),
    (str_Z (fc_rcvd c)), (str_Z (fc_spkt c)), (str_Z (fc_rpkt c)). intros d t s1 s2 s3 s4 s5 s6 s7 s8.
  change (str_Z 189) with "189".
  csimpl. rewrite (sh_word_quoted "app" (fc_app c)), (sh_word_quoted "hostname" (fc_fqdn c)) by done. reflexivity.
Qed.

Lemma digit_plain c : is_digit c = true → plain_char c = true.
Proof. destruct c as [[] [] [] [] [] [] [] []]; vm_compute; congruence. Qed.

Lemma plain_num n : 0 ≤ n → str_forall plain_char (str_Z n) = true.
Proof. intros Hn. apply digits_str_Z; [done|apply digit_plain]. Qed.

Lemma plain_app a : a ∈ APPS_FGT → str_forall plain_char a = true ∧ a ≠ "".
Proof. revert a. apply (Forall_forall (λ a, str_forall plain_char a = true ∧ a ≠ "")). by repeat constructor. Qed.

Lemma plain_fqdn a : a ∈ FQDNS → str_forall plain_char a = true ∧ a ≠ "".
Proof. revert a. apply (Forall_forall (λ a, str_forall plain_char a = true ∧ a ≠ "")). by repeat constructor. Qed.

(** The event of a closed forward session, from the words of its line. *)
Lemma forti_words_event clock kv src dst sport dport sent rcvd spkt rpkt app fqdn :
  kv !! "srcip" = Some src → kv !! "srcport" = Some (str_Z sport) → kv !! "dstip" = Some dst →
  kv !! "dstport" = Some (str_Z dport) → kv !! "proto" = Some "6" → kv !! "sentbyte" = Some (str_Z sent) →
  kv !! "rcvdbyte" = Some (str_Z rcvd) → kv !! "sentpkt" = Some (str_Z spkt) → kv !! "rcvdpkt" = Some (str_Z rpkt) →
  kv !! "action" = Some "close" → kv !! "hostname" = Some fqdn → kv !! "app" = Some app →
  kv !! "logid" = Some "0000000013" → fqdn ≠ "" → app ≠ "" →
  Forall (λ z, 0 ≤ z < 100000) [sport; dport; sent; rcvd; spkt; rpkt] →
  forti_event clock kv = Ok (mkFlowEvent clock src sport dst dport 6 (sent + rcvd) (spkt + rpkt) "close" (Some fqdn)
                               (Some app) "fortigate" (Some "0000000013")).
Proof.
  intros K1 K2 K3 K4 K5 K6 K7 K8 K9 K10 K11 K12 K13 Hf Ha Hz.
  assert (Hi : ∀ z, 0 ≤ z < 100000 → py_int (str_Z z) = Ok z).
  { intros z Hb. apply py_int_str_Z. pose proof (int_bound_small z). lia. }
  rewrite !Forall_cons in Hz. destruct Hz as (Z1 & Z2 & Z3 & Z4 & Z5 & Z6 & _).
  unfold forti_event, int_of_key. rewrite K1, K2, K3, K4, K5, K6, K7, K8, K9, K10, K11, K12, K13.
  cbn [need mbind result_bind]. rewrite !Hi by done. change (py_int "6") with (Ok 6). cbn [mbind result_bind option_bind].
  destruct fqdn; [done|]. by destruct app.
Qed.

Lemma fgt_line_flow now c : instant_ok now → fgt_choice_ok c → forti_parse_line now (fgt_line now c) = Some (fgt_flow now c).
Proof.
  intros Hn (H1 & H2 & H3 & H4%port_nonneg & H5 & H6 & H7 & H8 & [Ha Ha']%plain_app & [Hf Hf']%plain_fqdn).
  assert (Hdate : str_forall plain_char (strftime_date "-" now) = true)
    by (apply date_chars; [done|apply digit_plain|done]).
  assert (Hclock : str_forall plain_char (clock_text now) = true) by (apply clock_chars; [apply digit_plain|done]).
  unfold forti_parse_line. rewrite fgt_line_words by done. rewrite forti_kv_words; [|done| |reflexivity|].
  - set (kv := words_map _).
    assert (E : forti_event now kv = Ok (fgt_flow now c)).
    { apply forti_words_event; try reflexivity; [done|done|]. by repeat (apply Forall_cons; split; [lia|]). }
    rewrite E. reflexivity.
  - unfold fgt_words. simpl app. repeat (apply Forall_cons; split); try apply Forall_nil_2; (split; [|reflexivity]);
      unfold word_ok; cbn [fst snd]; rewrite ?str_forall_app, ?plain_num, ?Hdate, ?Hclock by lia; reflexivity.
  - rewrite sh_word_quoted by done. apply rstrip_app; [|done].
    change (String "=" (quoted (fc_fqdn c))) with (("=" +:+ String dquote (fc_fqdn c)) +:+ String dquote "").
    by apply rstrip_last.
Qed.

(** ** From the socket to the event *)

Lemma rstrip_end P s c : P c = true → rstrip_by P (s +:+ String c "") = rstrip_by P s.
Proof.
  intros Hc. induction s as [|d s IH]; [change ("" +:+ String c "") with (String c ""); simpl; by rewrite Hc|].
  rewrite app_cons_str. cbn [rstrip_by]. by rewrite IH.
Qed.

Lemma line_datagram peer line :
  str_forall line_char line = true → line ≠ "" → datagram_messages peer (line +:+ String nl "") = [(peer, line)].
Proof.
  intros Hl Hne. unfold datagram_messages. rewrite rstrip_end by done. rewrite rstrip_plain, utf8_replace_ascii.
  - by destruct line.
  - eapply str_forall_impl; [|exact Hl]. intros c. unfold line_char. by intros [? _]%andb_true_iff.
  - eapply str_forall_impl; [|exact Hl]. intros c. unfold line_char. by intros [_ ?]%andb_true_iff.
Qed.

Lemma digit_line_char c : is_digit c = true → line_char c = true.
Proof. destruct c as [[] [] [] [] [] [] [] []]; vm_compute; congruence. Qed.

Lemma line_num n : 0 ≤ n → str_forall line_char (str_Z n) = true.
Proof. intros Hn. apply digits_str_Z; [done|apply digit_line_char]. Qed.

Lemma pan_line_chars now c : instant_ok now → pan_choice_ok c → str_forall line_char (pan_line now c) = true.
Proof.
  intros Hn Hc. rewrite pan_line_join. apply str_forall_join; [done|].
  eapply Forall_impl; [by apply pan_fields_chars|]. intros f. apply str_forall_impl. intros d.
  unfold pan_char. rewrite !andb_true_iff. tauto.
Qed.

Lemma fgt_line_chars now c : instant_ok now → fgt_choice_ok c → str_forall line_char (fgt_line now c) = true.
Proof.
  intros Hn (H1 & H2 & H3 & H4%port_nonneg & H5 & H6 & H7 & H8 & Ha & Hf).
  assert (Ea : str_forall line_char (fc_app c) = true).
  { revert Ha. generalize (fc_app c). apply (Forall_forall (λ a, str_forall line_char a = true)). by repeat constructor. }
  assert (Ef : str_forall line_char (fc_fqdn c) = true).
  { revert Hf. generalize (fc_fqdn c). apply (Forall_forall (λ a, str_forall line_char a = true)). by repeat constructor. }
  assert (Hq : ∀ v, str_forall line_char v = true → str_forall line_char (quoted v) = true).
  { intros v Hv. unfold quoted. cbn [str_forall]. by rewrite str_forall_app, Hv. }
  assert (Ed : str_forall line_char (strftime_date "-" now) = true)
    by (apply date_chars; [done|apply digit_line_char|done]).
  assert (Ec : str_forall line_char (clock_text now) = true) by (apply clock_chars; [apply digit_line_char|done]).
  unfold fgt_line. rewrite !str_forall_app, !line_num, (Hq _ Ea), (Hq _ Ef), Ed, Ec by lia. reflexivity.
Qed.

(** Whatever the clock and the random choices, a datagram of the mock generator is one
    line for the receiver, and the adapter of its vendor reads from it the flow it was
    made of: the addresses, ports, application, volumes and, for Palo Alto, the clock to
    the second. *)
Theorem mock_lines_become_flows clock now peer p f :
  instant_ok now → pan_choice_ok p → fgt_choice_ok f →
  ∃ pl fl,
    datagram_messages peer (mock_datagram "palo_alto" now p f) = [pl] ∧
    datagram_messages peer (mock_datagram "fortigate" now p f) = [fl] ∧
    adapter_step (palo_alto None) clock pl = Some (pan_flow now p) ∧
    adapter_step (fortigate None) now fl = Some (fgt_flow now f).
Proof.
  intros Hn Hp Hf. exists (peer, pan_line now p), (peer, fgt_line now f).
  split; [by apply line_datagram; [apply pan_line_chars|]|].
  split; [by apply line_datagram; [apply fgt_line_chars|]|].
  unfold adapter_step, peer_allowed. cbn [palo_alto fortigate fa_allowlist fa_parse snd].
  by rewrite pan_line_flow, fgt_line_flow.
Qed.

Definition ex_pan : pan_choice := mkPanChoice 7 9 40000 443 "zoom" 1200 12.
Definition ex_fgt : fgt_choice := mkFgtChoice 7 9 40000 443 1200 800 12 8 "Zoom" "zoom.us".
Definition ex_now : Z := 1776852000123456.

Lemma mock_lines_become_flows_witness :
  ∃ pl fl,
    datagram_messages "fw" (mock_datagram "palo_alto" ex_now ex_pan ex_fgt) = [pl] ∧
    datagram_messages "fw" (mock_datagram "fortigate" ex_now ex_pan ex_fgt) = [fl] ∧
    adapter_step (palo_alto None) 0 pl = Some (pan_flow ex_now ex_pan) ∧
    adapter_step (fortigate None) ex_now fl = Some (fgt_flow ex_now ex_fgt).
Proof.
  apply (mock_lines_become_flows 0 ex_now "fw" ex_pan ex_fgt).
  - split; [vm_compute; discriminate|vm_compute; reflexivity].
  - unfold pan_choice_ok, PORTS, APPS_PAN. simpl. set_solver by lia.
  - unfold fgt_choice_ok, PORTS, APPS_FGT, FQDNS. simpl. set_solver by lia.
Defined.

(** ** [loadtest/generators] *)

(** The last two numbers of an address. *)
Definition two_octets (a b : Z) : string := str_Z a +:+ "." +:+ str_Z b.

Definition LOAD_UPNS : list string := ["alice@example.com"; "bob@example.com"; "carol@example.com"].

Definition ad_4624_line (a b logon_type : Z) (upn : string) : string :=
  "<14>EventID=4624 TargetUserName=" +:+ upn +:+ " IpAddress=10.2." +:+ two_octets a b +:+ " LogonType=" +:+ str_Z logon_type.

Definition ise_accounting_line (a b user : Z) : string :=
  "<14>CISE_RADIUS_Accounting " +:+ "Acct-Status-Type=" +:+ "Start User-Name=svc" +:+ str_Z user +:+
  "@example.com Framed-IP-Address=10.3." +:+ two_octets a b.

Definition fortigate_traffic_line (now a b c d port sent rcvd : Z) : string :=
  "<134>date=" +:+ (strftime_date "-" now +:+ "T" +:+ clock_text now +:+ "Z") +:+
  " devname=fw02 type=traffic subtype=forward status=close srcip=" +:+ ("10.1." +:+ two_octets a b) +:+
  " dstip=" +:+ ("198.51." +:+ two_octets c d) +:+ " dstport=" +:+ str_Z port +:+ " proto=6 sentbyte=" +:+ str_Z sent +:+
  " rcvdbyte=" +:+ str_Z rcvd +:+ " app=HTTPS.WEB".

Definition pan_traffic_line (now a b c d port bytes : Z) : string :=
  let ts := strftime_slash now in
  "<14>" +:+ ts +:+ " FW01 1" +:+ ",2026/04/22 10:00:00,001,TRAFFIC,end,1,2026/04/22 10:00:00," +:+
  ("10.0." +:+ two_octets a b) +:+ "," +:+ ("203.0." +:+ two_octets c d) +:+
  ",0.0.0.0,0.0.0.0,rule1,user,app,vsys1,trust,untrust,ethernet1/1,ethernet1/2,Logs," +:+ ts +:+ ",12345,1,12345," +:+
  str_Z port +:+ ",0,0,0x0,tcp,allow," +:+ str_Z bytes +:+ "," +:+ str_Z (bytes / 2) +:+ "," +:+ str_Z (bytes / 2) +:+
  ",10," +:+ ts +:+ ",0,any,0,1,0x0,US,US,,0,0".

(** The identity lines. *)
Lemma finditer_short {A} (m : string → option (A * nat)) k s : (String.length s ≤ k)%nat → finditer m k s = [].
Proof. revert k. induction s as [|c s IH]; intros k Hk; [done|]. simpl in *. destruct k; [lia|]. apply IH. lia. Qed.

Lemma span_everything P s : str_forall P s = true → span P s = (s, "").
Proof. induction s as [|c s IH]; [done|]. cbn [str_forall span]. intros [-> Hs]%andb_true_iff. by rewrite IH. Qed.

Lemma octets_chars P a b :
  0 ≤ a → 0 ≤ b → (∀ c, is_digit c = true → P c = true) → P "."%char = true → str_forall P (two_octets a b) = true.
Proof.
  intros Ha Hb HP Hd. unfold two_octets. rewrite !str_forall_app. cbn [str_forall].
  by rewrite Hd, !(digits_str_Z P).
Qed.

Section identity_lines.
Context `{PyPrims}.

Lemma ad_line_silent a b t upn :
  0 ≤ a → 0 ≤ b → 0 ≤ t → upn ∈ LOAD_UPNS → Ad4624.parse (ad_4624_line a b t upn) = None.
Proof.
  intros Ha Hb Ht Hu. unfold Ad4624.parse.
  set (P := λ c, is_ascii c && negb (bool_decide (c = ":"%char))).
  assert (HP : ∀ c, is_digit c = true → P c = true) by (intros [[] [] [] [] [] [] [] []]; vm_compute; congruence).
  assert (Eu : str_forall P upn = true).
  { revert Hu. apply (Forall_forall (λ a, str_forall P a = true)). by repeat constructor. }
  assert (Hl : str_forall P (ad_4624_line a b t upn) = true).
  { unfold ad_4624_line. by rewrite !str_forall_app, octets_chars, (digits_str_Z P), Eu by done. }
  rewrite utf8_replace_ascii.
  2: { eapply str_forall_impl; [|exact Hl]. intros c. unfold P. by intros [? _]%andb_true_iff. }
  unfold after_first. rewrite find_sub_no_char by (by apply (str_forall_no_char P)).
  unfold ad_4624_line. rewrite app_cons_str. reflexivity.
Qed.
End identity_lines.

Lemma finditer_step {A} (m : string → option (A * nat)) c r :
  m (String c r) = None → finditer m 0 (String c r) = finditer m 0 r.
Proof. intros Hm. cbn [finditer]. by rewrite Hm. Qed.

Lemma finditer_some {A} (m : string → option (A * nat)) c r x n :
  m (String c r) = Some (x, n) → finditer m 0 (String c r) = x :: finditer m (pred n) r.
Proof. intros Hm. cbn [finditer]. by rewrite Hm. Qed.

(** The value of an attribute runs to the next comma, so that the first attribute takes
    the rest of a line without commas. *)
Lemma kv_of_one v :
  str_forall CiscoIse.not_comma (String "S" v) = true →
  CiscoIse.kv_of ("<14>CISE_RADIUS_Accounting " +:+ "Acct-Status-Type=" +:+ String "S" v) =
    {["Acct-Status-Type" := strip (String "S" v)]}.
Proof.
  intros Hv. unfold CiscoIse.kv_of. do 27 (rewrite app_cons_str, finditer_step by reflexivity).
  rewrite empty_app_str, app_cons_str.
  erewrite finditer_some.
  2: { cbn [CiscoIse.kv_match]. change (CiscoIse.is_alpha "A") with true. cbv iota.
       replace (span CiscoIse.key_char ("cct-Status-Type=" +:+ String "S" v))
         with ("cct-Status-Type", String "=" (String "S" v)) by reflexivity.
       cbv iota beta. change (span is_space (String "=" ?s)) with ("", String "=" s). cbv iota beta.
       change (span is_space (String "S" v)) with ("", String "S" v). cbv iota beta.
       rewrite span_everything by done. reflexivity. }
  rewrite finditer_short; [reflexivity|]. simpl. lia.
Qed.

Lemma ise_line_silent now a b u :
  0 ≤ a → 0 ≤ b → 0 ≤ u → CiscoIse.parse now (ise_accounting_line a b u) = None.
Proof.
  intros Ha Hb Hu. unfold CiscoIse.parse.
  set (P := λ c, is_ascii c && CiscoIse.not_comma c).
  assert (HP : ∀ c, is_digit c = true → P c = true) by (intros [[] [] [] [] [] [] [] []]; vm_compute; congruence).
  set (v := "tart User-Name=svc" +:+ str_Z u +:+ "@example.com Framed-IP-Address=10.3." +:+ two_octets a b).
  assert (Hv : str_forall P v = true).
  { unfold v. by rewrite !str_forall_app, octets_chars, (digits_str_Z P) by done. }
  change (ise_accounting_line a b u) with ("<14>CISE_RADIUS_Accounting " +:+ "Acct-Status-Type=" +:+ String "S" v).
  rewrite utf8_replace_ascii.
  2: { rewrite !str_forall_app. change (str_forall is_ascii (String "S" v)) with (str_forall is_ascii v).
       rewrite (str_forall_impl P is_ascii v) by (done || (intros c; unfold P; by intros [? _]%andb_true_iff)). reflexivity. }
  destruct (negb _); [done|].
  rewrite kv_of_one; [reflexivity|]. change (str_forall CiscoIse.not_comma v = true).
  eapply str_forall_impl; [|exact Hv]. intros c. unfold P. by intros [_ ?]%andb_true_iff.
Qed.

(** The FortiGate lines of the load test give flows without a source port. *)
Definition load_fgt_words (date src dst port sent rcvd : string) : list word :=
  [("date", date, false); ("devname", "fw02", false); ("type", "traffic", false); ("subtype", "forward", false);
   ("status", "close", false); ("srcip", src, false); ("dstip", dst, false); ("dstport", port, false);
   ("proto", "6", false); ("sentbyte", sent, false); ("rcvdbyte", rcvd, false)].

Lemma load_fgt_flow now a b c d port sent rcvd :
  instant_ok now → Forall (λ z, 0 ≤ z < 100000) [a; b; c; d; port; sent; rcvd] →
  forti_parse_line now (fortigate_traffic_line now a b c d port sent rcvd) =
    Some (mkFlowEvent now ("10.1." +:+ two_octets a b) 0 ("198.51." +:+ two_octets c d) port 6 (sent + rcvd) 0 "close" None
            (Some "HTTPS.WEB") "fortigate" None).
Proof.
  intros Hn Hz.
  assert (Hi : ∀ z, 0 ≤ z < 100000 → py_int (str_Z z) = Ok z).
  { intros z Hb. apply py_int_str_Z. pose proof (int_bound_small z). lia. }
  rewrite !Forall_cons in Hz. destruct Hz as (Z1 & Z2 & Z3 & Z4 & Z5 & Z6 & Z7 & _).
  assert (Hdate : str_forall plain_char (strftime_date "-" now +:+ "T" +:+ clock_text now +:+ "Z") = true).
  { rewrite !str_forall_app, date_chars, clock_chars by (done || apply digit_plain). reflexivity. }
  assert (Eline : fortigate_traffic_line now a b c d port sent rcvd = "<" +:+ str_Z 134 +:+ ">" +:+ join " " (sh_word <$>
    load_fgt_words (strftime_date "-" now +:+ "T" +:+ clock_text now +:+ "Z") ("10.1." +:+ two_octets a b)
      ("198.51." +:+ two_octets c d) (str_Z port) (str_Z sent) (str_Z rcvd) ++ [("app", "HTTPS.WEB", false)])).
  { unfold fortigate_traffic_line. change (str_Z 134) with "134".
    generalize (strftime_date "-" now +:+ "T" +:+ clock_text now +:+ "Z"), (two_octets a b), (two_octets c d), (str_Z port),
      (str_Z sent), (str_Z rcvd). reflexivity. }
  unfold forti_parse_line. rewrite Eline, forti_kv_words; [|done| |reflexivity|reflexivity].
  - set (kv := words_map _).
    assert (E : forti_event now kv = Ok (mkFlowEvent now ("10.1." +:+ two_octets a b) 0 ("198.51." +:+ two_octets c d) port 6
        (sent + rcvd) 0 "close" None (Some "HTTPS.WEB") "fortigate" None)).
    { unfold forti_event, int_of_key.
      replace (kv !! "dstport") with (Some (str_Z port)) by reflexivity.
      replace (kv !! "sentbyte") with (Some (str_Z sent)) by reflexivity.
      replace (kv !! "rcvdbyte") with (Some (str_Z rcvd)) by reflexivity. rewrite !Hi by done. reflexivity. }
    rewrite E. reflexivity.
  - unfold load_fgt_words. simpl app. repeat (apply Forall_cons; split); try apply Forall_nil_2; (split; [|reflexivity]);
      unfold word_ok; cbn [fst snd]; rewrite ?Hdate, ?str_forall_app, ?plain_num, ?octets_chars by (lia || done || apply digit_plain);
      reflexivity.
Qed.

(** The Palo Alto lines of the load test have one column too few before the ports. *)
Definition load_pan_fields (now a b c d port bytes : Z) : list string :=
  let ts := strftime_slash now in
  ["<14>" +:+ ts +:+ " FW01 1"; "2026/04/22 10:00:00"; "001"; "TRAFFIC"; "end"; "1"; "2026/04/22 10:00:00";
   "10.0." +:+ two_octets a b; "203.0." +:+ two_octets c d; "0.0.0.0"; "0.0.0.0"; "rule1"; "user"; "app"; "vsys1";
   "trust"; "untrust"; "ethernet1/1"; "ethernet1/2"; "Logs"; ts; "12345"; "1"; "12345"; str_Z port; "0"; "0"; "0x0";
   "tcp"; "allow"; str_Z bytes; str_Z (bytes / 2); str_Z (bytes / 2); "10"; ts; "0"; "any"; "0"; "1"; "0x0"; "US"; "US";
   ""; "0"; "0"].

Lemma load_pan_join now a b c d port bytes :
  pan_traffic_line now a b c d port bytes = join "," (load_pan_fields now a b c d port bytes).
Proof.
  unfold pan_traffic_line, load_pan_fields. cbv zeta.
  generalize (strftime_slash now), (two_octets a b), (two_octets c d), (str_Z port), (str_Z bytes), (str_Z (bytes / 2)).
  intros ts s1 s2 s3 s4 s5.
  match goal with |- _ = join _ (?f :: ?fs) => change (join "," (f :: fs)) with (f +:+ String "," (join "," fs)) end.
  rewrite (app_assoc_str "<14>"), (app_assoc_str ts). reflexivity.
Qed.

(** Its fields hold neither quotes nor separators, nor a capital P. *)
Definition load_pan_char (c : ascii) : bool := csv_plain c && negb (bool_decide (c = "P"%char)).

Lemma load_pan_chars now a b c d port bytes :
  instant_ok now → Forall (λ z, 0 ≤ z < 100000) [a; b; c; d; port; bytes] →
  Forall (λ f, str_forall load_pan_char f = true) (load_pan_fields now a b c d port bytes).
Proof.
  intros Hn Hz. rewrite !Forall_cons in Hz. destruct Hz as (Z1 & Z2 & Z3 & Z4 & Z5 & Z6 & _).
  assert (HP : ∀ c, is_digit c = true → load_pan_char c = true)
    by (intros [[] [] [] [] [] [] [] []]; vm_compute; congruence).
  assert (Hts : str_forall load_pan_char (strftime_slash now) = true).
  { unfold strftime_slash. rewrite !str_forall_app. by rewrite date_chars, clock_chars. }
  unfold load_pan_fields. repeat (apply Forall_cons; split); try apply Forall_nil_2; try done;
    rewrite ?str_forall_app, ?Hts, ?octets_chars, ?(digits_str_Z load_pan_char) by (done || lia || divlia); reflexivity.
Qed.

(** The line is a Palo Alto line by its kind, not by its product. *)
Lemma load_pan_kind now a b c d port bytes :
  instant_ok now → Forall (λ z, 0 ≤ z < 100000) [a; b; c; d; port; bytes] →
  contains "Palo Alto Networks" (pan_traffic_line now a b c d port bytes) = false ∧
  contains "TRAFFIC" (pan_traffic_line now a b c d port bytes) = true.
Proof.
  intros Hn Hz. split.
  - unfold contains. rewrite find_sub_no_char; [done|].
    apply (str_forall_no_char (λ c, negb (bool_decide (c = "P"%char)))); [done|].
    rewrite load_pan_join. apply str_forall_join; [done|]. eapply Forall_impl; [by apply load_pan_chars|]. intros f.
    apply str_forall_impl. intros x. unfold load_pan_char. by intros [_ ?]%andb_true_iff.
  - unfold pan_traffic_line. apply contains_app, contains_app, contains_app.
    match goal with |- contains _ (_ +:+ ?rest) = _ =>
      change (contains "TRAFFIC" (",2026/04/22 10:00:00,001," +:+ ("TRAFFIC" +:+ (",end,1,2026/04/22 10:00:00," +:+ rest))) = true) end.
    apply contains_app, contains_here.
Qed.

(** It has no header that ends in a colon and a space. *)
Lemma load_pan_no_header now a b c d port bytes :
  instant_ok now → Forall (λ z, 0 ≤ z < 100000) [a; b; c; d; port; bytes] →
  find_sub ": " (pan_traffic_line now a b c d port bytes) = None.
Proof.
  intros Hn Hz. rewrite !Forall_cons in Hz. destruct Hz as (Z1 & Z2 & Z3 & Z4 & Z5 & Z6 & _).
  assert (Hd : has_char ":" (strftime_date "/" now) = false).
  { apply (str_forall_no_char (λ d, is_digit d || bool_decide (d = "/"%char))); [done|].
    apply date_chars; [done| |done]. by intros x ->. }
  assert (Hz : ∀ z, 0 ≤ z → has_char ":" (str_Z z) = false).
  { intros z Hz. apply (str_forall_no_char is_digit); [done|]. by apply str_Z_digits. }
  assert (Ho : ∀ x y, 0 ≤ x → 0 ≤ y → has_char ":" (two_octets x y) = false).
  { intros x y Hx Hy. unfold two_octets. by rewrite !has_char_app, !Hz. }
  unfold pan_traffic_line, strftime_slash. cbv zeta. rewrite !(app_assoc_str (strftime_date _ _)), !(app_assoc_str " ").
  do 3 (apply find_pair_app; [done|]). apply clock_no_header. apply find_pair_app; [done|].
  match goal with |- find_sub _ (_ +:+ ?rest) = _ =>
    change (find_sub ": " (",2026/04/22 10:00:00,001,TRAFFIC,end,1,2026/04/22 10:00:00" +:+ String "," rest) = None) end.
  apply find_pair_last; [done|reflexivity|].
  repeat (apply find_pair_app; [rewrite ?has_char_app, ?Ho, ?Hz, ?Hd by (lia || divlia); reflexivity|]).
  apply clock_no_header.
  repeat (apply find_pair_app; [rewrite ?has_char_app, ?Ho, ?Hz, ?Hd by (lia || divlia); reflexivity|]).
  by apply clock_no_header.
Qed.

Lemma load_pan_flow clock now a b c d port bytes :
  instant_ok now → Forall (λ z, 0 ≤ z < 100000) [a; b; c; d; port; bytes] →
  pan_parse_line clock (pan_traffic_line now a b c d port bytes) =
    Ok (Some (mkFlowEvent 1776852000000000 ("10.0." +:+ two_octets a b) port ("203.0." +:+ two_octets c d) 0 0 (bytes / 2)
                (bytes / 2) (str_Z bytes) None (Some "vsys1") "palo_alto" None)).
Proof.
  intros Hn Hz. destruct (load_pan_kind now a b c d port bytes Hn Hz) as [Hp Ht].
  unfold pan_parse_line. rewrite Hp, Ht, andb_false_r. unfold parse_csv, after_first.
  rewrite load_pan_no_header, load_pan_join by done.
  unfold load_pan_fields at 1. rewrite csv_first_join; [|fold (load_pan_fields now a b c d port bytes)|done].
  - cbn [mbind result_bind]. fold (load_pan_fields now a b c d port bytes).
    rewrite !Forall_cons in Hz. destruct Hz as (Z1 & Z2 & Z3 & Z4 & Z5 & Z6 & _).
    rewrite (csv_row_fields clock (load_pan_fields now a b c d port bytes) "2026/04/22 10:00:00" ("10.0." +:+ two_octets a b)
      ("203.0." +:+ two_octets c d) "vsys1" port 0 "allow" (bytes / 2) (bytes / 2) (str_Z bytes)); try reflexivity;
      [simpl; lia|].
    by repeat (apply Forall_cons; split; [lia || divlia|]).
  - eapply Forall_impl; [by apply load_pan_chars|]. intros f. apply str_forall_impl. intros x. unfold load_pan_char.
    by intros [? _]%andb_true_iff.
Qed.

(** What the load test measures.  The lines of its domain controller and of its ISE give
    no identity event, whatever the random choices; its FortiGate lines give the flow
    they stand for, without a source port; its Palo Alto lines are read one column off:
    the port becomes the source port, the destination port and the protocol are 0, half
    the bytes count as bytes and as packets, and the number of bytes is the action. *)
Theorem load_test_lines `{PyPrims} clock now a b c d t u port bytes sent rcvd upn :
  instant_ok now → Forall (λ z, 0 ≤ z < 100000) [a; b; c; d; t; u; port; bytes; sent; rcvd] → upn ∈ LOAD_UPNS →
  Ad4624.parse (ad_4624_line a b t upn) = None ∧
  CiscoIse.parse clock (ise_accounting_line a b u) = None ∧
  forti_parse_line now (fortigate_traffic_line now a b c d port sent rcvd) =
    Some (mkFlowEvent now ("10.1." +:+ two_octets a b) 0 ("198.51." +:+ two_octets c d) port 6 (sent + rcvd) 0 "close" None
            (Some "HTTPS.WEB") "fortigate" None) ∧
  pan_parse_line clock (pan_traffic_line now a b c d port bytes) =
    Ok (Some (mkFlowEvent 1776852000000000 ("10.0." +:+ two_octets a b) port ("203.0." +:+ two_octets c d) 0 0 (bytes / 2)
                (bytes / 2) (str_Z bytes) None (Some "vsys1") "palo_alto" None)).
Proof.
  intros Hn Hz Hu. rewrite !Forall_cons in Hz. destruct Hz as (Z1 & Z2 & Z3 & Z4 & Z5 & Z6 & Z7 & Z8 & Z9 & Z10 & _).
  split; [apply ad_line_silent; done || lia|]. split; [apply ise_line_silent; lia|]. split.
  - apply load_fgt_flow; [done|]. by repeat (apply Forall_cons; split; [done|]).
  - apply load_pan_flow; [done|]. by repeat (apply Forall_cons; split; [done|]).
Qed.

#[local] Instance load_prims : PyPrims :=
  {| float_is := λ _ _, false; float_str := id; container_str := λ _, ""; float_trunc := λ _, Raise OverflowError |}.

Lemma load_test_lines_witness :
  Ad4624.parse (ad_4624_line 1 2 10 "bob@example.com") = None ∧
  fe_dst_port <$> forti_parse_line ex_now (fortigate_traffic_line ex_now 1 2 3 4 443 500 600) = Some 443.
Proof.
  assert (Hn : instant_ok ex_now) by (split; [vm_compute; discriminate|vm_compute; reflexivity]).
  assert (Hz : Forall (λ z, 0 ≤ z < 100000) [1; 2; 3; 4; 10; 7; 443; 900; 500; 600]) by (repeat (apply Forall_cons; split; [lia|]); exact (Forall_nil_2 _)).
  assert (Hu : "bob@example.com" ∈ LOAD_UPNS) by (apply (bool_decide_unpack _); vm_compute; exact I).
  destruct (load_test_lines 0 ex_now 1 2 3 4 10 7 443 900 500 600 "bob@example.com" Hn Hz Hu) as (Ha & _ & Hf & _).
  split; [exact Ha|]. rewrite Hf. reflexivity.
Defined.

(** ** The load test ([loadtest/locustfile.py]) *)

(** The module's settings; a port that is no number ends the import. *)
Record LoadSettings : Type := mkLoadSettings {
  ls_syslog_host : string;
  ls_firewall_port : Z;
  ls_ad_port : Z;
  ls_ise_port : Z;
  ls_scenario : string
}.

Definition env_or (env : string → option string) (name dflt : string) : string := default dflt (env name).

Definition load_settings (env : string → option string) : result LoadSettings :=
  firewall ← py_int (env_or env "FIREWALL_PORT" "514");
  ad ← py_int (env_or env "AD_PORT" "516");
  ise ← py_int (env_or env "ISE_PORT" "517");
  mret (mkLoadSettings (env_or env "SYSLOG_HOST" "traefik") firewall ad ise (env_or env "LOAD_SCENARIO" "sustained")).

(** The random numbers of a task. *)
Record load_choice : Type := mkLoadChoice {
  lc_a : Z; lc_b : Z; lc_c : Z; lc_d : Z; lc_logon : Z; lc_user : Z; lc_port : Z; lc_bytes : Z; lc_sent : Z; lc_rcvd : Z;
  lc_upn : string
}.

Definition load_choice_ok (c : load_choice) : Prop :=
  Forall (λ z, 0 ≤ z < 100000)
    [lc_a c; lc_b c; lc_c c; lc_d c; lc_logon c; lc_user c; lc_port c; lc_bytes c; lc_sent c; lc_rcvd c] ∧
  lc_upn c ∈ LOAD_UPNS.

Inductive load_task : Type := PanTask | FortigateTask | AdTask | IseTask.

(** The tasks of a user with their weights. *)
Definition flow_sender : list (Z * load_task) := [(2, PanTask); (1, FortigateTask)].
Definition identity_sender : list (Z * load_task) := [(1, AdTask); (1, IseTask)].

(** The users of a run: every class that the file declares, whatever the scenario. *)
Definition load_users (st : LoadSettings) : list (list (Z * load_task)) := [flow_sender; identity_sender].

(** The datagram that a task sends: its port and its line. *)
Definition load_send (st : LoadSettings) (now : Z) (c : load_choice) (task : load_task) : Z * string :=
  match task with
  | PanTask => (ls_firewall_port st, pan_traffic_line now (lc_a c) (lc_b c) (lc_c c) (lc_d c) (lc_port c) (lc_bytes c))
  | FortigateTask =>
      (ls_firewall_port st, fortigate_traffic_line now (lc_a c) (lc_b c) (lc_c c) (lc_d c) (lc_port c) (lc_sent c) (lc_rcvd c))
  | AdTask => (ls_ad_port st, ad_4624_line (lc_a c) (lc_b c) (lc_logon c) (lc_upn c))
  | IseTask => (ls_ise_port st, ise_accounting_line (lc_a c) (lc_b c) (lc_user c))
  end.

(** What the adapter behind the port makes of the line: no event, an identity event, a flow. *)
Inductive load_outcome : Type :=
  | NoEvent
  | IdentitySeen (ev : IdentityDict)
  | FlowSeen (ev : FlowEvent).

Definition load_outcome_of `{PyPrims} (clock : Z) (task : load_task) (line : string) : load_outcome :=
  match task with
  | PanTask => match pan_parse_line clock line with Ok (Some ev) => FlowSeen ev | _ => NoEvent end
  | FortigateTask => match forti_parse_line clock line with Some ev => FlowSeen ev | None => NoEvent end
  | AdTask => match Ad4624.parse line with Some ev => IdentitySeen ev | None => NoEvent end
  | IseTask => match CiscoIse.parse clock line with Some ev => IdentitySeen ev | None => NoEvent end
  end.

(** With the default ports, every datagram of a flow sender goes to the firewalls' port and
    is a flow; every one of an identity sender goes to a port of the identity adapters
    and is nothing. *)
Theorem load_users_effect `{PyPrims} st now c task :
  load_settings (λ _, None) = Ok st → instant_ok now → load_choice_ok c →
  (∀ w, (w, task) ∈ flow_sender → (load_send st now c task).1 = 514 ∧
     ∃ ev, load_outcome_of now task (load_send st now c task).2 = FlowSeen ev) ∧
  (∀ w, (w, task) ∈ identity_sender → (load_send st now c task).1 ∈ [516; 517] ∧
     load_outcome_of now task (load_send st now c task).2 = NoEvent).
Proof.
  intros Hst Hn [Hz Hu]. vm_compute in Hst. injection Hst as <-.
  rewrite !Forall_cons in Hz. destruct Hz as (Z1 & Z2 & Z3 & Z4 & Z5 & Z6 & Z7 & Z8 & Z9 & Z10 & _).
  split; intros w Hw; unfold flow_sender, identity_sender in Hw; set_unfold in Hw;
    destruct Hw as [ [= -> ->] | [ [= -> ->] | [] ] ]; cbn [load_send load_outcome_of fst snd ls_firewall_port ls_ad_port ls_ise_port].
  - split; [done|]. rewrite load_pan_flow; [by eexists|done|]. by repeat (apply Forall_cons; split; [done|]).
  - split; [done|]. rewrite load_fgt_flow; [by eexists|done|]. by repeat (apply Forall_cons; split; [done|]).
  - split; [left|]. by rewrite ad_line_silent by (done || lia).
  - split; [right; left|]. by rewrite ise_line_silent by lia.
Qed.

(** The scenario is read and announced, and changes nothing. *)
Theorem scenario_unused st st' :
  ls_syslog_host st = ls_syslog_host st' → ls_firewall_port st = ls_firewall_port st' → ls_ad_port st = ls_ad_port st' →
  ls_ise_port st = ls_ise_port st' →
  load_users st = load_users st' ∧ ∀ now c task, load_send st now c task = load_send st' now c task.
Proof. intros _ H1 H2 H3. split; [done|]. intros now c []; cbn [load_send]; by rewrite ?H1, ?H2, ?H3. Qed.
