(* ===== verification/GroupSync.v ===== *)
(** * Group synchronisation and the id-ingest service
      ([id_ingest/group_sync/*.py] and [id_ingest/main.py])

    The LDAP connection is the argument [search]; the synchronisers are values
    with their two operations; the statements of the notifier run on a small
    database state, the table [user_groups] and its view [group_members]. *)

From S2P Require Import Prelude PyDict PyStr PyText TextFormats PyJson PyIp EventTypes IdAdapters GraphApi.

(** ** Active Directory *)

(** An LDAP entry: its name, its principal name, the names of its attributes and the
    values under an attribute's name, if the entry has it. *)
Record ldap_entry : Type := mkEntry {
  en_dn : string;
  en_upn : option string;
  en_attributes : list string;
  en_values : string → option (list string)
}.

(** [conn.search(base, filter, SUBTREE, attributes)] and [conn.entries]. *)
Definition ldap_search : Type := string → string → list string → result (list ldap_entry).

(** [_cn] *)
Definition cn_of (dn : string) : string :=
  let first := (partition "," dn).1 in
  match partition "=" first with (_, Some v) => v | (w, None) => w end.

(** [_RANGE.match]: the bounds of a ranged attribute's name. *)
Definition range_match (name : string) : option (string * string) :=
  r ← ArubaClearpass.literal_prefix "memberOf;range=" name;
  match span is_digit r with
  | (lo, String "-" r1) =>
      if str_true lo then
        let '(hi, r2) := span is_digit r1 in
        if str_true hi then Some (lo, hi)
        else match r2 with String "*" _ => Some (lo, "*") | _ => None end
      else None
  | _ => None
  end.

Definition range_attr (lo : Z) : string := "memberOf;range=" +:+ str_Z lo +:+ "-*".

(** [_read_memberof] from the attribute to ask for; the fuel bounds the requests. *)
Fixpoint read_memberof (search : ldap_search) (user_dn : string) (fuel : nat) (attr : string) (groups : list string) :
    result (list string) :=
  match fuel with
  | O => Raise OtherError
  | S fuel =>
      entries ← search user_dn "(objectClass=user)" [attr];
      match entries with
      | [] => Ok groups
      | entry :: _ =>
          let groups := groups ++ default [] (en_values entry attr) in
          match omap range_match (en_attributes entry) with
          | [] => Ok groups
          | (_, hi) :: _ =>
              if decide (hi = "*") then Ok groups
              else h ← py_int hi; read_memberof search user_dn fuel (range_attr (h + 1)) groups
          end
      end
  end.

(** [AdGroupSync.sync_user] *)
Definition ad_sync_user (search : ldap_search) (base_dn : string) (fuel : nat) (upn : string) :
    result (list GroupUpsert) :=
  let account := (partition "@" upn).1 in
  entries ← search base_dn ("(userPrincipalName=" +:+ upn +:+ ")") ["distinguishedName"];
  entries ← (match entries with
             | [] => search base_dn ("(sAMAccountName=" +:+ account +:+ ")") ["distinguishedName"]
             | _ => Ok entries
             end);
  match entries with
  | [] => Ok []
  | e :: _ =>
      dns ← read_memberof search (en_dn e) fuel "memberOf" [];
      Ok (map (λ dn, mkGroupUpsert (JStr upn) (JStr dn) (JStr (cn_of dn)) "ad") dns)
  end.

(** The users of [sync_all]. *)
Definition ad_users (entries : list ldap_entry) : list string :=
  omap (λ e, u ← en_upn e; if str_true u then Some u else None) entries.

(** The upserts of several users, in order, up to the first error. *)
Fixpoint sync_users (sync_user : string → result (list GroupUpsert)) (upns : list string) :
    result (list GroupUpsert) :=
  match upns with
  | [] => Ok []
  | u :: upns => ups ← sync_user u; rest ← sync_users sync_user upns; Ok (ups ++ rest)
  end.

(** [AdGroupSync.sync_all] *)
Definition ad_sync_all (search : ldap_search) (base_dn : string) (fuel : nat) : result (list GroupUpsert) :=
  entries ← search base_dn "(objectClass=user)" ["userPrincipalName"];
  sync_users (ad_sync_user search base_dn fuel) (ad_users entries).

(** ** The worker *)

(** A synchroniser: the protocol [_Sync]. *)
Record Sync : Type := mkSync {
  sync_user : json → result (list GroupUpsert);
  sync_all : result (list GroupUpsert)
}.

(** The table the groups are kept in, its view and the notifications sent. *)
Record group_db : Type := mkGroupDb {
  user_groups : list GroupUpsert;
  group_members : list GroupUpsert;
  notifications : nat
}.

Inductive sql : Type := RefreshGroupMembers | NotifyGroupsChanged.

(** The effect of a statement. *)
Definition execute (db : group_db) (stmt : sql) : group_db :=
  match stmt with
  | RefreshGroupMembers => mkGroupDb (user_groups db) (user_groups db) (notifications db)
  | NotifyGroupsChanged => mkGroupDb (user_groups db) (group_members db) (S (notifications db))
  end.

(** [refresh_and_notify] with the outcome of each statement. *)
Definition refresh_and_notify (db : group_db) (refresh notify : result ()) : group_db * result () :=
  match refresh with
  | Raise e => (db, Raise e)
  | Ok _ =>
      let db := execute db RefreshGroupMembers in
      match notify with
      | Raise e => (db, Raise e)
      | Ok _ => (execute db NotifyGroupsChanged, Ok ())
      end
  end.

Record GroupSyncWorker : Type := mkWorker {
  gw_syncs : list Sync;
  gw_notifier : bool;
  gw_seen : gset string
}.

Definition new_worker (syncs : list Sync) (notifier : bool) : GroupSyncWorker := mkWorker syncs notifier ∅.

(** [for s in self._syncs: await s.sync_user(upn)] *)
Fixpoint call_syncs (call : Sync → result (list GroupUpsert)) (syncs : list Sync) : result () :=
  match syncs with
  | [] => Ok ()
  | s :: syncs => _ ← call s; call_syncs call syncs
  end.

(** [on_new_upn]; the flag says whether the synchronisers were called. *)
Definition on_new_upn (w : GroupSyncWorker) (upn : string) : GroupSyncWorker * bool * result () :=
  if decide (upn ∈ gw_seen w) then (w, false, Ok ())
  else
    (mkWorker (gw_syncs w) (gw_notifier w) ({[upn]} ∪ gw_seen w), true,
     call_syncs (λ s, sync_user s (JStr upn)) (gw_syncs w)).

(** [_full_cycle] *)
Definition full_cycle (w : GroupSyncWorker) (db : group_db) (refresh notify : result ()) : group_db * result () :=
  match call_syncs sync_all (gw_syncs w) with
  | Raise e => (db, Raise e)
  | Ok _ => if gw_notifier w then refresh_and_notify db refresh notify else (db, Ok ())
  end.

(** ** The service *)

(** [ev.get("user_upn")] when it is true; the adapters give a text, except for a
    sign-in whose principal name is some other JSON value. *)
Definition event_upn (ev : IdentityDict) : option string :=
  match id_user_upn ev with JStr s => if str_true s then Some s else None | _ => None end.

(** [_run_adapter] on the events an adapter yields, with the outcome of each [XADD]:
    the worker, the events published, the users synchronised, and the end. *)
Fixpoint run_adapter (w : GroupSyncWorker) (evs : list (IdentityDict * result ())) :
    GroupSyncWorker * list IdentityDict * list string * result () :=
  match evs with
  | [] => (w, [], [], Ok ())
  | (ev, Raise e) :: _ => (w, [], [], Raise e)
  | (ev, Ok _) :: evs =>
      match event_upn ev, gw_syncs w with
      | Some upn, _ :: _ =>
          let '(w1, called, r) := on_new_upn w upn in
          let synced := if called : bool then [upn] else [] in
          match r with
          | Raise e => (w1, [ev], synced, Raise e)
          | Ok _ =>
              let '(w2, out, sy, r2) := run_adapter w1 evs in
              (w2, ev :: out, synced ++ sy, r2)
          end
      | _, _ =>
          let '(w2, out, sy, r2) := run_adapter w evs in
          (w2, ev :: out, sy, r2)
      end
  end.

(** The settings that [_build_adapter] reads. *)
Record IdIngestSettings : Type := mkSettings {
  ad_syslog_port : Z;
  ise_syslog_port : Z;
  clearpass_syslog_port : Z;
  entra_tenant_id : string;
  entra_client_id : string;
  entra_client_secret : string;
  entra_corp_cidrs : string;
  entra_poll_interval_s : Z
}.

(** An adapter that was built. *)
Inductive adapter_config : Type :=
  | SyslogConfig (name : string) (host : string) (port : Z)
  | EntraConfig (tenant client secret : string) (cidrs : list ip_net) (poll_s : Z).

(** [[ip_network(c) for c in raw_cidrs]] *)
Fixpoint ip_networks (ws : list string) : result (list ip_net) :=
  match ws with [] => Ok [] | c :: ws => n ← ip_network true c; ns ← ip_networks ws; Ok (n :: ns) end.

(** [from_config] of the Entra adapter. *)
Definition entra_from_config (tenant client secret : string) (raw_cidrs : list string) (poll_s : Z) :
    result adapter_config :=
  cidrs ← ip_networks raw_cidrs;
  Ok (EntraConfig tenant client secret cidrs poll_s).

Definition corp_cidrs (text : string) : list string :=
  filter (λ c, str_true c = true) (strip <$> split_on "," text).

(** [_build_adapter] *)
Definition build_adapter (name : string) (s : IdIngestSettings) : result (option adapter_config) :=
  if decide (name = "ad_4624") then Ok (Some (SyslogConfig name "0.0.0.0" (ad_syslog_port s)))
  else if decide (name = "cisco_ise") then Ok (Some (SyslogConfig name "0.0.0.0" (ise_syslog_port s)))
  else if decide (name = "aruba_clearpass") then Ok (Some (SyslogConfig name "0.0.0.0" (clearpass_syslog_port s)))
  else if decide (name = "entra_signin") then
    if negb (str_true (entra_tenant_id s)) then Ok None
    else
      a ← entra_from_config (entra_tenant_id s) (entra_client_id s) (entra_client_secret s)
            (corp_cidrs (entra_corp_cidrs s)) (entra_poll_interval_s s);
      Ok (Some a)
  else Ok None.

(** The instances of [_main]: an adapter that fails to build is left out. *)
Definition build_instances (discovered : list string) (s : IdIngestSettings) : list adapter_config :=
  omap (λ name, match build_adapter name s with Ok a => a | Raise _ => None end) discovered.

(** ** Ranged retrieval *)

(** The name of the attribute that carries the values from [lo] to [hi], or to the end. *)
Definition range_name (lo : Z) (hi : option Z) : string :=
  "memberOf;range=" +:+ str_Z lo +:+ String "-" (match hi with Some h => str_Z h | None => "*" end).

Lemma span_digits_all n : 0 ≤ n → span is_digit (str_Z n) = (str_Z n, "").
Proof.
  intros Hn. pose proof (str_Z_digits n Hn) as Hd. revert Hd. generalize (str_Z n). intros w.
  induction w as [|c w IH]; [done|]. simpl. intros [-> Hw]%andb_true_iff. by rewrite IH.
Qed.

Lemma span_digits_dash n r : 0 ≤ n → span is_digit (str_Z n +:+ String "-" r) = (str_Z n, String "-" r).
Proof.
  intros Hn. pose proof (str_Z_digits n Hn) as Hd. revert Hd. generalize (str_Z n). intros w.
  induction w as [|c w IH]; [done|]. rewrite app_cons_str. simpl. intros [-> Hw]%andb_true_iff. by rewrite IH.
Qed.

Lemma range_match_name lo hi :
  0 ≤ lo → (∀ h, hi = Some h → 0 ≤ h) →
  range_match (range_name lo hi) = Some (str_Z lo, match hi with Some h => str_Z h | None => "*" end).
Proof.
  intros Hlo Hhi. unfold range_match, range_name.
  assert (E : ∀ r, ArubaClearpass.literal_prefix "memberOf;range=" ("memberOf;range=" +:+ r) = Some r).
  { intros r. unfold ArubaClearpass.literal_prefix. rewrite !app_cons_str. by destruct r. }
  rewrite E. cbn [mbind option_bind]. rewrite span_digits_dash by done. rewrite str_Z_true.
  destruct hi as [h|]; [|done]. rewrite span_digits_all by auto. by rewrite str_Z_true.
Qed.

(** A directory that answers each request with a chunk of the values, under the
    name that was asked for, and names the range it covers. *)
Inductive serves (search : ldap_search) (dn : string) : string → Z → list (list string) → Prop :=
  | serves_all attr lo c e more :
      search dn "(objectClass=user)" [attr] = Ok (e :: more) → en_values e attr = Some c →
      omap range_match (en_attributes e) = [] → serves search dn attr lo [c]
  | serves_last attr lo c e more names :
      search dn "(objectClass=user)" [attr] = Ok (e :: more) → en_values e attr = Some c →
      en_attributes e = names ++ [range_name lo None] → omap range_match names = [] →
      serves search dn attr lo [c]
  | serves_chunk attr lo c e more names rest :
      search dn "(objectClass=user)" [attr] = Ok (e :: more) → en_values e attr = Some c → c ≠ [] →
      en_attributes e = names ++ [range_name lo (Some (lo + Z.of_nat (length c) - 1))] → omap range_match names = [] →
      serves search dn (range_attr (lo + Z.of_nat (length c))) (lo + Z.of_nat (length c)) rest →
      serves search dn attr lo (c :: rest).

Lemma read_memberof_chunks search dn fuel attr lo chunks groups :
  serves search dn attr lo chunks → (length chunks ≤ fuel)%nat → 0 ≤ lo →
  lo + Z.of_nat (length (concat chunks)) < int_bound →
  read_memberof search dn fuel attr groups = Ok (groups ++ concat chunks).
Proof.
  intros Hs. revert fuel groups.
  induction Hs as [attr lo c e more Hse Hv Hr|attr lo c e more names Hse Hv Ha Hn
                  |attr lo c e more names rest Hse Hv Hc Ha Hn Hrest IH]; intros fuel groups Hf Hlo Hb;
    (destruct fuel as [|fuel]; [simpl in Hf; lia|]); cbn [read_memberof]; rewrite Hse; cbn [mbind result_bind];
    rewrite Hv; cbn [default]; simpl concat in *.
  - by rewrite Hr, app_nil_r.
  - rewrite Ha, omap_app, Hn. cbn -[range_match range_name]. rewrite range_match_name by done. cbn.
    by rewrite app_nil_r.
  - rewrite length_app in Hb. rewrite Ha, omap_app, Hn. cbn -[range_match range_name].
    assert (0 < length c)%nat by (destruct c; simpl; [done|lia]).
    assert (Hp : ∀ k, k < int_bound → 0 ≤ k → py_int (str_Z k) = Ok k) by (intros; apply py_int_str_Z; lia).
    rewrite range_match_name; [|done|intros h [= <-]; lia].
    cbn -[str_Z read_memberof range_attr]. rewrite decide_False.
    + rewrite Hp by lia. cbn [mbind result_bind]. replace (lo + Z.of_nat (length c) - 1 + 1) with (lo + Z.of_nat (length c)) by lia.
      rewrite IH by (simpl in *; lia). by rewrite app_assoc.
    + intros E. specialize (Hp (lo + Z.of_nat (length c) - 1) ltac:(lia) ltac:(lia)). by rewrite E in Hp.
Qed.


(** ** The worker and the adapters' loop *)

(** What a run of the loop is required to do, from the users seen before. *)
Definition run_ok (w : GroupSyncWorker) (evs : list IdentityDict) (w' : GroupSyncWorker) (out : list IdentityDict)
    (synced : list string) (r : result ()) : Prop :=
  out `prefix_of` evs ∧ NoDup synced ∧ (∀ u, u ∈ synced → u ∉ gw_seen w) ∧
  gw_syncs w' = gw_syncs w ∧ gw_seen w' = gw_seen w ∪ list_to_set synced ∧
  (r = Ok () → out = evs ∧
     (gw_syncs w ≠ [] → ∀ ev u, ev ∈ out → event_upn ev = Some u → u ∈ gw_seen w')).

Lemma run_ok_stop w evs e : run_ok w evs w [] [] (Raise e).
Proof.
  split; [apply prefix_nil|]. split; [constructor|]. split; [by intros u ?%not_elem_of_nil|].
  split; [done|]. split; [set_solver|done].
Qed.

(** An event whose user needs no call. *)
Lemma run_ok_quiet w ev evs w' out synced r :
  gw_syncs w = [] ∨ event_upn ev = None ∨ (∃ u, event_upn ev = Some u ∧ u ∈ gw_seen w) →
  run_ok w evs w' out synced r → run_ok w (ev :: evs) w' (ev :: out) synced r.
Proof.
  intros Hq (Hp & Hnd & Hns & Hsy & Hse & Hr). split; [by apply prefix_cons|]. repeat split; [done..| |].
  - f_equal. by apply Hr.
  - intros Hne ev' u [->|Hin]%elem_of_cons He; [|by eapply Hr].
    destruct Hq as [?|[?|(u' & ? & ?)]]; simplify_eq; set_solver.
Qed.

(** An event whose user is new. *)
Lemma run_ok_call w u ev evs w' out synced r :
  event_upn ev = Some u → u ∉ gw_seen w →
  run_ok (mkWorker (gw_syncs w) (gw_notifier w) ({[u]} ∪ gw_seen w)) evs w' out synced r →
  run_ok w (ev :: evs) w' (ev :: out) (u :: synced) r.
Proof.
  intros Hu Hn (Hp & Hnd & Hns & Hsy & Hse & Hr). simpl in *. split; [by apply prefix_cons|].
  split; [constructor; [|done]; intros Hin; apply (Hns u Hin); set_solver|].
  split; [intros v [->|Hv]%elem_of_cons; [done|]; specialize (Hns v Hv); set_solver|].
  split; [done|]. split; [rewrite Hse; set_solver|]. intros Hok. destruct (Hr Hok) as [-> Hin]. split; [done|].
  intros Hne ev' v [->|Hv]%elem_of_cons He; [|by eapply Hin]. simplify_eq. set_solver.
Qed.

(** The loop of an adapter publishes its events in order, without a gap, up to the
    first error; it asks for the groups of each user at most once, only for users not
    seen before, and after a run without error every user of a published event has
    been asked for. *)
Theorem adapter_publishes_then_syncs w evs w' out synced r :
  run_adapter w evs = (w', out, synced, r) → run_ok w evs.*1 w' out synced r.
Proof.
  revert w w' out synced r. induction evs as [|[ev x] evs IH]; intros w w' out synced r; cbn [run_adapter].
  { intros [= <- <- <- <-]. split; [done|]. split; [constructor|]. split; [by intros u ?%not_elem_of_nil|].
    split; [done|]. split; [set_solver|]. intros _. split; [done|]. intros _ ev u ?%not_elem_of_nil. done. }
  rewrite fmap_cons. destruct x as [[]|e]; [|intros [= <- <- <- <-]; apply run_ok_stop].
  destruct (event_upn ev) as [u|] eqn:Hu; cycle 1.
  { destruct (run_adapter w evs) as [[[w2 o] sy] r2] eqn:E. intros [= <- <- <- <-].
    apply run_ok_quiet; [auto|by apply IH]. }
  destruct (gw_syncs w) as [|s ss] eqn:Hs.
  { destruct (run_adapter w evs) as [[[w2 o] sy] r2] eqn:E. intros [= <- <- <- <-].
    apply run_ok_quiet; [auto|by apply IH]. }
  unfold on_new_upn. destruct (decide (u ∈ gw_seen w)) as [Hin|Hin].
  { destruct (run_adapter w evs) as [[[w2 o] sy] r2] eqn:E. intros [= <- <- <- <-].
    apply run_ok_quiet; [eauto|by apply IH]. }
  destruct (call_syncs _ _) as [[]|e].
  - destruct (run_adapter _ evs) as [[[w2 o] sy] r2] eqn:E. intros [= <- <- <- <-].
    apply run_ok_call; [done|done|by apply IH].
  - intros [= <- <- <- <-]. apply run_ok_call; [done|done|apply run_ok_stop].
Qed.

(** A user whose first synchronisation failed is never synchronised again by
    later sightings: the user was recorded as seen before the calls were made. *)
Theorem failed_sync_not_retried w upn w1 e :
  on_new_upn w upn = (w1, true, Raise e) → on_new_upn w1 upn = (w1, false, Ok ()).
Proof.
  unfold on_new_upn. destruct (decide _); [done|]. intros [= <- _]. cbn [gw_seen].
  rewrite decide_True by set_solver. done.
Qed.

(** A full cycle sends its notification only after every synchroniser has
    succeeded and the view has been refreshed; the groups the synchronisers return
    are not written: the table is the same after the cycle, whatever they are, and
    the view shows the table as it was. *)
Theorem full_cycle_discards_groups w db refresh notify db' r :
  full_cycle w db refresh notify = (db', r) →
  user_groups db' = user_groups db ∧
  (notifications db' ≠ notifications db →
     r = Ok () ∧ gw_notifier w = true ∧ Forall (λ s, is_ok (sync_all s) = true) (gw_syncs w) ∧
     group_members db' = user_groups db).
Proof.
  unfold full_cycle, refresh_and_notify. destruct (call_syncs sync_all (gw_syncs w)) as [[]|] eqn:E; [|by intros [= <- <-]].
  destruct (gw_notifier w); [|by intros [= <- <-]].
  destruct refresh; [|by intros [= <- <-]]. destruct notify; intros [= <- <-]; simpl; [|done].
  split; [done|]. intros _. repeat split. clear -E. revert E. induction (gw_syncs w) as [|s ss IH]; [by constructor|].
  simpl. destruct (sync_all s) eqn:Hs; simpl; [|done]. intros E. constructor; [by rewrite Hs|auto].
Qed.

(** ** Witnesses and runs *)

Definition demo_event (u : string) : IdentityDict :=
  mkIdentityDict 0 (JStr "10.0.0.1") (JStr u) "cisco_ise" "nac-auth" 95 60 JNull JNull.
Definition demo_sync : Sync :=
  mkSync (λ u, if jeq_str u "mallory" then Raise OtherError else Ok []) (Ok [mkGroupUpsert (JStr "a") (JStr "g") (JStr "g") "ad"]).
Definition demo_run : list (IdentityDict * result ()) :=
  [(demo_event "alice", Ok ()); (demo_event "alice", Ok ()); (demo_event "mallory", Ok ()); (demo_event "bob", Ok ())].

Lemma adapter_publishes_then_syncs_witness :
  run_ok (new_worker [demo_sync] true) demo_run.*1
    (mkWorker [demo_sync] true ({["mallory"]} ∪ ({["alice"]} ∪ ∅)))
    [demo_event "alice"; demo_event "alice"; demo_event "mallory"] ["alice"; "mallory"] (Raise OtherError).
Proof. apply (adapter_publishes_then_syncs (new_worker [demo_sync] true) demo_run). vm_compute. reflexivity. Defined.

Lemma failed_sync_not_retried_witness :
  on_new_upn (mkWorker [demo_sync] true ({["mallory"]} ∪ ∅)) "mallory" =
  (mkWorker [demo_sync] true ({["mallory"]} ∪ ∅), false, Ok ()).
Proof. apply (failed_sync_not_retried (new_worker [demo_sync] true) "mallory" _ OtherError). reflexivity. Defined.

Lemma full_cycle_discards_groups_witness :
  user_groups (full_cycle (new_worker [demo_sync] true) (mkGroupDb [] [] 0) (Ok ()) (Ok ())).1 = [].
Proof.
  exact (proj1 (full_cycle_discards_groups (new_worker [demo_sync] true) (mkGroupDb [] [] 0) (Ok ()) (Ok ())
                  (mkGroupDb [] [] 1) (Ok ()) eq_refl)).
Defined.

(** A directory of two chunks. *)
Definition two_chunks : ldap_search := λ dn flt attrs,
  match attrs with
  | ["memberOf"] =>
      Ok [mkEntry dn None ["memberOf"; range_name 0 (Some 1)]
            (λ a, if decide (a = "memberOf") then Some ["CN=a,DC=x"; "CN=b,DC=x"] else None)]
  | _ => Ok [mkEntry dn None [range_name 2 None] (λ a, if decide (a = range_attr 2) then Some ["CN=c,DC=x"] else None)]
  end.


(** A directory whose answers carry the values under the name of the range they
    cover: of three chunks, the one in the middle is lost. *)
Definition three_chunks : ldap_search := λ dn flt attrs,
  let chunk name vals := [mkEntry dn None [name] (λ a, if decide (a = name ∨ a = "memberOf") then Some vals else None)] in
  if decide (attrs = ["memberOf"]) then Ok (chunk (range_name 0 (Some 0)) ["CN=a"])
  else if decide (attrs = [range_attr 1]) then Ok (chunk (range_name 1 (Some 1)) ["CN=b"])
  else Ok (chunk (range_name 2 None) ["CN=c"]).

Example middle_chunk_lost : read_memberof three_chunks "CN=u" 3 "memberOf" [] = Ok ["CN=a"; "CN=c"].
Proof. vm_compute. reflexivity. Qed.

Example cn_runs : cn_of "CN=Sales EMEA,OU=Groups" = "Sales EMEA" ∧ cn_of "odd" = "odd".
Proof. done. Qed.

(** A network with host bits set makes the Entra adapter fail to build; the other
    adapters still run. *)
Example bad_cidr_skips_entra :
  build_instances ["ad_4624"; "entra_signin"] (mkSettings 516 517 518 "t" "c" "s" "10.0.0.1/8" 60) =
  [SyslogConfig "ad_4624" "0.0.0.0" 516].
Proof. vm_compute. reflexivity. Qed.
