(* ===== verification/Windower.v ===== *)
(** * The flow windower ([correlator/pipeline/windower.py])

    Tumbling windows of [window_s] seconds over the flow events: per bucket and
    per (src_ip, dst_ip, dst_port, proto) key the windower accumulates bytes,
    packets and a flow count, and hands one [WindowedFlow] per key to the out
    queue once the bucket is a full window behind the current time.

    [run] is the state machine [windower_step] over the inputs of its loop (an
    event, or the time-out of [wait_for]); a step also returns the flows it
    offers to [out.put_nowait], in order. *)

From S2P Require Import Prelude PySort PyDict PyQueue EventTypes.

Record Key : Type := mkKey {
  key_src_ip : string;
  key_dst_ip : string;
  key_dst_port : Z;
  key_proto : Z
}.

#[global] Instance Key_eq_dec : EqDecision Key.
Proof. solve_decision. Defined.

Record Acc : Type := mkAcc {
  acc_bytes : Z;
  acc_packets : Z;
  acc_flow_count : Z;
  app_id_seen : option string;
  fqdn_seen : option string;
  action_seen : option string
}.

Definition Acc0 : Acc := mkAcc 0 0 0 None None None.

Record WindowedFlow : Type := mkWindowedFlow {
  wf_bucket_start : Z;
  wf_window_s : Z;
  wf_src_ip : string;
  wf_dst_ip : string;
  wf_dst_port : Z;
  wf_proto : Z;
  wf_bytes : Z;
  wf_packets : Z;
  wf_flow_count : Z;
  wf_app_id : option string;
  wf_fqdn : option string;
  wf_action : option string;
  wf_lossy : bool;
  wf_dropped_count : Z
}.

(** [FlowWindower]; the input queue is the sequence of inputs of [run]. *)
Record FlowWindower : Type := mkFlowWindower {
  w_window_s : Z;
  w_out : queue WindowedFlow;
  w_buckets : pydict Z (pydict Key Acc);
  w_dropped : Z
}.

(** [__post_init__] *)
Definition new_windower (window_s : Z) (out : queue WindowedFlow) : FlowWindower :=
  mkFlowWindower window_s out [] 0.

(** [_bucket_start]: [int()] truncates towards zero, [%] is the floor modulo.
    A zero [window_s] (a [ZeroDivisionError]) is excluded by the theorems. *)
Definition bucket_start (window_s ts : Z) : Z :=
  let epoch := Z.quot ts second in
  let aligned := epoch - epoch mod window_s in
  aligned * second.

Definition windowed_flow (window_s b dropped : Z) (key : Key) (acc : Acc) : WindowedFlow :=
  {| wf_bucket_start := b;
     wf_window_s := window_s;
     wf_src_ip := key_src_ip key;
     wf_dst_ip := key_dst_ip key;
     wf_dst_port := key_dst_port key;
     wf_proto := key_proto key;
     wf_bytes := acc_bytes acc;
     wf_packets := acc_packets acc;
     wf_flow_count := acc_flow_count acc;
     wf_app_id := app_id_seen acc;
     wf_fqdn := fqdn_seen acc;
     wf_action := action_seen acc;
     wf_lossy := 0 <? dropped;
     wf_dropped_count := dropped |}.

(** The body of the inner loop of [_emit_ready]. *)
Definition emit_one (b : Z) (s : FlowWindower * list WindowedFlow) (ka : Key * Acc) :
    FlowWindower * list WindowedFlow :=
  let '(st, log) := s in
  let wf := windowed_flow (w_window_s st) b (w_dropped st) ka.1 ka.2 in
  let po := put_drop_oldest wf (w_out st) in
  (mkFlowWindower (w_window_s st) (po_queue po) (w_buckets st)
     (if po_was_full po then w_dropped st + 1 else w_dropped st),
   log ++ [wf]).

(** The body of the outer loop: [self._buckets.pop(b).items()]. *)
Definition emit_bucket (s : FlowWindower * list WindowedFlow) (b : Z) :
    FlowWindower * list WindowedFlow :=
  let '(st, log) := s in
  let slot := default [] (dget b (w_buckets st)) in
  foldl (emit_one b)
    (mkFlowWindower (w_window_s st) (w_out st) (ddel b (w_buckets st)) (w_dropped st), log) slot.

Definition ready_buckets (st : FlowWindower) (now : Z) : list Z :=
  let threshold := bucket_start (w_window_s st) now - w_window_s st * second in
  filter (λ b, b ≤ threshold) (dkeys (w_buckets st)).

Definition emit_ready (st : FlowWindower) (now : Z) : FlowWindower * list WindowedFlow :=
  let ready := ready_buckets st now in
  let '(st', log) := foldl emit_bucket (st, []) (py_sorted id ready) in
  match ready with
  | [] => (st', log)
  | _ => (mkFlowWindower (w_window_s st') (w_out st') (w_buckets st') 0, log)
  end.

Definition event_key (ev : FlowEvent) : Key :=
  mkKey (fe_src_ip ev) (fe_dst_ip ev) (fe_dst_port ev) (fe_proto ev).

Definition acc_event (ev : FlowEvent) (acc : Acc) : Acc :=
  {| acc_bytes := acc_bytes acc + fe_bytes ev;
     acc_packets := acc_packets acc + fe_packets ev;
     acc_flow_count := acc_flow_count acc + 1;
     app_id_seen := py_or (app_id_seen acc) (fe_app_id ev);
     fqdn_seen := py_or (fqdn_seen acc) (fe_fqdn ev);
     action_seen := py_or (action_seen acc) (Some (fe_action ev)) |}.

Definition accumulate (ev : FlowEvent) (window_s : Z) (bs : pydict Z (pydict Key Acc)) :
    pydict Z (pydict Key Acc) :=
  dupd (bucket_start window_s (fe_ts ev)) [] (dupd (event_key ev) Acc0 (acc_event ev)) bs.

(** What the loop of [run] sees: an event, or [TimeoutError] at a wall-clock
    time. *)
Inductive w_input : Type :=
  | WEvent (ev : FlowEvent)
  | WTimeout (now : Z).

Definition input_time (i : w_input) : Z :=
  match i with WEvent ev => fe_ts ev | WTimeout now => now end.

(** The state after an event was added to its slot. *)
Definition absorb (st : FlowWindower) (i : w_input) : FlowWindower :=
  match i with
  | WTimeout _ => st
  | WEvent ev =>
      mkFlowWindower (w_window_s st) (w_out st)
        (accumulate ev (w_window_s st) (w_buckets st)) (w_dropped st)
  end.

(** One iteration of the loop of [run]. *)
Definition windower_step (st : FlowWindower) (i : w_input) : FlowWindower * list WindowedFlow :=
  emit_ready (absorb st i) (input_time i).

(** The labeller takes [n] flows from the front of the out queue. *)
Definition taken (n : nat) (st : FlowWindower) : FlowWindower :=
  mkFlowWindower (w_window_s st) (Queue (q_maxsize (w_out st)) (drop n (q_items (w_out st))))
    (w_buckets st) (w_dropped st).

(** A schedule: before each input of the loop, how many flows the labeller took. *)
Fixpoint windower_run (st : FlowWindower) (ins : list (nat * w_input)) :
    FlowWindower * list WindowedFlow :=
  match ins with
  | [] => (st, [])
  | (n, i) :: ins' =>
      let '(st1, log1) := windower_step (taken n st) i in
      let '(st2, log2) := windower_run st1 ins' in
      (st2, log1 ++ log2)
  end.

(** ** Specification vocabulary *)

Inductive counter : Type := Bytes | Packets | FlowCount.

Definition acc_count (c : counter) (a : Acc) : Z :=
  match c with Bytes => acc_bytes a | Packets => acc_packets a | FlowCount => acc_flow_count a end.

Definition wf_count (c : counter) (wf : WindowedFlow) : Z :=
  match c with Bytes => wf_bytes wf | Packets => wf_packets wf | FlowCount => wf_flow_count wf end.

Definition ev_count (c : counter) (ev : FlowEvent) : Z :=
  match c with Bytes => fe_bytes ev | Packets => fe_packets ev | FlowCount => 1 end.

Definition wf_key (wf : WindowedFlow) : Key :=
  mkKey (wf_src_ip wf) (wf_dst_ip wf) (wf_dst_port wf) (wf_proto wf).

(** The window and key an event, or an emitted flow, belongs to. *)
Definition event_cell (window_s : Z) (ev : FlowEvent) : Z * Key :=
  (bucket_start window_s (fe_ts ev), event_key ev).

Definition flow_cell (wf : WindowedFlow) : Z * Key := (wf_bucket_start wf, wf_key wf).

Definition events_of (ins : list (nat * w_input)) : list FlowEvent :=
  omap (λ i, match i.2 with WEvent ev => Some ev | WTimeout _ => None end) ins.

(** The total still pending for one cell. *)
Definition pending (c : counter) (b : Z) (k : Key) (st : FlowWindower) : Z :=
  match dget b (w_buckets st) with
  | Some slot => match dget k slot with Some a => acc_count c a | None => 0 end
  | None => 0
  end.

Definition windower_wf (st : FlowWindower) : Prop :=
  dict_wf (w_buckets st) ∧
  (∀ b slot, dget b (w_buckets st) = Some slot → dict_wf slot) ∧
  queue_wf (w_out st).

Definition wf_acc (wf : WindowedFlow) : Acc :=
  mkAcc (wf_bytes wf) (wf_packets wf) (wf_flow_count wf) (wf_app_id wf) (wf_fqdn wf) (wf_action wf).

(** What an emitted flow reports, apart from the drop counters. *)
Definition flow_entry (wf : WindowedFlow) : Z * (Key * Acc) :=
  (wf_bucket_start wf, (wf_key wf, wf_acc wf)).

(** The content of the given buckets, in order. *)
Definition bucket_entries (bs : pydict Z (pydict Key Acc)) (ready : list Z) :
    list (Z * (Key * Acc)) :=
  b ← ready; (pair b) <$> default [] (dget b bs).

(** ** Windows *)

Lemma bucket_start_aligned ws ts : bucket_start ws ts = ws * (Z.quot ts second / ws) * second.
Proof.
  unfold bucket_start. pose proof (Z.div_mod (Z.quot ts second) ws).
  destruct (decide (ws = 0)) as [->|]; [|f_equal; lia].
  rewrite Zmod_0_r. lia.
Qed.

Lemma bucket_start_mono ws t1 t2 :
  0 < ws → t1 ≤ t2 → bucket_start ws t1 ≤ bucket_start ws t2.
Proof.
  intros Hw Ht. rewrite !bucket_start_aligned. unfold second.
  assert (Z.quot t1 1000000 ≤ Z.quot t2 1000000) by (apply Z.quot_le_mono; lia).
  assert (Z.quot t1 1000000 / ws ≤ Z.quot t2 1000000 / ws) by (apply Z.div_le_mono; lia).
  nia.
Qed.

(** ** Emission *)

Lemma windowed_flow_entry ws b d ka : flow_entry (windowed_flow ws b d ka.1 ka.2) = (b, ka).
Proof. by destruct ka as [[] []]. Qed.

Lemma emit_one_fold b st log slot st' log' :
  foldl (emit_one b) (st, log) slot = (st', log') →
  w_window_s st' = w_window_s st ∧ w_buckets st' = w_buckets st ∧
  flow_entry <$> log' = (flow_entry <$> log) ++ (pair b <$> slot) ∧
  (queue_wf (w_out st) → queue_wf (w_out st')).
Proof.
  revert st log. induction slot as [|ka slot IH]; intros st log; simpl.
  { intros [= <- <-]. by rewrite app_nil_r. }
  intros Hf. apply IH in Hf as (Hw & Hb & Hl & Hq). simpl in *.
  split; [done|]. split; [done|]. split; [|eauto with ztna].
  by rewrite Hl, fmap_app, <-app_assoc, fmap_cons, <-(windowed_flow_entry (w_window_s st) b (w_dropped st) ka).
Qed.

Lemma dget_ddel_fold (ready : list Z) (bs : pydict Z (pydict Key Acc)) b :
  dict_wf bs →
  dget b (foldl (λ bs b, ddel b bs) bs ready) = if decide (b ∈ ready) then None else dget b bs.
Proof.
  revert bs. induction ready as [|b1 ready IH]; intros bs Hwf; simpl.
  { destruct (decide (b ∈ [])) as [Hb|]; [by apply not_elem_of_nil in Hb|done]. }
  rewrite IH, dget_ddel by eauto with ztna.
  destruct (decide (b ∈ ready)), (decide (b = b1)), (decide (b ∈ b1 :: ready)) as [H|H];
    rewrite elem_of_cons in H; naive_solver.
Qed.

Lemma bucket_entries_ddel bs b ready :
  dict_wf bs → b ∉ ready → bucket_entries (ddel b bs) ready = bucket_entries bs ready.
Proof.
  intros Hwf. unfold bucket_entries. induction ready as [|b1 ready IH]; intros Hb; [done|].
  apply not_elem_of_cons in Hb as [Hne Hb]. csimpl. rewrite IH, dget_ddel by done.
  by destruct (decide (b1 = b)).
Qed.

Lemma emit_bucket_fold st log ready st' log' :
  NoDup ready → dict_wf (w_buckets st) →
  foldl emit_bucket (st, log) ready = (st', log') →
  w_window_s st' = w_window_s st ∧
  w_buckets st' = foldl (λ bs b, ddel b bs) (w_buckets st) ready ∧
  flow_entry <$> log' = (flow_entry <$> log) ++ bucket_entries (w_buckets st) ready ∧
  (queue_wf (w_out st) → queue_wf (w_out st')).
Proof.
  revert st log. induction ready as [|b ready IH]; intros st log; simpl; intros Hnd Hwf.
  { intros [= <- <-]. by rewrite app_nil_r. }
  apply NoDup_cons in Hnd as [Hb Hnd].
  destruct (foldl (emit_one b) _ _) as [st1 log1] eqn:E.
  apply emit_one_fold in E as (Hw1 & Hb1 & Hl1 & Hq1). simpl in *.
  intros Hf. apply IH in Hf as (Hw2 & Hb2 & Hl2 & Hq2); [|done|rewrite Hb1; eauto with ztna].
  split; [congruence|]. split; [by rewrite Hb2, Hb1|]. split; [|auto].
  rewrite Hl2, Hl1, <-app_assoc, Hb1, bucket_entries_ddel by done. done.
Qed.

Lemma ready_nodup st now : dict_wf (w_buckets st) → NoDup (py_sorted id (ready_buckets st now)).
Proof. intros Hwf. rewrite py_sorted_perm. by apply NoDup_filter. Qed.

(** The effect of [_emit_ready] apart from the drop counters. *)
Lemma emit_ready_effect st now st' log :
  dict_wf (w_buckets st) →
  emit_ready st now = (st', log) →
  w_window_s st' = w_window_s st ∧
  w_buckets st' = foldl (λ bs b, ddel b bs) (w_buckets st) (py_sorted id (ready_buckets st now)) ∧
  flow_entry <$> log = bucket_entries (w_buckets st) (py_sorted id (ready_buckets st now)) ∧
  (queue_wf (w_out st) → queue_wf (w_out st')).
Proof.
  intros Hwf. unfold emit_ready. destruct (foldl emit_bucket _ _) as [st1 log1] eqn:E.
  apply emit_bucket_fold in E as (Hw & Hb & Hl & Hq); [|by apply ready_nodup|done].
  destruct (ready_buckets st now); intros [= <- <-]; done.
Qed.

(** ** The invariant *)

Lemma emit_ready_wf st now st' log :
  windower_wf st → emit_ready st now = (st', log) → windower_wf st'.
Proof.
  intros (Hwf & Hslots & Hq) Hem.
  apply emit_ready_effect in Hem as (_ & Hb & _ & Hq'); [|done].
  split; [|split; [|by auto]].
  - rewrite Hb. apply (foldl_invariant dict_wf); eauto with ztna.
  - intros b slot. rewrite Hb, dget_ddel_fold by done. destruct (decide _); [done|]. apply Hslots.
Qed.

Lemma accumulate_wf ev ws bs :
  dict_wf bs → (∀ b slot, dget b bs = Some slot → dict_wf slot) →
  dict_wf (accumulate ev ws bs) ∧
  (∀ b slot, dget b (accumulate ev ws bs) = Some slot → dict_wf slot).
Proof.
  intros Hwf Hslots. unfold accumulate. split; [eauto with ztna|].
  intros b slot. rewrite dget_dupd. destruct (decide _); [|apply Hslots].
  intros [= <-]. apply dupd_wf. destruct (dget b bs) eqn:E; simpl; [eauto|constructor].
Qed.

Lemma absorb_wf st i : windower_wf st → windower_wf (absorb st i).
Proof.
  intros (Hwf & Hslots & Hq). destruct i as [ev|now]; [|done].
  by destruct (accumulate_wf ev (w_window_s st) (w_buckets st)).
Qed.

Lemma absorb_window st i : w_window_s (absorb st i) = w_window_s st.
Proof. by destruct i. Qed.

Lemma taken_wf n st : windower_wf st → windower_wf (taken n st).
Proof.
  intros (Hwf & Hslots & Hq). split; [done|]. split; [done|].
  unfold queue_wf in *. simpl. rewrite length_drop. lia.
Qed.

#[local] Hint Resolve absorb_wf taken_wf : ztna.

Lemma windower_step_wf st i st' log :
  windower_wf st → windower_step st i = (st', log) → windower_wf st'.
Proof. intros Hwf. apply emit_ready_wf. by apply absorb_wf. Qed.

Lemma windower_step_window st i st' log :
  windower_wf st → windower_step st i = (st', log) → w_window_s st' = w_window_s st.
Proof.
  intros Hwf (-> & _)%emit_ready_effect; [apply absorb_window|]. by apply absorb_wf.
Qed.

Lemma windower_run_wf st ins st' log :
  windower_wf st → windower_run st ins = (st', log) → windower_wf st'.
Proof.
  revert st log. induction ins as [|[n i] ins IH]; intros st log Hwf; simpl.
  { by intros [= <- <-]. }
  destruct (windower_step _ _) as [st1 log1] eqn:E1.
  destruct (windower_run st1 ins) as [st2 log2] eqn:E2. intros [= <- <-].
  eapply IH; [|done]. eapply windower_step_wf; [|done]. by apply taken_wf.
Qed.

Lemma new_windower_wf ws q : queue_wf q → windower_wf (new_windower ws q).
Proof. intros Hq. split; [constructor|]. by split; [intros ? ? [=]|]. Qed.

(** ** Conservation *)

Lemma events_of_cons i ins : events_of (i :: ins) = events_of [i] ++ events_of ins.
Proof. by destruct i as [n []]. Qed.

Section conservation.
Context (c : counter) (cell : Z * Key).

Definition slot_weight (b : Z) (slot : pydict Key Acc) : Z :=
  sum_by (λ ka, if decide ((b, ka.1) = cell) then acc_count c ka.2 else 0) slot.

Definition total_weight (bs : pydict Z (pydict Key Acc)) : Z :=
  sum_by (λ bslot, slot_weight bslot.1 bslot.2) bs.

Definition entry_weight (e : Z * (Key * Acc)) : Z :=
  if decide ((e.1, e.2.1) = cell) then acc_count c e.2.2 else 0.

Definition event_weight (ws : Z) (ev : FlowEvent) : Z :=
  if decide (event_cell ws ev = cell) then ev_count c ev else 0.

Lemma acc_event_count ev a : acc_count c (acc_event ev a) = acc_count c a + ev_count c ev.
Proof. by destruct c. Qed.

Lemma accumulate_weight ev ws bs :
  total_weight (accumulate ev ws bs) = total_weight bs + event_weight ws ev.
Proof.
  unfold total_weight, accumulate, dupd. rewrite sum_dset; simpl.
  set (b := bucket_start ws (fe_ts ev)).
  assert (Hslot : ∀ slot, slot_weight b (dset (event_key ev)
      (acc_event ev (default Acc0 (dget (event_key ev) slot))) slot) =
    slot_weight b slot + event_weight ws ev).
  { intros slot. unfold slot_weight, event_weight, event_cell. rewrite sum_dset; simpl.
    fold b. rewrite acc_event_count.
    destruct (decide ((b, event_key ev) = cell)), (dget (event_key ev) slot); simpl; try lia.
    destruct c; simpl; lia. }
  rewrite Hslot. destruct (dget b bs); simpl; lia.
Qed.

Lemma bucket_entries_weight bs ready :
  NoDup ready → dict_wf bs →
  sum_by entry_weight (bucket_entries bs ready) +
    total_weight (foldl (λ bs b, ddel b bs) bs ready) = total_weight bs.
Proof.
  revert bs. induction ready as [|b ready IH]; intros bs; simpl; intros Hnd Hwf; [done|].
  apply NoDup_cons in Hnd as [Hb Hnd].
  change (bucket_entries bs (b :: ready)) with
    ((pair b <$> default [] (dget b bs)) ++ bucket_entries bs ready).
  rewrite sum_by_app, <-(bucket_entries_ddel bs b ready), <-Z.add_assoc, IH by eauto with ztna.
  unfold total_weight. rewrite sum_ddel, sum_by_fmap; simpl.
  unfold entry_weight, slot_weight; simpl. destruct (dget b bs); simpl; lia.
Qed.

Lemma emit_ready_weight st now st' log :
  dict_wf (w_buckets st) → emit_ready st now = (st', log) →
  total_weight (w_buckets st) =
  total_weight (w_buckets st') + sum_by entry_weight (flow_entry <$> log).
Proof.
  intros Hwf (_ & Hb & Hl & _)%emit_ready_effect; [|done]. rewrite Hb, Hl.
  rewrite <-(bucket_entries_weight _ _ (ready_nodup _ now Hwf) Hwf) at 1. lia.
Qed.

Lemma absorb_weight st i :
  total_weight (w_buckets (absorb st i)) =
  total_weight (w_buckets st) + sum_by (event_weight (w_window_s st)) (events_of [(0%nat, i)]).
Proof. destruct i; simpl; [rewrite accumulate_weight|]; lia. Qed.

Lemma windower_step_weight st i st' log :
  windower_wf st → windower_step st i = (st', log) →
  total_weight (w_buckets st) + sum_by (event_weight (w_window_s st)) (events_of [(0%nat, i)]) =
  total_weight (w_buckets st') + sum_by entry_weight (flow_entry <$> log).
Proof.
  intros Hwf Hs. rewrite <-absorb_weight. eapply emit_ready_weight; [|exact Hs].
  by apply absorb_wf.
Qed.

Lemma windower_run_weight st ins st' log :
  windower_wf st → windower_run st ins = (st', log) →
  total_weight (w_buckets st) + sum_by (event_weight (w_window_s st)) (events_of ins) =
  total_weight (w_buckets st') + sum_by entry_weight (flow_entry <$> log).
Proof.
  revert st log. induction ins as [|[n i] ins IH]; intros st log Hwf; cbn [windower_run].
  { intros [= <- <-]. simpl. lia. }
  apply (taken_wf n) in Hwf.
  destruct (windower_step (taken n st) i) as [st1 log1] eqn:E1.
  destruct (windower_run st1 ins) as [st2 log2] eqn:E2. intros [= <- <-].
  pose proof (windower_step_weight _ _ _ _ Hwf E1) as Hs.
  apply IH in E2; [|by eapply windower_step_wf].
  rewrite (windower_step_window _ _ _ _ Hwf E1) in E2. simpl in Hs, E2.
  rewrite events_of_cons, fmap_app, !sum_by_app. simpl. lia.
Qed.
End conservation.

Lemma total_weight_pending c b k st :
  windower_wf st → total_weight c (b, k) (w_buckets st) = pending c b k st.
Proof.
  intros (Hwf & Hslots & _). unfold total_weight, pending.
  rewrite <-(sum_indicator (λ slot, match dget k slot with Some a => acc_count c a | None => 0 end))
    by done.
  apply sum_by_ext. intros [b' slot] Hin; simpl.
  apply in_dget in Hin; [|done]. unfold slot_weight.
  destruct (decide (b' = b)) as [->|Hne].
  - rewrite <-(sum_indicator (acc_count c)) by eauto. apply sum_by_ext. intros [k' a] _; simpl.
    destruct (decide (k' = k)), (decide ((b, k') = (b, k))); congruence || done.
  - apply sum_by_zero. intros [k' a] _; simpl. by destruct (decide _) as [[= ? ?]|].
Qed.

Lemma entry_weight_flow c cell log :
  sum_by (entry_weight c cell) (flow_entry <$> log) =
  sum_by (wf_count c) (filter (λ wf, flow_cell wf = cell) log).
Proof. rewrite sum_by_fmap, <-sum_by_ite. apply sum_by_ext. intros wf _. by destruct c. Qed.

Lemma windower_conservation_run c b k ws maxsize ins st log :
  windower_run (new_windower ws (Queue maxsize [])) ins = (st, log) →
  sum_by (ev_count c) (filter (λ ev, event_cell ws ev = (b, k)) (events_of ins)) =
  pending c b k st + sum_by (wf_count c) (filter (λ wf, flow_cell wf = (b, k)) log).
Proof.
  intros E.
  assert (Hwf : windower_wf (new_windower ws (Queue maxsize []))).
  { apply new_windower_wf. unfold queue_wf; simpl. lia. }
  pose proof (windower_run_wf _ _ _ _ Hwf E).
  pose proof (windower_run_weight c (b, k) _ _ _ _ Hwf E) as Hw.
  rewrite <-sum_by_ite, <-entry_weight_flow, <-(total_weight_pending c b k st) by done.
  exact Hw.
Qed.

(** ** Order of emission *)

Definition threshold (ws now : Z) : Z := bucket_start ws now - ws * second.

Lemma emit_ready_buckets st now st' log b :
  dict_wf (w_buckets st) → emit_ready st now = (st', log) →
  dget b (w_buckets st') =
    if decide (b ≤ threshold (w_window_s st) now) then None else dget b (w_buckets st).
Proof.
  intros Hwf (_ & Hb & _ & _)%emit_ready_effect; [|done].
  rewrite Hb, dget_ddel_fold by done. unfold ready_buckets. fold (threshold (w_window_s st) now).
  destruct (decide (b ∈ _)) as [Hin|Hin];
    rewrite py_sorted_elem, list_elem_of_filter in Hin;
    destruct (decide (b ≤ _)); try naive_solver.
  destruct (dget b (w_buckets st)) eqn:E; [|done].
  destruct Hin. split; [done|]. by eapply dget_some_key.
Qed.

Lemma emit_ready_log st now st' log wf :
  dict_wf (w_buckets st) → emit_ready st now = (st', log) → wf ∈ log →
  wf_bucket_start wf ≤ threshold (w_window_s st) now ∧
  wf_bucket_start wf ∈ dkeys (w_buckets st).
Proof.
  intros Hwf (_ & _ & Hl & _)%emit_ready_effect Hin; [|done].
  apply (list_elem_of_fmap_2 flow_entry) in Hin. rewrite Hl in Hin.
  unfold bucket_entries in Hin. apply list_elem_of_bind in Hin as (b & Hin & Hb).
  apply list_elem_of_fmap in Hin as (ka & [= -> _] & _).
  by rewrite py_sorted_elem in Hb; apply list_elem_of_filter in Hb.
Qed.

Lemma bucket_entries_nodup bs ready :
  NoDup ready → (∀ b slot, dget b bs = Some slot → dict_wf slot) →
  NoDup ((λ e, (e.1, e.2.1)) <$> bucket_entries bs ready).
Proof.
  intros Hnd Hslots. unfold bucket_entries. induction Hnd as [|b ready Hb Hnd IH]; [constructor|].
  csimpl. rewrite fmap_app. apply NoDup_app. split; [|split; [|done]].
  - rewrite <-list_fmap_compose. destruct (dget b bs) as [slot|] eqn:E; simpl; [|constructor].
    apply Hslots in E. unfold dict_wf, dkeys in E.
    replace (_ <$> slot) with (pair b <$> slot.*1) by (by rewrite <-list_fmap_compose).
    apply NoDup_fmap_2; [|done]. by intros ? ? [=].
  - intros x (e & -> & He)%list_elem_of_fmap (e' & Heq & He')%list_elem_of_fmap.
    apply list_elem_of_fmap in He as (ka & -> & _).
    apply list_elem_of_bind in He' as (b' & He' & Hb').
    apply list_elem_of_fmap in He' as (ka' & -> & _). simpl in Heq. naive_solver.
Qed.

Lemma emit_ready_nodup st now st' log :
  windower_wf st → emit_ready st now = (st', log) → NoDup (flow_cell <$> log).
Proof.
  intros (Hwf & Hslots & _) (_ & _ & Hl & _)%emit_ready_effect; [|done].
  replace (flow_cell <$> log) with ((λ e, (e.1, e.2.1)) <$> (flow_entry <$> log))
    by (by rewrite <-list_fmap_compose).
  rewrite Hl. apply bucket_entries_nodup; [by apply ready_nodup|done].
Qed.

(** Every pending bucket is newer than the threshold of time [t]. *)
Definition fresh (t : Z) (st : FlowWindower) : Prop :=
  ∀ b, b ∈ dkeys (w_buckets st) → threshold (w_window_s st) t < b.

Lemma windower_step_fresh st i st' log :
  windower_wf st → windower_step st i = (st', log) → fresh (input_time i) st'.
Proof.
  intros Hwf Hs b Hb. rewrite (windower_step_window _ _ _ _ Hwf Hs), <-(absorb_window st i).
  destruct (dget b (w_buckets st')) eqn:E; [|by apply dget_none in E].
  destruct (absorb_wf st i Hwf) as (Hwf' & _).
  rewrite (emit_ready_buckets _ _ _ _ b Hwf' Hs) in E. destruct (decide _); [done|lia].
Qed.

Lemma absorb_fresh st i t :
  0 < w_window_s st → t ≤ input_time i → fresh t st → fresh t (absorb st i).
Proof.
  intros Hw Ht Hfr. destruct i as [ev|now]; [|done]. intros b; simpl.
  unfold accumulate, dupd. rewrite dkeys_dset. destruct (decide _); [apply Hfr|].
  intros [Hb| ->%list_elem_of_singleton]%elem_of_app; [by apply Hfr|].
  pose proof (bucket_start_mono (w_window_s st) t (fe_ts ev) Hw Ht).
  unfold threshold, second. lia.
Qed.

Lemma windower_step_log_fresh st i st' log t wf :
  0 < w_window_s st → windower_wf st → fresh t st → t ≤ input_time i →
  windower_step st i = (st', log) → wf ∈ log → threshold (w_window_s st) t < wf_bucket_start wf.
Proof.
  intros Hw Hwf Hfr Ht Hs Hin. destruct (absorb_wf st i Hwf) as (Hwf' & _).
  destruct (emit_ready_log _ _ _ _ wf Hwf' Hs Hin) as [_ Hb].
  rewrite <-(absorb_window st i). by apply absorb_fresh.
Qed.

Lemma windower_step_log_old st i st' log wf :
  windower_wf st → windower_step st i = (st', log) → wf ∈ log →
  wf_bucket_start wf ≤ threshold (w_window_s st) (input_time i).
Proof.
  intros Hwf Hs Hin. destruct (absorb_wf st i Hwf) as (Hwf' & _).
  destruct (emit_ready_log _ _ _ _ wf Hwf' Hs Hin) as [Hb _]. by rewrite absorb_window in Hb.
Qed.

Lemma threshold_mono ws t1 t2 : 0 < ws → t1 ≤ t2 → threshold ws t1 ≤ threshold ws t2.
Proof. intros Hw Ht. unfold threshold. pose proof (bucket_start_mono ws t1 t2 Hw Ht). lia. Qed.

Lemma windower_run_log_fresh st ins st' log t wf :
  0 < w_window_s st → windower_wf st → fresh t st →
  Forall (λ i, t ≤ input_time i.2) ins →
  windower_run st ins = (st', log) → wf ∈ log → threshold (w_window_s st) t < wf_bucket_start wf.
Proof.
  revert st log. induction ins as [|[n i] ins IH]; intros st log Hw Hwf Hfr Hins; simpl.
  { intros [= <- <-] Hin. by apply not_elem_of_nil in Hin. }
  apply Forall_cons in Hins as [Hi Hins]. apply (taken_wf n) in Hwf.
  change (fresh t (taken n st)) in Hfr. change (w_window_s st) with (w_window_s (taken n st)) in *.
  destruct (windower_step (taken n st) i) as [st1 log1] eqn:E1.
  destruct (windower_run st1 ins) as [st2 log2] eqn:E2. intros [= <- <-].
  intros [Hin|Hin]%elem_of_app; [by eapply windower_step_log_fresh|].
  rewrite <-(windower_step_window _ _ _ _ Hwf E1).
  pose proof (windower_step_window _ _ _ _ Hwf E1) as Hws.
  eapply IH; [| | |done|exact E2|done].
  - by rewrite Hws.
  - by eapply windower_step_wf.
  - intros b Hb. eapply windower_step_fresh in E1; [|done]. apply E1 in Hb.
    pose proof (threshold_mono (w_window_s st1) t (input_time i) ltac:(by rewrite Hws) Hi). simpl in *. lia.
Qed.

Lemma windower_run_nodup st ins st' log :
  0 < w_window_s st → windower_wf st →
  StronglySorted (λ i j, input_time i.2 ≤ input_time j.2) ins →
  windower_run st ins = (st', log) → NoDup (flow_cell <$> log).
Proof.
  intros Hw Hwf Hs. revert st log Hw Hwf. induction Hs as [|[n i] ins Hs IH Hi]; intros st log Hw Hwf; simpl.
  { intros [= <- <-]. constructor. }
  apply (taken_wf n) in Hwf. change (w_window_s st) with (w_window_s (taken n st)) in *.
  destruct (windower_step (taken n st) i) as [st1 log1] eqn:E1.
  destruct (windower_run st1 ins) as [st2 log2] eqn:E2. intros [= <- <-].
  pose proof (windower_step_window _ _ _ _ Hwf E1) as Hws.
  pose proof (windower_step_wf _ _ _ _ Hwf E1) as Hwf1.
  rewrite fmap_app. apply NoDup_app. split; [|split].
  - eapply emit_ready_nodup; [|exact E1]. by apply absorb_wf.
  - intros x (wf & -> & Hin)%list_elem_of_fmap (wf' & Heq & Hin')%list_elem_of_fmap.
    pose proof (windower_step_log_old _ _ _ _ _ Hwf E1 Hin).
    assert (threshold (w_window_s st1) (input_time i) < wf_bucket_start wf').
    { eapply windower_run_log_fresh; [by rewrite Hws|done| |exact Hi|exact E2|done].
      exact (windower_step_fresh _ _ _ _ Hwf E1). }
    unfold flow_cell in Heq. rewrite Hws in *. injection Heq. lia.
  - eapply IH; [by rewrite Hws|done|exact E2].
Qed.

(** ** Theorems *)

(** [_bucket_start] maps an instant at or after the epoch to the start of the
    window that contains it: a multiple of the window length, not after the
    instant and less than one window before it. *)
Theorem bucket_start_window ws ts :
  0 < ws → 0 ≤ ts →
  (ws * second | bucket_start ws ts) ∧
  bucket_start ws ts ≤ ts < bucket_start ws ts + ws * second.
Proof.
  intros Hw Ht. rewrite bucket_start_aligned. unfold second.
  rewrite Z.quot_div_nonneg by lia.
  pose proof (Z.div_mod ts 1000000). pose proof (Z.mod_pos_bound ts 1000000).
  pose proof (Z.div_mod (ts / 1000000) ws). pose proof (Z.mod_pos_bound (ts / 1000000) ws).
  split; [|nia]. exists (ts / 1000000 / ws). lia.
Qed.

Lemma bucket_start_window_witness :
  (5 * second | bucket_start 5 1776852007250000) ∧
  bucket_start 5 1776852007250000 ≤ 1776852007250000 <
    bucket_start 5 1776852007250000 + 5 * second.
Proof. apply (bucket_start_window 5 1776852007250000); lia. Defined.

(** C2. Nothing is lost or counted twice by the windowing: for every window and
    key, and whatever the labeller takes and however full the out queue is,
    the bytes (packets, number) of the events seen so far are the bytes
    (packets, flow count) of the flows emitted for that window and key plus
    what is still pending there. *)
Theorem windower_conservation c b k ws maxsize ins :
  let '(st, log) := windower_run (new_windower ws (Queue maxsize [])) ins in
  sum_by (ev_count c) (filter (λ ev, event_cell ws ev = (b, k)) (events_of ins)) =
  pending c b k st + sum_by (wf_count c) (filter (λ wf, flow_cell wf = (b, k)) log).
Proof. destruct (windower_run _ ins) as [st log] eqn:E. by apply (windower_conservation_run c b k) in E. Qed.

(** C34. [_emit_ready] emits exactly the buckets that are at least one full window
    behind [now], oldest first and each key once in insertion order, and
    leaves the other buckets as they were; so nothing older than two windows
    stays pending. *)
Theorem emit_ready_exact st now st' log :
  windower_wf st → emit_ready st now = (st', log) →
  flow_entry <$> log =
    bucket_entries (w_buckets st) (py_sorted id (ready_buckets st now)) ∧
  Sorted (λ b1 b2, b1 ≤ b2) (py_sorted id (ready_buckets st now)) ∧
  (∀ b, dget b (w_buckets st') =
    if decide (b ≤ threshold (w_window_s st) now) then None else dget b (w_buckets st)).
Proof.
  intros (Hwf & _) Hem. split; [by eapply emit_ready_effect|]. split.
  - apply StronglySorted_Sorted.
    eapply StronglySorted_weaken; [|apply py_sorted_strongly_sorted].
    intros b1 b2. apply py_leb_Z.
  - intros b. by eapply emit_ready_buckets.
Qed.

(** When time does not run backwards (the inputs of the loop are in time
    order), every window and key is emitted at most once. *)
Theorem windower_in_order_unique ws maxsize ins :
  0 < ws → StronglySorted (λ i j, input_time i.2 ≤ input_time j.2) ins →
  NoDup (flow_cell <$> (windower_run (new_windower ws (Queue maxsize [])) ins).2).
Proof.
  intros Hw Hs. destruct (windower_run _ ins) as [st log] eqn:E.
  eapply windower_run_nodup; [|apply new_windower_wf|exact Hs|exact E]; [done|].
  unfold queue_wf; simpl. lia.
Qed.

(** A drop at the flush of a single key is never reported: when the out queue
    is full and one key is flushed, the oldest queued flow is discarded, but
    the flow put in its place says [lossy = false] and the drop counter is
    zero again afterwards. *)
Theorem single_flush_drop_unreported st now b k a wf0 rest :
  queue_wf (w_out st) → q_full (w_out st) = true → q_items (w_out st) = wf0 :: rest →
  w_buckets st = [(b, [(k, a)])] → w_dropped st = 0 → b ≤ threshold (w_window_s st) now →
  ∃ wf st', emit_ready st now = (st', [wf]) ∧
    q_items (w_out st') = rest ++ [wf] ∧
    wf_lossy wf = false ∧ wf_dropped_count wf = 0 ∧ w_dropped st' = 0.
Proof.
  intros Hq Hf Hi Hb Hd Ht.
  exists (windowed_flow (w_window_s st) b 0 k a).
  assert (Hr : ready_buckets st now = [b]).
  { unfold ready_buckets. fold (threshold (w_window_s st) now). rewrite Hb. simpl.
    rewrite filter_cons_True; done. }
  unfold emit_ready. rewrite Hr; simpl. rewrite Hb; simpl.
  destruct (decide (b = b)); [|done]; simpl. rewrite put_drop_oldest_full by done.
  rewrite Hd, Hi. simpl. by eexists.
Qed.

(** *** Witnesses *)

Definition sample_event (ts : Z) (src : string) (bytes : Z) : FlowEvent :=
  mkFlowEvent ts src 40000 "52.97.1.1" 443 6 bytes 10 "allow" None (Some "ms-teams") "palo_alto" None.

Definition sample_inputs : list (nat * w_input) :=
  [(0%nat, WEvent (sample_event 1000000 "10.0.0.1" 100));
   (0%nat, WEvent (sample_event 2000000 "10.0.0.1" 50));
   (0%nat, WEvent (sample_event 11000000 "10.0.0.2" 7));
   (1%nat, WTimeout 30000000)].

Example sample_run :
  (λ wf, (wf_bucket_start wf, wf_src_ip wf, wf_bytes wf, wf_flow_count wf)) <$>
    (windower_run (new_windower 5 (Queue 10 [])) sample_inputs).2 =
  [(0, "10.0.0.1", 150, 2); (10000000, "10.0.0.2", 7, 1)].
Proof. vm_compute. reflexivity. Qed.

Definition sample_state : FlowWindower :=
  (windower_run (new_windower 5 (Queue 1 [])) (take 2 sample_inputs)).1.

Lemma emit_ready_exact_witness :
  flow_entry <$> (emit_ready sample_state 30000000).2 =
    bucket_entries (w_buckets sample_state) (py_sorted id (ready_buckets sample_state 30000000)).
Proof.
  eapply (emit_ready_exact sample_state 30000000 (emit_ready sample_state 30000000).1).
  - split; [|split].
    + vm_compute. apply NoDup_singleton.
    + intros b slot. vm_compute. destruct (Z.eq_dec b 0) as [->|]; [|by destruct b].
      intros [= <-]. apply NoDup_singleton.
    + vm_compute. right. discriminate.
  - by destruct (emit_ready _ _).
Defined.

Lemma windower_in_order_unique_witness :
  NoDup (flow_cell <$> (windower_run (new_windower 5 (Queue 10 [])) sample_inputs).2).
Proof.
  apply (windower_in_order_unique 5 10 sample_inputs); [lia|].
  repeat constructor; simpl; lia.
Defined.

(** Without time order the same window and key can be emitted twice: a late
    event reopens a window that was already flushed. *)
Definition late_inputs : list (nat * w_input) :=
  [(0%nat, WEvent (sample_event 1000000 "10.0.0.1" 100));
   (0%nat, WEvent (sample_event 11000000 "10.0.0.1" 7));
   (0%nat, WEvent (sample_event 2000000 "10.0.0.1" 50));
   (0%nat, WTimeout 30000000)].

Example late_event_emits_twice :
  (λ wf, (wf_bucket_start wf, wf_src_ip wf, wf_bytes wf)) <$>
    (windower_run (new_windower 5 (Queue 10 [])) late_inputs).2 =
  [(0, "10.0.0.1", 100); (0, "10.0.0.1", 50); (10000000, "10.0.0.1", 7)].
Proof. vm_compute. reflexivity. Qed.

Definition full_state : FlowWindower :=
  let ev := sample_event 1000000 "10.0.0.9" 1 in
  mkFlowWindower 5 (Queue 1 [windowed_flow 5 0 0 (event_key ev) (acc_event ev Acc0)])
    [(5000000, [(event_key ev, acc_event ev Acc0)])] 0.

Lemma single_flush_drop_unreported_witness :
  ∃ wf st', emit_ready full_state 30000000 = (st', [wf]) ∧
    q_items (w_out st') = [] ++ [wf] ∧
    wf_lossy wf = false ∧ wf_dropped_count wf = 0 ∧ w_dropped st' = 0.
Proof.
  eapply (single_flush_drop_unreported full_state 30000000); try reflexivity.
  - right. reflexivity.
  - vm_compute. discriminate.
Defined.
