(* ===== verification/PipelineWindow.v ===== *)
(** * The windower as a stage of the pipeline

    What the composition of the correlator's tasks needs to know about a turn of
    the windower besides the theorems of [Windower]: what its out queue holds
    afterwards, how many entries stay pending, and, when time does not run
    backwards, that a window that was emitted has nothing pending any more. *)

From S2P Require Import Prelude PySort PyDict PyQueue EventTypes Windower.

(** The number of (window, key) entries that wait for their window to close. *)
Definition entries (st : FlowWindower) : Z :=
  sum_by (λ bslot, Z.of_nat (length bslot.2)) (w_buckets st).

(** ** The out queue *)

Lemma emit_one_queue b st log slot st' log' :
  foldl (emit_one b) (st, log) slot = (st', log') → queue_wf (w_out st) →
  ∃ new, log' = log ++ new ∧ length new = length slot ∧ queue_wf (w_out st') ∧
    q_maxsize (w_out st') = q_maxsize (w_out st) ∧
    arrived (q_maxsize (w_out st)) (q_items (w_out st')) (q_items (w_out st) ++ new).
Proof.
  revert st log. induction slot as [|ka slot IH]; intros st log; simpl.
  { intros [= <- <-] ?. exists []. rewrite !app_nil_r. by split_and!; auto with ztna. }
  intros Hf Hwf. apply IH in Hf as (new & -> & Hlen & Hwf' & Hm & Ha); simpl in *; [|auto with ztna].
  rewrite put_drop_oldest_maxsize in *.
  set (wf := windowed_flow _ _ _ _ _) in *. exists (wf :: new).
  split; [by rewrite <-app_assoc|]. split; [simpl; lia|]. split; [done|]. split; [done|].
  eapply arrived_trans; [exact Ha|]. rewrite (app_assoc _ [wf] new : _ ++ wf :: new = _).
  apply arrived_app; [|apply arrived_refl]. by apply put_drop_oldest_arrived.
Qed.

Lemma emit_bucket_queue st log ready st' log' :
  foldl emit_bucket (st, log) ready = (st', log') → queue_wf (w_out st) →
  ∃ new, log' = log ++ new ∧ entries st' + Z.of_nat (length new) = entries st ∧
    queue_wf (w_out st') ∧ q_maxsize (w_out st') = q_maxsize (w_out st) ∧
    arrived (q_maxsize (w_out st)) (q_items (w_out st')) (q_items (w_out st) ++ new).
Proof.
  revert st log. induction ready as [|b ready IH]; intros st log; simpl.
  { intros [= <- <-] ?. exists []. rewrite !app_nil_r. split_and!; auto with ztna. simpl. lia. }
  destruct (foldl (emit_one b) _ _) as [st1 log1] eqn:E. intros Hf Hwf.
  pose proof (emit_one_fold _ _ _ _ _ _ E) as (_ & Hb1 & _ & _).
  apply emit_one_queue in E as (new1 & -> & Hlen1 & Hwf1 & Hm1 & Ha1); [|done]. simpl in *.
  apply IH in Hf as (new2 & -> & He & Hwf2 & Hm & Ha); [|auto]. rewrite Hm1 in *.
  exists (new1 ++ new2). split; [by rewrite app_assoc|]. split; [|split; [done|split; [done|]]].
  - unfold entries in *. rewrite Hb1, sum_ddel in He. simpl in He. rewrite length_app, Hlen1.
    destruct (dget b (w_buckets st)); simpl in *; lia.
  - eapply arrived_trans; [exact Ha|]. rewrite app_assoc. by apply arrived_app; [|apply arrived_refl].
Qed.

Lemma absorb_entries st i :
  entries (absorb st i) ≤ entries st + match i with WEvent _ => 1 | WTimeout _ => 0 end.
Proof.
  destruct i as [ev|now]; [|simpl; lia]. unfold entries. simpl. unfold accumulate, dupd.
  rewrite sum_dset. simpl. set (slot := default [] _).
  assert (Hl : Z.of_nat (length (dset (event_key ev)
    (acc_event ev (default Acc0 (dget (event_key ev) slot))) slot)) ≤ Z.of_nat (length slot) + 1).
  { rewrite <-(length_fmap fst), <-(length_fmap fst slot).
    change (fst <$> ?d) with (dkeys d). rewrite dkeys_dset.
    destruct (decide _); rewrite ?length_app; simpl; lia. }
  subst slot. destruct (dget _ (w_buckets st)); simpl in *; lia.
Qed.

(** One turn: the flows of the queue are, in order, flows that were there or that
    were emitted now (all of them, when the queue has no bound); an event adds
    at most one entry, and every emitted flow takes one away. *)
Lemma windower_step_queue st i st' log :
  windower_step st i = (st', log) → queue_wf (w_out st) →
  queue_wf (w_out st') ∧ q_maxsize (w_out st') = q_maxsize (w_out st) ∧
  arrived (q_maxsize (w_out st)) (q_items (w_out st')) (q_items (w_out st) ++ log) ∧
  entries st' + Z.of_nat (length log) ≤
    entries st + match i with WEvent _ => 1 | WTimeout _ => 0 end.
Proof.
  unfold windower_step, emit_ready. intros Hs Hwf. pose proof (absorb_entries st i) as He.
  assert (Ho : w_out (absorb st i) = w_out st) by (by destruct i). rewrite <-Ho in *.
  destruct (foldl emit_bucket _ _) as [st1 log1] eqn:E.
  apply emit_bucket_queue in E as (new & -> & Hn & Hwf' & Hm & Ha); [|done]. simpl in *.
  destruct (ready_buckets _ _); injection Hs as <- <-; unfold entries in *; simpl;
    (split; [done|]; split; [done|]; split; [done|]; lia).
Qed.

(** ** Runs *)

Lemma windower_run_snoc st ins n i st1 log1 st2 log2 :
  windower_run st ins = (st1, log1) → windower_step (taken n st1) i = (st2, log2) →
  windower_run st (ins ++ [(n, i)]) = (st2, log1 ++ log2).
Proof.
  revert st log1. induction ins as [|[m j] ins IH]; intros st log1; cbn [windower_run app].
  { intros [= <- <-] ->. by rewrite app_nil_r. }
  destruct (windower_step (taken m st) j) as [sta la]. destruct (windower_run sta ins) as [stb lb] eqn:E.
  intros [= <- <-] Hs. rewrite (IH _ _ E Hs). by rewrite app_assoc.
Qed.

Lemma taken_queue n st : queue_wf (w_out st) → queue_wf (w_out (taken n st)).
Proof. unfold queue_wf. simpl. rewrite length_drop. lia. Qed.

Lemma taken_0 st : taken 0 st = st.
Proof. by destruct st as [? [] ? ?]. Qed.

Lemma taken_taken n m st : taken n (taken m st) = taken (m + n) st.
Proof. unfold taken. simpl. by rewrite drop_drop. Qed.

Lemma windower_run_split st ins n i :
  ∃ st1 log1 st2 log2, windower_run st ins = (st1, log1) ∧
    windower_step (taken n st1) i = (st2, log2) ∧
    windower_run st (ins ++ [(n, i)]) = (st2, log1 ++ log2).
Proof.
  destruct (windower_run st ins) as [st1 log1] eqn:E1.
  destruct (windower_step (taken n st1) i) as [st2 log2] eqn:E2.
  exists st1, log1, st2, log2. split_and!; [done|done|]. by eapply windower_run_snoc.
Qed.

Lemma windower_run_window st ins st' log :
  windower_wf st → windower_run st ins = (st', log) → w_window_s st' = w_window_s st.
Proof.
  revert st log. induction ins as [|[n i] ins IH]; intros st log Hwf; cbn [windower_run]; [by intros [= <- <-]|].
  apply (taken_wf n) in Hwf. destruct (windower_step _ _) as [st1 l1] eqn:E1.
  destruct (windower_run st1 ins) as [st2 l2] eqn:E2. intros [= <- <-].
  rewrite (IH _ _ ltac:(by eapply windower_step_wf) E2).
  by rewrite (windower_step_window _ _ _ _ Hwf E1).
Qed.

Definition in_time_order (ins : list w_input) : Prop :=
  StronglySorted (λ i j, input_time i ≤ input_time j) ins.

(** In time order, a window that was emitted is behind every pending one. *)
Lemma windower_run_behind st ins st' log t :
  0 < w_window_s st → windower_wf st → in_time_order ins.*2 →
  windower_run st ins = (st', log) → last ins = Some t →
  fresh (input_time t.2) st' ∧
  Forall (λ wf, wf_bucket_start wf ≤ threshold (w_window_s st) (input_time t.2)) log.
Proof.
  intros Hw Hwf. revert st' log t. induction ins as [|[n i] ins IH] using rev_ind; [done|].
  intros st' log t Hs Hr Hl. rewrite last_snoc in Hl. injection Hl as <-. simpl.
  destruct (windower_run_split st ins n i) as (st1 & log1 & st2 & log2 & E1 & E2 & E).
  rewrite Hr in E. injection E as -> ->. rewrite fmap_app in Hs.
  pose proof (taken_wf n _ (windower_run_wf _ _ _ _ Hwf E1)) as Hwf1.
  pose proof (windower_run_window _ _ _ _ Hwf E1) as Hws. split; [by eapply windower_step_fresh|].
  apply Forall_app. split.
  - destruct (last ins) as [t0|] eqn:Hl0.
    + destruct (IH st1 log1 t0) as [_ Hold]; [by eapply StronglySorted_app_1_l|done|done|].
      eapply Forall_impl; [exact Hold|]. simpl. intros wf Hb. etrans; [exact Hb|]. apply threshold_mono; [done|].
      apply (StronglySorted_app_1_elem_of _ _ _ t0.2 i Hs); [|by left].
      apply list_elem_of_fmap. exists t0. split; [done|]. by apply last_Some_elem_of.
    + apply last_None in Hl0 as ->. simpl in E1. injection E1 as <- <-. constructor.
  - apply Forall_forall. intros wf Hin. rewrite <-Hws. change (w_window_s st1) with (w_window_s (taken n st1)).
    by eapply windower_step_log_old.
Qed.

(** So it has nothing pending. *)
Lemma windower_run_closed c st ins st' log wf :
  0 < w_window_s st → windower_wf st → in_time_order ins.*2 →
  windower_run st ins = (st', log) → wf ∈ log →
  pending c (wf_bucket_start wf) (wf_key wf) st' = 0.
Proof.
  intros Hw Hwf Hs Hr Hin. destruct (last ins) as [t|] eqn:Hl.
  - destruct (windower_run_behind _ _ _ _ _ Hw Hwf Hs Hr Hl) as [Hf Hb].
    rewrite Forall_forall in Hb. specialize (Hb _ Hin). unfold pending.
    destruct (dget (wf_bucket_start wf) (w_buckets st')) eqn:E; [|done].
    apply dget_some_key, Hf in E. rewrite (windower_run_window _ _ _ _ Hwf Hr) in E. lia.
  - apply last_None in Hl as ->. simpl in Hr. injection Hr as <- <-. by apply not_elem_of_nil in Hin.
Qed.

(** In time order, the cells of the emitted flows are distinct. *)
Lemma windower_run_cells st ins st' log :
  0 < w_window_s st → windower_wf st → in_time_order ins.*2 →
  windower_run st ins = (st', log) → NoDup (flow_cell <$> log).
Proof.
  intros Hw Hwf Hs Hr. eapply windower_run_nodup; [exact Hw|exact Hwf| |exact Hr].
  unfold in_time_order in Hs. clear -Hs. induction ins as [|x ins IH]; [constructor|].
  csimpl in Hs. inv Hs. constructor; [by apply IH|]. by apply (Forall_fmap snd) in H2.
Qed.

(** In time order, an emitted flow carries the whole of its window and key: every
    counter is that of the events of the cell. *)
Lemma windower_run_whole c st ins st' log wf :
  0 < w_window_s st → windower_wf st → w_buckets st = [] → in_time_order ins.*2 →
  windower_run st ins = (st', log) → wf ∈ log →
  wf_count c wf =
    sum_by (ev_count c) (filter (λ ev, event_cell (w_window_s st) ev = flow_cell wf) (events_of ins)).
Proof.
  intros Hw Hwf Hb Hs Hr Hin.
  pose proof (windower_run_cells _ _ _ _ Hw Hwf Hs Hr) as Hnd.
  pose proof (windower_run_wf _ _ _ _ Hwf Hr) as Hwf'.
  pose proof (windower_run_weight c (flow_cell wf) _ _ _ _ Hwf Hr) as Hc.
  pose proof (total_weight_pending c (wf_bucket_start wf) (wf_key wf) st' Hwf') as Hp.
  change (wf_bucket_start wf, wf_key wf) with (flow_cell wf) in Hp.
  rewrite Hp, (windower_run_closed c _ _ _ _ _ Hw Hwf Hs Hr Hin), Hb, entry_weight_flow in Hc.
  rewrite <-sum_by_ite. etrans; [|symmetry; exact Hc]. simpl. clear Hc Hp.
  apply list_elem_of_split in Hin as (l1 & l2 & ->). rewrite fmap_app in Hnd. csimpl in Hnd.
  apply NoDup_app in Hnd as (_ & Hd1 & Hnd). apply NoDup_cons in Hnd as [Hd2 _].
  rewrite filter_app, filter_cons_True, sum_by_app by done. simpl.
  rewrite (filter_none _ l1), (filter_none _ l2); simpl; [lia| |].
  - intros x Hx Heq. apply Hd2. rewrite <-Heq. by apply list_elem_of_fmap_2.
  - intros x Hx Heq. eapply Hd1; [by apply list_elem_of_fmap_2|]. rewrite Heq. by left.
Qed.

(** *** Order of the windows *)

Lemma bucket_entries_sorted bs ready :
  StronglySorted Z.le ready → StronglySorted Z.le (bucket_entries bs ready).*1.
Proof.
  unfold bucket_entries. induction 1 as [|b ready Hs IH Hb]; [constructor|]. csimpl. rewrite fmap_app.
  apply StronglySorted_app_2; [|clear; induction (default [] (dget b bs)) as [|ka slot IHs]|done].
  - intros x y (e & -> & (ka & -> & _)%list_elem_of_fmap)%list_elem_of_fmap (e2 & -> & He)%list_elem_of_fmap.
    apply list_elem_of_bind in He as (b2 & (ka2 & -> & _)%list_elem_of_fmap & Hb2). simpl.
    rewrite Forall_forall in Hb. by apply Hb.
  - constructor.
  - csimpl. constructor; [done|]. apply Forall_forall.
    intros x (e & -> & (ka' & -> & _)%list_elem_of_fmap)%list_elem_of_fmap. simpl. lia.
Qed.

Lemma windower_step_sorted st i st' log :
  windower_wf st → windower_step st i = (st', log) → StronglySorted Z.le (wf_bucket_start <$> log).
Proof.
  intros Hwf Hs. apply emit_ready_effect in Hs as (_ & _ & Hl & _); [|by apply absorb_wf].
  replace (wf_bucket_start <$> log) with (flow_entry <$> log).*1 by (by rewrite <-list_fmap_compose).
  rewrite Hl. apply bucket_entries_sorted. eapply StronglySorted_weaken; [|apply py_sorted_strongly_sorted].
  intros b1 b2. apply py_leb_Z.
Qed.

(** In time order, the windows are emitted in order. *)
Lemma windower_run_sorted st ins st' log :
  0 < w_window_s st → windower_wf st → in_time_order ins.*2 →
  windower_run st ins = (st', log) → StronglySorted Z.le (wf_bucket_start <$> log).
Proof.
  intros Hw Hwf. revert st' log. induction ins as [|[n i] ins IH] using rev_ind.
  { intros st' log _ [= <- <-]. constructor. }
  intros st' log Hs Hr. destruct (windower_run_split st ins n i) as (st1 & log1 & st2 & log2 & E1 & E2 & E).
  rewrite Hr in E. injection E as -> ->. rewrite fmap_app in Hs. rewrite fmap_app.
  assert (Hs1 : in_time_order ins.*2) by (by eapply StronglySorted_app_1_l).
  pose proof (taken_wf n _ (windower_run_wf _ _ _ _ Hwf E1)) as Hwf1.
  pose proof (windower_run_window _ _ _ _ Hwf E1) as Hws.
  apply StronglySorted_app_2; [|by eapply IH|by eapply windower_step_sorted].
  intros x y (wf1 & -> & Hin1)%list_elem_of_fmap (wf2 & -> & Hin2)%list_elem_of_fmap.
  destruct (last ins) as [t0|] eqn:Hl0.
  - destruct (windower_run_behind _ _ _ _ _ Hw Hwf Hs1 E1 Hl0) as [Hf Hold].
    rewrite Forall_forall in Hold. specialize (Hold _ Hin1). rewrite <-Hws in Hold, Hw.
    assert (threshold (w_window_s st1) (input_time t0.2) < wf_bucket_start wf2); [|lia].
    change (w_window_s st1) with (w_window_s (taken n st1)) in *.
    eapply windower_step_log_fresh; [exact Hw|exact Hwf1|exact Hf| |exact E2|exact Hin2].
    apply (StronglySorted_app_1_elem_of _ _ _ t0.2 i Hs); [|by left].
    apply list_elem_of_fmap. exists t0. split; [done|]. by apply last_Some_elem_of.
  - apply last_None in Hl0 as ->. simpl in E1. injection E1 as <- <-. by apply not_elem_of_nil in Hin1.
Qed.
