(* ===== verification/IdentityIndex.v ===== *)
(** * The identity index ([correlator/pipeline/identity_index.py])

    Per source address an interval tree of user bindings; [resolve] picks, among
    the bindings whose interval contains an instant, the one of highest
    confidence and, among those, the most recent start.

    The interval tree is the third-party package [intervaltree].  It enters as
    the class [IntervalTree] with its documented behaviour as laws: a tree is a
    set of intervals, closed at the beginning and open at the end, that holds no
    null interval; [tree[p]] is the set of intervals that contain [p].  The order
    in which a tree enumerates its intervals is not specified.  The instance at
    the end shows that the laws can be met. *)

From S2P Require Import Prelude PySort EventTypes.

(** ** The interval tree interface *)

Record interval (D : Type) : Type := mkInterval {
  iv_begin : Z;
  iv_end : Z;
  iv_data : D
}.
Arguments mkInterval {D}.
Arguments iv_begin {D}.
Arguments iv_end {D}.
Arguments iv_data {D}.

#[global] Instance interval_eq_dec {D} `{EqDecision D} : EqDecision (interval D).
Proof. solve_decision. Defined.

(** [p] lies in the half-open interval. *)
Definition covers {D} (iv : interval D) (p : Z) : Prop := iv_begin iv ≤ p < iv_end iv.

#[global] Instance covers_dec {D} (iv : interval D) p : Decision (covers iv p).
Proof. unfold covers. apply _. Defined.

Class IntervalTree (D T : Type) := {
  it_empty : T;
  it_addi : Z → Z → D → T → result T;
  it_remove : interval D → T → T;
  it_elements : T → list (interval D);
  it_at : Z → T → list (interval D)
}.

Class IntervalTreeLaws (D T : Type) `{IntervalTree D T} : Prop := {
  it_elements_empty : it_elements it_empty = [];
  it_elements_nodup : ∀ t, NoDup (it_elements t);
  it_addi_null : ∀ b e d t, e ≤ b → it_addi b e d t = Raise ValueError;
  it_addi_ok : ∀ b e d t, b < e →
    ∃ t', it_addi b e d t = Ok t' ∧
      ∀ iv, iv ∈ it_elements t' ↔ iv = mkInterval b e d ∨ iv ∈ it_elements t;
  it_remove_spec : ∀ iv t, iv ∈ it_elements t →
    ∀ iv', iv' ∈ it_elements (it_remove iv t) ↔ iv' ≠ iv ∧ iv' ∈ it_elements t;
  it_at_spec : ∀ p t iv, iv ∈ it_at p t ↔ iv ∈ it_elements t ∧ covers iv p
}.

(** ** The model *)

Record Binding : Type := mkBinding {
  bd_user_upn : string;
  bd_confidence : Z;
  bd_source : string;
  bd_t_start : Z
}.

#[global] Instance Binding_eq_dec : EqDecision Binding.
Proof. solve_decision. Defined.

(** The dictionary that [resolve] returns. *)
Record resolution : Type := mkResolution {
  rs_user_upn : string;
  rs_confidence : Z;
  rs_source : string;
  rs_t_start : Z;
  rs_ttl_remaining : Z
}.

(** [datetime.min] and [datetime.max]. *)
Definition datetime_min : Z := -62135596800 * second.
Definition datetime_max : Z := 253402300800 * second - 1.

(** [IdentityIndex._trees] *)
Abbreviation IdentityIndex T := (gmap string T).

Section identity_index.
Context {T : Type} `{IntervalTree Binding T}.

Definition new_index : IdentityIndex T := ∅.

(** [if not tree]: an interval tree without intervals is false. *)
Definition tree_empty (t : T) : bool :=
  match it_elements t with [] => true | _ => false end.

(** [for iv in list(tree): if ...: tree.remove(iv)] *)
Definition remove_where (P : interval Binding → bool) (t : T) : T :=
  foldl (λ t iv, if P iv then it_remove iv t else t) t (it_elements t).

Definition invalidate (ip : string) (user : option string) (idx : IdentityIndex T) : IdentityIndex T :=
  match idx !! ip with
  | None => idx
  | Some tree =>
      if tree_empty tree then idx
      else match user with
           | None => <[ip := it_empty]> idx
           | Some u =>
               <[ip := remove_where (λ iv, bool_decide (bd_user_upn (iv_data iv) = u)) tree]> idx
           end
  end.

(** The test of [insert] for a stop event. *)
Definition is_stop (ev : IdentityEvent) : bool :=
  bool_decide (ie_event_type ev = Some "nac-auth-stop") ||
  (default 0 (ie_ttl_seconds ev) =? 0).

(** [t + timedelta(seconds=...)] *)
Definition add_seconds (t secs : Z) : result Z :=
  let e := t + secs * second in
  if (datetime_min <=? e) && (e <=? datetime_max) then Ok e else Raise OverflowError.

(** The arguments of [tree.addi], in evaluation order. *)
Definition event_binding (ev : IdentityEvent) (t : Z) : result Binding :=
  user ← need KeyError (ie_user_upn ev);
  conf ← need KeyError (ie_confidence ev);
  src ← need KeyError (ie_source ev);
  mret (mkBinding user conf src t).

(** [insert]: the index afterwards, also when an exception is raised: the
    [setdefault] happens before the arguments of [addi] are evaluated. *)
Definition insert_event (ev : IdentityEvent) (idx : IdentityIndex T) :
    IdentityIndex T * result () :=
  match ie_src_ip ev, ie_ts ev with
  | None, _ => (idx, Raise KeyError)
  | Some _, None => (idx, Raise KeyError)
  | Some ip, Some t =>
      if is_stop ev then (invalidate ip (ie_user_upn ev) idx, Ok ())
      else match add_seconds t (default 0 (ie_ttl_seconds ev)) with
           | Raise e => (idx, Raise e)
           | Ok end_ =>
               let tree := default it_empty (idx !! ip) in
               let idx' := <[ip := tree]> idx in
               match (b ← event_binding ev t; it_addi t end_ b tree) with
               | Raise e => (idx', Raise e)
               | Ok tree' => (<[ip := tree']> idx, Ok ())
               end
           end
  end.

(** The sort key of [resolve]. *)
Definition hit_key (iv : interval Binding) : Z * Z :=
  (- bd_confidence (iv_data iv), - bd_t_start (iv_data iv)).

(** [int(x)] of a difference of timestamps truncates towards zero. *)
Definition resolution_of (at_ : Z) (iv : interval Binding) : resolution :=
  let b := iv_data iv in
  mkResolution (bd_user_upn b) (bd_confidence b) (bd_source b) (bd_t_start b)
    (Z.quot (iv_end iv - at_) second).

Definition resolve (ip : string) (at_ : Z) (idx : IdentityIndex T) :
    IdentityIndex T * option resolution :=
  match idx !! ip with
  | None => (idx, None)
  | Some tree =>
      if tree_empty tree then (idx, None)
      else
        let tree' := remove_where (λ iv, iv_end iv <=? at_) tree in
        if tree_empty tree' then (delete ip idx, None)
        else (<[ip := tree']> idx, resolution_of at_ <$> hd_opt (py_sorted hit_key (it_at at_ tree')))
  end.

Definition index_size (idx : IdentityIndex T) : Z :=
  sum_by (λ kt, Z.of_nat (length (it_elements kt.2))) (map_to_list idx).

(** ** Specification vocabulary *)

(** The bindings that are in the index for an address, and those that cover an
    instant. *)
Definition bound (ip : string) (idx : IdentityIndex T) (iv : interval Binding) : Prop :=
  ∃ t, idx !! ip = Some t ∧ iv ∈ it_elements t.

Definition live (ip : string) (at_ : Z) (idx : IdentityIndex T) (iv : interval Binding) : Prop :=
  bound ip idx iv ∧ covers iv at_.

(** [iv] is at least as good an answer as [iv']. *)
Definition no_worse (iv iv' : interval Binding) : Prop :=
  bd_confidence (iv_data iv') < bd_confidence (iv_data iv) ∨
  (bd_confidence (iv_data iv') = bd_confidence (iv_data iv) ∧
   bd_t_start (iv_data iv') ≤ bd_t_start (iv_data iv)).

(** A use of the index by the correlator: an event of the identity stream, or a
    lookup by the enricher. *)
Inductive index_op : Type :=
  | OpInsert (ev : IdentityEvent)
  | OpResolve (ip : string) (at_ : Z).

Definition index_step (idx : IdentityIndex T) (o : index_op) : IdentityIndex T :=
  match o with
  | OpInsert ev => (insert_event ev idx).1
  | OpResolve ip a => (resolve ip a idx).1
  end.

Definition index_run (ops : list index_op) : IdentityIndex T := foldl index_step new_index ops.

(** What one event means, as the class comment of the source states it. *)
Inductive event_meaning : Type :=
  | MBind (ip : string) (iv : interval Binding)
  | MStop (ip : string) (user : option string)
  | MInvalid.

Definition meaning (ev : IdentityEvent) : event_meaning :=
  match ie_src_ip ev, ie_ts ev with
  | Some ip, Some t =>
      if is_stop ev then MStop ip (ie_user_upn ev)
      else match add_seconds t (default 0 (ie_ttl_seconds ev)), event_binding ev t with
           | Ok e, Ok b => if t <? e then MBind ip (mkInterval t e b) else MInvalid
           | _, _ => MInvalid
           end
  | _, _ => MInvalid
  end.

Definition stopped_by (user : option string) (iv : interval Binding) : bool :=
  match user with None => true | Some u => bool_decide (bd_user_upn (iv_data iv) = u) end.

(** The abstract index: the bindings made by the events so far and not stopped
    since; lookups change nothing. *)
Definition abs_step (A : string → interval Binding → Prop) (o : index_op) :
    string → interval Binding → Prop :=
  match o with
  | OpResolve _ _ => A
  | OpInsert ev =>
      match meaning ev with
      | MBind ip iv => λ ip' iv', (ip' = ip ∧ iv' = iv) ∨ A ip' iv'
      | MStop ip u => λ ip' iv', A ip' iv' ∧ ¬ (ip' = ip ∧ stopped_by u iv' = true)
      | MInvalid => A
      end
  end.

Definition abs_run (ops : list index_op) : string → interval Binding → Prop :=
  foldl abs_step (λ _ _, False) ops.
End identity_index.

(** ** Lemmas *)

Section identity_lemmas.
Context {T : Type} `{IntervalTreeLaws Binding T}.
Implicit Types (t : T) (idx : IdentityIndex T) (iv : interval Binding).

Lemma tree_empty_true t : tree_empty t = true ↔ ∀ iv, iv ∉ it_elements t.
Proof.
  unfold tree_empty. destruct (it_elements t) as [|iv l]; split; [|done|done|].
  - intros _ iv. apply not_elem_of_nil.
  - intros Hn. destruct (Hn iv). left.
Qed.

Lemma remove_where_elements P t iv :
  iv ∈ it_elements (remove_where P t) ↔ P iv = false ∧ iv ∈ it_elements t.
Proof.
  unfold remove_where.
  assert (Hgen : ∀ l t0, NoDup l → (∀ iv, iv ∈ l → iv ∈ it_elements t0) →
    (iv ∈ it_elements (foldl (λ t iv, if P iv then it_remove iv t else t) t0 l) ↔
     iv ∈ it_elements t0 ∧ ¬ (iv ∈ l ∧ P iv = true))).
  { induction l as [|x l IH]; intros t0 Hnd Hl; simpl.
    { rewrite elem_of_nil. tauto. }
    apply NoDup_cons in Hnd as [Hx Hnd]. destruct (P x) eqn:HPx.
    - pose proof (it_remove_spec x t0 (Hl x ltac:(left))) as Hrm.
      rewrite IH, Hrm, elem_of_cons; [|done|].
      + destruct (decide (iv = x)) as [->|]; naive_solver.
      + intros y Hy. rewrite Hrm. split; [by intros ->|]. apply Hl. by right.
    - rewrite IH, elem_of_cons; [|done|intros y Hy; apply Hl; by right].
      destruct (decide (iv = x)) as [->|]; naive_solver congruence. }
  rewrite Hgen; [|apply it_elements_nodup|done]. destruct (P iv); naive_solver.
Qed.

Lemma bound_insert ip' ip t idx iv :
  bound ip' (<[ip := t]> idx) iv ↔ if decide (ip' = ip) then iv ∈ it_elements t else bound ip' idx iv.
Proof.
  unfold bound. rewrite lookup_insert. destruct (decide (ip = ip')), (decide (ip' = ip)); naive_solver.
Qed.

Lemma bound_lookup ip t idx iv : idx !! ip = Some t → bound ip idx iv ↔ iv ∈ it_elements t.
Proof. unfold bound. naive_solver. Qed.

(** ** The effect of each operation on the bindings *)

Lemma invalidate_bound ip u idx ip' iv :
  bound ip' (invalidate ip u idx) iv ↔
  bound ip' idx iv ∧ ¬ (ip' = ip ∧ stopped_by u iv = true).
Proof.
  unfold invalidate. destruct (idx !! ip) as [tree|] eqn:E.
  - destruct (tree_empty tree) eqn:Ht.
    { rewrite tree_empty_true in Ht. unfold bound. naive_solver. }
    destruct u as [u|]; rewrite bound_insert; simpl.
    + destruct (decide (ip' = ip)) as [->|]; [|naive_solver].
      rewrite remove_where_elements, (bound_lookup ip tree) by done.
      destruct (bool_decide _); naive_solver.
    + destruct (decide (ip' = ip)) as [->|]; [|naive_solver].
      rewrite it_elements_empty, elem_of_nil. naive_solver.
  - unfold bound. naive_solver.
Qed.

Lemma default_tree_elements ip idx iv :
  iv ∈ it_elements (default it_empty (idx !! ip)) ↔ bound ip idx iv.
Proof.
  unfold bound. destruct (idx !! ip) as [t|]; simpl; [naive_solver|].
  rewrite it_elements_empty, elem_of_nil. naive_solver.
Qed.

Lemma insert_event_bound ev idx ip' iv :
  bound ip' (insert_event ev idx).1 iv ↔ abs_step (λ ip iv, bound ip idx iv) (OpInsert ev) ip' iv.
Proof.
  unfold insert_event, abs_step, meaning.
  destruct (ie_src_ip ev) as [ip|]; [|done]. destruct (ie_ts ev) as [t|]; [|done].
  destruct (is_stop ev); [apply invalidate_bound|].
  destruct (add_seconds t _) as [e|err]; [|done].
  assert (Hkeep : bound ip' (<[ip := default it_empty (idx !! ip)]> idx) iv ↔ bound ip' idx iv).
  { rewrite bound_insert. destruct (decide (ip' = ip)) as [->|]; [|done]. apply default_tree_elements. }
  destruct (event_binding ev t) as [b|err]; simpl; [|exact Hkeep].
  destruct (Z.ltb_spec t e) as [Hlt|Hge].
  - destruct (it_addi_ok t e b (default it_empty (idx !! ip)) Hlt) as (t' & Hadd & Hel).
    rewrite Hadd. simpl. rewrite bound_insert.
    destruct (decide (ip' = ip)) as [->|]; [|naive_solver].
    rewrite Hel, default_tree_elements. naive_solver.
  - rewrite it_addi_null by done. exact Hkeep.
Qed.

(** [resolve] only forgets bindings that are over at the time asked for. *)
Lemma resolve_bound ip a idx ip' iv :
  bound ip' (resolve ip a idx).1 iv ↔
  bound ip' idx iv ∧ ¬ (ip' = ip ∧ iv_end iv ≤ a).
Proof.
  unfold resolve. destruct (idx !! ip) as [tree|] eqn:E; [|unfold bound; naive_solver].
  destruct (tree_empty tree) eqn:Ht.
  { rewrite tree_empty_true in Ht. unfold bound. naive_solver. }
  destruct (tree_empty (remove_where _ tree)) eqn:Ht'; simpl.
  - rewrite tree_empty_true in Ht'. unfold bound. rewrite lookup_delete.
    destruct (decide (ip = ip')) as [<-|]; [|naive_solver].
    split; [by intros (? & ? & _)|]. intros [(t & ? & Hiv) Hno]. simplify_eq.
    destruct (Ht' iv). apply remove_where_elements. split; [|done]. apply Z.leb_gt, Z.nle_gt. naive_solver.
  - rewrite bound_insert. destruct (decide (ip' = ip)) as [->|]; [|naive_solver].
    rewrite remove_where_elements, (bound_lookup ip tree), Z.leb_gt, <-Z.nle_gt by done. naive_solver.
Qed.

Lemma hit_key_no_worse iv iv' : key_le hit_key iv iv' → no_worse iv iv'.
Proof.
  unfold key_le, hit_key, no_worse. rewrite py_leb_pair, !py_leb_Z. lia.
Qed.

Lemma resolve_answer ip a idx :
  match (resolve ip a idx).2 with
  | None => ∀ iv, ¬ live ip a idx iv
  | Some r => ∃ iv, live ip a idx iv ∧ r = resolution_of a iv ∧
                ∀ iv', live ip a idx iv' → no_worse iv iv'
  end.
Proof.
  unfold resolve. destruct (idx !! ip) as [tree|] eqn:E.
  2: { intros iv [(t & ? & _) _]. congruence. }
  assert (Hlive : ∀ iv, live ip a idx iv ↔ iv ∈ it_elements tree ∧ covers iv a).
  { intros iv. unfold live. by rewrite (bound_lookup ip tree). }
  destruct (tree_empty tree) eqn:Ht.
  { rewrite tree_empty_true in Ht. intros iv [Hiv _]%Hlive. by eapply Ht. }
  assert (Hat : ∀ iv, iv ∈ it_at a (remove_where (λ iv, iv_end iv <=? a) tree) ↔ live ip a idx iv).
  { intros iv. rewrite it_at_spec, remove_where_elements, Z.leb_gt, Hlive. unfold covers. intuition lia. }
  destruct (tree_empty (remove_where _ tree)) eqn:Ht'; simpl.
  { rewrite tree_empty_true in Ht'. intros iv [Hiv _]%Hat%it_at_spec. by eapply Ht'. }
  destruct (py_sorted hit_key _) as [|iv l] eqn:Hs; simpl.
  - apply py_sorted_nil_iff in Hs. intros iv Hiv%Hat. rewrite Hs in Hiv.
    by apply not_elem_of_nil in Hiv.
  - apply py_sorted_head in Hs as [Hiv Hmin]. exists iv. rewrite Hat in Hiv.
    split; [done|]. split; [done|]. intros iv' Hiv'. apply hit_key_no_worse, Hmin. by apply Hat.
Qed.
End identity_lemmas.

(** ** An instance of the interface *)

#[global] Instance list_interval_tree {D} `{EqDecision D} : IntervalTree D (list (interval D)) := {
  it_empty := [];
  it_addi b e d t := if e <=? b then Raise ValueError else Ok (mkInterval b e d :: t);
  it_remove iv t := filter (λ iv', iv' ≠ iv) t;
  it_elements t := remove_dups t;
  it_at p t := filter (λ iv, covers iv p) (remove_dups t)
}.

#[global] Instance list_interval_tree_laws {D} `{EqDecision D} : IntervalTreeLaws D (list (interval D)).
Proof.
  split; simpl.
  - done.
  - intros t. apply NoDup_remove_dups.
  - intros b e d t Hle. by rewrite (proj2 (Z.leb_le e b) Hle).
  - intros b e d t Hlt. rewrite (proj2 (Z.leb_gt e b) Hlt). eexists. split; [done|].
    intros iv. by rewrite !elem_of_remove_dups, elem_of_cons.
  - intros iv t _ iv'. by rewrite !elem_of_remove_dups, list_elem_of_filter.
  - intros p t iv. by rewrite list_elem_of_filter, (comm and).
Qed.

(** ** Theorems *)

Section identity_theorems.
Context {T : Type} `{IntervalTreeLaws Binding T}.
Implicit Types (idx : IdentityIndex T) (iv : interval Binding).

Lemma abs_step_local (A B : string → interval Binding → Prop) o ip iv :
  (A ip iv ↔ B ip iv) → abs_step A o ip iv ↔ abs_step B o ip iv.
Proof. destruct o as [ev|]; simpl; [|done]. destruct (meaning ev); naive_solver. Qed.

(** Lookups at or before [a] do not change what is seen at [a]. *)
Lemma index_run_bound ops ip a iv :
  (∀ a', OpResolve ip a' ∈ ops → a' ≤ a) → covers iv a →
  bound ip (index_run (T := T) ops) iv ↔ abs_run ops ip iv.
Proof.
  intros Hops Hcov. induction ops as [|o ops IH] using rev_ind.
  { unfold bound. simpl. split; [|done]. intros (t & Ht & _). unfold index_run, new_index in Ht. simpl in Ht. by rewrite lookup_empty in Ht. }
  unfold index_run, abs_run in *. rewrite !foldl_snoc.
  assert (Hops' : ∀ a', OpResolve ip a' ∈ ops → a' ≤ a).
  { intros a' Ha'. apply Hops, elem_of_app. by left. }
  rewrite <-(abs_step_local (λ ip iv, bound ip _ iv) _ o ip iv (IH Hops')).
  destruct o as [ev|ip' a']; [by apply insert_event_bound|]. simpl. rewrite resolve_bound.
  split; [tauto|]. intros Hb. split; [done|]. intros [<- Hend].
  assert (a' ≤ a) by (apply Hops, elem_of_app; right; left). unfold covers in Hcov. lia.
Qed.

(** A lookup in time order answers from the abstract bindings. *)
Lemma resolve_in_order ops ip a :
  (∀ a', OpResolve ip a' ∈ ops → a' ≤ a) →
  match (resolve ip a (index_run (T := T) ops)).2 with
  | None => ∀ iv, abs_run ops ip iv → ¬ covers iv a
  | Some r => ∃ iv, abs_run ops ip iv ∧ covers iv a ∧ r = resolution_of a iv ∧
                ∀ iv', abs_run ops ip iv' → covers iv' a → no_worse iv iv'
  end.
Proof.
  intros Hops. pose proof (resolve_answer ip a (index_run (T := T) ops)) as Hr.
  destruct (resolve ip a _).2 as [r|].
  - destruct Hr as (iv & [Hb Hc] & -> & Hbest). exists iv.
    split; [by eapply index_run_bound|]. split; [done|]. split; [done|].
    intros iv' Ha Hc'. apply Hbest. split; [|done]. by eapply index_run_bound.
  - intros iv Ha Hc. apply (Hr iv). split; [|done]. by eapply index_run_bound.
Qed.

(** C6. The index answers as its specification says.  After any interleaving of
    events and lookups, a lookup of an address at an instant not before the
    earlier lookups of that address returns, among the bindings made by the
    events and not stopped since whose interval contains the instant, one of
    highest confidence and latest start, with a non-negative remaining
    lifetime; and nothing exactly when there is no such binding. *)
Theorem identity_index_refines ops ip a :
  (∀ a', OpResolve ip a' ∈ ops → a' ≤ a) →
  match (resolve ip a (index_run (T := T) ops)).2 with
  | None => ∀ iv, abs_run ops ip iv → ¬ covers iv a
  | Some r => ∃ iv, abs_run ops ip iv ∧ covers iv a ∧ r = resolution_of a iv ∧
                0 ≤ rs_ttl_remaining r ∧
                ∀ iv', abs_run ops ip iv' → covers iv' a → no_worse iv iv'
  end.
Proof.
  intros Hops. pose proof (resolve_in_order ops ip a Hops) as Hr.
  destruct (resolve ip a _).2 as [r|]; [|done].
  destruct Hr as (iv & Hb & Hc & -> & Hbest). exists iv.
  split_and!; try done; simpl; unfold covers, second in *; apply Z.quot_pos; lia.
Qed.

Lemma stop_bound ev ip t u idx ip' iv :
  ie_src_ip ev = Some ip → ie_ts ev = Some t → ie_user_upn ev = Some u → is_stop ev = true →
  bound ip' (insert_event ev idx).1 iv ↔ bound ip' idx iv ∧ ¬ (ip' = ip ∧ bd_user_upn (iv_data iv) = u).
Proof.
  intros Hip Ht Hu Hs. unfold insert_event. rewrite Hip, Ht, Hs, Hu. simpl.
  rewrite invalidate_bound. simpl. rewrite bool_decide_eq_true. done.
Qed.

Lemma stop_unbinds_user ev ip t u idx a r :
  ie_src_ip ev = Some ip → ie_ts ev = Some t → ie_user_upn ev = Some u → is_stop ev = true →
  (resolve ip a (insert_event ev idx).1).2 = Some r → rs_user_upn r ≠ u.
Proof.
  intros Hip Ht Hu Hs Hr. pose proof (resolve_answer ip a (insert_event ev idx).1) as Ha.
  rewrite Hr in Ha. destruct Ha as (iv & [Hiv _] & -> & _). rewrite (stop_bound ev ip t u) in Hiv by done. simpl. tauto.
Qed.

(** A stop event for a user on an address (a [nac-auth-stop] event, or one with
    no lifetime) ends that user's bindings there: no lookup of the address
    returns the user any more, and the bindings of other users, and of all
    users elsewhere, stay. *)
Theorem stop_event_unbinds ev ip t u idx :
  ie_src_ip ev = Some ip → ie_ts ev = Some t → ie_user_upn ev = Some u → is_stop ev = true →
  (∀ a r, (resolve ip a (insert_event ev idx).1).2 = Some r → rs_user_upn r ≠ u) ∧
  (∀ ip' iv, ip' ≠ ip ∨ bd_user_upn (iv_data iv) ≠ u →
     (bound ip' (insert_event ev idx).1 iv ↔ bound ip' idx iv)).
Proof.
  intros Hip Ht Hu Hs. split.
  - intros a r. by apply (stop_unbinds_user ev ip t).
  - intros ip' iv Hor. rewrite (stop_bound ev ip t u) by done. tauto.
Qed.

(** An event that [insert] rejects (a missing field, an instant out of range or
    a negative lifetime raise an exception) leaves every binding as it was. *)
Theorem insert_error_keeps_bindings ev idx e ip iv :
  (insert_event ev idx).2 = Raise e →
  bound ip (insert_event ev idx).1 iv ↔ bound ip idx iv.
Proof.
  intros He. rewrite insert_event_bound. simpl. enough (Hm : meaning ev = MInvalid) by (by rewrite Hm).
  unfold insert_event, meaning in *.
  destruct (ie_src_ip ev) as [i|]; [|done]. destruct (ie_ts ev) as [t|]; [|done].
  destruct (is_stop ev); [done|]. destruct (add_seconds t _) as [end_|]; [|done].
  destruct (event_binding ev t) as [b|]; [|done]. simpl in *.
  destruct (Z.ltb_spec t end_) as [Hlt|]; [|done].
  destruct (it_addi_ok t end_ b (default it_empty (idx !! i)) Hlt) as (t' & Hadd & _).
  by rewrite Hadd in He.
Qed.

(** Lookups out of time order lose bindings.  If the bindings of an address that
    cover an instant [a0] are all over at [a], a lookup at [a0] finds one of
    them; but after a lookup at [a] the same lookup at [a0] finds nothing. *)
Theorem late_lookup_forgets idx ip a a0 :
  (∃ iv, live ip a0 idx iv) → (∀ iv, live ip a0 idx iv → iv_end iv ≤ a) →
  is_Some (resolve ip a0 idx).2 ∧ (resolve ip a0 (resolve ip a idx).1).2 = None.
Proof.
  intros [iv Hiv] Hend. split.
  - pose proof (resolve_answer ip a0 idx) as Hr. destruct (resolve ip a0 idx).2; [done|].
    by destruct (Hr iv).
  - pose proof (resolve_answer ip a0 (resolve ip a idx).1) as Hr.
    destruct (resolve ip a0 _).2; [|done]. destruct Hr as (iv' & [Hb Hc] & _).
    apply resolve_bound in Hb as [Hb Hno]. destruct Hno. split; [done|]. by apply Hend.
Qed.
End identity_theorems.

(** *** Witnesses *)

Definition logon (t : Z) (ip u : string) (conf ttl : Z) : IdentityEvent :=
  mkIdentityEvent (Some t) (Some ip) (Some u) (Some "ad_4624") (Some "logon") (Some conf) (Some ttl)
    None None.

Definition nac_stop (t : Z) (ip u : string) : IdentityEvent :=
  mkIdentityEvent (Some t) (Some ip) (Some u) (Some "cisco_ise") (Some "nac-auth-stop") (Some 95)
    (Some 0) None None.

Definition sample_ops : list index_op :=
  [OpInsert (logon 0 "10.0.0.1" "alice@corp" 70 3600);
   OpInsert (logon (60 * second) "10.0.0.1" "bob@corp" 95 60);
   OpResolve "10.0.0.1" (90 * second)].

Abbreviation LT := (list (interval Binding)).

Example sample_resolve :
  (λ a, rs_user_upn <$> (resolve "10.0.0.1" a (index_run (T := LT) sample_ops)).2) <$>
    [90 * second; 119 * second; 120 * second; 3600 * second] =
  [Some "bob@corp"; Some "bob@corp"; Some "alice@corp"; None].
Proof. vm_compute. reflexivity. Qed.

Lemma identity_index_refines_witness :
  ∃ iv, abs_run sample_ops "10.0.0.1" iv ∧ covers iv (120 * second).
Proof.
  pose proof (identity_index_refines (T := LT) sample_ops "10.0.0.1" (120 * second)) as Hr.
  assert (Hops : ∀ a', OpResolve "10.0.0.1" a' ∈ sample_ops → a' ≤ 120 * second).
  { intros a' Hin. apply list_elem_of_In in Hin. destruct Hin as [Ho|[Ho|[Ho|[]]]]; try discriminate Ho.
    injection Ho as <-. vm_compute. discriminate. }
  specialize (Hr Hops). vm_compute resolve in Hr.
  destruct Hr as (iv & ? & ? & _). by exists iv.
Defined.

Lemma stop_event_unbinds_witness :
  match (resolve "10.0.0.1" (90 * second)
           (insert_event (nac_stop (80 * second) "10.0.0.1" "bob@corp") (index_run (T := LT) sample_ops)).1).2 with
  | Some r => rs_user_upn r ≠ "bob@corp"
  | None => True
  end.
Proof.
  destruct (resolve _ _ _).2 as [r|] eqn:E; [|exact I]. revert r E.
  apply (proj1 (stop_event_unbinds (nac_stop (80 * second) "10.0.0.1" "bob@corp") "10.0.0.1"
    (80 * second) "bob@corp" (index_run (T := LT) sample_ops) eq_refl eq_refl eq_refl eq_refl)).
Defined.

Lemma insert_error_keeps_bindings_witness :
  ∀ iv, bound "10.0.0.1" (insert_event (logon 0 "10.0.0.1" "eve" 1 (-5)) (index_run (T := LT) sample_ops)).1 iv
        ↔ bound "10.0.0.1" (index_run (T := LT) sample_ops) iv.
Proof. intros iv. apply (insert_error_keeps_bindings _ _ ValueError). reflexivity. Defined.

Lemma late_lookup_forgets_witness :
  let idx := index_run (T := LT) [OpInsert (logon 0 "10.0.0.1" "bob@corp" 95 60)] in
  is_Some (resolve "10.0.0.1" (30 * second) idx).2 ∧
  (resolve "10.0.0.1" (30 * second) (resolve "10.0.0.1" (200 * second) idx).1).2 = None.
Proof.
  intros idx. apply (late_lookup_forgets idx "10.0.0.1" (200 * second) (30 * second)).
  - exists (mkInterval 0 (60 * second) (mkBinding "bob@corp" 95 "ad_4624" 0)).
    split; [|vm_compute; split; done]. eexists. split; [reflexivity|]. vm_compute. left.
  - intros iv [(t & Ht & Hiv) _]. vm_compute in Ht. injection Ht as <-.
    apply list_elem_of_In in Hiv. destruct Hiv as [<-|[]]. vm_compute. discriminate.
Defined.
