(* ===== verification/GroupIndex.v ===== *)
(** * The group index ([correlator/pipeline/group_index.py])

    An in-memory view of the [user_groups] table: the groups of a user, and the
    number of members and the name of a group.  [load] rebuilds all three from
    the rows of the table. *)

From S2P Require Import Prelude.

(** A row of [SELECT user_upn, group_id, group_name FROM user_groups]. *)
Record group_row : Type := mkGroupRow {
  gr_user_upn : string;
  gr_group_id : string;
  gr_group_name : string
}.

Record GroupIndex : Type := mkGroupIndex {
  gi_user_groups : gmap string (gset string);
  gi_group_size : gmap string Z;
  gi_group_name : gmap string string
}.

Definition new_group_index : GroupIndex := mkGroupIndex ∅ ∅ ∅.

(** [ug[r["user_upn"]].add(r["group_id"])] *)
Definition add_group (ug : gmap string (gset string)) (r : group_row) : gmap string (gset string) :=
  <[gr_user_upn r := {[gr_group_id r]} ∪ default ∅ (ug !! gr_user_upn r)]> ug.

(** [sizes[g] += 1] *)
Definition bump (sizes : gmap string Z) (g : string) : gmap string Z :=
  <[g := default 0 (sizes !! g) + 1]> sizes.

Definition count_sizes (user_groups : gmap string (gset string)) : gmap string Z :=
  foldl (λ sizes gs, foldl bump sizes (elements gs)) ∅ (map_to_list user_groups).*2.

Definition load (rows : list group_row) : GroupIndex :=
  let ug := foldl add_group ∅ rows in
  let names := foldl (λ m r, <[gr_group_id r := gr_group_name r]> m) ∅ rows in
  mkGroupIndex ug (count_sizes ug) names.

Definition groups_of (gi : GroupIndex) (user : string) : gset string :=
  default ∅ (gi_user_groups gi !! user).

Definition size_of (gi : GroupIndex) (group_id : string) : Z :=
  default 0 (gi_group_size gi !! group_id).

Definition name_of (gi : GroupIndex) (group_id : string) : string :=
  default group_id (gi_group_name gi !! group_id).

Definition group_sizes (gi : GroupIndex) : gmap string Z := gi_group_size gi.

(** ** Specification vocabulary *)

(** The distinct users that the table puts in a group. *)
Definition members (rows : list group_row) (g : string) : gset string :=
  list_to_set (gr_user_upn <$> filter (λ r, gr_group_id r = g) rows).

(** ** Lemmas *)

Lemma add_group_fold ug rows u :
  default ∅ (foldl add_group ug rows !! u) =
  list_to_set (gr_group_id <$> filter (λ r, gr_user_upn r = u) rows) ∪ default ∅ (ug !! u).
Proof.
  revert ug. induction rows as [|r rows IH]; intros ug; simpl; [set_solver|].
  rewrite IH, filter_cons. unfold add_group. rewrite lookup_insert.
  destruct (decide (gr_user_upn r = u)) as [->|]; csimpl; set_solver.
Qed.

Lemma groups_of_load rows u :
  groups_of (load rows) u = list_to_set (gr_group_id <$> filter (λ r, gr_user_upn r = u) rows).
Proof. unfold groups_of, load. simpl. rewrite add_group_fold, lookup_empty. set_solver. Qed.

Lemma bump_lookup sizes g g' :
  default 0 (bump sizes g !! g') = default 0 (sizes !! g') + (if decide (g = g') then 1 else 0).
Proof. unfold bump. rewrite lookup_insert. destruct (decide (g = g')) as [->|]; simpl; lia. Qed.

Lemma bump_fold sizes gs g :
  NoDup gs →
  default 0 (foldl bump sizes gs !! g) = default 0 (sizes !! g) + (if decide (g ∈ gs) then 1 else 0).
Proof.
  intros Hnd. revert sizes. induction Hnd as [|x gs Hx Hnd IH]; intros sizes; simpl.
  { destruct (decide (g ∈ [])) as [Hg|]; [by apply not_elem_of_nil in Hg|lia]. }
  rewrite IH, bump_lookup.
  destruct (decide (x = g)), (decide (g ∈ gs)), (decide (g ∈ x :: gs)) as [Hg|Hg];
    rewrite elem_of_cons in Hg; naive_solver lia.
Qed.

Lemma count_sizes_fold (l : list (gset string)) sizes g :
  default 0 (foldl (λ sizes gs, foldl bump sizes (elements gs)) sizes l !! g) =
  default 0 (sizes !! g) + Z.of_nat (length (filter (λ gs, g ∈ gs) l)).
Proof.
  revert sizes. induction l as [|gs l IH]; intros sizes; simpl; [lia|].
  rewrite IH, bump_fold, filter_cons by apply NoDup_elements.
  destruct (decide (g ∈ elements gs)) as [Hg|Hg], (decide (g ∈ gs));
    rewrite elem_of_elements in Hg; simpl; tauto || lia.
Qed.

Lemma count_sizes_users ug g :
  default 0 (count_sizes ug !! g) = Z.of_nat (size (dom (filter (λ kv, g ∈ kv.2) ug) : gset string)).
Proof.
  unfold count_sizes. rewrite count_sizes_fold, lookup_empty, size_dom. cbn [default]. rewrite Z.add_0_l. f_equal.
  rewrite map_filter_alt. rewrite <-length_map_to_list, map_to_list_to_map.
  - induction (map_to_list ug) as [|kv l IH]; [done|]. csimpl. rewrite !filter_cons.
    destruct (decide (g ∈ kv.2)); simpl; by rewrite IH.
  - eapply sublist_NoDup; [apply (NoDup_fst_map_to_list ug)|].
    induction (map_to_list ug) as [|kv l IH]; [done|]. rewrite filter_cons.
    destruct (decide _); csimpl; by constructor.
Qed.

Lemma group_user_lookup rows u g :
  g ∈ groups_of (load rows) u ↔ u ∈ members rows g.
Proof.
  rewrite groups_of_load. unfold members. rewrite !elem_of_list_to_set, !list_elem_of_fmap.
  setoid_rewrite list_elem_of_filter. naive_solver.
Qed.

Lemma load_groups_rows rows u g :
  g ∈ groups_of (load rows) u ↔ ∃ name, mkGroupRow u g name ∈ rows.
Proof.
  rewrite groups_of_load, elem_of_list_to_set, list_elem_of_fmap.
  setoid_rewrite list_elem_of_filter. split.
  - intros ([] & -> & <- & Hr). simpl. by eexists.
  - intros [name Hr]. by exists (mkGroupRow u g name).
Qed.

(** ** Theorems *)

(** [load] gives every user exactly the groups of their rows, and every group
    the number of distinct users that the rows put in it. *)
Theorem group_index_load rows :
  (∀ u g, g ∈ groups_of (load rows) u ↔
     ∃ name, mkGroupRow u g name ∈ rows) ∧
  (∀ g, size_of (load rows) g = Z.of_nat (size (members rows g))).
Proof.
  split.
  - apply load_groups_rows.
  - intros g. unfold size_of, load. simpl. rewrite count_sizes_users. do 2 f_equal.
    apply set_eq. intros u. rewrite <-group_user_lookup, elem_of_dom. unfold groups_of, load. simpl.
    set (ug := foldl add_group ∅ rows). split.
    + intros [gs [Hu Hg]%map_lookup_filter_Some]. by rewrite Hu.
    + destruct (ug !! u) as [gs|] eqn:Hu; simpl; [|set_solver].
      intros Hg. exists gs. by apply map_lookup_filter_Some.
Qed.
