(* ===== verification/Enricher.v ===== *)
(** * The enricher ([correlator/pipeline/enricher.py])

    [Enricher] is written against two protocols: an identity index that
    resolves an address at an instant, and a group index that gives the groups
    of a user.  The protocols are the classes [IdentitySource] and
    [GroupSource]; the index of [IdentityIndex] and the one of [GroupIndex] are
    their instances.  A lookup may change the identity index (lazy eviction),
    so [enrich] threads it. *)

From S2P Require Import Prelude EventTypes IdentityIndex GroupIndex.

(** The protocol [_IdentityIndex]; the enricher reads only [user_upn] of a hit. *)
Class IdentitySource (I : Type) := is_resolve : string → Z → I → I * option string.

(** The protocol [_GroupIndex]. *)
Class GroupSource (G : Type) := gs_groups_of : G → string → gset string.

#[global] Instance identity_index_source {T} `{IntervalTree Binding T} :
  IdentitySource (IdentityIndex T) :=
  λ ip a idx, let '(idx', hit) := resolve ip a idx in (idx', rs_user_upn <$> hit).

#[global] Instance group_index_source : GroupSource GroupIndex := groups_of.

(** The keys of a row that the enricher reads and writes. *)
Record enrich_row : Type := mkEnrichRow {
  er_src_ip : string;
  er_ts : Z;
  er_user_upn : option string;
  er_groups : option (gset string)
}.

Definition enrich {I G} `{IdentitySource I, GroupSource G} (row : enrich_row) (id_ : I) (gi : G) :
    I * enrich_row :=
  match is_resolve (er_src_ip row) (er_ts row) id_ with
  | (id', None) => (id', mkEnrichRow (er_src_ip row) (er_ts row) (Some "unknown") (Some ∅))
  | (id', Some upn) =>
      (id', mkEnrichRow (er_src_ip row) (er_ts row) (Some upn) (Some (gs_groups_of gi upn)))
  end.

(** ** Theorem *)

Section enrich_theorem.
Context {T : Type} `{IntervalTreeLaws Binding T}.

(** C16. Against the two indexes, enrichment names the right user with the right
    groups.  For a row not before the earlier lookups of its address: if some
    binding made by the identity events and not stopped since covers the row,
    the user is that of a best one (confidence, then latest start) and the
    groups are exactly those the membership rows give that user; otherwise the
    user is ["unknown"] and there are no groups.  The other keys stay. *)
Theorem enrich_identifies ops rows row :
  (∀ a', OpResolve (er_src_ip row) a' ∈ ops → a' ≤ er_ts row) →
  let row' := (enrich row (index_run (T := T) ops) (load rows)).2 in
  er_src_ip row' = er_src_ip row ∧ er_ts row' = er_ts row ∧
  ((er_user_upn row' = Some "unknown" ∧ er_groups row' = Some ∅ ∧
      ∀ iv, abs_run ops (er_src_ip row) iv → ¬ covers iv (er_ts row)) ∨
   ∃ iv gs, abs_run ops (er_src_ip row) iv ∧ covers iv (er_ts row) ∧
     (∀ iv', abs_run ops (er_src_ip row) iv' → covers iv' (er_ts row) → no_worse iv iv') ∧
     er_user_upn row' = Some (bd_user_upn (iv_data iv)) ∧ er_groups row' = Some gs ∧
     ∀ g, g ∈ gs ↔ ∃ name, mkGroupRow (bd_user_upn (iv_data iv)) g name ∈ rows).
Proof.
  intros Hops row'. pose proof (resolve_in_order (T := T) ops _ _ Hops) as Hr.
  subst row'. unfold enrich, is_resolve, identity_index_source.
  destruct (resolve _ _ _) as [idx' [r|]]; simpl in *.
  - destruct Hr as (iv & Hiv & Hc & -> & Hbest). split; [done|]. split; [done|]. right.
    exists iv, (groups_of (load rows) (bd_user_upn (iv_data iv))).
    split_and!; try done. intros g. apply load_groups_rows.
  - split; [done|]. split; [done|]. left. done.
Qed.
End enrich_theorem.

Lemma enrich_identifies_witness :
  er_user_upn (enrich (mkEnrichRow "10.0.0.1" (120 * second) None None)
    (index_run (T := list (interval Binding)) sample_ops)
    (load [mkGroupRow "alice@corp" "eng" "Engineering"])).2 = Some "alice@corp" ∧
  ∃ iv, abs_run sample_ops "10.0.0.1" iv ∧ covers iv (120 * second).
Proof.
  split; [vm_compute; reflexivity|].
  assert (Hops : ∀ a', OpResolve "10.0.0.1" a' ∈ sample_ops → a' ≤ 120 * second).
  { intros a' Hin. apply list_elem_of_In in Hin. destruct Hin as [Ho|[Ho|[Ho|[]]]]; try discriminate Ho.
    injection Ho as <-. vm_compute. discriminate. }
  destruct (enrich_identifies (T := list (interval Binding)) sample_ops
    [mkGroupRow "alice@corp" "eng" "Engineering"]
    (mkEnrichRow "10.0.0.1" (120 * second) None None) Hops) as (_ & _ & [(Hu & _)|(iv & gs & Ha & Hc & _)]).
  - vm_compute in Hu. discriminate Hu.
  - exists iv. split; [exact Ha|exact Hc].
Defined.
