(* ===== verification/GroupAggregator.v ===== *)
(** * The group aggregator ([correlator/pipeline/group_aggregator.py])

    [lcd] picks the group that stands for a set of users: the smallest group
    (ties by group id) that contains all of them and is not excluded.
    [aggregate] turns the rows of a window into Sankey links, keyed by the label
    of the user side and the destination: the common group, the user or the
    source address, and a separate ["unknown"] strand.  The choice of a group is
    cached by the set of users. *)

From S2P Require Import Prelude PySort PyDict.

(** ** [lcd] *)

(** [key=lambda g: (group_size.get(g, 0), g)] *)
Definition lcd_key (group_size : gmap string Z) (g : string) : Z * string :=
  (default 0 (group_size !! g), g).

(** [set.intersection] of the sets, in turn. *)
Definition intersect_all (sets : list (gset string)) : gset string :=
  match sets with
  | [] => ∅
  | s :: ss => foldl (∩) s ss
  end.

Definition lcd (users : gset string) (user_groups : gmap string (gset string))
    (group_size : gmap string Z) (excluded : gset string) (floor : Z) : option string :=
  if decide (users = ∅) then None
  else match mapM (λ u, user_groups !! u) (elements users) with
       | None => None
       | Some sets =>
           let candidates := intersect_all sets ∖ excluded in
           match py_min (lcd_key group_size) (elements candidates) with
           | None => None
           | Some chosen =>
               if bool_decide (size users = 1%nat) && (floor <? default 0 (group_size !! chosen))
               then None else Some chosen
           end
       end.

(** ** [GroupAggregator] *)

(** An enriched row; the keys that the code reads with [get] are optional. *)
Record agg_row : Type := mkAggRow {
  ar_user_upn : string;
  ar_groups : option (gset string);
  ar_dst : string;
  ar_src_ip : option string;
  ar_bytes : option Z;
  ar_flows : option Z;
  ar_flow_count : option Z
}.

(** A link under accumulation, with the live set of users. *)
Record live_link : Type := mkLiveLink {
  ll_src : string;
  ll_dst : string;
  ll_bytes : Z;
  ll_flows : Z;
  ll_users : gset string
}.

(** A finished link. *)
Record Link : Type := mkLink {
  lk_src : string;
  lk_dst : string;
  lk_bytes : Z;
  lk_flows : Z;
  lk_users : Z
}.

Record GroupAggregator : Type := mkGroupAggregator {
  ga_excluded : gset string;
  ga_floor : Z;
  ga_cache : gmap (gset string) (option string)
}.

Definition new_aggregator (excluded : gset string) (floor : Z) : GroupAggregator :=
  mkGroupAggregator excluded floor ∅.

Definition clear_cache (ga : GroupAggregator) : GroupAggregator :=
  mkGroupAggregator (ga_excluded ga) (ga_floor ga) ∅.

Definition row_bytes (r : agg_row) : Z := default 0 (ar_bytes r).

(** [row.get("flows", row.get("flow_count", 1))] *)
Definition row_flows (r : agg_row) : Z := default (default 1 (ar_flow_count r)) (ar_flows r).

Definition link0 (src dst : string) : live_link := mkLiveLink src dst 0 0 ∅.

Definition link_add (r : agg_row) (l : live_link) : live_link :=
  mkLiveLink (ll_src l) (ll_dst l) (ll_bytes l + row_bytes r) (ll_flows l + row_flows r)
    ({[ar_user_upn r]} ∪ ll_users l).

(** [_accum] *)
Definition accum (links : pydict (string * string) live_link) (src dst : string) (r : agg_row) :
    pydict (string * string) live_link :=
  dupd (src, dst) (link0 src dst) (link_add r) links.

(** [_finalize] *)
Definition finalize (l : live_link) : Link :=
  mkLink (ll_src l) (ll_dst l) (ll_bytes l) (ll_flows l) (Z.of_nat (size (ll_users l))).

Definition per_dst_users (rows : list agg_row) : pydict string (gset string) :=
  group_fold ar_dst (λ _, ∅) (λ s r, {[ar_user_upn r]} ∪ s) [] rows.

Definition per_dst_rows (rows : list agg_row) : pydict string (list agg_row) :=
  group_fold ar_dst (λ _, []) (λ l r, l ++ [r]) [] rows.

(** [ug[upn] = frozenset(r.get("groups") or frozenset())]: the last row wins. *)
Definition row_user_groups (rows : list agg_row) : gmap string (gset string) :=
  foldl (λ ug r, <[ar_user_upn r := default ∅ (ar_groups r)]> ug) ∅ rows.

Definition is_known (u : string) : Prop := u ≠ "unknown".

#[global] Instance is_known_dec u : Decision (is_known u).
Proof. unfold is_known. apply _. Defined.

Definition known_users (users : gset string) : gset string := filter is_known users.

(** [{u: f(u) for u in known}] *)
Definition dict_on {V} (f : string → V) (known : gset string) : gmap string V :=
  set_to_map (λ u, (u, f u)) known.

(** The labels of [group_by == "src_ip"]: the last row of a user wins. *)
Definition src_ip_labels (rows : list agg_row) : gmap string string :=
  foldl (λ m r, if decide (is_known (ar_user_upn r))
                then <[ar_user_upn r := default (ar_user_upn r) (ar_src_ip r)]> m else m) ∅ rows.

(** The choice of [label_for] for one destination, and the cache afterwards. *)
Definition choose_labels (ga : GroupAggregator) (ug : gmap string (gset string))
    (group_sizes : gmap string Z) (group_by : string) (rows : list agg_row)
    (known : gset string) : GroupAggregator * gmap string string :=
  if decide (group_by = "user") then (ga, dict_on id known)
  else if decide (group_by = "src_ip") then (ga, src_ip_labels rows)
  else
    let ga' :=
      match ga_cache ga !! known with
      | Some _ => ga
      | None =>
          mkGroupAggregator (ga_excluded ga) (ga_floor ga)
            (<[known := lcd known (dict_on (λ u, ug !!! u) known) group_sizes
                          (ga_excluded ga) (ga_floor ga)]> (ga_cache ga))
      end in
    match default None (ga_cache ga' !! known) with
    | None => (ga', dict_on id known)
    | Some chosen => (ga', dict_on (λ _, chosen) known)
    end.

(** The body of the loop over the destinations. *)
Definition process_dst (rows_of : pydict string (list agg_row)) (ug : gmap string (gset string))
    (group_sizes : gmap string Z) (group_by : string)
    (s : GroupAggregator * pydict (string * string) live_link) (du : string * gset string) :
    GroupAggregator * pydict (string * string) live_link :=
  let '(ga, links) := s in
  let '(dst, users) := du in
  let known := known_users users in
  let unknown := users ∖ known in
  let rows := default [] (dget dst rows_of) in
  let links1 :=
    if decide (unknown = ∅) then links
    else foldl (λ ls r, if decide (is_known (ar_user_upn r)) then ls
                        else accum ls "unknown" dst r) links rows in
  if decide (known = ∅) then (ga, links1)
  else
    let '(ga', label_for) := choose_labels ga ug group_sizes group_by rows known in
    (ga', foldl (λ ls r, if decide (is_known (ar_user_upn r))
                         then accum ls (label_for !!! ar_user_upn r) dst r else ls) links1 rows).

Definition aggregate_links (ga : GroupAggregator) (rows : list agg_row)
    (group_sizes : gmap string Z) (group_by : string) :
    GroupAggregator * pydict (string * string) live_link :=
  foldl (process_dst (per_dst_rows rows) (row_user_groups rows) group_sizes group_by)
    (ga, []) (per_dst_users rows).

Definition aggregate (ga : GroupAggregator) (rows : list agg_row)
    (group_sizes : gmap string Z) (group_by : string) : GroupAggregator * list Link :=
  let '(ga', links) := aggregate_links ga rows group_sizes group_by in
  (ga', finalize <$> dvalues links).

(** ** Specification vocabulary *)

(** [g] could stand for all [users]. *)
Definition lcd_candidate (users : gset string) (user_groups : gmap string (gset string))
    (excluded : gset string) (g : string) : Prop :=
  (∀ u, u ∈ users → ∃ gs, user_groups !! u = Some gs ∧ g ∈ gs) ∧ g ∉ excluded.

(** The known users of a destination. *)
Definition dst_known (rows : list agg_row) (dst : string) : gset string :=
  known_users (list_to_set (ar_user_upn <$> filter (λ r, ar_dst r = dst) rows)).

(** The label of a row, from the groups of the users alone. *)
Definition ref_label (excluded : gset string) (floor : Z) (G : string → gset string)
    (group_sizes : gmap string Z) (group_by : string) (rows : list agg_row) (r : agg_row) : string :=
  if decide (is_known (ar_user_upn r)) then
    if decide (group_by = "user") then ar_user_upn r
    else if decide (group_by = "src_ip") then
      src_ip_labels (filter (λ r', ar_dst r' = ar_dst r) rows) !!! ar_user_upn r
    else
      let known := dst_known rows (ar_dst r) in
      default (ar_user_upn r) (lcd known (dict_on G known) group_sizes excluded floor)
  else "unknown".

(** Every cached choice is the one [lcd] makes for the groups [G]. *)
Definition cache_coherent (ga : GroupAggregator) (G : string → gset string)
    (group_sizes : gmap string Z) : Prop :=
  ∀ users o, ga_cache ga !! users = Some o →
    o = lcd users (dict_on G users) group_sizes (ga_excluded ga) (ga_floor ga).

(** The rows carry the groups [G] of their users. *)
Definition rows_enriched (G : string → gset string) (rows : list agg_row) : Prop :=
  ∀ r, r ∈ rows → default ∅ (ar_groups r) = G (ar_user_upn r).

(** ** Lemmas on [lcd] *)

Lemma foldl_intersection (sets : list (gset string)) s g :
  g ∈ foldl (∩) s sets ↔ g ∈ s ∧ ∀ s', s' ∈ sets → g ∈ s'.
Proof.
  revert s. induction sets as [|s1 sets IH]; intros s; simpl.
  - split; [|by intros [? _]]. intros. split; [done|]. intros s' Hs. by apply not_elem_of_nil in Hs.
  - rewrite IH. setoid_rewrite elem_of_cons. set_solver.
Qed.

Lemma intersect_all_elem sets g :
  sets ≠ [] → g ∈ intersect_all sets ↔ ∀ s, s ∈ sets → g ∈ s.
Proof.
  destruct sets as [|s sets]; [done|]. intros _. simpl. rewrite foldl_intersection.
  setoid_rewrite elem_of_cons. naive_solver.
Qed.

Lemma lcd_candidates users ug sets excluded g :
  users ≠ ∅ → mapM (λ u, ug !! u) (elements users) = Some sets →
  g ∈ intersect_all sets ∖ excluded ↔ lcd_candidate users ug excluded g.
Proof.
  intros Hne Hm. apply mapM_Some in Hm. rewrite elem_of_difference, intersect_all_elem.
  2: { intros ->. apply Forall2_nil_inv_r in Hm. apply Hne. apply leibniz_equiv. by apply elements_empty_iff in Hm. }
  unfold lcd_candidate. apply and_iff_compat_r. split.
  - intros Hall u Hu. apply elem_of_elements, list_elem_of_lookup in Hu as [i Hi].
    destruct (Forall2_lookup_l _ _ _ _ _ Hm Hi) as (gs & Hgs & Hu).
    exists gs. split; [done|]. apply Hall, list_elem_of_lookup. by eexists.
  - intros Hall s Hs. apply list_elem_of_lookup in Hs as [i Hi].
    destruct (Forall2_lookup_r _ _ _ _ _ Hm Hi) as (u & Hu & Hs).
    destruct (Hall u) as (gs & Hgs & Hg); [|congruence].
    apply elem_of_elements, list_elem_of_lookup. by eexists.
Qed.

Lemma lcd_key_le sizes g g' :
  key_le (lcd_key sizes) g g' ↔
  default 0 (sizes !! g) < default 0 (sizes !! g') ∨
  (default 0 (sizes !! g) = default 0 (sizes !! g') ∧ String.leb g g' = true).
Proof. unfold key_le, lcd_key. rewrite py_leb_pair, py_leb_Z. unfold py_leb, string_pyord. intuition lia. Qed.

Lemma lcd_missing users ug excluded :
  mapM (λ u, ug !! u) (elements users) = None → ∀ g, ¬ lcd_candidate users ug excluded g.
Proof.
  intros Hm g [Hc _]. apply mapM_None in Hm. apply Exists_exists in Hm as (u & Hu & Hn).
  destruct (Hc u) as (gs & Hgs & _); [by apply elem_of_elements|congruence].
Qed.

(** The choice among the candidates. *)
Lemma lcd_pick sizes floor (users : gset string) cs (C : string → Prop) g :
  (∀ g', g' ∈ cs ↔ C g') →
  match py_min (lcd_key sizes) cs with
  | None => None
  | Some chosen =>
      if bool_decide (size users = 1%nat) && (floor <? default 0 (sizes !! chosen))
      then None else Some chosen
  end = Some g ↔
  C g ∧ (∀ g', C g' → key_le (lcd_key sizes) g g') ∧
  (size users = 1%nat → default 0 (sizes !! g) ≤ floor).
Proof.
  intros HC. setoid_rewrite <-HC. clear HC.
  destruct (py_min (lcd_key sizes) cs) as [c|] eqn:Emin.
  - apply py_min_some in Emin as [Hin Hmin].
    assert (Huniq : g ∈ cs → (∀ g', g' ∈ cs → key_le (lcd_key sizes) g g') → g = c).
    { intros Hg Hgmin. pose proof (py_leb_antisym _ _ (Hgmin c Hin) (Hmin g Hg)) as Heq.
      by injection Heq. }
    destruct (bool_decide _ && _) eqn:Eb; split.
    + done.
    + intros (Hg & Hgmin & Hfl). bool_to_prop. rewrite (Huniq Hg Hgmin) in Hfl. naive_solver lia.
    + intros [= <-]. repeat split; [done|done|]. intros H1.
      rewrite bool_decide_true in Eb by done. simpl in Eb. bool_to_prop. lia.
    + intros (Hg & Hgmin & _). f_equal. symmetry. by apply Huniq.
  - apply py_min_none in Emin as ->. split; [done|].
    intros (Hg & _). by apply not_elem_of_nil in Hg.
Qed.

(** ** Lemmas on the grouping by destination *)

Lemma snoc_fold {A} (l1 l2 : list A) : foldl (λ l r, l ++ [r]) l1 l2 = l1 ++ l2.
Proof.
  revert l1. induction l2 as [|x l2 IH]; intros l1; simpl; [by rewrite app_nil_r|].
  by rewrite IH, <-app_assoc.
Qed.

Lemma users_fold (s : gset string) (rs : list agg_row) :
  foldl (λ s r, {[ar_user_upn r]} ∪ s) s rs = list_to_set (ar_user_upn <$> rs) ∪ s.
Proof. revert s. induction rs as [|r rs IH]; intros s; simpl; [set_solver|]. rewrite IH. set_solver. Qed.

Lemma per_dst_rows_get rows dst :
  default [] (dget dst (per_dst_rows rows)) = filter (λ r, ar_dst r = dst) rows.
Proof.
  unfold per_dst_rows. rewrite dget_group_fold_nil. unfold group_slot.
  destruct (filter _ rows) as [|r rs] eqn:E; [done|]. by rewrite snoc_fold.
Qed.

Lemma per_dst_users_in rows dst users :
  (dst, users) ∈ per_dst_users rows →
  users = list_to_set (ar_user_upn <$> filter (λ r, ar_dst r = dst) rows).
Proof.
  intros Hin. assert (Hg : dget dst (per_dst_users rows) = Some users).
  { apply in_dget; [|done]. apply group_fold_wf. constructor. }
  unfold per_dst_users in Hg. rewrite dget_group_fold_nil in Hg. unfold group_slot in Hg.
  destruct (filter _ rows) as [|r rs]; [done|]. injection Hg as <-. rewrite users_fold. set_solver.
Qed.

Lemma per_dst_users_keys rows :
  NoDup (dkeys (per_dst_users rows)) ∧
  ∀ dst, dst ∈ dkeys (per_dst_users rows) ↔ dst ∈ ar_dst <$> rows.
Proof.
  split; [apply group_fold_wf; constructor|]. intros dst. unfold per_dst_users.
  rewrite group_fold_key. unfold dkeys. simpl. rewrite elem_of_nil. tauto.
Qed.

(** Splitting the rows by their destination loses nothing. *)
Lemma rows_by_dst (rows : list agg_row) (dsts : list string) :
  NoDup dsts → (∀ r, r ∈ rows → ar_dst r ∈ dsts) →
  (d ← dsts; filter (λ r, ar_dst r = d) rows) ≡ₚ rows.
Proof.
  intros Hnd. revert rows. induction Hnd as [|d dsts Hd Hnd IH]; intros rows Hrows.
  - destruct rows as [|r rows]; [done|]. specialize (Hrows r ltac:(left)).
    by apply not_elem_of_nil in Hrows.
  - csimpl. transitivity (filter (λ r, ar_dst r = d) rows ++ filter (λ r, ar_dst r ≠ d) rows).
    + apply Permutation_app_head. rewrite <-(IH (filter (λ r, ar_dst r ≠ d) rows)).
      * apply reflexive_eq. clear IH Hnd Hrows. induction dsts as [|d' dsts IH]; [done|].
        apply not_elem_of_cons in Hd as [Hne Hd]. csimpl. f_equal; [|by apply IH].
        rewrite list_filter_filter_l; [done|]. naive_solver.
      * intros r [Hne Hr]%list_elem_of_filter. apply Hrows in Hr.
        apply elem_of_cons in Hr as [?|?]; [done|done].
    + clear. induction rows as [|r rows IH]; [done|]. rewrite !filter_cons.
      destruct (decide (ar_dst r = d)), (decide (ar_dst r ≠ d)); try tauto; simpl.
      * by rewrite IH.
      * by rewrite <-Permutation_middle, IH.
Qed.

(** ** Lemmas on the labels *)

Lemma dict_on_lookup {V} (f : string → V) known u :
  dict_on f known !! u = if decide (u ∈ known) then Some (f u) else None.
Proof.
  apply option_eq. intros v. unfold dict_on. rewrite lookup_set_to_map; [|naive_solver].
  destruct (decide (u ∈ known)); naive_solver.
Qed.

Lemma dict_on_ext {V} (f g : string → V) known :
  (∀ u, u ∈ known → f u = g u) → dict_on f known = dict_on g known.
Proof.
  intros Hfg. apply map_eq. intros u. rewrite !dict_on_lookup.
  destruct (decide (u ∈ known)); [|done]. by rewrite Hfg.
Qed.

Lemma dict_on_total (f : string → string) known u : u ∈ known → dict_on f known !!! u = f u.
Proof. intros Hu. unfold lookup_total, map_lookup_total. rewrite dict_on_lookup. by rewrite decide_True. Qed.

Lemma row_user_groups_lookup G rows u :
  rows_enriched G rows → u ∈ ar_user_upn <$> rows → row_user_groups rows !!! u = G u.
Proof.
  intros He. unfold row_user_groups.
  assert (Hgen : ∀ ug : gmap string (gset string), (u ∈ ar_user_upn <$> rows ∨ ug !!! u = G u) →
    foldl (λ ug r, <[ar_user_upn r := default ∅ (ar_groups r)]> ug) ug rows !!! u = G u).
  { induction rows as [|r rows IH]; intros ug; simpl.
    { intros [Hu|]; [by apply not_elem_of_nil in Hu|done]. }
    intros Hor. apply IH.
    - intros r' Hr'. apply He. by right.
    - destruct (decide (ar_user_upn r = u)) as [<-|Hne].
      + right. rewrite lookup_total_insert_eq. apply He. left.
      + destruct Hor as [[?|?]%elem_of_cons|?]; [congruence|by left|].
        right. by rewrite lookup_total_insert_ne. }
  intros Hu. apply Hgen. by left.
Qed.

Lemma choose_labels_params ga ug sizes gb rows known :
  ga_excluded (choose_labels ga ug sizes gb rows known).1 = ga_excluded ga ∧
  ga_floor (choose_labels ga ug sizes gb rows known).1 = ga_floor ga.
Proof.
  unfold choose_labels. repeat destruct (decide _); [done..|].
  destruct (ga_cache ga !! known); destruct (default None _); done.
Qed.

(** In the group mode the choice is that of [lcd], cached or not. *)
Lemma choose_labels_group ga ug G sizes gb rows known :
  gb ≠ "user" → gb ≠ "src_ip" →
  cache_coherent ga G sizes → (∀ u, u ∈ known → ug !!! u = G u) →
  let res := choose_labels ga ug sizes gb rows known in
  cache_coherent res.1 G sizes ∧
  ∀ u, u ∈ known →
    res.2 !!! u = default u (lcd known (dict_on G known) sizes (ga_excluded ga) (ga_floor ga)).
Proof.
  intros Hu Hs Hcoh Hug. unfold choose_labels. rewrite !decide_False by done.
  rewrite (dict_on_ext (λ u, ug !!! u) G) by done.
  set (o := lcd known _ _ _ _). destruct (ga_cache ga !! known) as [o'|] eqn:E; simpl.
  - rewrite E. simpl. apply Hcoh in E as ->. fold o.
    split; [by destruct o|]. intros u Hk. destruct o; simpl; by rewrite dict_on_total.
  - rewrite lookup_insert_eq. simpl. split.
    + assert (cache_coherent (mkGroupAggregator (ga_excluded ga) (ga_floor ga)
        (<[known := o]> (ga_cache ga))) G sizes) as Hc'.
      { intros users o'. simpl. rewrite lookup_insert. destruct (decide (known = users)) as [<-|].
        - by intros [= <-].
        - apply Hcoh. }
      by destruct o.
    + intros u Hk. destruct o; simpl; by rewrite dict_on_total.
Qed.

Lemma choose_labels_spec ga G sizes gb rows dst :
  let dr := filter (λ r, ar_dst r = dst) rows in
  let known := dst_known rows dst in
  let res := choose_labels ga (row_user_groups rows) sizes gb dr known in
  rows_enriched G rows → cache_coherent ga G sizes →
  cache_coherent res.1 G sizes ∧
  ∀ r, r ∈ dr → is_known (ar_user_upn r) →
    res.2 !!! ar_user_upn r = ref_label (ga_excluded ga) (ga_floor ga) G sizes gb rows r.
Proof.
  intros dr known res He Hcoh.
  assert (Hin : ∀ r, r ∈ dr → is_known (ar_user_upn r) → ar_user_upn r ∈ known).
  { intros r Hr Hk. apply elem_of_filter. split; [done|].
    apply elem_of_list_to_set, list_elem_of_fmap_2. done. }
  assert (Hdst : ∀ r, r ∈ dr → ar_dst r = dst).
  { by intros r [? _]%list_elem_of_filter. }
  destruct (decide (gb = "user")) as [->|Hu]; [|destruct (decide (gb = "src_ip")) as [->|Hs]].
  - split; [done|]. intros r Hr Hk. unfold ref_label. rewrite decide_True by done. simpl.
    apply dict_on_total. by apply Hin.
  - split; [done|]. intros r Hr Hk. unfold ref_label. rewrite decide_True by done. simpl.
    by rewrite (Hdst r Hr).
  - destruct (choose_labels_group ga (row_user_groups rows) G sizes gb dr known) as [Hc Hl]; try done.
    { intros u [_ Hu']%elem_of_filter. apply row_user_groups_lookup; [done|].
      apply elem_of_list_to_set in Hu'. apply list_elem_of_fmap in Hu' as (r & -> & Hr).
      apply list_elem_of_filter in Hr as [_ Hr]. by apply list_elem_of_fmap_2. }
    split; [done|]. intros r Hr Hk. unfold ref_label. rewrite decide_True by done.
    rewrite !decide_False by done. rewrite (Hdst r Hr). apply Hl. by apply Hin.
Qed.

(** ** The links as one grouping of labelled rows *)

Abbreviation entry := ((string * string) * agg_row)%type.

Definition fold_entries (links : pydict (string * string) live_link) (es : list entry) :
    pydict (string * string) live_link :=
  group_fold (λ e, e.1) (λ e, link0 e.1.1 e.1.2) (λ l e, link_add e.2 l) links es.

Lemma fold_entries_app links es1 es2 :
  fold_entries links (es1 ++ es2) = fold_entries (fold_entries links es1) es2.
Proof. apply foldl_app. Qed.

Lemma accum_fold (P : agg_row → Prop) `{∀ r, Decision (P r)} (lab : agg_row → string) dst links rs :
  foldl (λ ls r, if decide (P r) then accum ls (lab r) dst r else ls) links rs =
  fold_entries links ((λ r, ((lab r, dst), r)) <$> filter P rs).
Proof.
  revert links. induction rs as [|r rs IH]; intros links; [done|]. simpl foldl. rewrite IH, filter_cons.
  by destruct (decide (P r)).
Qed.

Definition known_row (r : agg_row) : Prop := is_known (ar_user_upn r).
Definition unknown_row (r : agg_row) : Prop := ar_user_upn r = "unknown".

#[global] Instance known_row_dec r : Decision (known_row r).
Proof. unfold known_row. apply _. Defined.
#[global] Instance unknown_row_dec r : Decision (unknown_row r).
Proof. unfold unknown_row. apply _. Defined.

Lemma unknown_fold dst links rs :
  foldl (λ ls r, if decide (is_known (ar_user_upn r)) then ls else accum ls "unknown" dst r) links rs =
  fold_entries links ((λ r, (("unknown", dst), r)) <$> filter unknown_row rs).
Proof.
  rewrite <-accum_fold. revert links. induction rs as [|r rs IH]; intros links; [done|].
  simpl. rewrite IH. unfold is_known, unknown_row.
  destruct (decide (ar_user_upn r ≠ _)), (decide (ar_user_upn r = _)); done || tauto.
Qed.

Lemma unknown_known_perm (rs : list agg_row) : filter unknown_row rs ++ filter known_row rs ≡ₚ rs.
Proof.
  induction rs as [|r rs IH]; [done|]. rewrite !filter_cons. unfold known_row, is_known, unknown_row in *.
  destruct (decide (ar_user_upn r = _)), (decide (ar_user_upn r ≠ _)); try tauto; simpl.
  - by rewrite IH.
  - by rewrite <-Permutation_middle, IH.
Qed.

(** The rows of a destination in the order in which they are added. *)
Definition dst_order (rows : list agg_row) (dst : string) : list agg_row :=
  let dr := filter (λ r, ar_dst r = dst) rows in filter unknown_row dr ++ filter known_row dr.

Definition label_rows (lab : agg_row → string) (rs : list agg_row) : list entry :=
  (λ r, ((lab r, ar_dst r), r)) <$> rs.

Lemma label_rows_const (lab lab' : agg_row → string) dst rs :
  (∀ r, r ∈ rs → ar_dst r = dst) → (∀ r, r ∈ rs → lab r = lab' r) →
  (λ r, ((lab r, dst), r)) <$> rs = label_rows lab' rs.
Proof. intros Hd Hl. apply list_fmap_ext. intros i r Hr%list_elem_of_lookup_2. by rewrite Hl, Hd. Qed.

Lemma dst_known_empty rows dst :
  dst_known rows dst = ∅ → filter known_row (filter (λ r, ar_dst r = dst) rows) = [].
Proof.
  intros He. apply filter_none. intros r Hr Hk.
  apply (not_elem_of_empty (C := gset string) (ar_user_upn r)). rewrite <-He.
  apply elem_of_filter. split; [done|]. by apply elem_of_list_to_set, list_elem_of_fmap_2.
Qed.

Lemma dst_unknown_empty rows dst :
  let users := list_to_set (ar_user_upn <$> filter (λ r, ar_dst r = dst) rows) : gset string in
  users ∖ known_users users = ∅ →
  filter unknown_row (filter (λ r, ar_dst r = dst) rows) = [].
Proof.
  intros users He. apply filter_none. intros r Hr Hk.
  apply (not_elem_of_empty (C := gset string) (ar_user_upn r)). rewrite <-He.
  apply elem_of_difference. split; [by apply elem_of_list_to_set, list_elem_of_fmap_2|].
  by intros [Hno _]%elem_of_filter.
Qed.

(** The label of a row under the dictionary [label_for]. *)
Definition row_label (label_for : gmap string string) (r : agg_row) : string :=
  if decide (known_row r) then label_for !!! ar_user_upn r else "unknown".

Lemma unknown_strand lf rows dst links :
  let dr := filter (λ r, ar_dst r = dst) rows in
  let users := list_to_set (ar_user_upn <$> dr) : gset string in
  (if decide (users ∖ known_users users = ∅) then links
   else foldl (λ ls r, if decide (is_known (ar_user_upn r)) then ls
                       else accum ls "unknown" dst r) links dr) =
  fold_entries links (label_rows (row_label lf) (filter unknown_row dr)).
Proof.
  intros dr users. destruct (decide _) as [He|].
  - pose proof (dst_unknown_empty rows dst He) as Hd. fold dr in Hd. by rewrite Hd.
  - rewrite unknown_fold. f_equal. apply label_rows_const.
    + by intros r [_ [? _]%list_elem_of_filter]%list_elem_of_filter.
    + intros r [Hr _]%list_elem_of_filter. unfold row_label. rewrite decide_False; [done|].
      intros Hk. by apply Hk.
Qed.

Lemma known_strand lf rows dst links :
  let dr := filter (λ r, ar_dst r = dst) rows in
  foldl (λ ls r, if decide (is_known (ar_user_upn r))
                 then accum ls (lf !!! ar_user_upn r) dst r else ls) links dr =
  fold_entries links (label_rows (row_label lf) (filter known_row dr)).
Proof.
  intros dr. rewrite (accum_fold known_row (λ r, lf !!! ar_user_upn r)). f_equal.
  apply label_rows_const.
  - by intros r [_ [? _]%list_elem_of_filter]%list_elem_of_filter.
  - intros r [Hr _]%list_elem_of_filter. unfold row_label. by rewrite decide_True.
Qed.

(** One destination: its rows are added under some labels, which are the
    reference labels when the cache is coherent. *)
Lemma process_dst_spec ga links rows sizes gb dst :
  let users := list_to_set (ar_user_upn <$> filter (λ r, ar_dst r = dst) rows) in
  ∃ ga' lab,
    process_dst (per_dst_rows rows) (row_user_groups rows) sizes gb (ga, links) (dst, users) =
      (ga', fold_entries links (label_rows lab (dst_order rows dst))) ∧
    ga_excluded ga' = ga_excluded ga ∧ ga_floor ga' = ga_floor ga ∧
    ∀ G, rows_enriched G rows → cache_coherent ga G sizes →
      cache_coherent ga' G sizes ∧
      ∀ r, r ∈ dst_order rows dst →
        lab r = ref_label (ga_excluded ga) (ga_floor ga) G sizes gb rows r.
Proof.
  intros users. unfold process_dst. rewrite per_dst_rows_get. cbv zeta.
  set (res := choose_labels ga (row_user_groups rows) sizes gb
                (filter (λ r, ar_dst r = dst) rows) (known_users users)).
  pose proof (unknown_strand res.2 rows dst links) as Hu. cbv zeta in Hu. fold users in Hu.
  assert (Hlab : ∀ G, rows_enriched G rows → cache_coherent ga G sizes → ∀ r,
    r ∈ dst_order rows dst →
    row_label res.2 r = ref_label (ga_excluded ga) (ga_floor ga) G sizes gb rows r).
  { intros G He Hc r Hr. unfold dst_order in Hr. rewrite unknown_known_perm in Hr.
    unfold row_label. destruct (decide (known_row r)) as [Hk|Hk].
    - by apply choose_labels_spec.
    - unfold ref_label. by rewrite decide_False. }
  destruct (decide (known_users users = ∅)) as [He|Hne].
  - exists ga, (row_label res.2). split; [|naive_solver].
    unfold dst_order. rewrite (dst_known_empty rows dst He), app_nil_r. by f_equal.
  - destruct (choose_labels_params ga (row_user_groups rows) sizes gb
      (filter (λ r, ar_dst r = dst) rows) (known_users users)) as [He Hf].
    fold res in He, Hf |- *. exists res.1, (row_label res.2).
    split; [|split; [done|split; [done|]]].
    + destruct res as [ga' lf]. simpl in *. f_equal. rewrite known_strand.
      unfold dst_order, label_rows in *. rewrite fmap_app, fold_entries_app. by f_equal.
    + intros G HG Hc. split; [|by apply Hlab]. by apply choose_labels_spec.
Qed.

(** All the destinations: every row becomes one entry. *)
Lemma process_dsts_spec rows sizes gb (dus : list (string * gset string)) ga links :
  (∀ dst users, (dst, users) ∈ dus →
     users = list_to_set (ar_user_upn <$> filter (λ r, ar_dst r = dst) rows)) →
  ∃ ga' es,
    foldl (process_dst (per_dst_rows rows) (row_user_groups rows) sizes gb) (ga, links) dus =
      (ga', fold_entries links es) ∧
    es.*2 = (d ← dus.*1; dst_order rows d) ∧
    ga_excluded ga' = ga_excluded ga ∧ ga_floor ga' = ga_floor ga ∧
    (∀ e, e ∈ es → e.1.2 = ar_dst e.2) ∧
    ∀ G, rows_enriched G rows → cache_coherent ga G sizes →
      cache_coherent ga' G sizes ∧
      ∀ e, e ∈ es → e.1.1 = ref_label (ga_excluded ga) (ga_floor ga) G sizes gb rows e.2.
Proof.
  revert ga links. induction dus as [|[dst users] dus IH]; intros ga links Hdus.
  - exists ga, []. repeat split; try done; try by intros e He%not_elem_of_nil.
  - rewrite (Hdus dst users ltac:(left)). cbn [foldl].
    destruct (process_dst_spec ga links rows sizes gb dst) as (ga1 & lab & -> & Hx1 & Hf1 & HG1).
    destruct (IH ga1 (fold_entries links (label_rows lab (dst_order rows dst))))
      as (ga2 & es & -> & Hes & Hx2 & Hf2 & Hd2 & HG2).
    { intros d us Hin. apply Hdus. by right. }
    exists ga2, (label_rows lab (dst_order rows dst) ++ es).
    assert (Hlr : (label_rows lab (dst_order rows dst)).*2 = dst_order rows dst).
    { unfold label_rows. rewrite <-list_fmap_compose. simpl. apply list_fmap_id. }
    rewrite fold_entries_app, fmap_app, Hlr, Hes. split; [done|]. split; [done|].
    split; [congruence|]. split; [congruence|]. split.
    + intros e [He|He]%elem_of_app; [|by apply Hd2].
      apply list_elem_of_fmap in He as (r & -> & Hr). done.
    + intros G HG Hc. destruct (HG1 G HG Hc) as [Hc1 Hl1]. destruct (HG2 G HG Hc1) as [Hc2 Hl2].
      split; [done|]. intros e [He|He]%elem_of_app; [|rewrite <-Hx1, <-Hf1; by apply Hl2].
      apply list_elem_of_fmap in He as (r & -> & Hr). by apply Hl1.
Qed.

Lemma dst_orders_perm rows :
  (d ← dkeys (per_dst_users rows); dst_order rows d) ≡ₚ rows.
Proof.
  destruct (per_dst_users_keys rows) as [Hnd Hk]. rewrite <-(rows_by_dst rows _ Hnd) at 2.
  - generalize (dkeys (per_dst_users rows)). intros ds. induction ds as [|d ds IH]; [done|].
    csimpl. apply Permutation_app; [apply unknown_known_perm|done].
  - intros r Hr. apply Hk. by apply list_elem_of_fmap_2.
Qed.

Lemma aggregate_links_spec ga rows sizes gb :
  ∃ ga' es,
    aggregate_links ga rows sizes gb = (ga', fold_entries [] es) ∧ es.*2 ≡ₚ rows ∧
    ga_excluded ga' = ga_excluded ga ∧ ga_floor ga' = ga_floor ga ∧
    (∀ e, e ∈ es → e.1.2 = ar_dst e.2) ∧
    ∀ G, rows_enriched G rows → cache_coherent ga G sizes →
      cache_coherent ga' G sizes ∧
      ∀ e, e ∈ es → e.1.1 = ref_label (ga_excluded ga) (ga_floor ga) G sizes gb rows e.2.
Proof.
  destruct (process_dsts_spec rows sizes gb (per_dst_users rows) ga [])
    as (ga' & es & He & Hes & Hrest); [intros d us; apply per_dst_users_in|].
  exists ga', es. split; [done|]. split; [|done]. rewrite Hes. apply dst_orders_perm.
Qed.

Lemma link_add_fold l es :
  foldl (λ l e, link_add e.2 l) l es =
  mkLiveLink (ll_src l) (ll_dst l)
    (ll_bytes l + sum_by row_bytes (es : list entry).*2) (ll_flows l + sum_by row_flows es.*2)
    (list_to_set (ar_user_upn <$> es.*2) ∪ ll_users l).
Proof.
  revert l. induction es as [|e es IH]; intros l; csimpl.
  - destruct l; simpl. f_equal; try lia. set_solver.
  - rewrite IH. simpl. f_equal; try lia. set_solver.
Qed.

(** The live link of a key after the walk over the entries. *)
Definition link_of (key : string * string) (rs : list agg_row) : live_link :=
  mkLiveLink key.1 key.2 (sum_by row_bytes rs) (sum_by row_flows rs)
    (list_to_set (ar_user_upn <$> rs)).

Lemma fold_entries_get key es :
  dget key (fold_entries [] es) =
  match filter (λ e, e.1 = key) es with
  | [] => None
  | rs => Some (link_of key rs.*2)
  end.
Proof.
  unfold fold_entries. rewrite dget_group_fold_nil. unfold group_slot.
  destruct (filter _ es) as [|e rs] eqn:E; [done|].
  assert (He : e ∈ filter (λ e, e.1 = key) es) by (rewrite E; left).
  apply list_elem_of_filter in He as [<- _]. rewrite link_add_fold. unfold link_of. simpl.
  f_equal. f_equal. set_solver.
Qed.

Lemma fold_entries_wf es : dict_wf (fold_entries [] es).
Proof. apply group_fold_wf. constructor. Qed.

Lemma fold_entries_key k v es : dget k (fold_entries [] es) = Some v → (ll_src v, ll_dst v) = k.
Proof.
  rewrite fold_entries_get. destruct (filter _ es); [done|]. intros [= <-]. by destruct k.
Qed.

Lemma fold_entries_keys es :
  (λ l, (lk_src l, lk_dst l)) <$> (finalize <$> dvalues (fold_entries [] es)) =
  dkeys (fold_entries [] es).
Proof.
  unfold dvalues, dkeys. rewrite <-!list_fmap_compose. apply list_fmap_ext.
  intros i [k v] Hi%list_elem_of_lookup_2. simpl. eapply fold_entries_key, in_dget; [|exact Hi].
  apply fold_entries_wf.
Qed.

(** The entries of a key are, up to order, the rows with that label and destination. *)
Lemma entries_rows (lab : agg_row → string) es rows key :
  es.*2 ≡ₚ rows → (∀ e, e ∈ es → e.1 = (lab e.2, ar_dst e.2)) →
  (filter (λ e, e.1 = key) es).*2 ≡ₚ filter (λ r, (lab r, ar_dst r) = key) rows.
Proof.
  intros Hp Hlab. rewrite <-Hp. clear Hp. apply reflexive_eq.
  induction es as [|e es IH]; [done|]. rewrite fmap_cons, !filter_cons.
  rewrite (Hlab e) by left.
  destruct (decide ((lab e.2, ar_dst e.2) = key)); rewrite ?fmap_cons, IH; try done;
    intros e' He'; apply Hlab; by right.
Qed.

Lemma link_of_perm key rs rs' : rs ≡ₚ rs' → link_of key rs = link_of key rs'.
Proof.
  intros Hp. unfold link_of. rewrite (sum_by_perm _ _ _ Hp), (sum_by_perm row_flows _ _ Hp).
  f_equal. apply leibniz_equiv. by rewrite Hp.
Qed.

Lemma fold_entries_rows lab es rows key v :
  es.*2 ≡ₚ rows → (∀ e, e ∈ es → e.1 = (lab e.2, ar_dst e.2)) →
  dget key (fold_entries [] es) = Some v ↔
  let rs := filter (λ r, (lab r, ar_dst r) = key) rows in rs ≠ [] ∧ v = link_of key rs.
Proof.
  intros Hp Hlab. pose proof (entries_rows lab es rows key Hp Hlab) as Hperm. cbv zeta.
  set (rs := filter _ rows) in *.
  rewrite fold_entries_get, <-(link_of_perm _ _ _ Hperm).
  destruct (filter _ es) as [|e es'].
  - simpl in Hperm. apply Permutation_nil_l in Hperm. rewrite <-Hperm. naive_solver.
  - assert (rs ≠ []) as Hrs. { intros ->. by apply Permutation_nil_r in Hperm. }
    split; [by intros [= <-]|]. by intros [_ ->].
Qed.

Lemma aggregate_sums ga rows sizes gb :
  sum_by lk_bytes (aggregate ga rows sizes gb).2 = sum_by row_bytes rows ∧
  sum_by lk_flows (aggregate ga rows sizes gb).2 = sum_by row_flows rows.
Proof.
  unfold aggregate. destruct (aggregate_links_spec ga rows sizes gb) as (ga' & es & -> & Hp & _).
  cbn [snd]. unfold dvalues. rewrite !sum_by_fmap. simpl. unfold fold_entries.
  rewrite (group_fold_sum _ _ _ ll_bytes (λ e, row_bytes e.2)) by done.
  rewrite (group_fold_sum _ _ _ ll_flows (λ e, row_flows e.2)) by done.
  rewrite <-!(sum_by_fmap _ snd), <-!(sum_by_perm _ _ _ Hp). simpl. lia.
Qed.

(** The links are one per key, and their destinations are those of the rows. *)
Lemma aggregate_shape ga rows sizes gb :
  let out := (aggregate ga rows sizes gb).2 in
  NoDup ((λ l, (lk_src l, lk_dst l)) <$> out) ∧
  ∀ d, d ∈ lk_dst <$> out ↔ d ∈ ar_dst <$> rows.
Proof.
  unfold aggregate. destruct (aggregate_links_spec ga rows sizes gb) as (ga' & es & -> & Hp & _ & _ & Hd & _).
  cbn [snd]. split; [rewrite fold_entries_keys; apply fold_entries_wf|]. intros d.
  assert (Hk : lk_dst <$> (finalize <$> dvalues (fold_entries [] es)) = (dkeys (fold_entries [] es)).*2).
  { rewrite <-fold_entries_keys, <-!list_fmap_compose. done. }
  rewrite Hk, list_elem_of_fmap. unfold fold_entries. setoid_rewrite group_fold_key.
  rewrite <-Hp, list_elem_of_fmap. split.
  - intros (k & -> & [Hk'|Hk']); [by apply not_elem_of_nil in Hk'|].
    apply list_elem_of_fmap in Hk' as (e & -> & He). exists e.2. rewrite (Hd e He).
    split; [done|]. by apply list_elem_of_fmap_2.
  - intros (r & -> & Hr). apply list_elem_of_fmap in Hr as (e & -> & He).
    exists e.1. split; [symmetry; by apply Hd|]. right. by apply list_elem_of_fmap_2.
Qed.

(** ** Theorems *)

(** C33. [lcd] returns [g] exactly when there is a user, [g] is a group of every
    user and is not excluded, no other such group is smaller (or as small with
    a smaller id), and [g] is within the floor if there is only one user. *)
Theorem lcd_spec users ug sizes excluded floor g :
  lcd users ug sizes excluded floor = Some g ↔
  users ≠ ∅ ∧ lcd_candidate users ug excluded g ∧
  (∀ g', lcd_candidate users ug excluded g' →
     default 0 (sizes !! g) < default 0 (sizes !! g') ∨
     (default 0 (sizes !! g) = default 0 (sizes !! g') ∧ String.leb g g' = true)) ∧
  (size users = 1%nat → default 0 (sizes !! g) ≤ floor).
Proof.
  unfold lcd. destruct (decide (users = ∅)) as [->|Hne]; [naive_solver|].
  destruct (mapM _ _) as [sets|] eqn:Hm.
  - rewrite (lcd_pick sizes floor users _ (lcd_candidate users ug excluded)).
    + setoid_rewrite lcd_key_le. tauto.
    + intros g'. rewrite elem_of_elements. by apply lcd_candidates.
  - pose proof (lcd_missing _ _ excluded Hm). naive_solver.
Qed.

(** Aggregation conserves the traffic: whatever the grouping mode and the
    state of the cache, the bytes and the flow counts of the links add up to
    those of the rows. *)
Theorem aggregate_conserves ga rows sizes gb :
  sum_by lk_bytes (aggregate ga rows sizes gb).2 = sum_by row_bytes rows ∧
  sum_by lk_flows (aggregate ga rows sizes gb).2 = sum_by row_flows rows.
Proof.
  apply aggregate_sums.
Qed.

(** C17. When the cache is coherent with the groups [G] that the rows carry, the
    links are exactly one per label and destination of the rows, each with the
    bytes, the flows and the number of distinct users of its rows, where the
    label of a row follows from [G] alone; and the cache stays coherent. *)
Theorem aggregate_spec ga rows sizes gb G :
  rows_enriched G rows → cache_coherent ga G sizes →
  let '(ga', out) := aggregate ga rows sizes gb in
  let lab := ref_label (ga_excluded ga) (ga_floor ga) G sizes gb rows in
  cache_coherent ga' G sizes ∧
  NoDup ((λ l, (lk_src l, lk_dst l)) <$> out) ∧
  ∀ l, l ∈ out ↔
    let rs := filter (λ r, (lab r, ar_dst r) = (lk_src l, lk_dst l)) rows in
    rs ≠ [] ∧
    l = mkLink (lk_src l) (lk_dst l) (sum_by row_bytes rs) (sum_by row_flows rs)
          (Z.of_nat (size (list_to_set (ar_user_upn <$> rs) : gset string))).
Proof.
  intros HG Hc. unfold aggregate.
  destruct (aggregate_links_spec ga rows sizes gb) as (ga' & es & -> & Hp & _ & _ & Hd & HG').
  destruct (HG' G HG Hc) as [Hc' Hl]. clear HG'. split; [done|].
  split; [rewrite fold_entries_keys; apply fold_entries_wf|].
  assert (Hlab : ∀ e, e ∈ es →
    e.1 = (ref_label (ga_excluded ga) (ga_floor ga) G sizes gb rows e.2, ar_dst e.2)).
  { intros e He. rewrite <-Hl, <-Hd by done. by destruct e.1. }
  intros l. rewrite list_elem_of_fmap. setoid_rewrite (dvalues_in _ _ (fold_entries_wf es)).
  setoid_rewrite (fold_entries_rows _ es rows _ _ Hp Hlab). split.
  - intros (v & -> & [s d] & Hne & ->). split; [done|]. done.
  - intros [Hne Hl']. eexists. split; [|exists (lk_src l, lk_dst l); split; [exact Hne|done]].
    rewrite Hl' at 1. done.
Qed.

(** ** Concrete runs *)

Definition ex_row (u : string) (gs : list string) (dst ip : string) (b : Z) : agg_row :=
  mkAggRow u (Some (list_to_set gs)) dst (Some ip) (Some b) None (Some 1).

Definition ex_rows : list agg_row :=
  [ex_row "ann" ["eng"; "all"] "crm" "10.0.0.1" 10;
   ex_row "bob" ["eng"; "all"] "crm" "10.0.0.2" 20;
   ex_row "unknown" [] "crm" "10.0.0.9" 5;
   ex_row "cid" ["all"] "wiki" "10.0.0.3" 7].

Definition ex_sizes : gmap string Z := {["eng" := 2; "all" := 900]}.

Definition ex_groups (u : string) : gset string :=
  if decide (u = "ann" ∨ u = "bob") then {["eng"; "all"]}
  else if decide (u = "cid") then {["all"]} else ∅.

(** Two colleagues roll up to their smallest common group; the unknown traffic
    stays apart; a lone user whose only group is too large stands alone. *)
Example aggregate_run :
  (aggregate (new_aggregator ∅ 500) ex_rows ex_sizes "group").2 =
  [mkLink "unknown" "crm" 5 1 1; mkLink "eng" "crm" 30 2 2; mkLink "cid" "wiki" 7 1 1].
Proof. vm_compute. reflexivity. Qed.

Lemma new_cache_coherent excluded floor G sizes : cache_coherent (new_aggregator excluded floor) G sizes.
Proof. intros users o. simpl. by rewrite lookup_empty. Qed.

Lemma clear_cache_coherent ga G sizes : cache_coherent (clear_cache ga) G sizes.
Proof. intros users o. simpl. by rewrite lookup_empty. Qed.

Lemma ex_rows_enriched : rows_enriched ex_groups ex_rows.
Proof.
  intros r Hr. unfold ex_rows in Hr. rewrite !elem_of_cons, elem_of_nil in Hr.
  destruct Hr as [->|[->|[->|[->|[]]]]]; by apply leibniz_equiv; vm_compute.
Qed.

Lemma aggregate_spec_witness :
  rows_enriched ex_groups ex_rows ∧
  mkLink "eng" "crm" 30 2 2 ∈ (aggregate (new_aggregator ∅ 500) ex_rows ex_sizes "group").2 ∧
  NoDup ((λ l, (lk_src l, lk_dst l)) <$>
    (aggregate (new_aggregator ∅ 500) ex_rows ex_sizes "group").2).
Proof.
  split; [exact ex_rows_enriched|].
  pose proof (aggregate_spec (new_aggregator ∅ 500) ex_rows ex_sizes "group" ex_groups
    ex_rows_enriched (new_cache_coherent _ _ _ _)) as Hs.
  destruct (aggregate _ _ _ _) as [ga' out]. destruct Hs as (_ & Hnd & Hl).
  split; [|exact Hnd]. apply Hl. vm_compute. split; [discriminate|reflexivity].
Defined.

(** In the [src_ip] mode all the traffic of a user is put under the address of
    their last row for the destination. *)
Example src_ip_last_row :
  (aggregate (new_aggregator ∅ 500)
     [ex_row "ann" [] "crm" "10.0.0.1" 10; ex_row "ann" [] "crm" "10.0.0.2" 20] ∅ "src_ip").2 =
  [mkLink "10.0.0.2" "crm" 30 2 1].
Proof. vm_compute. reflexivity. Qed.

(** A choice that is in the cache is kept when the groups change: the same
    rows give the old label before [clear_cache] and the new one after it. *)
Theorem stale_until_cleared ga known o ug sizes gb rows :
  gb ≠ "user" → gb ≠ "src_ip" → ga_cache ga !! known = Some o →
  choose_labels ga ug sizes gb rows known = (ga, dict_on (λ u, default u o) known) ∧
  (choose_labels (clear_cache ga) ug sizes gb rows known).2 =
    dict_on (λ u, default u (lcd known (dict_on (λ u, ug !!! u) known) sizes
                               (ga_excluded ga) (ga_floor ga))) known.
Proof.
  intros Hu Hs Hc. unfold choose_labels. rewrite !decide_False by done. split.
  - rewrite Hc. simpl. rewrite Hc. simpl. by destruct o.
  - simpl. rewrite lookup_empty. simpl. rewrite lookup_insert_eq. simpl. by destruct (lcd _ _ _ _ _).
Qed.

Lemma stale_until_cleared_witness :
  let ga := mkGroupAggregator ∅ 500 {[ {["ann"]} := Some "eng" ]} in
  let ug : gmap string (gset string) := {["ann" := {["ops"]}]} in
  (choose_labels ga ug {["ops" := 3]} "group" [] {["ann"]}).2 = {["ann" := "eng"]} ∧
  (choose_labels (clear_cache ga) ug {["ops" := 3]} "group" [] {["ann"]}).2 = {["ann" := "ops"]}.
Proof.
  intros ga ug.
  destruct (stale_until_cleared ga {["ann"]} (Some "eng") ug {["ops" := 3]} "group" []) as [H1 H2];
    [discriminate|discriminate|reflexivity|].
  rewrite H1, H2. split; by vm_compute.
Defined.
