(* ===== verification/AppResolver.v ===== *)
(** * The application resolver ([correlator/pipeline/app_resolver.py])

    [AppResolver] names the application behind a destination, trying in turn
    the manual applications, the SaaS catalogue on the name the firewall saw,
    the SaaS match the resolver service left in Redis, the default name of the
    port, and the raw address.  Redis is the argument [get] (the values of its
    keys) and the list of the commands sent to it. *)

From S2P Require Import Prelude PySort PyDict PyStr PyIp.

Record ManualApp : Type := mkManualApp {
  ma_id : Z;
  ma_name : string;
  ma_cidr : string;
  ma_port_min : option Z;
  ma_port_max : option Z;
  ma_proto : option Z;
  ma_priority : Z
}.

Record SaasEntry : Type := mkSaasEntry {
  se_id : Z;
  se_name : string;
  se_pattern : string;
  se_priority : Z
}.

Record PortDefault : Type := mkPortDefault {
  pd_port : Z;
  pd_proto : Z;
  pd_name : string
}.

Inductive LabelKind : Type := Lmanual | Lsaas | Lptr | Lport | Lraw.

#[global] Instance LabelKind_eq_dec : EqDecision LabelKind.
Proof. solve_decision. Defined.

Record AppCandidate : Type := mkAppCandidate {
  ac_label_kind : LabelKind;
  ac_label : string;
  ac_app_id : option Z
}.

Record AppResolver : Type := mkAppResolver {
  rs_manual : list ManualApp;
  rs_saas_sorted : list SaasEntry;
  rs_port_defaults : gmap (Z * Z) PortDefault
}.

Definition new_resolver : AppResolver := mkAppResolver [] [] ∅.

(** The commands that the program sends to Redis. *)
Inductive redis_cmd : Type :=
  | RPush (key value : string)
  | RSet (key value : string) (ex : Z).

(** ** [load] *)

(** [key=lambda a: (-a.priority, -ipaddress.ip_network(a.cidr).prefixlen)] *)
Definition manual_key (a : ManualApp) : result (Z * Z) :=
  net ← ip_network true (ma_cidr a); mret (- ma_priority a, - net_prefixlen net).

(** [key=lambda s: (-s.priority, -len(s.pattern), s.id)] *)
Definition saas_key (s : SaasEntry) : Z * (Z * Z) :=
  (- se_priority s, (- len (se_pattern s), se_id s)).

Definition port_table (ps : list PortDefault) : gmap (Z * Z) PortDefault :=
  foldl (λ m p, <[(pd_port p, pd_proto p) := p]> m) ∅ ps.

(** The keys are computed before anything is assigned, so an invalid network
    raises and leaves the resolver as it was. *)
Definition load_tables (r : AppResolver) (manual : list ManualApp) (saas : list SaasEntry)
    (ports : list PortDefault) : AppResolver * result () :=
  match mapM manual_key manual with
  | Raise e => (r, Raise e)
  | Ok keys =>
      (mkAppResolver ((py_sorted snd (zip manual keys)).*1) (py_sorted saas_key saas)
         (port_table ports), Ok ())
  end.

(** ** Lookups *)

(** The filters of the loop of [_manual_hit] after the address. *)
Definition manual_skip (app : ManualApp) (port proto : Z) : bool :=
  match ma_proto app with Some p => negb (p =? proto) | None => false end ||
  match ma_port_min app with Some lo => port <? lo | None => false end ||
  match ma_port_max app with Some hi => hi <? port | None => false end.

Fixpoint manual_loop (a : ip_addr) (port proto : Z) (apps : list ManualApp) :
    result (option ManualApp) :=
  match apps with
  | [] => Ok None
  | app :: rest =>
      net ← ip_network true (ma_cidr app);
      if negb (in_net a net) then manual_loop a port proto rest
      else if manual_skip app port proto then manual_loop a port proto rest
      else mret (Some app)
  end.

Definition manual_hit (r : AppResolver) (ip : string) (port proto : Z) : result (option ManualApp) :=
  match ip_address ip with
  | Raise _ => Ok None
  | Ok a => manual_loop a port proto (rs_manual r)
  end.

Definition saas_hit (r : AppResolver) (fqdn : string) : option SaasEntry :=
  let lower_ := lower fqdn in
  first_match (λ s, ends_with lower_ (lower (se_pattern s))) (rs_saas_sorted r).

(** The entry whose id the resolver service stored for an address. *)
Definition ptr_hit (r : AppResolver) (stored : string) : option SaasEntry :=
  let saas_id := match py_int stored with Ok n => n | Raise _ => -1 end in
  first_match (λ s, se_id s =? saas_id) (rs_saas_sorted r).

(** The last two steps of [resolve]. *)
Definition port_or_raw (r : AppResolver) (dst_ip : string) (dst_port proto : Z) : AppCandidate :=
  match rs_port_defaults r !! (dst_port, proto) with
  | Some p => mkAppCandidate Lport (pd_name p) None
  | None => mkAppCandidate Lraw (dst_ip +:+ ":" +:+ str_Z dst_port) None
  end.

Definition firewall_hit (r : AppResolver) (fqdn : option string) : option SaasEntry :=
  match fqdn with
  | Some f => if str_true f then saas_hit r f else None
  | None => None
  end.

(** The part of [resolve] that consults Redis. *)
Definition resolve_ptr (r : AppResolver) (get : string → option string) (dst_ip : string)
    (dst_port proto : Z) : AppCandidate * list redis_cmd :=
  let fallback := port_or_raw r dst_ip dst_port proto in
  match get ("dns:ptr:" +:+ dst_ip) with
  | None => (fallback, [RPush "dns:unresolved" dst_ip])
  | Some ptr =>
      if str_true ptr then
        match get ("dns:saas:" +:+ dst_ip) with
        | Some stored =>
            match ptr_hit r stored with
            | Some s => (mkAppCandidate Lptr (se_name s) (Some (se_id s)), [])
            | None => (fallback, [])
            end
        | None => (fallback, [])
        end
      else (fallback, [])
  end.

Definition resolve_app (r : AppResolver) (get : string → option string) (dst_ip : string)
    (dst_port proto : Z) (firewall_fqdn : option string) :
    result (AppCandidate * list redis_cmd) :=
  manual ← manual_hit r dst_ip dst_port proto;
  match manual with
  | Some m => mret (mkAppCandidate Lmanual (ma_name m) (Some (ma_id m)), [])
  | None =>
      match firewall_hit r firewall_fqdn with
      | Some s => mret (mkAppCandidate Lsaas (se_name s) (Some (se_id s)), [])
      | None => mret (resolve_ptr r get dst_ip dst_port proto)
      end
  end.

(** ** Specification vocabulary *)

(** The application covers the address, the port and the protocol. *)
Definition manual_matches (a : ip_addr) (port proto : Z) (app : ManualApp) : Prop :=
  (∃ net, ip_network true (ma_cidr app) = Ok net ∧ ip_ver a = net_ver net ∧
     net_addr net ≤ ip_int a < net_addr net + net_size net) ∧
  (∀ p, ma_proto app = Some p → p = proto) ∧
  (∀ lo, ma_port_min app = Some lo → lo ≤ port) ∧
  (∀ hi, ma_port_max app = Some hi → port ≤ hi).

(** The prefix length of an application's network. *)
Definition manual_prefix (app : ManualApp) : Z :=
  match ip_network true (ma_cidr app) with Ok net => net_prefixlen net | Raise _ => 0 end.

(** The name ends in the pattern, case aside. *)
Definition saas_matches (fqdn : string) (s : SaasEntry) : Prop :=
  ∃ host, lower fqdn = host +:+ lower (se_pattern s).

(** Some manual application covers the flow. *)
Definition manual_any (manual : list ManualApp) (dst_ip : string) (port proto : Z) : Prop :=
  ∃ a app, ip_address dst_ip = Ok a ∧ app ∈ manual ∧ manual_matches a port proto app.

(** The firewall saw a name that some SaaS pattern matches. *)
Definition saas_any (saas : list SaasEntry) (fqdn : option string) : Prop :=
  ∃ f s, fqdn = Some f ∧ f ≠ "" ∧ s ∈ saas ∧ saas_matches f s.

(** The id that a stored text stands for. *)
Definition stored_id (stored : string) : Z :=
  match py_int stored with Ok n => n | Raise _ => -1 end.

(** The resolver service found a name for the address, and a SaaS entry. *)
Definition ptr_any (saas : list SaasEntry) (get : string → option string) (dst_ip : string) : Prop :=
  ∃ ptr stored s, get ("dns:ptr:" +:+ dst_ip) = Some ptr ∧ ptr ≠ "" ∧
    get ("dns:saas:" +:+ dst_ip) = Some stored ∧ s ∈ saas ∧ se_id s = stored_id stored.

(** ** Lemmas *)

Definition manual_test (a : ip_addr) (port proto : Z) (app : ManualApp) : bool :=
  match ip_network true (ma_cidr app) with
  | Ok net => in_net a net && negb (manual_skip app port proto)
  | Raise _ => false
  end.

Lemma manual_loop_first a port proto apps :
  Forall (λ app, is_ok (ip_network true (ma_cidr app)) = true) apps →
  manual_loop a port proto apps = Ok (first_match (manual_test a port proto) apps).
Proof.
  induction 1 as [|app apps Hok _ IH]; simpl; [done|]. unfold manual_test at 1.
  destruct (ip_network true (ma_cidr app)) as [net|]; [|done]. simpl.
  destruct (in_net a net); simpl; [|done]. by destruct (manual_skip app port proto).
Qed.

Lemma manual_skip_spec app port proto :
  manual_skip app port proto = false ↔
  (∀ p, ma_proto app = Some p → p = proto) ∧
  (∀ lo, ma_port_min app = Some lo → lo ≤ port) ∧
  (∀ hi, ma_port_max app = Some hi → port ≤ hi).
Proof.
  unfold manual_skip. rewrite !orb_false_iff.
  destruct (ma_proto app), (ma_port_min app), (ma_port_max app);
    rewrite ?negb_false_iff, ?Z.eqb_eq, ?Z.ltb_ge; naive_solver.
Qed.

Lemma manual_test_matches a port proto app :
  addr_wf a → manual_test a port proto app = true ↔ manual_matches a port proto app.
Proof.
  intros Ha. unfold manual_test, manual_matches.
  destruct (ip_network true (ma_cidr app)) as [net|] eqn:En.
  - rewrite andb_true_iff, negb_true_iff, manual_skip_spec, in_net_range by eauto using ip_network_wf.
    naive_solver.
  - naive_solver.
Qed.

Lemma manual_keys_prefix manual keys :
  mapM manual_key manual = Ok keys →
  keys = (λ app, (- ma_priority app, - manual_prefix app)) <$> manual ∧
  Forall (λ app, is_ok (ip_network true (ma_cidr app)) = true) manual.
Proof.
  rewrite mapM_Ok. induction 1 as [|app k manual keys Hk _ [-> IH]]; [done|]. csimpl.
  unfold manual_key in Hk. unfold manual_prefix.
  destruct (ip_network true (ma_cidr app)) as [net|] eqn:En; [|done]. injection Hk as <-.
  split; [done|]. constructor; [by rewrite En|done].
Qed.

(** The order of the manual applications after [load]. *)
Definition manual_order (app : ManualApp) : Z * Z := (- ma_priority app, - manual_prefix app).

Lemma py_insert_fst {A K} `{PyOrd K} (key : A → K) x (l : list A) :
  (py_insert snd (x, key x) ((λ y, (y, key y)) <$> l)) = (λ y, (y, key y)) <$> py_insert key x l.
Proof. induction l as [|y l IH]; csimpl; [done|]. destruct (py_leb _ _); csimpl; [done|]. by rewrite IH. Qed.

(** Sorting with the keys computed beforehand. *)
Lemma py_sorted_decorated {A K} `{PyOrd K} (key : A → K) (l : list A) :
  (py_sorted snd (zip l (key <$> l))).*1 = py_sorted key l.
Proof.
  assert (Hz : zip l (key <$> l) = (λ y, (y, key y)) <$> l).
  { induction l as [|x l IH]; csimpl; [done|]. by rewrite IH. }
  rewrite Hz. clear Hz.
  assert (Hs : py_sorted snd ((λ y, (y, key y)) <$> l) = (λ y, (y, key y)) <$> py_sorted key l).
  { induction l as [|x l IH]; csimpl; [done|]. by rewrite IH, py_insert_fst. }
  rewrite Hs, <-list_fmap_compose. apply list_fmap_id.
Qed.

Lemma load_tables_ok r0 manual saas ports r :
  load_tables r0 manual saas ports = (r, Ok ()) →
  r = mkAppResolver (py_sorted manual_order manual) (py_sorted saas_key saas) (port_table ports) ∧
  Forall (λ app, is_ok (ip_network true (ma_cidr app)) = true) manual.
Proof.
  unfold load_tables. destruct (mapM manual_key manual) as [keys|] eqn:Ek; [|done]. intros [= <-].
  apply manual_keys_prefix in Ek as [-> Hok]. split; [|done]. f_equal. apply (py_sorted_decorated manual_order).
Qed.

Lemma manual_order_le app app' :
  key_le manual_order app app' ↔
  ma_priority app' < ma_priority app ∨
  (ma_priority app' = ma_priority app ∧ manual_prefix app' ≤ manual_prefix app).
Proof. unfold key_le, manual_order. rewrite py_leb_pair, !py_leb_Z. lia. Qed.

Lemma saas_key_le s s' :
  key_le saas_key s s' ↔
  se_priority s' < se_priority s ∨
  (se_priority s' = se_priority s ∧
   (len (se_pattern s') < len (se_pattern s) ∨
    (len (se_pattern s') = len (se_pattern s) ∧ se_id s ≤ se_id s'))).
Proof. unfold key_le, saas_key. rewrite !py_leb_pair, !py_leb_Z. lia. Qed.

Lemma manual_hit_loaded r0 manual saas ports r ip a port proto :
  load_tables r0 manual saas ports = (r, Ok ()) → ip_address ip = Ok a →
  manual_hit r ip port proto = Ok (best_match manual_order (manual_test a port proto) manual).
Proof.
  intros [-> Hok]%load_tables_ok Ha. unfold manual_hit. rewrite Ha. simpl.
  rewrite manual_loop_first, first_match_sorted; [done|].
  eapply Forall_forall. intros app Happ%py_sorted_elem. rewrite Forall_forall in Hok. by apply Hok.
Qed.

Lemma saas_hit_loaded r0 manual saas ports r fqdn :
  load_tables r0 manual saas ports = (r, Ok ()) →
  saas_hit r fqdn =
    best_match saas_key (λ s, ends_with (lower fqdn) (lower (se_pattern s))) saas.
Proof. intros [-> _]%load_tables_ok. unfold saas_hit. simpl. apply first_match_sorted. Qed.

Lemma manual_hit_never_raises r0 manual saas ports r ip port proto :
  load_tables r0 manual saas ports = (r, Ok ()) → is_ok (manual_hit r ip port proto) = true.
Proof.
  intros Hl. destruct (ip_address ip) as [a|] eqn:Ha; [|unfold manual_hit; by rewrite Ha].
  by erewrite manual_hit_loaded.
Qed.

Lemma manual_hit_any r0 manual saas ports r ip port proto :
  load_tables r0 manual saas ports = (r, Ok ()) →
  ∃ o, manual_hit r ip port proto = Ok o ∧ (is_Some o ↔ manual_any manual ip port proto).
Proof.
  intros Hl. destruct (ip_address ip) as [a|] eqn:Ha.
  - rewrite (manual_hit_loaded _ _ _ _ _ _ _ _ _ Hl Ha). eexists. split; [done|].
    pose proof (ip_address_wf _ _ Ha) as Hwf. unfold manual_any. split.
    + intros [app E]. apply best_match_min in E as (Hin & Ht & _).
      exists a, app. split; [done|]. split; [done|]. by apply manual_test_matches.
    + intros (a' & app & Ha' & Hin & Hm). rewrite Ha in Ha'. injection Ha' as <-.
      apply not_eq_None_Some. rewrite best_match_none. intros Hn.
      apply manual_test_matches in Hm; [|done]. by rewrite Hn in Hm.
  - exists None. unfold manual_hit, manual_any. rewrite Ha. split; [done|]. split; [by intros []|].
    by intros (a & app & Ha' & _).
Qed.

Lemma firewall_hit_any r0 manual saas ports r fqdn :
  load_tables r0 manual saas ports = (r, Ok ()) →
  is_Some (firewall_hit r fqdn) ↔ saas_any saas fqdn.
Proof.
  intros Hl. unfold firewall_hit, saas_any, saas_matches.
  destruct fqdn as [[|c f]|]; [split; [by intros []|naive_solver]| |split; [by intros []|naive_solver]].
  simpl str_true. cbv iota. rewrite (saas_hit_loaded _ _ _ _ _ _ Hl). split.
  - intros [s E]. apply best_match_min in E as (Hin & Ht & _). apply ends_with_spec in Ht.
    by exists (String c f), s.
  - intros (f' & s & [= <-] & _ & Hin & Hm%ends_with_spec).
    apply not_eq_None_Some. rewrite best_match_none. intros Hn. by rewrite Hn in Hm.
Qed.

Lemma ptr_hit_any r0 manual saas ports r stored :
  load_tables r0 manual saas ports = (r, Ok ()) →
  is_Some (ptr_hit r stored) ↔ ∃ s, s ∈ saas ∧ se_id s = stored_id stored.
Proof.
  intros [-> _]%load_tables_ok. unfold ptr_hit. simpl. fold (stored_id stored). split.
  - intros [s E]. apply first_match_elem in E as (Hin & Ht).
    apply py_sorted_elem in Hin. apply Z.eqb_eq in Ht. by exists s.
  - intros (s & Hin & He). apply not_eq_None_Some. rewrite first_match_none. intros Hn.
    apply (py_sorted_elem saas_key) in Hin. apply Hn in Hin. by rewrite (proj2 (Z.eqb_eq _ _) He) in Hin.
Qed.

Lemma port_or_raw_kind r ip port proto :
  let k := ac_label_kind (port_or_raw r ip port proto) in k ≠ Lmanual ∧ k ≠ Lsaas ∧ k ≠ Lptr.
Proof. unfold port_or_raw. by destruct (_ !! _). Qed.

(** The answer of the Redis part, and the command it sends. *)
Lemma resolve_ptr_kind r0 manual saas ports r get ip port proto :
  load_tables r0 manual saas ports = (r, Ok ()) →
  let '(c, cmds) := resolve_ptr r get ip port proto in
  ac_label_kind c ≠ Lmanual ∧ ac_label_kind c ≠ Lsaas ∧
  (ac_label_kind c = Lptr ↔ ptr_any saas get ip) ∧
  cmds = match get ("dns:ptr:" +:+ ip) with None => [RPush "dns:unresolved" ip] | Some _ => [] end.
Proof.
  intros Hl. unfold resolve_ptr.
  pose proof (port_or_raw_kind r ip port proto) as (Hk1 & Hk2 & Hk3).
  assert (Hfall : ∀ cmds, ¬ ptr_any saas get ip →
    ac_label_kind (port_or_raw r ip port proto) ≠ Lmanual ∧
    ac_label_kind (port_or_raw r ip port proto) ≠ Lsaas ∧
    (ac_label_kind (port_or_raw r ip port proto) = Lptr ↔ ptr_any saas get ip) ∧
    (cmds = cmds :> list redis_cmd)) by tauto.
  unfold ptr_any in *.
  destruct (get ("dns:ptr:" +:+ ip)) as [[|c ptr]|]; simpl;
    [apply Hfall; by intros (p & ? & ? & [= <-] & ? & _)| |apply Hfall; by intros (p & ? & ? & ? & _)].
  destruct (get ("dns:saas:" +:+ ip)) as [stored|];
    [|apply Hfall; by intros (p & ? & ? & _ & _ & ? & _)].
  pose proof (ptr_hit_any _ _ _ _ _ stored Hl) as Hp.
  destruct (ptr_hit r stored) as [s|]; simpl.
  - destruct (proj1 Hp) as (s' & Hin & He); [done|].
    split; [done|]. split; [done|]. split; [|done]. split; [|done].
    intros _. by exists (String c ptr), stored, s'.
  - apply Hfall. intros (ptr' & st & s & _ & _ & [= <-] & Hin & He).
    eapply is_Some_None, Hp. by exists s.
Qed.

(** ** Theorems *)

Section app_theorems.
Context (r0 r : AppResolver) (manual : list ManualApp) (saas : list SaasEntry)
  (ports : list PortDefault).

(** After a successful load, a lookup among the manual applications does not
    raise and returns the application, among those whose network range, protocol
    and port range cover the flow, of highest priority and then of the longest
    prefix; nothing exactly when none covers it. *)
Theorem manual_hit_best ip a port proto :
  load_tables r0 manual saas ports = (r, Ok ()) → ip_address ip = Ok a →
  match manual_hit r ip port proto with
  | Raise _ => False
  | Ok None => ∀ app, app ∈ manual → ¬ manual_matches a port proto app
  | Ok (Some app) =>
      app ∈ manual ∧ manual_matches a port proto app ∧
      ∀ app', app' ∈ manual → manual_matches a port proto app' →
        ma_priority app' < ma_priority app ∨
        (ma_priority app' = ma_priority app ∧ manual_prefix app' ≤ manual_prefix app)
  end.
Proof.
  intros Hl Ha. rewrite (manual_hit_loaded _ _ _ _ _ _ _ _ _ Hl Ha). apply ip_address_wf in Ha.
  destruct (best_match _ _ _) as [app|] eqn:E.
  - apply best_match_min in E as (Hin & Ht & Hmin). rewrite manual_test_matches in Ht by done.
    split; [done|]. split; [done|]. intros app' Hin' Hm. rewrite <-manual_order_le.
    apply Hmin; [done|]. by apply manual_test_matches.
  - rewrite best_match_none in E. intros app Hin Hm%manual_test_matches; [|done]. by rewrite E in Hm.
Qed.

(** The SaaS entry for a name is, among the entries whose pattern is a suffix of
    the name (case aside), the one of highest priority, then of the longest
    pattern, then of the smallest id; nothing exactly when no pattern is a suffix. *)
Theorem saas_hit_best fqdn :
  load_tables r0 manual saas ports = (r, Ok ()) →
  match saas_hit r fqdn with
  | None => ∀ s, s ∈ saas → ¬ saas_matches fqdn s
  | Some s => s ∈ saas ∧ saas_matches fqdn s ∧
      ∀ s', s' ∈ saas → saas_matches fqdn s' →
        se_priority s' < se_priority s ∨
        (se_priority s' = se_priority s ∧
         (len (se_pattern s') < len (se_pattern s) ∨
          (len (se_pattern s') = len (se_pattern s) ∧ se_id s ≤ se_id s')))
  end.
Proof.
  intros Hl. rewrite (saas_hit_loaded _ _ _ _ _ _ Hl). unfold saas_matches.
  destruct (best_match _ _ _) as [s|] eqn:E.
  - setoid_rewrite <-ends_with_spec. setoid_rewrite <-saas_key_le. exact (best_match_min _ _ _ _ E).
  - setoid_rewrite <-ends_with_spec. rewrite best_match_none in E.
    intros s Hs. rewrite (E s Hs). done.
Qed.


(** [load] is atomic: it fails exactly when some manual application has an
    invalid network, and then the resolver is as it was; otherwise all three
    tables are replaced, and the ports keep the last entry of each pair. *)
Theorem load_atomic :
  match load_tables r0 manual saas ports with
  | (r', Raise _) => r' = r0 ∧ ∃ app, app ∈ manual ∧ is_ok (ip_network true (ma_cidr app)) = false
  | (r', Ok _) =>
      (∀ app, app ∈ manual → is_ok (ip_network true (ma_cidr app)) = true) ∧
      rs_manual r' ≡ₚ manual ∧ rs_saas_sorted r' ≡ₚ saas ∧
      rs_port_defaults r' = port_table ports
  end.
Proof.
  destruct (load_tables r0 manual saas ports) as [r' [[]|e]] eqn:E.
  - apply load_tables_ok in E as [-> Hok]. simpl. rewrite Forall_forall in Hok.
    split; [exact Hok|]. by rewrite !py_sorted_perm.
  - unfold load_tables in E. destruct (mapM manual_key manual) as [|e'] eqn:Ek; [done|].
    injection E as <- <-. split; [done|]. apply mapM_Raise in Ek as (app & Hin & He).
    exists app. split; [done|]. unfold manual_key in He. by destruct (ip_network true (ma_cidr app)).
Qed.
End app_theorems.

(** ** Concrete runs *)

Definition ex_manual : list ManualApp :=
  [mkManualApp 1 "corp" "10.0.0.0/8" None None None 100;
   mkManualApp 2 "payroll" "10.1.2.0/24" (Some 443) (Some 443) (Some 6) 100;
   mkManualApp 3 "legacy" "10.1.0.0/16" None None None 50].

Definition ex_saas : list SaasEntry :=
  [mkSaasEntry 7 "Microsoft 365" ".office.com" 100;
   mkSaasEntry 8 "Outlook" ".outlook.office.com" 100].

Definition ex_ports : list PortDefault := [mkPortDefault 443 6 "https"].

Definition ex_resolver : AppResolver := (load_tables new_resolver ex_manual ex_saas ex_ports).1.

Definition ex_get (k : string) : option string :=
  if decide (k = "dns:ptr:8.8.8.8") then Some "mail.outlook.office.com"
  else if decide (k = "dns:saas:8.8.8.8") then Some "8" else None.

Definition ex_resolve (ip : string) (port : Z) (fqdn : option string) :=
  resolve_app ex_resolver ex_get ip port 6 fqdn.

Example resolve_runs :
  [ex_resolve "10.1.2.9" 443 None; ex_resolve "10.1.2.9" 80 None;
   ex_resolve "9.9.9.9" 443 (Some "Mail.Outlook.Office.Com"); ex_resolve "8.8.8.8" 443 None;
   ex_resolve "9.9.9.9" 443 None; ex_resolve "9.9.9.9" 99 (Some "")] =
  [Ok (mkAppCandidate Lmanual "payroll" (Some 2), []);
   Ok (mkAppCandidate Lmanual "corp" (Some 1), []);
   Ok (mkAppCandidate Lsaas "Outlook" (Some 8), []);
   Ok (mkAppCandidate Lptr "Outlook" (Some 8), []);
   Ok (mkAppCandidate Lport "https" None, [RPush "dns:unresolved" "9.9.9.9"]);
   Ok (mkAppCandidate Lraw "9.9.9.9:99" None, [RPush "dns:unresolved" "9.9.9.9"])].
Proof. vm_compute. reflexivity. Qed.

(** The priority decides before the specificity of the network. *)
Example priority_beats_prefix :
  manual_hit (load_tables new_resolver
      [mkManualApp 1 "wide" "10.0.0.0/8" None None None 200;
       mkManualApp 2 "host" "10.1.2.3/32" None None None 100] [] []).1 "10.1.2.3" 443 6 =
  Ok (Some (mkManualApp 1 "wide" "10.0.0.0/8" None None None 200)).
Proof. vm_compute. reflexivity. Qed.

Lemma manual_hit_best_witness :
  ∃ a app, manual_hit ex_resolver "10.1.2.9" 443 6 = Ok (Some app) ∧ ma_name app = "payroll" ∧
    manual_matches a 443 6 app.
Proof.
  pose proof (manual_hit_best new_resolver ex_resolver ex_manual ex_saas ex_ports "10.1.2.9"
    (mkAddr V4 167838217) 443 6 eq_refl eq_refl) as H.
  destruct (manual_hit ex_resolver "10.1.2.9" 443 6) as [[app|]|] eqn:E.
  - destruct H as (_ & Hm & _). exists (mkAddr V4 167838217), app. split; [reflexivity|].
    split; [|exact Hm]. vm_compute in E. injection E as <-. reflexivity.
  - vm_compute in E. discriminate E.
  - destruct H.
Defined.

Lemma saas_hit_best_witness :
  ∃ s, saas_hit ex_resolver "a.outlook.OFFICE.com" = Some s ∧ se_id s = 8 ∧
    saas_matches "a.outlook.OFFICE.com" s.
Proof.
  pose proof (saas_hit_best new_resolver ex_resolver ex_manual ex_saas ex_ports "a.outlook.OFFICE.com"
    eq_refl) as H.
  destruct (saas_hit ex_resolver "a.outlook.OFFICE.com") as [s|] eqn:E.
  - destruct H as (_ & Hm & _). exists s. split; [reflexivity|]. split; [|exact Hm].
    vm_compute in E. injection E as <-. reflexivity.
  - vm_compute in E. discriminate E.
Defined.

