(* ===== verification/SaasMatcher.v ===== *)
(** * The SaaS matcher of the resolver service ([resolver/saas_matcher.py])

    The resolver service has its own copy of the suffix matcher of
    [AppResolver]; the two are proved to agree on every catalogue and name. *)

From S2P Require Import Prelude PySort PyStr AppResolver.

Record SaasRow : Type := mkSaasRow {
  sr_id : Z;
  sr_name : string;
  sr_pattern : string;
  sr_priority : Z
}.

(** [SaasMatcher._rows] *)
Record SaasMatcher : Type := mkSaasMatcher { sm_rows : list SaasRow }.

Definition row_key (r : SaasRow) : Z * (Z * Z) := (- sr_priority r, (- len (sr_pattern r), sr_id r)).

Definition new_matcher (rows : list SaasRow) : SaasMatcher := mkSaasMatcher (py_sorted row_key rows).

Definition match_fqdn (m : SaasMatcher) (fqdn : string) : option SaasRow :=
  let lower_ := lower fqdn in
  first_match (λ row, ends_with lower_ (lower (sr_pattern row))) (sm_rows m).

(** The same row of [saas_catalog] as the correlator reads it. *)
Definition as_entry (r : SaasRow) : SaasEntry :=
  mkSaasEntry (sr_id r) (sr_name r) (sr_pattern r) (sr_priority r).

Lemma py_sorted_fmap {A B K} `{PyOrd K} (f : A → B) (key : B → K) (l : list A) :
  py_sorted key (f <$> l) = f <$> py_sorted (λ x, key (f x)) l.
Proof.
  induction l as [|x l IH]; csimpl; [done|]. rewrite IH. clear IH.
  generalize (py_sorted (λ x, key (f x)) l). intros s. induction s as [|y s IH]; csimpl; [done|].
  destruct (py_leb _ _); csimpl; [done|]. by rewrite IH.
Qed.

Lemma first_match_fmap {A B} (f : A → B) (P : B → bool) (l : list A) :
  first_match P (f <$> l) = f <$> first_match (λ x, P (f x)) l.
Proof. induction l as [|x l IH]; csimpl; [done|]. by destruct (P (f x)). Qed.

Lemma saas_hit_match r0 manual rows ports r fqdn :
  load_tables r0 manual (as_entry <$> rows) ports = (r, Ok ()) →
  saas_hit r fqdn = as_entry <$> match_fqdn (new_matcher rows) fqdn.
Proof.
  intros [-> _]%load_tables_ok. unfold saas_hit, match_fqdn, new_matcher. simpl.
  by rewrite py_sorted_fmap, first_match_fmap.
Qed.

(** The two suffix matchers of the system agree: on the same catalogue and
    name, the resolver service and the correlator pick the same entry. *)
Theorem matchers_agree r0 manual rows ports r fqdn :
  load_tables r0 manual (as_entry <$> rows) ports = (r, Ok ()) →
  saas_hit r fqdn = as_entry <$> match_fqdn (new_matcher rows) fqdn.
Proof. apply saas_hit_match. Qed.

Definition ex_catalog : list SaasRow :=
  [mkSaasRow 7 "Microsoft 365" ".office.com" 100; mkSaasRow 8 "Outlook" ".outlook.office.com" 100].

Lemma matchers_agree_witness :
  saas_hit (load_tables new_resolver [] (as_entry <$> ex_catalog) []).1 "x.Outlook.office.com" =
    as_entry <$> match_fqdn (new_matcher ex_catalog) "x.Outlook.office.com" ∧
  sr_id <$> match_fqdn (new_matcher ex_catalog) "x.Outlook.office.com" = Some 8.
Proof.
  split; [|reflexivity]. apply (matchers_agree new_resolver [] ex_catalog []). reflexivity.
Defined.
