(* ===== verification/ResolverWorker.v ===== *)
(** * The resolver worker ([resolver/resolver_worker.py])

    The worker takes addresses from the list [dns:unresolved], looks up their
    name under a rate limit, and leaves in Redis the name and the id of the
    matching SaaS entry, which [AppResolver] reads.  Redis is an interface
    ([KVStore]): the commands that the two services use and the expiry of a key, with
    their documented effect; the reverse lookup and the Postgres upsert are arguments. *)

From Stdlib Require Import QArith Lqa.
From S2P Require Import Prelude PySort PyStr AppResolver SaasMatcher.

#[local] Open Scope Z_scope.

(** ** Redis *)

Class KVStore (S : Type) := {
  kv_get : string → S → option string;
  kv_set : string → string → Z → S → S;
  kv_list : string → S → list string;
  kv_rpush : string → string → S → S;
  kv_lpop : string → S → S;
  kv_expire : string → S → S
}.

Class KVStoreLaws (S : Type) `{KVStore S} : Prop := {
  kv_get_set k k' v ex (s : S) :
    0 < ex → kv_get k (kv_set k' v ex s) = if decide (k = k') then Some v else kv_get k s;
  kv_get_rpush k k' v (s : S) : k ≠ k' → kv_get k (kv_rpush k' v s) = kv_get k s;
  kv_get_lpop k k' (s : S) : k ≠ k' → kv_get k (kv_lpop k' s) = kv_get k s;
  kv_list_set k k' v ex (s : S) : k ≠ k' → kv_list k (kv_set k' v ex s) = kv_list k s;
  kv_list_rpush k k' v (s : S) :
    kv_list k (kv_rpush k' v s) = if decide (k = k') then kv_list k s ++ [v] else kv_list k s;
  kv_list_lpop k (s : S) : kv_list k (kv_lpop k s) = tail (kv_list k s);
  kv_get_expire k k' (s : S) : kv_get k (kv_expire k' s) = if decide (k = k') then None else kv_get k s;
  kv_list_expire k k' (s : S) : k ≠ k' → kv_list k (kv_expire k' s) = kv_list k s
}.

(** The effect of the commands that a service sends. *)
Definition run_cmd {S} `{KVStore S} (s : S) (c : redis_cmd) : S :=
  match c with
  | RPush k v => kv_rpush k v s
  | RSet k v ex => kv_set k v ex s
  end.

(** ** [_TokenBucket]

    Times and tokens are rationals (the source has floats). *)

Record TokenBucket : Type := mkBucket {
  tb_rate : Q;
  tb_capacity : Q;
  tb_tokens : Q;
  tb_last : Q
}.

Definition Qmax' (a b : Q) : Q := if Qle_bool a b then b else a.
Definition Qmin' (a b : Q) : Q := if Qle_bool a b then a else b.

Definition new_bucket (rate now : Q) : TokenBucket :=
  let cap := Qmax' 1 rate in mkBucket rate cap cap now.

(** How long [take] sleeps, if it does, when called at [now]. *)
Definition refill (b : TokenBucket) (now : Q) : Q :=
  Qmin' (tb_capacity b) (tb_tokens b + (now - tb_last b) * tb_rate b)%Q.

Definition sleep_time (b : TokenBucket) (now : Q) : option Q :=
  let t := refill b now in
  if Qle_bool 1 t then None else Some ((1 - t) / tb_rate b)%Q.

(** [take], called at [now]; [wake] is the clock after the sleep. *)
Definition take_token (b : TokenBucket) (now wake : Q) : TokenBucket :=
  match sleep_time b now with
  | None => mkBucket (tb_rate b) (tb_capacity b) (refill b now - 1)%Q now
  | Some _ => mkBucket (tb_rate b) (tb_capacity b) 0 wake
  end.

(** The instant at which [take] returns. *)
Definition take_done (b : TokenBucket) (now wake : Q) : Q :=
  match sleep_time b now with None => now | Some _ => wake end.

(** ** [ResolverWorker] *)

Record ResolverWorker : Type := mkWorker {
  wk_saas : SaasMatcher;
  wk_ptr_ttl : Z;
  wk_saas_ttl : Z;
  wk_bucket : TokenBucket
}.

Section worker.
Context {S : Type} `{KVStore S}.

(** The reverse lookup: [gethostbyaddr] raises, or gives a name that may be empty. *)
Definition ptr_name (answer : result (option string)) : string :=
  match answer with
  | Ok (Some n) => n
  | Ok None => ""
  | Raise _ => ""
  end.

(** What Postgres is asked to store: [(dst_ip, ptr, source)]. *)
Abbreviation upsert := (string * option string * string)%type.

(** [process_one]: the worker and the store afterwards, the upsert if one was
    sent, and the exception if the upsert raised one. *)
Definition process_one (w : ResolverWorker) (s : S) (ip : string) (now wake : Q)
    (answer : result (option string)) (pg : result ()) :
    ResolverWorker * S * list upsert * result () :=
  match kv_get ("dns:ptr:" +:+ ip) s with
  | Some _ => (w, s, [], Ok ())
  | None =>
      let w' := mkWorker (wk_saas w) (wk_ptr_ttl w) (wk_saas_ttl w) (take_token (wk_bucket w) now wake) in
      let name := ptr_name answer in
      let s1 := kv_set ("dns:ptr:" +:+ ip) name (wk_ptr_ttl w) s in
      let up := (ip, if str_true name then Some name else None, "ptr") in
      match pg with
      | Raise e => (w', s1, [up], Raise e)
      | Ok _ =>
          if str_true name then
            match match_fqdn (wk_saas w) name with
            | Some row =>
                (w', kv_set ("dns:saas:" +:+ ip) (str_Z (sr_id row)) (wk_saas_ttl w) s1, [up], Ok ())
            | None => (w', s1, [up], Ok ())
            end
          else (w', s1, [up], Ok ())
      end
  end.

(** One turn of [run_loop] (the poll of [blpop] times out on an empty list); an
    exception of [process_one] is logged and dropped. *)
Definition loop_turn (w : ResolverWorker) (s : S) (queue_key : string) (now wake : Q)
    (ptr : string → result (option string)) (pg : result ()) : ResolverWorker * S * list upsert :=
  match kv_list queue_key s with
  | [] => (w, s, [])
  | ip :: _ =>
      let '(w', s', ups, _) := process_one w (kv_lpop queue_key s) ip now wake (ptr ip) pg in
      (w', s', ups)
  end.
End worker.

(** ** The rate limit *)

Section rate.
#[local] Open Scope Q_scope.

Definition bucket_wf (b : TokenBucket) : Prop :=
  0 < tb_rate b ∧ 1 <= tb_capacity b ∧ 0 <= tb_tokens b ∧ tb_tokens b <= tb_capacity b.

(** Calls of [take], one after the other (the lock): each starts after the
    previous one returned, and a sleep lasts at least as long as asked. *)
Fixpoint calls_ok (b : TokenBucket) (calls : list (Q * Q)) : Prop :=
  match calls with
  | [] => True
  | (now, wake) :: rest =>
      tb_last b <= now ∧ (∀ d, sleep_time b now = Some d → now + d <= wake) ∧
      calls_ok (take_token b now wake) rest
  end.

Definition takes (b : TokenBucket) (calls : list (Q * Q)) : TokenBucket :=
  foldl (λ b c, take_token b c.1 c.2) b calls.

Lemma Qle_bool_false a b : Qle_bool a b = false → b < a.
Proof.
  intros Hb. apply Qnot_le_lt. intros Hle. apply Qle_bool_iff in Hle. congruence.
Qed.

Lemma Qmin_le a b : Qmin' a b <= a ∧ Qmin' a b <= b.
Proof.
  unfold Qmin'. destruct (Qle_bool a b) eqn:E; [apply Qle_bool_iff in E|apply Qle_bool_false in E]; lra.
Qed.

Lemma Qmin_cases a b : Qmin' a b = a ∨ Qmin' a b = b.
Proof. unfold Qmin'. destruct (Qle_bool a b); tauto. Qed.

Lemma refill_le b now :
  refill b now <= tb_capacity b ∧ refill b now <= tb_tokens b + (now - tb_last b) * tb_rate b.
Proof. apply Qmin_le. Qed.

Lemma refill_nonneg b now : bucket_wf b → tb_last b <= now → 0 <= refill b now.
Proof.
  intros (Hr & Hc & H0 & H1) Hn. unfold refill.
  assert (0 <= (now - tb_last b) * tb_rate b) by (apply Qmult_le_0_compat; lra).
  destruct (Qmin_cases (tb_capacity b) (tb_tokens b + (now - tb_last b) * tb_rate b)) as [-> | ->]; lra.
Qed.

(** One call: it costs a token, paid from the refill or by the sleep. *)
Lemma take_token_step b now wake :
  bucket_wf b → tb_last b <= now → (∀ d, sleep_time b now = Some d → now + d <= wake) →
  let b' := take_token b now wake in
  bucket_wf b' ∧ tb_rate b' = tb_rate b ∧ tb_capacity b' = tb_capacity b ∧
  tb_tokens b' + 1 <= tb_tokens b + tb_rate b * (tb_last b' - tb_last b).
Proof.
  intros Hwf Hn Hw. pose proof (refill_nonneg b now Hwf Hn) as Hr0.
  pose proof (refill_le b now) as [Hr1 Hr2]. destruct Hwf as (Hr & Hc & H0 & H1).
  unfold take_token. unfold sleep_time in *.
  destruct (Qle_bool 1 (refill b now)) eqn:E.
  - apply Qle_bool_iff in E. unfold bucket_wf. simpl. repeat split; try lra.
  - apply Qle_bool_false in E. specialize (Hw _ eq_refl).
    assert (Heq : refill b now == tb_tokens b + (now - tb_last b) * tb_rate b).
    { unfold refill in *. destruct (Qmin_cases (tb_capacity b)
        (tb_tokens b + (now - tb_last b) * tb_rate b)) as [Hm|Hm]; rewrite Hm in *; lra. }
    assert (Hsleep : 1 - refill b now <= tb_rate b * (wake - now)).
    { assert (Hq : tb_rate b * ((1 - refill b now) / tb_rate b) == 1 - refill b now) by (field; lra).
      rewrite <-Hq at 1. apply Qmult_le_l; lra. }
    unfold bucket_wf. simpl. repeat split; try lra.
Qed.

Lemma takes_bound b calls :
  bucket_wf b → calls_ok b calls →
  bucket_wf (takes b calls) ∧ tb_rate (takes b calls) = tb_rate b ∧
  tb_tokens (takes b calls) + inject_Z (Z.of_nat (length calls)) <=
    tb_tokens b + tb_rate b * (tb_last (takes b calls) - tb_last b).
Proof.
  revert b. induction calls as [|[now wake] calls IH]; intros b Hwf Hok.
  - unfold takes. cbn [foldl length Z.of_nat]. split; [done|]. split; [done|].
    change (inject_Z (Z.of_nat 0)) with 0. lra.
  - destruct Hok as (Hn & Hw & Hok). destruct (take_token_step b now wake Hwf Hn Hw) as (Hwf' & Hr & _ & Hs).
    destruct (IH _ Hwf' Hok) as (Hwf2 & Hr2 & Hb). unfold takes in *. cbn [foldl fst snd].
    split; [done|]. split; [by rewrite Hr2|]. rewrite Hr in Hb.
    rewrite length_cons, Nat2Z.inj_succ, <-Z.add_1_l, inject_Z_plus.
    change (inject_Z 1) with 1. lra.
Qed.
End rate.

(** ** Lemmas on the store and the ids *)

Section worker_lemmas.
Context {S : Type} `{KVStoreLaws S}.
Implicit Types (s : S).

Lemma ptr_saas_keys ip : "dns:ptr:" +:+ ip ≠ "dns:saas:" +:+ ip.
Proof. intros Heq. discriminate Heq. Qed.

(** What [process_one] leaves in the store for an address it had not seen. *)
Lemma process_one_store w s ip now wake answer pg w' s' ups res :
  0 < wk_ptr_ttl w → 0 < wk_saas_ttl w → kv_get ("dns:ptr:" +:+ ip) s = None →
  process_one w s ip now wake answer pg = (w', s', ups, res) →
  let name := ptr_name answer in
  kv_get ("dns:ptr:" +:+ ip) s' = Some name ∧
  kv_get ("dns:saas:" +:+ ip) s' =
    match pg, match_fqdn (wk_saas w) name with
    | Ok _, Some row => if str_true name then Some (str_Z (sr_id row)) else kv_get ("dns:saas:" +:+ ip) s
    | _, _ => kv_get ("dns:saas:" +:+ ip) s
    end ∧
  ups = [(ip, if str_true name then Some name else None, "ptr")] ∧ res = pg.
Proof.
  intros Ht1 Ht2 Hnone Hp name. unfold process_one in Hp. rewrite Hnone in Hp. fold name in Hp.
  pose proof (ptr_saas_keys ip) as Hk. destruct pg as [[]|e].
  - destruct (match_fqdn (wk_saas w) name) as [row|]; destruct (str_true name);
      injection Hp as <- <- <- <-; rewrite ?kv_get_set by done;
      rewrite ?(decide_False (P := "dns:ptr:" +:+ ip = "dns:saas:" +:+ ip)) by done;
      rewrite ?(decide_False (P := "dns:saas:" +:+ ip = "dns:ptr:" +:+ ip)) by congruence;
      rewrite ?decide_True by done; rewrite ?kv_get_set, ?decide_True by done;
      rewrite ?(decide_False (P := "dns:saas:" +:+ ip = "dns:ptr:" +:+ ip)) by congruence; done.
  - injection Hp as <- <- <- <-. rewrite !kv_get_set, decide_True, decide_False by congruence.
    by destruct (match_fqdn (wk_saas w) name).
Qed.
End worker_lemmas.

Lemma ids_unique rows (row row' : SaasRow) :
  NoDup (sr_id <$> rows) → row ∈ rows → row' ∈ rows → sr_id row = sr_id row' → row = row'.
Proof.
  induction rows as [|x rows IH]; csimpl; [by rewrite elem_of_nil|].
  intros [Hx Hnd]%NoDup_cons [->|H1]%elem_of_cons [->|H2]%elem_of_cons Heq; auto.
  - destruct Hx. rewrite Heq. by apply list_elem_of_fmap_2.
  - destruct Hx. rewrite <-Heq. by apply list_elem_of_fmap_2.
Qed.

Lemma match_fqdn_elem rows fqdn row : match_fqdn (new_matcher rows) fqdn = Some row → row ∈ rows.
Proof. intros Hm. apply first_match_elem in Hm as [Hin _]. by apply py_sorted_elem in Hin. Qed.

(** The stored id leads back to its entry. *)
Lemma ptr_hit_stored r0 manual rows ports r row :
  load_tables r0 manual (as_entry <$> rows) ports = (r, Ok ()) →
  NoDup (sr_id <$> rows) → row ∈ rows → Z.abs (sr_id row) < int_bound →
  ptr_hit r (str_Z (sr_id row)) = Some (as_entry row).
Proof.
  intros [-> _]%load_tables_ok Hnd Hin Hb. unfold ptr_hit. rewrite py_int_str_Z by done. simpl.
  rewrite py_sorted_fmap, first_match_fmap. simpl.
  destruct (first_match _ _) as [row'|] eqn:E; simpl.
  - apply first_match_elem in E as [Hin' He]. apply py_sorted_elem in Hin'. apply Z.eqb_eq in He.
    do 2 f_equal. by eapply ids_unique.
  - rewrite first_match_none in E. specialize (E row).
    rewrite py_sorted_elem in E. specialize (E Hin). simpl in E. by rewrite Z.eqb_refl in E.
Qed.

(** With no manual application and no name from the firewall, Redis decides. *)
Lemma resolve_app_ptr r0 manual saas ports r get ip port proto fqdn :
  load_tables r0 manual saas ports = (r, Ok ()) →
  ¬ manual_any manual ip port proto → ¬ saas_any saas fqdn →
  resolve_app r get ip port proto fqdn = Ok (resolve_ptr r get ip port proto).
Proof.
  intros Hl Hm Hs. unfold resolve_app.
  destruct (manual_hit_any _ _ _ _ _ ip port proto Hl) as (o & -> & Ho).
  destruct o; [exfalso; apply Hm; by apply Ho|]. simpl.
  pose proof (firewall_hit_any _ _ _ _ _ fqdn Hl) as Hf.
  destruct (firewall_hit r fqdn); [exfalso; apply Hs; by apply Hf|done].
Qed.

(** ** Theorems *)

(** C31. The rate limit holds over any run of lookups, from any state of the bucket:
    the number of [take]s that have returned is at most the capacity plus the
    rate times the elapsed time, and no call sleeps longer than one over the rate. *)
Theorem rate_limited b calls now :
  bucket_wf b → calls_ok b calls → (tb_last b <= now)%Q →
  (inject_Z (Z.of_nat (length calls)) <=
     tb_capacity b + tb_rate b * (tb_last (takes b calls) - tb_last b))%Q ∧
  (∀ d, sleep_time b now = Some d → (0 < d ∧ d <= 1 / tb_rate b)%Q).
Proof.
  intros Hwf Hok Hnow. split.
  - destruct (takes_bound b calls Hwf Hok) as ((_ & _ & H0 & _) & _ & Hb).
    destruct Hwf as (_ & _ & _ & Hc). lra.
  - intros d. unfold sleep_time. destruct (Qle_bool 1 _) eqn:E; [done|]. intros [= <-].
    apply Qle_bool_false in E. pose proof (refill_nonneg b now Hwf Hnow).
    destruct Hwf as (Hr & _). split.
    + apply Qlt_shift_div_l; lra.
    + unfold Qdiv. apply Qmult_le_compat_r; [lra|]. apply Qinv_le_0_compat. lra.
Qed.

Section worker_theorems.
Context {S : Type} `{KVStoreLaws S}.
Context (r0 r : AppResolver) (manual : list ManualApp) (rows : list SaasRow) (ports : list PortDefault).
Context (w : ResolverWorker) (s : S) (ip : string) (port proto : Z) (fqdn : option string).

(** C32. The two services agree through Redis.  When the worker has looked up an
    address that Redis did not know, and the catalogue of both services is the
    same with distinct ids, a flow to that address (with no manual application
    and no name from the firewall) gets the label of the SaaS entry that matches
    the looked-up name, or the port or raw label if none does, and the address
    is not queued again. *)
Theorem ptr_label_roundtrip now wake answer :
  load_tables r0 manual (as_entry <$> rows) ports = (r, Ok ()) →
  NoDup (sr_id <$> rows) → Forall (λ row, Z.abs (sr_id row) < 2 ^ 63) rows →
  wk_saas w = new_matcher rows → 0 < wk_ptr_ttl w → 0 < wk_saas_ttl w →
  kv_get ("dns:ptr:" +:+ ip) s = None → kv_get ("dns:saas:" +:+ ip) s = None →
  ¬ manual_any manual ip port proto → ¬ saas_any (as_entry <$> rows) fqdn →
  let s' := (process_one w s ip now wake answer (Ok ())).1.1.2 in
  resolve_app r (λ k, kv_get k s') ip port proto fqdn =
    Ok (match (if str_true (ptr_name answer) then match_fqdn (wk_saas w) (ptr_name answer) else None) with
        | Some row => mkAppCandidate Lptr (sr_name row) (Some (sr_id row))
        | None => port_or_raw r ip port proto
        end, []).
Proof.
  intros Hl Hnd Hb Hw Ht1 Ht2 Hp Hs Hm Hf s'. rewrite (resolve_app_ptr _ _ _ _ _ _ _ _ _ _ Hl Hm Hf).
  f_equal. subst s'. destruct (process_one _ _ _ _ _ _ _) as [[[w' s'] ups] res] eqn:E. simpl.
  destruct (process_one_store _ _ _ _ _ _ _ _ _ _ _ Ht1 Ht2 Hp E) as (Hptr & Hsaas & _ & _).
  unfold resolve_ptr. rewrite Hptr, Hsaas, Hs, Hw. clear E Hsaas Hptr.
  destruct (match_fqdn (new_matcher rows) (ptr_name answer)) as [row|] eqn:Em.
  - destruct (str_true (ptr_name answer)); [|done].
    apply match_fqdn_elem in Em. rewrite (ptr_hit_stored _ _ _ _ _ _ Hl Hnd Em); [done|].
    rewrite Forall_forall in Hb. eapply Z.lt_trans; [by apply Hb|]. vm_compute. reflexivity.
  - by destruct (str_true (ptr_name answer)).
Qed.

(** When the Postgres upsert raises, the name is already in Redis but the SaaS
    id is not stored: until the name expires, the address is neither looked up
    again nor labelled from the catalogue, even if the name matches an entry. *)
Theorem upsert_error_hides_saas now wake answer e now' wake' answer' pg' :
  load_tables r0 manual (as_entry <$> rows) ports = (r, Ok ()) →
  0 < wk_ptr_ttl w → 0 < wk_saas_ttl w →
  kv_get ("dns:ptr:" +:+ ip) s = None → kv_get ("dns:saas:" +:+ ip) s = None →
  ¬ manual_any manual ip port proto → ¬ saas_any (as_entry <$> rows) fqdn →
  let '(w', s', _, res) := process_one w s ip now wake answer (Raise e) in
  res = Raise e ∧
  process_one w' s' ip now' wake' answer' pg' = (w', s', [], Ok ()) ∧
  resolve_app r (λ k, kv_get k s') ip port proto fqdn = Ok (port_or_raw r ip port proto, []).
Proof.
  intros Hl Ht1 Ht2 Hp Hs Hm Hf. destruct (process_one _ _ _ _ _ _ _) as [[[w' s'] ups] res] eqn:E.
  destruct (process_one_store _ _ _ _ _ _ _ _ _ _ _ Ht1 Ht2 Hp E) as (Hptr & Hsaas & _ & ->).
  split; [done|]. split.
  - unfold process_one. by rewrite Hptr.
  - rewrite (resolve_app_ptr _ _ _ _ _ _ _ _ _ _ Hl Hm Hf). unfold resolve_ptr.
    rewrite Hptr, Hsaas, Hs. by destruct (str_true (ptr_name answer)).
Qed.
End worker_theorems.

(** ** Concrete runs *)

(** A store that satisfies the laws. *)
Definition map_store : Type := gmap string string * gmap string (list string).

#[global] Instance map_store_ops : KVStore map_store := {
  kv_get k s := s.1 !! k;
  kv_set k v ex s := (<[k := v]> s.1, s.2);
  kv_list k s := default [] (s.2 !! k);
  kv_rpush k v s := (s.1, <[k := default [] (s.2 !! k) ++ [v]]> s.2);
  kv_lpop k s := (s.1, <[k := tail (default [] (s.2 !! k))]> s.2);
  kv_expire k s := (delete k s.1, delete k s.2)
}.

#[global] Instance map_store_laws : KVStoreLaws map_store.
Proof.
  split; intros; simpl; try done.
  - rewrite lookup_insert. repeat case_decide; congruence.
  - rewrite lookup_insert. repeat case_decide; subst; congruence || done.
  - by rewrite lookup_insert_eq.
  - rewrite lookup_delete. by repeat case_decide.
  - by rewrite lookup_delete_ne.
Qed.

Definition ex_worker : ResolverWorker := mkWorker (new_matcher ex_catalog) 3600 3600 (new_bucket 50 0).
Definition ex_store : map_store := (∅, {["dns:unresolved" := ["8.8.8.8"]]}).
Definition ex_answer : result (option string) := Ok (Some "mail.outlook.office.com").
Definition ex_app_resolver : AppResolver := (load_tables new_resolver [] (as_entry <$> ex_catalog) []).1.

Lemma new_bucket_wf rate now : (0 < rate)%Q → bucket_wf (new_bucket rate now).
Proof.
  intros Hr. unfold bucket_wf, new_bucket, Qmax'. simpl.
  destruct (Qle_bool 1 rate) eqn:E; [apply Qle_bool_iff in E|apply Qle_bool_false in E]; repeat split; lra.
Qed.

Lemma rate_limited_witness :
  let b := new_bucket (1 # 2) 0 in
  let calls := [(0, 0); (0, 2); (5, 5)]%Q in
  tb_tokens (takes b calls) = ((1 # 1) - 1)%Q ∧
  (inject_Z 3 <= tb_capacity b + tb_rate b * (tb_last (takes b calls) - tb_last b))%Q.
Proof.
  intros b calls. split; [vm_compute; reflexivity|].
  apply (rate_limited b calls 0).
  - apply new_bucket_wf. reflexivity.
  - vm_compute. repeat split; try discriminate; intros d E; try discriminate E; injection E as <-; discriminate.
  - discriminate.
Defined.

Lemma no_manual ip port proto : ¬ manual_any [] ip port proto.
Proof. intros (a & app & _ & Hin & _). by apply not_elem_of_nil in Hin. Qed.

Lemma no_fqdn saas : ¬ saas_any saas None.
Proof. by intros (f & s & Hf & _). Qed.

Lemma ptr_label_roundtrip_witness :
  let s' := (process_one ex_worker ex_store "8.8.8.8" 0 0 ex_answer (Ok ())).1.1.2 in
  resolve_app ex_app_resolver (λ k, kv_get k s') "8.8.8.8" 443 6 None =
    Ok (mkAppCandidate Lptr "Outlook" (Some 8), []).
Proof.
  intros s'. subst s'.
  rewrite (ptr_label_roundtrip new_resolver ex_app_resolver [] ex_catalog [] ex_worker ex_store
    "8.8.8.8" 443 6 None 0 0 ex_answer); try reflexivity.
  - apply (bool_decide_unpack _). vm_compute. exact I.
  - repeat constructor.
  - apply no_manual.
  - apply no_fqdn.
Defined.

Lemma upsert_error_hides_saas_witness :
  let '(w', s', _, res) := process_one ex_worker ex_store "8.8.8.8" 0 0 ex_answer (Raise OtherError) in
  res = Raise OtherError ∧ process_one w' s' "8.8.8.8" 9 9 ex_answer (Ok ()) = (w', s', [], Ok ()) ∧
  resolve_app ex_app_resolver (λ k, kv_get k s') "8.8.8.8" 443 6 None =
    Ok (mkAppCandidate Lraw "8.8.8.8:443" None, []).
Proof.
  apply (upsert_error_hides_saas new_resolver ex_app_resolver [] ex_catalog [] ex_worker ex_store
    "8.8.8.8" 443 6 None 0 0 ex_answer OtherError 9 9 ex_answer (Ok ())); try reflexivity.
  - apply no_manual.
  - apply no_fqdn.
Defined.

(** A turn of the loop takes the queued address and stores its name. *)
Example loop_turn_run :
  let '(_, s', ups) := loop_turn ex_worker ex_store "dns:unresolved" 0 0 (λ _, ex_answer) (Ok ()) in
  kv_list "dns:unresolved" s' = [] ∧ kv_get "dns:saas:8.8.8.8" s' = Some "8" ∧
  ups = [("8.8.8.8", Some "mail.outlook.office.com", "ptr")].
Proof. vm_compute. done. Qed.
