(* ===== verification/SankeyPublisher.v ===== *)
(** * The Sankey publisher ([correlator/pipeline/sankey_publisher.py])

    [SankeyPublisher] collects the labelled flows of a bucket and publishes a
    delta when a flow of a later bucket arrives: either the legacy view (source
    address to application) or the grouped view through [GroupAggregator]. *)

From S2P Require Import Prelude PySort PyDict PyStr GroupIndex GroupAggregator AppResolver.

Record LabelledFlow : Type := mkLabelledFlow {
  lf_bucket_start : Z;
  lf_window_s : Z;
  lf_src_ip : string;
  lf_dst_ip : string;
  lf_dst_port : Z;
  lf_proto : Z;
  lf_bytes : Z;
  lf_packets : Z;
  lf_flow_count : Z;
  lf_candidate : AppCandidate;
  lf_lossy : bool;
  lf_dropped_count : Z;
  lf_user_upn : string;
  lf_groups : gset string
}.

Record left_node : Type := mkLeftNode { ln_id : string; ln_label : string; ln_size : Z }.
Record right_node : Type := mkRightNode { rn_id : string; rn_label : string; rn_kind : LabelKind }.

(** The published message; [ts] is the instant that [isoformat] prints. *)
Record delta : Type := mkDelta {
  dl_ts : Z;
  dl_window_s : Z;
  dl_nodes_left : list left_node;
  dl_nodes_right : list right_node;
  dl_links : list Link;
  dl_lossy : bool;
  dl_dropped_count : Z
}.

(** [lossy = lossy or f.lossy] and [dropped += f.dropped_count] over the flows. *)
Definition any_lossy (flows : list LabelledFlow) : bool := existsb lf_lossy flows.
Definition total_dropped (flows : list LabelledFlow) : Z := sum_by lf_dropped_count flows.

(** [flows[0].window_s] of a list that [_publish] has found not to be empty. *)
Definition first_window (flows : list LabelledFlow) : Z :=
  match flows with [] => 0 | f :: _ => lf_window_s f end.

Definition app_id (f : LabelledFlow) : string := "app:" +:+ ac_label (lf_candidate f).

(** ** [_build_legacy_delta] *)

Definition ip_id (f : LabelledFlow) : string := "ip:" +:+ lf_src_ip f.

Definition legacy_links (flows : list LabelledFlow) : pydict (string * string) Link :=
  group_fold (λ f, (ip_id f, app_id f)) (λ f, mkLink (ip_id f) (app_id f) 0 0 0)
    (λ l f, mkLink (lk_src l) (lk_dst l) (lk_bytes l + lf_bytes f) (lk_flows l + lf_flow_count f)
              (lk_users l)) [] flows.

Definition legacy_left (flows : list LabelledFlow) : pydict string left_node :=
  group_fold ip_id (λ f, mkLeftNode (ip_id f) (lf_src_ip f) 0)
    (λ n f, mkLeftNode (ln_id n) (ln_label n) (ln_size n + 1)) [] flows.

Definition legacy_right (flows : list LabelledFlow) : pydict string right_node :=
  group_fold app_id
    (λ f, mkRightNode (app_id f) (ac_label (lf_candidate f)) (ac_label_kind (lf_candidate f)))
    (λ n _, n) [] flows.

Definition build_legacy_delta (bucket : Z) (flows : list LabelledFlow) : delta :=
  mkDelta bucket (first_window flows) (dvalues (legacy_left flows)) (dvalues (legacy_right flows))
    (dvalues (legacy_links flows)) (any_lossy flows) (total_dropped flows).

(** ** [_build_group_delta] *)

(** The row of a flow for the aggregator. *)
Definition flow_row (f : LabelledFlow) : agg_row :=
  mkAggRow (lf_user_upn f) (Some (lf_groups f)) (app_id f) (Some (lf_src_ip f)) (Some (lf_bytes f))
    (Some (lf_flow_count f)) None.

(** [right_kind] and [right_label]: the last flow of a destination wins. *)
Definition right_info (flows : list LabelledFlow) : gmap string AppCandidate :=
  foldl (λ m f, <[app_id f := lf_candidate f]> m) ∅ flows.

(** [_build_left_nodes] *)
Definition node_size (group_by : string) (gi : option GroupIndex) (src : string) : Z :=
  match gi with
  | Some g => if decide (group_by = "group" ∧ src ≠ "unknown") then size_of g src else 0
  | None => 0
  end.

Definition build_left_nodes (group_by : string) (gi : option GroupIndex) (links : list Link) :
    list left_node :=
  dvalues (group_fold lk_src
    (λ l, mkLeftNode (lk_src l) (lk_src l) (node_size group_by gi (lk_src l))) (λ n _, n) [] links).

(** [sorted({link["dst"] for link in links})], those in [right_label]. *)
Definition build_right_nodes (info : gmap string AppCandidate) (links : list Link) : list right_node :=
  omap (λ d, c ← info !! d; Some (mkRightNode d (ac_label c) (ac_label_kind c)))
    (py_sorted id (elements (list_to_set (lk_dst <$> links) : gset string))).

(** The counters that the builder updates: the misses of the group choice, and
    the share of unknown flows as a pair of counts. *)
Record group_metrics : Type := mkGroupMetrics {
  gm_lcd_miss : Z;
  gm_unknown : Z;
  gm_total : Z
}.

Definition lcd_misses (group_by : string) (links : list Link) : Z :=
  if decide (group_by = "group") then
    sum_by (λ l, if bool_decide (lk_src l ≠ "unknown") && has_char "@" (lk_src l) then 1 else 0) links
  else 0.

Definition build_group_delta (agg : GroupAggregator) (gi : option GroupIndex) (group_by : string)
    (bucket : Z) (flows : list LabelledFlow) : GroupAggregator * delta * group_metrics :=
  let sizes := match gi with Some g => group_sizes g | None => ∅ end in
  let '(agg', links) := aggregate agg (flow_row <$> flows) sizes group_by in
  (agg',
   mkDelta bucket (first_window flows) (build_left_nodes group_by gi links)
     (build_right_nodes (right_info flows) links) links (any_lossy flows) (total_dropped flows),
   mkGroupMetrics (lcd_misses group_by links)
     (sum_by (λ f, if decide (lf_user_upn f = "unknown") then 1 else 0) flows)
     (Z.of_nat (length flows))).

(** ** [_publish] and [run] *)

Record SankeyPublisher : Type := mkPublisher {
  sp_channel : string;
  sp_group_by : string;
  sp_aggregator : option GroupAggregator;
  sp_current : option Z;
  sp_pending : list LabelledFlow
}.

Definition new_publisher (channel group_by : string) (agg : option GroupAggregator) : SankeyPublisher :=
  mkPublisher channel group_by agg None [].

(** What is sent to Redis: the latest delta is stored and the delta published. *)
Inductive sankey_cmd : Type :=
  | StoreLast (d : delta)
  | PublishOn (channel : string) (d : delta).

(** The delta of a batch, and the aggregator afterwards. *)
Definition build_delta (p : SankeyPublisher) (gi : option GroupIndex) (bucket : Z)
    (flows : list LabelledFlow) : option GroupAggregator * delta :=
  match sp_aggregator p with
  | None => (None, build_legacy_delta bucket flows)
  | Some agg =>
      if decide (sp_group_by p = "app") then (Some agg, build_legacy_delta bucket flows)
      else let '(agg', d, _) := build_group_delta agg gi (sp_group_by p) bucket flows in (Some agg', d)
  end.

(** The commands of one publication; if the first raises, the second is not sent,
    and in either case the exception is logged and dropped. *)
Definition send_delta (channel : string) (d : delta) (store : result ()) : list sankey_cmd :=
  match store with
  | Ok _ => [StoreLast d; PublishOn channel d]
  | Raise _ => [StoreLast d]
  end.

Definition publish (p : SankeyPublisher) (gi : option GroupIndex) (bucket : Z)
    (flows : list LabelledFlow) (store : result ()) : option GroupAggregator * list sankey_cmd :=
  match flows with
  | [] => (sp_aggregator p, [])
  | _ =>
      let '(agg', d) := build_delta p gi bucket flows in
      (agg', send_delta (sp_channel p) d store)
  end.

(** One turn of [run]: the publisher afterwards and the commands sent. *)
Definition publisher_step (gi : option GroupIndex) (store : result ())
    (p : SankeyPublisher) (lf : LabelledFlow) : SankeyPublisher * list sankey_cmd :=
  let current := default (lf_bucket_start lf) (sp_current p) in
  if current <? lf_bucket_start lf then
    let '(agg', cmds) := publish p gi current (sp_pending p) store in
    (mkPublisher (sp_channel p) (sp_group_by p) agg' (Some (lf_bucket_start lf)) [lf], cmds)
  else
    (mkPublisher (sp_channel p) (sp_group_by p) (sp_aggregator p) (Some current)
       (sp_pending p ++ [lf]), []).

(** ** Specification vocabulary *)

(** A delta is a bipartite graph: the nodes of each side are distinct, and they
    are exactly the endpoints of the links, of which there is one per pair. *)
Definition delta_graph (d : delta) : Prop :=
  NoDup (ln_id <$> dl_nodes_left d) ∧ NoDup (rn_id <$> dl_nodes_right d) ∧
  NoDup ((λ l, (lk_src l, lk_dst l)) <$> dl_links d) ∧
  (∀ x, x ∈ ln_id <$> dl_nodes_left d ↔ x ∈ lk_src <$> dl_links d) ∧
  (∀ x, x ∈ rn_id <$> dl_nodes_right d ↔ x ∈ lk_dst <$> dl_links d).

(** A delta accounts for the traffic of the flows. *)
Definition delta_traffic (d : delta) (flows : list LabelledFlow) : Prop :=
  sum_by lk_bytes (dl_links d) = sum_by lf_bytes flows ∧
  sum_by lk_flows (dl_links d) = sum_by lf_flow_count flows ∧
  (dl_lossy d = true ↔ ∃ f, f ∈ flows ∧ lf_lossy f = true).

(** What a turn of [run] publishes: a bucket with its flows. *)
Definition step_batch (p : SankeyPublisher) (lf : LabelledFlow) : list (Z * list LabelledFlow) :=
  let current := default (lf_bucket_start lf) (sp_current p) in
  if current <? lf_bucket_start lf then
    match sp_pending p with [] => [] | fs => [(current, fs)] end
  else [].

(** A run over flows, each with the group index at that moment and the outcome
    of the store command: the publisher, the batches and the commands. *)
Abbreviation sankey_input := (LabelledFlow * option GroupIndex * result ())%type.

Record sankey_trace : Type := mkTrace {
  tr_pub : SankeyPublisher;
  tr_batches : list (Z * list LabelledFlow);
  tr_cmds : list sankey_cmd
}.

Definition trace_step (t : sankey_trace) (i : sankey_input) : sankey_trace :=
  let '(lf, gi, store) := i in
  let '(p', cmds) := publisher_step gi store (tr_pub t) lf in
  mkTrace p' (tr_batches t ++ step_batch (tr_pub t) lf) (tr_cmds t ++ cmds).

Definition sankey_run (p : SankeyPublisher) (inputs : list sankey_input) : sankey_trace :=
  foldl trace_step (mkTrace p [] []) inputs.

(** ** Lemmas *)

Lemma any_lossy_spec flows : any_lossy flows = true ↔ ∃ f, f ∈ flows ∧ lf_lossy f = true.
Proof. unfold any_lossy. rewrite existsb_exists. by setoid_rewrite list_elem_of_In. Qed.

(** The sources and the destinations of the legacy links. *)
Lemma pair_keys init step (f : string * string → string) (flows : list LabelledFlow) x :
  x ∈ f <$> dkeys (group_fold (V := Link) (λ f, (ip_id f, app_id f)) init step [] flows) ↔
  x ∈ f <$> ((λ f, (ip_id f, app_id f)) <$> flows).
Proof.
  rewrite !(list_elem_of_fmap f). f_equiv. intros k. by rewrite group_fold_key_nil.
Qed.

Lemma legacy_graph bucket flows : delta_graph (build_legacy_delta bucket flows).
Proof.
  unfold delta_graph, build_legacy_delta, legacy_left, legacy_right, legacy_links. simpl.
  rewrite (group_fold_ids ip_id) by done. rewrite (group_fold_ids app_id) by done.
  rewrite (group_fold_ids (λ f, (ip_id f, app_id f)) _ _ (λ l, (lk_src l, lk_dst l))) by done.
  assert (Hsrc : ∀ ls : list Link, lk_src <$> ls = ((λ l, (lk_src l, lk_dst l)) <$> ls).*1).
  { intros ls. by rewrite <-list_fmap_compose. }
  assert (Hdst : ∀ ls : list Link, lk_dst <$> ls = ((λ l, (lk_src l, lk_dst l)) <$> ls).*2).
  { intros ls. by rewrite <-list_fmap_compose. }
  rewrite Hsrc, Hdst. rewrite !(group_fold_ids (λ f, (ip_id f, app_id f)) _ _ (λ l, (lk_src l, lk_dst l))) by done.
  split_and!; try (apply group_fold_wf; constructor).
  - intros x. rewrite group_fold_key_nil, (pair_keys _ _ fst). by rewrite <-list_fmap_compose.
  - intros x. rewrite group_fold_key_nil, (pair_keys _ _ snd). by rewrite <-list_fmap_compose.
Qed.

Lemma legacy_traffic bucket flows : delta_traffic (build_legacy_delta bucket flows) flows.
Proof.
  unfold delta_traffic, build_legacy_delta. simpl. rewrite any_lossy_spec.
  unfold dvalues. rewrite !sum_by_fmap. unfold legacy_links.
  rewrite (group_fold_sum _ _ _ lk_bytes lf_bytes) by done.
  rewrite (group_fold_sum _ _ _ lk_flows lf_flow_count) by done. done.
Qed.

Lemma right_info_lookup flows d : is_Some (right_info flows !! d) ↔ d ∈ app_id <$> flows.
Proof.
  unfold right_info. assert (Hgen : ∀ m : gmap string AppCandidate,
    is_Some (foldl (λ m f, <[app_id f := lf_candidate f]> m) m flows !! d) ↔
    is_Some (m !! d) ∨ d ∈ app_id <$> flows).
  { induction flows as [|f flows IH]; intros m; csimpl; [rewrite elem_of_nil; tauto|].
    rewrite IH, elem_of_cons, lookup_insert. destruct (decide (app_id f = d)); naive_solver. }
  rewrite Hgen, lookup_empty. split; [|tauto]. intros [[? ?]|?]; done.
Qed.

Lemma right_nodes_ids info links :
  (∀ d, d ∈ lk_dst <$> links → is_Some (info !! d)) →
  rn_id <$> build_right_nodes info links =
    py_sorted id (elements (list_to_set (lk_dst <$> links) : gset string)).
Proof.
  intros Hinfo. unfold build_right_nodes.
  assert (Hd : ∀ d, d ∈ py_sorted id (elements (list_to_set (lk_dst <$> links) : gset string)) →
    is_Some (info !! d)).
  { intros d. rewrite py_sorted_elem, elem_of_elements, elem_of_list_to_set. apply Hinfo. }
  revert Hd. generalize (py_sorted id (elements (list_to_set (lk_dst <$> links) : gset string))).
  intros ds. induction ds as [|d ds IH]; intros Hd; [done|]. csimpl.
  destruct (Hd d ltac:(left)) as [c ->]. csimpl. f_equal. apply IH. intros d' Hd'. apply Hd. by right.
Qed.

Lemma flow_row_sums flows :
  sum_by row_bytes (flow_row <$> flows) = sum_by lf_bytes flows ∧
  sum_by row_flows (flow_row <$> flows) = sum_by lf_flow_count flows.
Proof. by rewrite !sum_by_fmap. Qed.

Lemma group_graph agg gi gb bucket flows : delta_graph (build_group_delta agg gi gb bucket flows).1.2.
Proof.
  unfold build_group_delta.
  set (sizes := match gi with Some g => group_sizes g | None => ∅ end).
  destruct (aggregate_shape agg (flow_row <$> flows) sizes gb) as [Hnd Hdst].
  destruct (aggregate agg (flow_row <$> flows) sizes gb) as [agg' links]. simpl in *.
  assert (Hinfo : ∀ d, d ∈ lk_dst <$> links → is_Some (right_info flows !! d)).
  { intros d Hd. apply Hdst in Hd. apply right_info_lookup. by rewrite <-list_fmap_compose in Hd. }
  unfold delta_graph. simpl. rewrite right_nodes_ids by done. unfold build_left_nodes.
  rewrite (group_fold_ids lk_src) by done. split_and!.
  - apply group_fold_wf. constructor.
  - rewrite py_sorted_perm. apply NoDup_elements.
  - done.
  - intros x. apply group_fold_key_nil.
  - intros x. by rewrite py_sorted_elem, elem_of_elements, elem_of_list_to_set.
Qed.

Lemma group_traffic agg gi gb bucket flows :
  delta_traffic (build_group_delta agg gi gb bucket flows).1.2 flows.
Proof.
  unfold build_group_delta.
  set (sizes := match gi with Some g => group_sizes g | None => ∅ end).
  destruct (aggregate_sums agg (flow_row <$> flows) sizes gb) as [Hb Hf].
  destruct (flow_row_sums flows) as [Hrb Hrf].
  destruct (aggregate agg (flow_row <$> flows) sizes gb) as [agg' links]. simpl in *.
  unfold delta_traffic. simpl. rewrite any_lossy_spec. split; [congruence|]. by split; [congruence|].
Qed.

(** A batch belongs to its bucket: its first flow is of the bucket, and none of
    its flows is later. *)
Definition batch_of (b : Z) (fs : list LabelledFlow) : Prop :=
  (∀ f, f ∈ fs → lf_bucket_start f ≤ b) ∧ lf_bucket_start <$> head fs = Some b.

(** The state of a run after the flows [fs]. *)
Definition trace_inv (t : sankey_trace) (fs : list LabelledFlow) : Prop :=
  concat (tr_batches t).*2 ++ sp_pending (tr_pub t) = fs ∧
  StronglySorted Z.lt (tr_batches t).*1 ∧
  Forall (λ b, batch_of b.1 b.2) (tr_batches t) ∧
  match sp_current (tr_pub t) with
  | None => sp_pending (tr_pub t) = [] ∧ tr_batches t = []
  | Some c => batch_of c (sp_pending (tr_pub t)) ∧ Forall (λ b, b < c) (tr_batches t).*1
  end.

Lemma batch_of_singleton f : batch_of (lf_bucket_start f) [f].
Proof.
  split.
  - intros g ->%list_elem_of_singleton. lia.
  - done.
Qed.

Lemma batch_of_snoc b fs f : batch_of b fs → lf_bucket_start f ≤ b → batch_of b (fs ++ [f]).
Proof.
  intros [Hle Hh] Hf. split.
  - intros h [Hin| ->%list_elem_of_singleton]%elem_of_app; [by apply Hle|done].
  - by destruct fs.
Qed.

Lemma StronglySorted_snoc {A} (R : relation A) l x :
  StronglySorted R l → Forall (λ y, R y x) l → StronglySorted R (l ++ [x]).
Proof.
  intros Hl Hx. induction Hl as [|y l Hl IH Hy]; simpl; [by repeat constructor|].
  inv Hx. constructor; [by apply IH|]. apply Forall_app. split; [done|]. by constructor.
Qed.

(** A turn that closes the bucket [c]. *)
Lemma trace_close t c lf agg cmds fs :
  trace_inv t fs → sp_current (tr_pub t) = Some c → c < lf_bucket_start lf →
  trace_inv (mkTrace (mkPublisher (sp_channel (tr_pub t)) (sp_group_by (tr_pub t)) agg
      (Some (lf_bucket_start lf)) [lf]) (tr_batches t ++ [(c, sp_pending (tr_pub t))]) cmds) (fs ++ [lf]).
Proof.
  intros (Hfs & Hs & Hb & Hc) Hcur Hlt. rewrite Hcur in Hc. destruct Hc as [Hp Hall].
  unfold trace_inv. simpl. split_and!.
  - rewrite fmap_app, concat_app. simpl. rewrite app_nil_r, <-Hfs. done.
  - rewrite fmap_app. by apply StronglySorted_snoc.
  - apply Forall_app. split; [done|]. by constructor.
  - apply batch_of_singleton.
  - rewrite fmap_app. apply Forall_app. split; [|by constructor].
    eapply Forall_impl; [exact Hall|]. simpl. lia.
Qed.

Lemma step_batch_current p lf c :
  sp_current p = Some c → sp_pending p ≠ [] → c < lf_bucket_start lf →
  step_batch p lf = [(c, sp_pending p)].
Proof.
  intros Hc Hp Hlt. unfold step_batch. rewrite Hc. simpl. rewrite (proj2 (Z.ltb_lt _ _)) by done.
  by destruct (sp_pending p).
Qed.

Lemma trace_step_inv t fs i : trace_inv t fs → trace_inv (trace_step t i) (fs ++ [i.1.1]).
Proof.
  destruct i as [[lf gi] store]. intros Hinv. pose proof Hinv as (Hfs & Hs & Hb & Hc). unfold trace_step.
  unfold publisher_step, step_batch. simpl fst.
  destruct (sp_current (tr_pub t)) as [c|] eqn:Hcur; simpl.
  - destruct (Z.ltb_spec c (lf_bucket_start lf)) as [Hlt|Hge].
    + destruct (publish _ _ _ _ _) as [agg cmds].
      destruct (sp_pending (tr_pub t)) as [|f0 fs0] eqn:Hp.
      { by destruct Hc as [[_ Hh] _]. }
      rewrite <-Hp. by apply trace_close.
    + destruct Hc as [Hp Hall]. rewrite app_nil_r. unfold trace_inv. simpl. split_and!; try done.
      * by rewrite <-Hfs, app_assoc.
      * by apply batch_of_snoc.
  - destruct Hc as [Hp Hb0]. rewrite Z.ltb_irrefl. rewrite app_nil_r.
    rewrite Hp, Hb0 in *. simpl in *. subst fs. unfold trace_inv. simpl.
    split_and!; first [apply batch_of_singleton|by constructor].
Qed.

Lemma sankey_run_inv inputs channel gb agg :
  trace_inv (sankey_run (new_publisher channel gb agg) inputs) (inputs.*1.*1).
Proof.
  induction inputs as [|i inputs IH] using rev_ind.
  - repeat split; constructor.
  - unfold sankey_run in *. rewrite foldl_snoc, !fmap_app. by apply trace_step_inv.
Qed.

(** The deltas stored, and those published. *)
Definition stored_deltas (cmds : list sankey_cmd) : list delta :=
  omap (λ c, match c with StoreLast d => Some d | PublishOn _ _ => None end) cmds.
Definition published_deltas (cmds : list sankey_cmd) : list delta :=
  omap (λ c, match c with StoreLast _ => None | PublishOn _ d => Some d end) cmds.

(** A delta of a batch. *)
Definition delta_for (b : Z * list LabelledFlow) (d : delta) : Prop :=
  dl_ts d = b.1 ∧ delta_graph d ∧ delta_traffic d b.2.

Lemma build_delta_for p gi b fs : delta_for (b, fs) (build_delta p gi b fs).2.
Proof.
  unfold build_delta, delta_for. destruct (sp_aggregator p) as [agg|].
  - destruct (decide _); simpl; [by split; [|split; [apply legacy_graph|apply legacy_traffic]]|].
    pose proof (group_graph agg gi (sp_group_by p) b fs) as Hg.
    pose proof (group_traffic agg gi (sp_group_by p) b fs) as Ht.
    assert (Hts : dl_ts (build_group_delta agg gi (sp_group_by p) b fs).1.2 = b).
    { unfold build_group_delta. by destruct (aggregate _ _ _ _). }
    by destruct (build_group_delta _ _ _ _ _) as [[agg' d] m].
  - simpl. by split; [|split; [apply legacy_graph|apply legacy_traffic]].
Qed.

Lemma publisher_step_cmds gi store p lf :
  ∃ ds, stored_deltas (publisher_step gi store p lf).2 = ds ∧
    Forall2 delta_for (step_batch p lf) ds ∧
    published_deltas (publisher_step gi store p lf).2 = (if is_ok store then ds else []).
Proof.
  unfold publisher_step, step_batch. set (c := default _ _).
  destruct (c <? lf_bucket_start lf); [|exists []; split_and!; [done|constructor|by destruct (is_ok store)]].
  unfold publish. destruct (sp_pending p) as [|f fs] eqn:Hp.
  { exists []. split_and!; [done|constructor|by destruct (is_ok store)]. }
  pose proof (build_delta_for p gi c (f :: fs)) as Hd.
  destruct (build_delta p gi c (f :: fs)) as [agg d]. simpl in *. exists [d].
  unfold send_delta, stored_deltas, published_deltas. destruct store; simpl; repeat constructor; apply Hd.
Qed.

Lemma sankey_run_cmds inputs p :
  let t := sankey_run p inputs in
  Forall2 delta_for (tr_batches t) (stored_deltas (tr_cmds t)) ∧
  sublist (published_deltas (tr_cmds t)) (stored_deltas (tr_cmds t)) ∧
  (Forall (λ i, is_ok i.2 = true) inputs →
     published_deltas (tr_cmds t) = stored_deltas (tr_cmds t)).
Proof.
  unfold sankey_run. induction inputs as [|[[lf gi] store] inputs IH] using rev_ind; [by repeat constructor|].
  rewrite foldl_snoc. set (t := foldl _ _ inputs) in *. destruct IH as (H1 & H2 & H3).
  unfold trace_step. destruct (publisher_step_cmds gi store (tr_pub t) lf) as (ds & Hs & Hb & Hp).
  destruct (publisher_step gi store (tr_pub t) lf) as [p' cmds]. simpl in *.
  unfold stored_deltas, published_deltas in *. rewrite !omap_app, Hs, Hp. split_and!.
  - by apply Forall2_app.
  - apply sublist_app; [done|]. destruct (is_ok store); [done|apply sublist_nil_l].
  - rewrite Forall_app. intros [Hok Hst]. inv Hst. simpl in *. rewrite H3 by done.
    by destruct (is_ok store).
Qed.

(** ** Theorems *)

(** The publisher loses and duplicates nothing.  After any input, the flows of
    the published batches, in order, followed by the pending ones are the input;
    the buckets of the batches strictly increase, and each batch starts with a
    flow of its bucket and otherwise holds flows of it or earlier (late) ones.  The stored
    deltas are one per batch, in order, each carrying its bucket, forming a
    bipartite graph whose nodes are the endpoints of its links, and accounting
    for exactly the bytes and flow counts of the batch; the published deltas are
    those stored, without the ones whose store command failed. *)
Theorem publisher_batches inputs channel gb agg :
  let t := sankey_run (new_publisher channel gb agg) inputs in
  concat (tr_batches t).*2 ++ sp_pending (tr_pub t) = inputs.*1.*1 ∧
  StronglySorted Z.lt (tr_batches t).*1 ∧
  Forall (λ b, batch_of b.1 b.2) (tr_batches t) ∧
  Forall2 delta_for (tr_batches t) (stored_deltas (tr_cmds t)) ∧
  sublist (published_deltas (tr_cmds t)) (stored_deltas (tr_cmds t)) ∧
  (Forall (λ i, is_ok i.2 = true) inputs →
     published_deltas (tr_cmds t) = stored_deltas (tr_cmds t)).
Proof.
  intros t. destruct (sankey_run_inv inputs channel gb agg) as (H1 & H2 & H3 & _).
  by split_and!; try apply sankey_run_cmds.
Qed.

(** ** Concrete run *)

Definition ex_flow (bucket : Z) (u : string) (gs : list string) (app ip : string) (b : Z) : LabelledFlow :=
  mkLabelledFlow bucket 5 ip "1.1.1.1" 443 6 b 1 1 (mkAppCandidate Lsaas app (Some 1)) false 0 u
    (list_to_set gs).

Definition ex_index : GroupIndex :=
  load [mkGroupRow "ann@x" "eng" "Engineering"; mkGroupRow "bob@x" "eng" "Engineering"].

Definition ex_inputs : list sankey_input :=
  (λ f, (f, Some ex_index, Ok ())) <$>
  [ex_flow 0 "ann@x" ["eng"] "crm" "10.0.0.1" 10; ex_flow 0 "bob@x" ["eng"] "crm" "10.0.0.2" 20;
   ex_flow 0 "unknown" [] "crm" "10.0.0.9" 5; ex_flow 5 "ann@x" ["eng"] "wiki" "10.0.0.1" 1].

Example publisher_run :
  let t := sankey_run (new_publisher "sankey.live" "group" (Some (new_aggregator ∅ 500))) ex_inputs in
  length (sp_pending (tr_pub t)) = 1%nat ∧
  published_deltas (tr_cmds t) =
    [mkDelta 0 5 [mkLeftNode "unknown" "unknown" 0; mkLeftNode "eng" "eng" 2]
       [mkRightNode "app:crm" "crm" Lsaas]
       [mkLink "unknown" "app:crm" 5 1 1; mkLink "eng" "app:crm" 30 2 2] false 0].
Proof. vm_compute. split; reflexivity. Qed.
