(* ===== verification/Writer.v ===== *)
(** * The flow writer ([correlator/pipeline/writer.py])

    [Writer] batches labelled flows and copies them to Postgres when the batch
    is full or the deadline passes; a failed copy is logged and its rows are
    dropped.  The outcome of each copy is part of the input of the model. *)

From S2P Require Import Prelude AppResolver SankeyPublisher.

(** A row of the table [flows]. *)
Record flow_rec : Type := mkFlowRec {
  fr_time : Z;
  fr_src_ip : string;
  fr_dst_ip : string;
  fr_dst_port : Z;
  fr_proto : Z;
  fr_bytes : Z;
  fr_packets : Z;
  fr_flow_count : Z;
  fr_source : string
}.

Definition row_of (lf : LabelledFlow) : flow_rec :=
  mkFlowRec (lf_bucket_start lf) (lf_src_ip lf) (lf_dst_ip lf) (lf_dst_port lf) (lf_proto lf)
    (lf_bytes lf) (lf_packets lf) (lf_flow_count lf) "correlator".

(** The local variables of [run]; the deadline is in milliseconds. *)
Record Writer : Type := mkWriter {
  wr_batch_size : Z;
  wr_flush_ms : Z;
  wr_buf : list flow_rec;
  wr_deadline : Z
}.

Definition new_writer (batch_size flush_ms now : Z) : Writer :=
  mkWriter batch_size flush_ms [] (now + flush_ms).

(** [_flush] of the rows, when there are any: the copies sent. *)
Definition flush (rows : list flow_rec) : list (list flow_rec) :=
  match rows with [] => [] | _ => [rows] end.

(** What one turn of [run] sees: a flow before the timeout, or the timeout; with
    the clock afterwards and the outcome of the copy, if one is made. *)
Inductive wr_event : Type :=
  | Got (lf : LabelledFlow)
  | TimedOut.

Abbreviation wr_input := (wr_event * Z * result ())%type.

(** [max(0.0, deadline - now)] *)
Definition wait_timeout (w : Writer) (now : Z) : Z := Z.max 0 (wr_deadline w - now).

(** A turn: the writer afterwards, and the copies sent with their outcome; the
    exception of a failed copy does not leave [_flush_safe]. *)
Definition writer_step (w : Writer) (i : wr_input) : Writer * list (list flow_rec * result ()) :=
  let '(ev, now, pg) := i in
  let reset := mkWriter (wr_batch_size w) (wr_flush_ms w) [] (now + wr_flush_ms w) in
  match ev with
  | Got lf =>
      let buf := wr_buf w ++ [row_of lf] in
      if wr_batch_size w <=? Z.of_nat (length buf)
      then (reset, (λ rows, (rows, pg)) <$> flush buf)
      else (mkWriter (wr_batch_size w) (wr_flush_ms w) buf (wr_deadline w), [])
  | TimedOut => (reset, (λ rows, (rows, pg)) <$> flush (wr_buf w))
  end.

Fixpoint writer_run (w : Writer) (inputs : list wr_input) : Writer * list (list flow_rec * result ()) :=
  match inputs with
  | [] => (w, [])
  | i :: rest =>
      let '(w1, out1) := writer_step w i in
      let '(w2, out2) := writer_run w1 rest in
      (w2, out1 ++ out2)
  end.

(** ** Specification vocabulary *)

Definition got_rows (inputs : list wr_input) : list flow_rec :=
  omap (λ i, match i.1.1 with Got lf => Some (row_of lf) | TimedOut => None end) inputs.

(** ** Lemmas *)

Lemma flush_concat rows : concat (flush rows) = rows.
Proof. destruct rows; simpl; [done|]. by rewrite app_nil_r. Qed.

Lemma flush_fst (pg : result ()) rows : ((λ rows, (rows, pg)) <$> flush rows).*1 = flush rows.
Proof. by destruct rows. Qed.

Lemma writer_step_spec w i w' out :
  1 ≤ wr_batch_size w → Z.of_nat (length (wr_buf w)) < wr_batch_size w →
  writer_step w i = (w', out) →
  concat out.*1 ++ wr_buf w' = wr_buf w ++ got_rows [i] ∧
  wr_batch_size w' = wr_batch_size w ∧ Z.of_nat (length (wr_buf w')) < wr_batch_size w ∧
  Forall (λ b, b.1 ≠ [] ∧ Z.of_nat (length b.1) ≤ wr_batch_size w) out.
Proof.
  intros Hb Hl. destruct i as [[ev now] pg]. unfold writer_step. destruct ev as [lf|].
  - destruct (Z.leb_spec (wr_batch_size w) (Z.of_nat (length (wr_buf w ++ [row_of lf])))) as [Hfull|Hlt];
      intros [= <- <-]; simpl.
    + rewrite flush_fst, flush_concat, app_nil_r. split_and!; [done|done|lia|].
      destruct (wr_buf w ++ [row_of lf]) as [|x l] eqn:E; [by destruct (wr_buf w)|]. simpl.
      apply Forall_singleton. simpl. split; [done|].
      rewrite <-length_cons with (x := x), <-E, length_app in *. simpl. lia.
    + split_and!; [done|done|done|constructor].
  - intros [= <- <-]. simpl. rewrite flush_fst, flush_concat, !app_nil_r. split_and!; [done|done|lia|].
    destruct (wr_buf w); simpl; [constructor|]. apply Forall_singleton. simpl in *. split; [done|lia].
Qed.

Lemma writer_run_spec w inputs w' out :
  1 ≤ wr_batch_size w → Z.of_nat (length (wr_buf w)) < wr_batch_size w →
  writer_run w inputs = (w', out) →
  concat out.*1 ++ wr_buf w' = wr_buf w ++ got_rows inputs ∧
  Z.of_nat (length (wr_buf w')) < wr_batch_size w ∧
  Forall (λ b, b.1 ≠ [] ∧ Z.of_nat (length b.1) ≤ wr_batch_size w) out.
Proof.
  revert w out. induction inputs as [|i inputs IH]; intros w out Hb Hl; simpl.
  - intros [= <- <-]. rewrite app_nil_r. split_and!; [done|done|constructor].
  - destruct (writer_step w i) as [w1 out1] eqn:E1.
    destruct (writer_run w1 inputs) as [w2 out2] eqn:E2. intros [= <- <-].
    destruct (writer_step_spec w i w1 out1 Hb Hl E1) as (Hc1 & Hs1 & Hl1 & Hf1).
    rewrite <-Hs1 in Hb, Hl1. destruct (IH w1 out2 Hb Hl1 E2) as (Hc2 & Hl2 & Hf2).
    rewrite Hs1 in Hl2, Hf2. split_and!; [|done|by apply Forall_app].
    rewrite fmap_app, concat_app, <-app_assoc, Hc2, app_assoc, Hc1, <-app_assoc. f_equal.
    unfold got_rows. by rewrite <-(omap_app _ [i] inputs).
Qed.

(** ** Theorem *)

(** The writer sends every flow exactly once and in order: the rows of the
    copies sent, followed by the buffer, are the rows of the flows received; no
    copy is empty or larger than the batch size, and the buffer stays below it.
    (Rows of a copy that failed are the only ones lost.) *)
Theorem writer_in_order batch_size flush_ms now inputs :
  1 ≤ batch_size →
  let '(w, out) := writer_run (new_writer batch_size flush_ms now) inputs in
  concat out.*1 ++ wr_buf w = got_rows inputs ∧
  Z.of_nat (length (wr_buf w)) < batch_size ∧
  Forall (λ b, b.1 ≠ [] ∧ Z.of_nat (length b.1) ≤ batch_size) out.
Proof.
  intros Hb. destruct (writer_run _ inputs) as [w out] eqn:E.
  apply (writer_run_spec (new_writer batch_size flush_ms now)) in E; simpl; [done|done|lia].
Qed.

Lemma writer_in_order_witness :
  let f b := ex_flow 0 "ann@x" [] "crm" "10.0.0.1" b in
  let '(w, out) := writer_run (new_writer 2 500 0)
    [(Got (f 1), 1, Ok ()); (Got (f 2), 2, Raise OtherError); (Got (f 3), 3, Ok ());
     (TimedOut, 600, Ok ()); (Got (f 4), 601, Ok ())] in
  (λ b, length b.1) <$> out = [2%nat; 1%nat] ∧ fr_bytes <$> wr_buf w = [4] ∧
  Z.of_nat (length (wr_buf w)) < 2.
Proof.
  intros f. pose proof (writer_in_order 2 500 0
    [(Got (f 1), 1, Ok ()); (Got (f 2), 2, Raise OtherError); (Got (f 3), 3, Ok ());
     (TimedOut, 600, Ok ()); (Got (f 4), 601, Ok ())] ltac:(lia)) as H.
  destruct (writer_run _ _) as [w out] eqn:E. destruct H as (_ & Hl & _).
  vm_compute in E. injection E as <- <-. split; [reflexivity|]. split; [reflexivity|]. exact Hl.
Defined.
