(* ===== verification/Correlator.v ===== *)
(** * The correlator service ([correlator/main.py])

    The tasks that join the pipeline: reading the two Redis streams, labelling
    the windowed flows, handing the labelled flows to the writer and to the
    publisher, and refreshing the group index on a database notification.  The
    decoding of a stream message ([json.loads] and [datetime.fromisoformat]) is
    an input: an event, or the exception it raised. *)

From S2P Require Import Prelude PySort PyDict PyQueue PyStr EventTypes Windower.
From S2P Require Import IdentityIndex GroupIndex Enricher GroupAggregator AppResolver SankeyPublisher Writer.

(** ** The stream readers *)

(** A message of a stream: its id, and what decoding it gives. *)
Abbreviation message E := (string * result E)%type.

(** [_read_xstream_into]: the events put on the queue (by the blocking [put]) and
    the ids acknowledged; a message that cannot be decoded is acknowledged too. *)
Definition read_message {E} (s : list E * list string) (m : message E) : list E * list string :=
  let '(out, acks) := s in
  match m.2 with
  | Ok ev => (out ++ [ev], acks ++ [m.1])
  | Raise _ => (out, acks ++ [m.1])
  end.

Definition read_xstream {E} (msgs : list (message E)) : list E * list string :=
  foldl read_message ([], []) msgs.

Section consumer.
Context {T : Type} `{IntervalTree Binding T}.

(** [_identity_consumer], one message: every exception is logged, and the message
    is acknowledged in any case. *)
Definition consume_message (s : IdentityIndex T * list string) (m : message IdentityEvent) :
    IdentityIndex T * list string :=
  let '(idx, acks) := s in
  match m.2 with
  | Ok ev => ((insert_event ev idx).1, acks ++ [m.1])
  | Raise _ => (idx, acks ++ [m.1])
  end.

(** One batch: the index, the acknowledged ids and the value of the size gauge. *)
Definition consume_batch (idx : IdentityIndex T) (msgs : list (message IdentityEvent)) :
    IdentityIndex T * list string * Z :=
  let '(idx', acks) := foldl consume_message (idx, []) msgs in
  (idx', acks, index_size idx').
End consumer.

(** ** The labeller *)

(** The constructor call of [_label_stage]. *)
Definition labelled (wf : WindowedFlow) (cand : AppCandidate) : LabelledFlow :=
  mkLabelledFlow (wf_bucket_start wf) (wf_window_s wf) (wf_src_ip wf) (wf_dst_ip wf) (wf_dst_port wf)
    (wf_proto wf) (wf_bytes wf) (wf_packets wf) (wf_flow_count wf) cand (wf_lossy wf)
    (wf_dropped_count wf) "unknown" ∅.

Definition with_identity (lf : LabelledFlow) (upn : string) (groups : gset string) : LabelledFlow :=
  mkLabelledFlow (lf_bucket_start lf) (lf_window_s lf) (lf_src_ip lf) (lf_dst_ip lf) (lf_dst_port lf)
    (lf_proto lf) (lf_bytes lf) (lf_packets lf) (lf_flow_count lf) (lf_candidate lf) (lf_lossy lf)
    (lf_dropped_count lf) upn groups.

(** One turn of [_label_stage]; an exception of the resolver ends the task.  The
    enricher, when there is one, is a pair of indexes. *)
Definition label_one {I G} `{IdentitySource I, GroupSource G} (r : AppResolver)
    (get : string → option string) (enricher : option (I * G)) (wf : WindowedFlow) :
    result (option (I * G) * LabelledFlow * list redis_cmd) :=
  res ← resolve_app r get (wf_dst_ip wf) (wf_dst_port wf) (wf_proto wf) (wf_fqdn wf);
  let lf := labelled wf res.1 in
  match enricher with
  | None => mret (None, lf, res.2)
  | Some (id_, gi) =>
      let '(id', row) := enrich (mkEnrichRow (lf_src_ip lf) (lf_bucket_start lf) None None) id_ gi in
      mret (Some (id', gi),
            with_identity lf (default "unknown" (er_user_upn row)) (default ∅ (er_groups row)), res.2)
  end.

(** ** The demultiplexer *)

(** One turn of [_demux] for one flow. *)
Definition demux_one {A} (item : A) (dsts : list (queue A)) : list (queue A) :=
  (λ d, po_queue (put_drop_oldest item d)) <$> dsts.

Definition demux {A} (items : list A) (dsts : list (queue A)) : list (queue A) :=
  foldl (λ ds x, demux_one x ds) dsts items.

(** ** The group refresh

    On [NOTIFY groups_changed] two callbacks are scheduled: [_reload], which
    waits for a query and then replaces the index, and [_drop_agg_cache], which
    empties the aggregator's cache.  The publisher may run between them. *)

Record refresh_state : Type := mkRefresh {
  rf_db : list group_row;
  rf_index : GroupIndex;
  rf_agg : GroupAggregator;
  rf_loads : nat;
  rf_drops : nat
}.

Inductive refresh_event : Type :=
  | Notify (rows : list group_row)
  | ReloadDone
  | CacheDropped
  | Publish (flows : list LabelledFlow).

(** The steps that can happen: a callback runs only when it is scheduled. *)
Inductive refresh_step : refresh_state → refresh_event → refresh_state → Prop :=
  | RsNotify s rows :
      refresh_step s (Notify rows)
        (mkRefresh rows (rf_index s) (rf_agg s) (S (rf_loads s)) (S (rf_drops s)))
  | RsReload s n :
      rf_loads s = S n →
      refresh_step s ReloadDone (mkRefresh (rf_db s) (load (rf_db s)) (rf_agg s) n (rf_drops s))
  | RsDrop s n :
      rf_drops s = S n →
      refresh_step s CacheDropped
        (mkRefresh (rf_db s) (rf_index s) (clear_cache (rf_agg s)) (rf_loads s) n)
  | RsPublish s flows :
      refresh_step s (Publish flows)
        (mkRefresh (rf_db s) (rf_index s)
           (build_group_delta (rf_agg s) (Some (rf_index s)) "group" 0 flows).1.1
           (rf_loads s) (rf_drops s)).

Inductive refresh_run : refresh_state → list refresh_event → refresh_state → Prop :=
  | RunNil s : refresh_run s [] s
  | RunCons s1 e s2 es s3 : refresh_step s1 e s2 → refresh_run s2 es s3 → refresh_run s1 (e :: es) s3.

(** ** Specification vocabulary *)

(** The events that could be decoded. *)
Definition decoded {E} (msgs : list (message E)) : list E :=
  omap (λ m, match m.2 with Ok ev => Some ev | Raise _ => None end) msgs.

(** What a flow keeps through labelling. *)
Definition same_traffic (wf : WindowedFlow) (lf : LabelledFlow) : Prop :=
  lf_bucket_start lf = wf_bucket_start wf ∧ lf_window_s lf = wf_window_s wf ∧
  lf_src_ip lf = wf_src_ip wf ∧ lf_dst_ip lf = wf_dst_ip wf ∧ lf_dst_port lf = wf_dst_port wf ∧
  lf_proto lf = wf_proto wf ∧ lf_bytes lf = wf_bytes wf ∧ lf_packets lf = wf_packets wf ∧
  lf_flow_count lf = wf_flow_count wf ∧ lf_lossy lf = wf_lossy wf ∧
  lf_dropped_count lf = wf_dropped_count wf.

(** The groups that the enricher gives under an index. *)
Definition groups_under (gi : GroupIndex) (u : string) : gset string :=
  if decide (u = "unknown") then ∅ else groups_of gi u.

Definition start_state (db : list group_row) (excluded : gset string) (floor : Z) : refresh_state :=
  mkRefresh db (load db) (new_aggregator excluded floor) 0 0.

(** A publication in a quiet moment: no callback is scheduled, and the flows were
    enriched under the current index. *)
Definition quiet (s : refresh_state) (e : refresh_event) : Prop :=
  match e with
  | Publish flows =>
      rf_loads s = 0%nat ∧ rf_drops s = 0%nat ∧
      rows_enriched (groups_under (rf_index s)) (flow_row <$> flows)
  | _ => True
  end.

Inductive quiet_run : refresh_state → list refresh_event → refresh_state → Prop :=
  | QuietNil s : quiet_run s [] s
  | QuietCons s1 e s2 es s3 :
      quiet s1 e → refresh_step s1 e s2 → quiet_run s2 es s3 → quiet_run s1 (e :: es) s3.

Definition state_coherent (s : refresh_state) : Prop :=
  cache_coherent (rf_agg s) (groups_under (rf_index s)) (group_sizes (rf_index s)).

(** ** Lemmas *)

Lemma read_xstream_spec {E} (msgs : list (message E)) : read_xstream msgs = (decoded msgs, msgs.*1).
Proof.
  unfold read_xstream. induction msgs as [|m msgs IH] using rev_ind; [done|].
  rewrite foldl_snoc, IH, fmap_app. unfold decoded. rewrite omap_app. unfold read_message.
  destruct m as [i [ev|e]]; simpl; by rewrite ?app_nil_r.
Qed.

Lemma labelled_traffic wf c : same_traffic wf (labelled wf c).
Proof. by repeat split. Qed.

Lemma with_identity_traffic wf lf u gs : same_traffic wf lf → same_traffic wf (with_identity lf u gs).
Proof. done. Qed.

Lemma empty_cache_coherent ga G sizes : ga_cache ga = ∅ → cache_coherent ga G sizes.
Proof. intros Hc users o. rewrite Hc, lookup_empty. done. Qed.

Lemma build_group_delta_coherent agg gi bucket flows G :
  rows_enriched G (flow_row <$> flows) → cache_coherent agg G (group_sizes gi) →
  cache_coherent (build_group_delta agg (Some gi) "group" bucket flows).1.1 G (group_sizes gi).
Proof.
  intros HG Hc. unfold build_group_delta, aggregate.
  destruct (aggregate_links_spec agg (flow_row <$> flows) (group_sizes gi) "group")
    as (ga' & es & -> & _ & _ & _ & _ & Hco). simpl. by apply Hco.
Qed.

(** The invariant: coherent when nothing is scheduled, empty between the drop
    and the reload. *)
Definition refresh_inv (s : refresh_state) : Prop :=
  rf_drops s = 0%nat →
  match rf_loads s with O => state_coherent s | S _ => ga_cache (rf_agg s) = ∅ end.

Lemma quiet_step_inv s e s' : quiet s e → refresh_inv s → refresh_step s e s' → refresh_inv s'.
Proof.
  intros Hq Hinv Hs. destruct Hs as [s rows|s n Hn|s n Hn|s flows]; unfold refresh_inv in *; simpl in *.
  - done.
  - intros Hd. specialize (Hinv Hd). rewrite Hn in Hinv.
    destruct n; [|done]. unfold state_coherent. simpl. by apply empty_cache_coherent.
  - intros _. destruct (rf_loads s); [|done]. unfold state_coherent. by apply empty_cache_coherent.
  - destruct Hq as (Hl & Hd & Hen). intros _. specialize (Hinv Hd). rewrite Hl in *.
    unfold state_coherent in *. simpl. by apply build_group_delta_coherent.
Qed.

Lemma quiet_run_inv s es s' : quiet_run s es s' → refresh_inv s → refresh_inv s'.
Proof. induction 1; eauto using quiet_step_inv. Qed.

(** The labeller never fails on loaded tables. *)
Lemma label_one_total {I G} `{IdentitySource I, GroupSource G} r0 manual saas ports r get
    (enricher : option (I * G)) wf :
  load_tables r0 manual saas ports = (r, Ok ()) →
  ∃ e' lf cmds, label_one r get enricher wf = Ok (e', lf, cmds) ∧ same_traffic wf lf.
Proof.
  intros Hl. unfold label_one, resolve_app.
  destruct (manual_hit_any _ _ _ _ _ (wf_dst_ip wf) (wf_dst_port wf) (wf_proto wf) Hl) as (o & -> & _).
  assert (Hall : ∃ res, (match o with
    | Some m => mret (mkAppCandidate Lmanual (ma_name m) (Some (ma_id m)), [])
    | None => match firewall_hit r (wf_fqdn wf) with
              | Some s => mret (mkAppCandidate Lsaas (se_name s) (Some (se_id s)), [])
              | None => mret (resolve_ptr r get (wf_dst_ip wf) (wf_dst_port wf) (wf_proto wf))
              end
    end) = Ok res).
  { destruct o; [by eexists|]. destruct (firewall_hit _ _); by eexists. }
  destruct Hall as [res Hres]. simpl. rewrite Hres. simpl.
  destruct enricher as [[id_ gi]|]; [|by eexists _, _, _].
  destruct (enrich _ id_ gi) as [id' row]. by eexists _, _, _.
Qed.

(** ** Theorems *)

Section correlator_theorems.
Context {T : Type} `{IntervalTree Binding T}.

(** The identity consumer cannot be stopped by a message: after any batch the
    index is the one that the decodable events make, in order, whether or not
    each was accepted, and every message is acknowledged. *)
Theorem identity_consumer_total ops msgs :
  consume_batch (index_run (T := T) ops) msgs =
    (index_run (ops ++ (OpInsert <$> decoded msgs)), msgs.*1,
     index_size (index_run (T := T) (ops ++ (OpInsert <$> decoded msgs)))).
Proof.
  unfold consume_batch.
  assert (Hf : foldl consume_message (index_run (T := T) ops, []) msgs =
    (index_run (ops ++ (OpInsert <$> decoded msgs)), msgs.*1)); [|by rewrite Hf].
  induction msgs as [|m msgs IH] using rev_ind; [by rewrite app_nil_r|].
  rewrite foldl_snoc, IH, fmap_app. unfold decoded. rewrite omap_app. unfold consume_message.
  destruct m as [i [ev|e]]; simpl.
  - rewrite fmap_app, app_assoc. unfold index_run. by rewrite (foldl_snoc _ _ _ (OpInsert ev)).
  - by rewrite !app_nil_r.
Qed.
End correlator_theorems.


Lemma demux_fmap {A} (items : list A) dsts :
  demux items dsts = (λ d, foldl (λ q x, po_queue (put_drop_oldest x q)) d items) <$> dsts.
Proof.
  unfold demux. revert dsts. induction items as [|x items IH]; intros dsts; simpl.
  - symmetry. apply list_fmap_id.
  - rewrite IH. unfold demux_one. by rewrite <-list_fmap_compose.
Qed.

(** The demultiplexer never blocks and its destinations are independent: each
    ends with what it held followed by all the flows, less some oldest ones, and
    exactly as many of them as fit when it has a bound; a full queue does not
    affect the other. *)
Theorem demux_keeps_latest {A} (items : list A) dsts i d :
  dsts !! i = Some d → queue_wf d →
  ∃ d' dropped, demux items dsts !! i = Some d' ∧
    dropped ++ q_items d' = q_items d ++ items ∧
    (0 < q_maxsize d → Z.of_nat (length (q_items d')) =
       Z.min (q_maxsize d) (Z.of_nat (length (q_items d ++ items)))).
Proof.
  intros Hi Hwf. destruct (put_many_items items d Hwf) as (dropped & Heq & Hlen).
  rewrite demux_fmap. eexists _, dropped. rewrite list_lookup_fmap, Hi. by split.
Qed.

(** C36. The cache of group choices follows the group index as long as the publisher
    runs only in quiet moments: then, whenever no refresh is under way, every
    cached choice is the one that the current memberships give. *)
Theorem quiet_refresh_coherent db excluded floor es s :
  quiet_run (start_state db excluded floor) es s →
  rf_loads s = 0%nat → rf_drops s = 0%nat → state_coherent s.
Proof.
  intros Hr Hl Hd. apply quiet_run_inv in Hr.
  - specialize (Hr Hd). by rewrite Hl in Hr.
  - intros _. simpl. unfold state_coherent. by apply empty_cache_coherent.
Qed.

(** A publication between the drop of the cache and the end of the reload makes
    the cache stale: when everything has finished, the group index knows that
    ann moved from the group eng to ops, but her flows are still labelled eng,
    until the next notification. *)
Theorem reload_race_stale :
  let db0 := [mkGroupRow "ann" "eng" "Engineering"] in
  let db1 := [mkGroupRow "ann" "ops" "Operations"] in
  let flow g := ex_flow 0 "ann" [g] "crm" "10.0.0.1" 10 in
  ∃ s, refresh_run (start_state db0 ∅ 500)
         [Notify db1; CacheDropped; Publish [flow "eng"]; ReloadDone] s ∧
    rf_loads s = 0%nat ∧ rf_drops s = 0%nat ∧
    groups_of (rf_index s) "ann" = {["ops"]} ∧ ¬ state_coherent s ∧
    lk_src <$> dl_links (build_group_delta (rf_agg s) (Some (rf_index s)) "group" 0 [flow "ops"]).1.2 =
      ["eng"].
Proof.
  intros db0 db1 flow. eexists. split.
  { eapply RunCons; [apply RsNotify|]. eapply RunCons; [by apply RsDrop|].
    eapply RunCons; [apply RsPublish|]. eapply RunCons; [by apply RsReload|]. apply RunNil. }
  split; [done|]. split; [done|]. split; [vm_compute; reflexivity|]. split; [|vm_compute; reflexivity].
  intros Hc. unfold state_coherent, cache_coherent in Hc. specialize (Hc {["ann"]} (Some "eng")).
  assert (Hn : Some "eng" ≠ Some "ops") by done. apply Hn. etrans; [apply Hc|]; vm_compute; reflexivity.
Qed.

(** ** Witnesses *)


Lemma demux_keeps_latest_witness :
  demux [1; 2; 3] [Queue 2 [0]; Queue 0 [0]] = [Queue 2 [2; 3]; Queue 0 [0; 1; 2; 3]] ∧
  ∃ d' dropped, demux [1; 2; 3] [Queue 2 [0]; Queue 0 [0]] !! 0%nat = Some d' ∧
    dropped ++ q_items d' = [0; 1; 2; 3].
Proof.
  split; [reflexivity|].
  destruct (demux_keeps_latest [1; 2; 3] [Queue 2 [0]; Queue 0 [0]] 0 (Queue 2 [0]) eq_refl)
    as (d' & dr & Hd & Hq & _); [right; simpl; lia|].
  exists d', dr. split; [exact Hd|exact Hq].
Defined.

Lemma quiet_refresh_coherent_witness :
  let db1 := [mkGroupRow "ann" "ops" "Operations"] in
  ∃ s, state_coherent s ∧ groups_of (rf_index s) "ann" = {["ops"]} ∧
    ga_cache (rf_agg s) !! {["ann"]} = Some (Some "ops").
Proof.
  intros db1. eexists. split.
  { eapply (quiet_refresh_coherent [mkGroupRow "ann" "eng" "Engineering"] ∅ 500
      [Notify db1; CacheDropped; ReloadDone; Publish [ex_flow 0 "ann" ["ops"] "crm" "10.0.0.1" 10]]).
    - eapply QuietCons; [exact I|apply RsNotify|].
      eapply QuietCons; [exact I|apply RsDrop; reflexivity|].
      eapply QuietCons; [exact I|apply RsReload; reflexivity|].
      eapply QuietCons; [|apply RsPublish|apply QuietNil].
      split; [reflexivity|]. split; [reflexivity|]. intros r Hr.
      apply list_elem_of_In in Hr. destruct Hr as [<-|[]]. vm_compute. reflexivity.
    - reflexivity.
    - reflexivity. }
  split; vm_compute; reflexivity.
Defined.

(** ** The drop counter across the pipeline

    The windower stamps each flow with the number of drops so far in the flush;
    the publisher adds the stamps up.  With a queue of three, a flush of seven
    keys drops four flows, and the delta reports six. *)
Definition overload_inputs : list (nat * w_input) :=
  ((λ s, (0%nat, WEvent (sample_event 0 s 1))) <$> ["1"; "2"; "3"; "4"; "5"; "6"; "7"]) ++
  [(0%nat, WTimeout (60 * second))].

Example dropped_count_overcounts :
  let '(st, log) := windower_run (new_windower 5 (Queue 3 [])) overload_inputs in
  let kept := q_items (w_out st) in
  let flows := (λ wf, labelled wf (mkAppCandidate Lraw "x" None)) <$> kept in
  (length log - length kept)%nat = 4%nat ∧
  dl_dropped_count (build_legacy_delta 0 flows) = 6.
Proof. vm_compute. split; reflexivity. Qed.
