(* ===== verification/Restart.v ===== *)
(** * Stops and restarts of the correlator ([_run] and [main] of [correlator/main.py])

    The correlator over its whole life: the process starts, runs the machine of
    [Pipeline], is stopped by a signal and starts again, with the consumer group of Redis
    and the table [flows] outside of it.  The stop cancels the tasks and closes the
    connections; what the tasks hold is gone.  Redis is an interface; its laws are
    what it documents of a consumer group that is read with [>]. *)

From S2P Require Import Prelude PyQueue PyStr EventTypes Windower.
From S2P Require Import IdentityIndex GroupIndex AppResolver SankeyPublisher Writer Correlator Pipeline.

(** ** The consumer group of a stream *)

Class StreamGroup (G E : Type) := {
  sg_waiting : G → list (message E);       (* not delivered yet *)
  sg_pending : G → list string;            (* delivered, not acknowledged *)
  sg_add : message E → G → G;              (* XADD of another service *)
  sg_read : nat → G → G * list (message E); (* XREADGROUP with > *)
  sg_ack : string → G → G                  (* XACK *)
}.

Class StreamGroupLaws (G E : Type) `{StreamGroup G E} : Prop := {
  sg_add_waiting m (g : G) : sg_waiting (sg_add m g) = sg_waiting g ++ [m];
  sg_add_pending m (g : G) : sg_pending (sg_add m g) = sg_pending g;
  sg_read_law n (g g' : G) ms :
    sg_read n g = (g', ms) →
    sg_waiting g = ms ++ sg_waiting g' ∧ sg_pending g' = sg_pending g ++ ms.*1 ∧ (length ms ≤ n)%nat;
  sg_ack_waiting id (g : G) : sg_waiting (sg_ack id g) = sg_waiting g;
  sg_ack_pending id (g : G) : sg_pending (sg_ack id g) = filter (λ x, x ≠ id) (sg_pending g)
}.

#[local] Opaque writer_step publisher_step windower_step.

Section restart.
Context {T : Type} `{IntervalTree Binding T} {G : Type} `{StreamGroup G FlowEvent}.
Context (cfg : CorrelatorSettings).

(** ** The service *)

Record correlator : Type := mkCorrelator {
  co_group : G;
  co_table : list flow_rec;
  co_process : option (pipeline T)        (* [None] while no process runs *)
}.

Inductive life_action : Type :=
  | LAdd (m : message FlowEvent)           (* a service adds an entry *)
  | LStart (manual : list ManualApp) (saas : list SaasEntry) (ports : list PortDefault)
      (members : list group_row) (now : Z)
  | LRead                                  (* the [xreadgroup] of flows.raw *)
  | LTurn (a : action)                     (* any other turn of a task *)
  | LStop.                                 (* SIGTERM or SIGINT *)

Inductive life_obs : Type :=
  | LAdded (m : message FlowEvent)
  | LStarted (r : result ())
  | LObs (os : list obs)
  | LStopped (p : pipeline T).             (* with what its tasks held *)

(** The rows of the copies that Postgres took, and of those that were given up. *)
Definition stored_rows (os : list obs) : list flow_rec :=
  concat (filter (λ c, is_ok c.2 = true) (copied os)).*1.
Definition failed_rows (os : list obs) : list flow_rec :=
  concat (filter (λ c, is_ok c.2 = false) (copied os)).*1.

(** The entries that a turn acknowledges in the group of the flows; those of the identity
    consumer are of another stream. *)
Definition flow_acks (a : action) (os : list obs) : list string :=
  match a with
  | AHandle => mjoin ((λ o, match o with Acked ids => ids | _ => [] end) <$> os)
  | _ => []
  end.

Definition life_step (s : correlator) (a : life_action) : option (correlator * list life_obs) :=
  match a, co_process s with
  | LAdd m, _ => Some (mkCorrelator (sg_add m (co_group s)) (co_table s) (co_process s), [LAdded m])
  | LStart manual saas ports members now, None =>
      match start_pipeline cfg manual saas ports members now with
      | Ok p => Some (mkCorrelator (co_group s) (co_table s) (Some p), [LStarted (Ok ())])
      | Raise e => Some (s, [LStarted (Raise e)])
      end
  | LRead, Some p =>
      let '(g, ms) := sg_read 500 (co_group s) in
      '(p, os) ← pipe_step p (AFetch ms);
      Some (mkCorrelator g (co_table s) (Some p), [LObs os])
  | LTurn (AFetch _), Some _ => None
  | LTurn a, Some p =>
      '(p, os) ← pipe_step p a;
      Some (mkCorrelator (foldr sg_ack (co_group s) (flow_acks a os)) (co_table s ++ stored_rows os) (Some p), [LObs os])
  | LStop, Some p => Some (mkCorrelator (co_group s) (co_table s) None, [LStopped p])
  | _, _ => None
  end.

Fixpoint life_run (s : correlator) (acts : list life_action) : option (correlator * list life_obs) :=
  match acts with
  | [] => Some (s, [])
  | a :: rest =>
      '(s1, o1) ← life_step s a;
      '(s2, o2) ← life_run s1 rest;
      Some (s2, o1 ++ o2)
  end.

(** ** Specification vocabulary *)

Definition added (log : list life_obs) : list (message FlowEvent) :=
  omap (λ o, match o with LAdded m => Some m | _ => None end) log.
Definition stopped (log : list life_obs) : list (pipeline T) :=
  omap (λ o, match o with LStopped p => Some p | _ => None end) log.
Definition observed (log : list life_obs) : list obs :=
  log ≫= (λ o, match o with LObs os => os | _ => [] end).

(** The total of the events, and of the rows, of one window and key. *)
Definition events_total (c : counter) (cell : Z * Key) (evs : list FlowEvent) : Z :=
  sum_by (ev_count c) (filter (λ ev, event_cell (cs_window_s cfg) ev = cell) evs).
Definition rows_total (c : counter) (cell : Z * Key) (rows : list flow_rec) : Z :=
  sum_by (row_count c) (filter (λ r, row_cell r = cell) rows).

(** What a process holds between the stream and the table. *)
Definition held (c : counter) (cell : Z * Key) (p : pipeline T) : Z :=
  events_total c cell (decoded (pl_inbox p)) + events_total c cell (q_items (pl_raw p)) +
  pending c cell.1 cell.2 (pl_windower p) + rows_total c cell (writer_rows p).

(** The processes that hold something: those that were stopped and the one that runs. *)
Definition holders (log : list life_obs) (s : correlator) : list (pipeline T) :=
  stopped log ++ option_list (co_process s).

(** ** The account of one process *)

Lemma events_total_app c cell l k : events_total c cell (l ++ k) = events_total c cell l + events_total c cell k.
Proof. unfold events_total. by rewrite filter_app, sum_by_app. Qed.
Lemma rows_total_app c cell l k : rows_total c cell (l ++ k) = rows_total c cell l + rows_total c cell k.
Proof. unfold rows_total. by rewrite filter_app, sum_by_app. Qed.
Lemma rows_total_perm c cell l k : l ≡ₚ k → rows_total c cell l = rows_total c cell k.
Proof. intros Hp. unfold rows_total. apply sum_by_perm. by rewrite Hp. Qed.

Lemma rows_of_flows c cell fs :
  rows_total c cell (row_wf <$> fs) = sum_by (wf_count c) (filter (λ wf, flow_cell wf = cell) fs).
Proof.
  unfold rows_total. induction fs as [|wf fs IH]; [done|]. rewrite fmap_cons, !filter_cons, row_wf_cell.
  case_decide; [|done]. rewrite !sum_by_cons, IH. by destruct c.
Qed.

Lemma copies_split c cell os :
  rows_total c cell (concat (copied os).*1) = rows_total c cell (stored_rows os) + rows_total c cell (failed_rows os).
Proof.
  unfold stored_rows, failed_rows. induction (copied os) as [|[rows r] cs IH]; [done|].
  rewrite fmap_cons, !filter_cons. cbn [fst snd concat]. rewrite rows_total_app, IH.
  destruct r; cbn [is_ok]; [rewrite decide_True, decide_False by done|rewrite decide_False, decide_True by done];
    rewrite fmap_cons; cbn [fst concat]; rewrite rows_total_app; lia.
Qed.

(** The rows that the queues of a process dropped. *)
Definition dropped_by (p : pipeline T) (tr : list obs) (dropped : list flow_rec) : Prop :=
  (row_wf <$> emitted tr) ≡ₚ (concat (copied tr).*1 ++ writer_rows p) ++ dropped ∧
  (cs_queue_max cfg ≤ 0 → dropped = []).

Lemma dropped_exists p tr :
  1 ≤ cs_batch_size cfg → reached cfg p tr → ∃ dropped, dropped_by p tr dropped.
Proof.
  intros Hb Hr. destruct (reached_inv _ _ _ Hb Hr) as (_ & _ & _ & _ & (_ & _ & [Hsub Hall]) & _).
  destruct (decide (cs_queue_max cfg ≤ 0)) as [Hm|Hm].
  - exists []. split; [by rewrite app_nil_r, (Hall Hm)|done].
  - apply sublist_submseteq, submseteq_Permutation in Hsub as [k Hk]. exists k. by split.
Qed.

Lemma process_account p tr dropped c cell :
  1 ≤ cs_batch_size cfg → reached cfg p tr → dropped_by p tr dropped →
  events_total c cell (decoded (fetched tr)) =
    rows_total c cell (stored_rows tr) + rows_total c cell (failed_rows tr) + rows_total c cell dropped + held c cell p.
Proof.
  intros Hb Hr [Hp _]. destruct (reached_inv _ _ _ Hb Hr) as (_ & _ & Hread & Hw & _).
  rewrite Hread, !events_total_app. unfold held.
  destruct Hw as (ins & st & n & Hrun & Hi & Hst).
  pose proof (windower_conservation_run c cell.1 cell.2 _ _ _ _ _ Hrun) as Hc. rewrite (events_of_saw _ _ Hi) in Hc.
  assert (Hc' : events_total c cell (seen tr) = pending c cell.1 cell.2 (pl_windower p) + rows_total c cell (row_wf <$> emitted tr)).
  { rewrite rows_of_flows, Hst. unfold events_total. destruct cell as [b k]. exact Hc. }
  rewrite Hc', (rows_total_perm c cell _ _ Hp), !rows_total_app, copies_split. lia.
Qed.

(** ** The lives of the processes *)

Lemma pipe_run_snoc p acts p1 o1 a p2 o2 :
  pipe_run p acts = Some (p1, o1) → pipe_step p1 a = Some (p2, o2) → pipe_run p (acts ++ [a]) = Some (p2, o1 ++ o2).
Proof.
  revert p o1. induction acts as [|b acts IH]; intros p o1; cbn [pipe_run app].
  - intros [= <- <-] Hs. rewrite Hs. cbn. by rewrite app_nil_r.
  - intros Hr Hs. apply bind_Some in Hr as ([pb ob] & Hb & Hr). apply bind_Some in Hr as ([pc oc] & Hc & Hr).
    injection Hr as <- <-. rewrite Hb. cbn. rewrite (IH _ _ Hc Hs). cbn. by rewrite app_assoc.
Qed.

Lemma reached_step p tr a p' os :
  reached cfg p tr → pipe_step p a = Some (p', os) → reached cfg p' (tr ++ os).
Proof.
  intros (manual & saas & ports & members & now & p0 & acts & Hs & Hr) Hst.
  exists manual, saas, ports, members, now, p0, (acts ++ [a]). split; [done|]. by eapply pipe_run_snoc.
Qed.

Lemma reached_start manual saas ports members now p :
  start_pipeline cfg manual saas ports members now = Ok p → reached cfg p [].
Proof. intros Hs. by exists manual, saas, ports, members, now, p, []. Qed.

Lemma fetched_step p a p' os :
  pipe_step p a = Some (p', os) → fetched os = match a with AFetch ms => ms | _ => [] end.
Proof. intros Hst. turn_cases Hst; try done. unfold fetched. cbn. by rewrite app_nil_r. Qed.

Lemma stored_fetch p ms p' os : pipe_step p (AFetch ms) = Some (p', os) → stored_rows os = [].
Proof. cbn [pipe_step]. destruct (pl_inbox p); [|done]. by intros [= _ <-]. Qed.

Lemma stored_rows_app o1 o2 : stored_rows (o1 ++ o2) = stored_rows o1 ++ stored_rows o2.
Proof. unfold stored_rows, copied. by rewrite obs_app, filter_app, fmap_app, concat_app. Qed.

Lemma fetched_app o1 o2 : fetched (o1 ++ o2) = fetched o1 ++ fetched o2.
Proof. apply obs_app. Qed.
Lemma observed_app l1 l2 : observed (l1 ++ l2) = observed l1 ++ observed l2.
Proof. apply bind_app. Qed.
Lemma observed_obs os : observed [LObs os] = os.
Proof. apply app_nil_r. Qed.

(** The processes so far with what each did, and what the present one did. *)
Record lives_inv (s : correlator) (log : list life_obs) (past : list (pipeline T * list obs)) (cur : list obs) : Prop := mkLives {
  lv_past : Forall (λ l, reached cfg l.1 l.2) past;
  lv_cur : match co_process s with Some p => reached cfg p cur | None => cur = [] end;
  lv_stopped : stopped log = past.*1;
  lv_observed : observed log = concat past.*2 ++ cur;
  lv_added : added log = fetched (observed log) ++ sg_waiting (co_group s);
  lv_table : co_table s = stored_rows (observed log)
}.

(** A step that adds observations of the present process. *)
Lemma lives_turn s log past cur p a p' os g :
  lives_inv s log past cur → co_process s = Some p → pipe_step p a = Some (p', os) →
  sg_waiting (co_group s) = fetched os ++ sg_waiting g →
  lives_inv (mkCorrelator g (co_table s ++ stored_rows os) (Some p')) (log ++ [LObs os]) past (cur ++ os).
Proof.
  intros [Hp Hc Hs Ho Ha Ht] Hpr Hst Hg. rewrite Hpr in Hc. constructor; cbn [co_process co_group co_table].
  - done.
  - by eapply reached_step.
  - unfold stopped. rewrite omap_app. cbn. by rewrite app_nil_r.
  - by rewrite observed_app, observed_obs, Ho, app_assoc.
  - unfold added. rewrite omap_app. cbn. rewrite app_nil_r. change (omap _ log) with (added log).
    by rewrite Ha, Hg, observed_app, observed_obs, fetched_app, <-app_assoc.
  - by rewrite observed_app, observed_obs, stored_rows_app, Ht.
Qed.

(** A step that leaves the processes and the table as they are. *)
Lemma lives_aside s log past cur o g :
  lives_inv s log past cur → observed o = [] → stopped o = [] → sg_waiting g = sg_waiting (co_group s) ++ added o →
  lives_inv (mkCorrelator g (co_table s) (co_process s)) (log ++ o) past cur.
Proof.
  intros [Hp Hc Hs Ho Ha Ht] Hob Hso Hg.
  assert (Hl : observed (log ++ o) = observed log) by (by rewrite observed_app, Hob, app_nil_r).
  constructor; cbn [co_process co_group co_table]; rewrite ?Hl; try done.
  - unfold stopped. rewrite omap_app. change (omap _ o) with (stopped o). by rewrite Hso, app_nil_r.
  - unfold added. rewrite omap_app. change (omap _ log) with (added log). change (omap _ o) with (added o).
    by rewrite Ha, Hg, app_assoc.
Qed.

Lemma acks_waiting ids (g : G) `{!StreamGroupLaws G FlowEvent} : sg_waiting (foldr sg_ack g ids) = sg_waiting g.
Proof. induction ids as [|id ids IH]; [done|]. cbn [foldr]. by rewrite sg_ack_waiting. Qed.

Lemma life_turn_cases s a s' o p :
  life_step s (LTurn a) = Some (s', o) → co_process s = Some p →
  ∃ p' os, pipe_step p a = Some (p', os) ∧ (∀ ms, a ≠ AFetch ms) ∧ o = [LObs os] ∧
    s' = mkCorrelator (foldr sg_ack (co_group s) (flow_acks a os)) (co_table s ++ stored_rows os) (Some p').
Proof.
  unfold life_step. intros Hst Hp. rewrite Hp in Hst.
  destruct a; try done; apply bind_Some in Hst as ([p' os] & Hps & [= <- <-]); by exists p', os.
Qed.

Lemma lives_step `{!StreamGroupLaws G FlowEvent} s log past cur a s' o :
  lives_inv s log past cur → life_step s a = Some (s', o) → ∃ past' cur', lives_inv s' (log ++ o) past' cur'.
Proof.
  intros Hl Hst. destruct a as [m|manual saas ports members now| |a|].
  - injection Hst as <- <-. exists past, cur. apply lives_aside; [done..|]. by rewrite sg_add_waiting.
  - cbn in Hst. destruct (co_process s) as [p|] eqn:Hp; [done|].
    destruct (start_pipeline _ _ _ _ _ _) as [p|e] eqn:Hs; injection Hst as <- <-.
    + destruct (lives_aside s log past cur [LStarted (Ok ())] (co_group s) Hl) as [H1 H2 H3 H4 H5 H6];
        [done..|by rewrite app_nil_r|]. cbn in *. rewrite Hp in H2. subst cur.
      exists past, []. constructor; [done|by eapply reached_start|done..].
    + destruct (lives_aside s log past cur [LStarted (Raise e)] (co_group s) Hl) as [H1 H2 H3 H4 H5 H6];
        [done..|by rewrite app_nil_r|]. by exists past, cur.
  - unfold life_step in Hst. destruct (co_process s) as [p|] eqn:Hp; [|done].
    destruct (sg_read 500 (co_group s)) as [g ms] eqn:Hr. apply sg_read_law in Hr as (Hw & _).
    apply bind_Some in Hst as ([p' os] & Hps & [= <- <-]). exists past, (cur ++ os).
    assert (Ht : co_table s = co_table s ++ stored_rows os) by (by rewrite (stored_fetch _ _ _ _ Hps), app_nil_r).
    rewrite Ht. eapply lives_turn; [done..|]. by rewrite (fetched_step _ _ _ _ Hps).
  - destruct (co_process s) as [p|] eqn:Hp; [|by unfold life_step in Hst; rewrite Hp in Hst; destruct a].
    destruct (life_turn_cases _ _ _ _ _ Hst Hp) as (p' & os & Hps & Hn & -> & ->).
    exists past, (cur ++ os). eapply lives_turn; [done..|]. rewrite (acks_waiting _ _), (fetched_step _ _ _ _ Hps).
    destruct a; try done. by destruct (Hn msgs).
  - cbn in Hst. destruct (co_process s) as [p|] eqn:Hp; [|done]. injection Hst as <- <-.
    destruct Hl as [H1 H2 H3 H4 H5 H6]. rewrite Hp in H2. exists (past ++ [(p, cur)]), [].
    assert (Hob : observed (log ++ [LStopped p]) = observed log) by (by rewrite observed_app; apply app_nil_r).
    constructor; cbn [co_process co_group co_table]; rewrite ?Hob; try done.
    + apply Forall_app. by split; [|repeat constructor].
    + unfold stopped. rewrite omap_app, fmap_app. cbn. change (omap _ log) with (stopped log). by rewrite H3.
    + rewrite H4, fmap_app, concat_app. cbn. by rewrite !app_nil_r.
    + unfold added. rewrite omap_app. cbn. by rewrite app_nil_r.
Qed.

Lemma lives_run `{!StreamGroupLaws G FlowEvent} s log past cur acts s' o :
  lives_inv s log past cur → life_run s acts = Some (s', o) → ∃ past' cur', lives_inv s' (log ++ o) past' cur'.
Proof.
  revert s log past cur o. induction acts as [|a acts IH]; intros s log past cur o Hl; cbn [life_run].
  { intros [= <- <-]. rewrite app_nil_r. eauto. }
  intros Hr. apply bind_Some in Hr as ([s1 o1] & H1 & Hr). apply bind_Some in Hr as ([s2 o2] & H2 & Hr).
  injection Hr as <- <-. destruct (lives_step _ _ _ _ _ _ _ Hl H1) as (past1 & cur1 & Hl1).
  rewrite app_assoc. by eapply IH.
Qed.

(** Before anything happened: an empty stream and an empty table. *)
Definition unborn (s : correlator) : Prop :=
  sg_waiting (co_group s) = [] ∧ sg_pending (co_group s) = [] ∧ co_table s = [] ∧ co_process s = None.

Lemma lives_start s : unborn s → lives_inv s [] [] [].
Proof. intros (Hw & _ & Ht & Hp). constructor; rewrite ?Hp, ?Hw, ?Ht; done. Qed.

(** The accounts of several processes together. *)
Lemma lives_account past :
  1 ≤ cs_batch_size cfg → Forall (λ l, reached cfg l.1 l.2) past →
  ∃ dropped, (cs_queue_max cfg ≤ 0 → dropped = []) ∧
    ∀ c cell, events_total c cell (decoded (fetched (concat past.*2))) =
      rows_total c cell (stored_rows (concat past.*2)) + rows_total c cell (failed_rows (concat past.*2)) +
      rows_total c cell dropped + sum_by (held c cell) past.*1.
Proof.
  intros Hb HF. induction HF as [|[p tr] past Hr HF (dropped & Hd & Hacc)]; [by exists []|].
  destruct (dropped_exists p tr Hb Hr) as [d Hpd]. exists (d ++ dropped). split.
  { intros Hm. destruct Hpd as [_ Hpd]. by rewrite Hpd, Hd. }
  intros c cell. rewrite !fmap_cons. cbn [concat fst snd].
  rewrite fetched_app, decoded_app, events_total_app, (process_account _ _ _ _ _ Hb Hr Hpd), Hacc. cbn [fst snd].
  rewrite stored_rows_app, !rows_total_app, sum_by_cons.
  assert (Hf : failed_rows (tr ++ concat past.*2) = failed_rows tr ++ failed_rows (concat past.*2)).
  { unfold failed_rows, copied. by rewrite obs_app, filter_app, fmap_app, concat_app. }
  rewrite Hf, rows_total_app. cbn [fst snd]. lia.
Qed.


(** ** Entries that stay pending *)

(** The entries that the stopped processes had read and not handled. *)
Definition stuck (log : list life_obs) : list string := stopped log ≫= (λ p, (pl_inbox p).*1).
Definition inbox_ids (s : correlator) : list string :=
  match co_process s with Some p => (pl_inbox p).*1 | None => [] end.

Definition pending_inv (s : correlator) (log : list life_obs) : Prop :=
  sg_pending (co_group s) = stuck log ++ inbox_ids s ∧
  sublist (sg_pending (co_group s) ++ (sg_waiting (co_group s)).*1) (added log).*1.

Lemma filter_out (x : string) (l : list string) : x ∉ l → filter (λ y, y ≠ x) l = l.
Proof.
  induction l as [|y l IH]; [done|]. intros [Hy Hl]%not_elem_of_cons. rewrite filter_cons_True by congruence. by rewrite IH.
Qed.

Lemma filter_out_one (x : string) (l k : list string) : NoDup (l ++ x :: k) → filter (λ y, y ≠ x) (l ++ x :: k) = l ++ k.
Proof.
  intros (_ & Hl & [Hk _]%NoDup_cons)%NoDup_app. rewrite filter_app, filter_cons_False by (by intros []).
  rewrite !filter_out; [done..|]. intros Hx. destruct (Hl x Hx). by left.
Qed.

(** What a turn does to the inbox of its process. *)
Lemma inbox_step p a p' os :
  pipe_step p a = Some (p', os) →
  match a with
  | AFetch ms => pl_inbox p = [] ∧ pl_inbox p' = ms
  | AHandle => ∃ id r, pl_inbox p = (id, r) :: pl_inbox p' ∧ flow_acks a os = [id]
  | _ => pl_inbox p' = pl_inbox p
  end.
Proof. intros Hst. turn_cases Hst; try done; eauto. Qed.

Lemma start_inbox manual saas ports members now (p : pipeline T) :
  start_pipeline cfg manual saas ports members now = Ok p → pl_inbox p = [].
Proof. unfold start_pipeline. destruct (load_tables _ _ _ _) as [r [[]|e]]; [|done]. by intros [= <-]. Qed.

Lemma added_app l1 l2 : added (l1 ++ l2) = added l1 ++ added l2.
Proof. apply omap_app. Qed.
Lemma stuck_app l1 l2 : stuck (l1 ++ l2) = stuck l1 ++ stuck l2.
Proof. unfold stuck, stopped. by rewrite omap_app, bind_app. Qed.

Lemma pending_step `{!StreamGroupLaws G FlowEvent} s log a s' o :
  NoDup (added log).*1 → pending_inv s log → life_step s a = Some (s', o) → pending_inv s' (log ++ o).
Proof.
  intros Hnd [Hp Hsub] Hst. unfold pending_inv. rewrite stuck_app, added_app, fmap_app.
  destruct a as [m|manual saas ports members now| |a|].
  - injection Hst as <- <-. cbn [co_group]. rewrite sg_add_waiting, sg_add_pending. unfold inbox_ids. cbn.
    rewrite app_nil_r, fmap_app, app_assoc. split; [done|]. by apply sublist_app.
  - unfold life_step in Hst. destruct (co_process s) as [p|] eqn:Hpr; [done|].
    unfold inbox_ids in Hp. rewrite Hpr in Hp.
    destruct (start_pipeline _ _ _ _ _ _) as [p|e] eqn:Hs; injection Hst as <- <-; unfold inbox_ids; cbn;
      rewrite ?Hpr, ?(start_inbox _ _ _ _ _ _ Hs), ?app_nil_r in *; done.
  - unfold life_step in Hst. destruct (co_process s) as [p|] eqn:Hpr; [|done].
    destruct (sg_read 500 (co_group s)) as [g ms] eqn:Hr. apply sg_read_law in Hr as (Hw & Hq & _).
    apply bind_Some in Hst as ([p' os] & Hps & [= <- <-]). apply inbox_step in Hps as [Hi Hi'].
    unfold inbox_ids in *. rewrite Hpr, Hi in Hp. cbn in *. rewrite Hi', !app_nil_r in *. subst.
    rewrite Hq, Hp. split; [done|]. rewrite Hp, Hw, fmap_app, app_assoc in Hsub. done.
  - destruct (co_process s) as [p|] eqn:Hpr; [|by unfold life_step in Hst; rewrite Hpr in Hst; destruct a].
    destruct (life_turn_cases _ _ _ _ _ Hst Hpr) as (p' & os & Hps & Hn & -> & ->). cbn [co_group].
    rewrite (acks_waiting _ _). unfold inbox_ids in *. rewrite Hpr in Hp. cbn [co_process].
    change (stuck [LObs os]) with (@nil string). change (added [LObs os]).*1 with (@nil string). rewrite !app_nil_r.
    apply inbox_step in Hps. destruct a; try (by destruct (Hn msgs)); try (by cbn [flow_acks foldr]; rewrite Hps).
    destruct Hps as (id & r & Hi & Hacks). rewrite Hacks. cbn [foldr]. rewrite sg_ack_pending.
    rewrite Hi in Hp. cbn in Hp. rewrite Hp in Hsub |- *.
    assert (Hnd' : NoDup ((stuck log ++ id :: (pl_inbox p').*1) ++ (sg_waiting (co_group s)).*1)) by (by eapply sublist_NoDup).
    rewrite filter_out_one by (by apply NoDup_app in Hnd' as [? _]). split; [done|].
    etrans; [|exact Hsub]. apply sublist_app; [|done]. apply sublist_app; [done|]. by constructor.
  - unfold life_step in Hst. destruct (co_process s) as [p|] eqn:Hpr; [|done]. injection Hst as <- <-.
    unfold inbox_ids in *. rewrite Hpr in Hp. cbn. rewrite !app_nil_r. done.
Qed.

Lemma pending_run `{!StreamGroupLaws G FlowEvent} s log acts s' o :
  NoDup (added (log ++ o)).*1 → pending_inv s log → life_run s acts = Some (s', o) → pending_inv s' (log ++ o).
Proof.
  revert s log o. induction acts as [|a acts IH]; intros s log o Hnd Hi; cbn [life_run].
  { intros [= <- <-]. by rewrite app_nil_r. }
  intros Hr. apply bind_Some in Hr as ([s1 o1] & H1 & Hr). apply bind_Some in Hr as ([s2 o2] & H2 & Hr).
  injection Hr as <- <-. rewrite app_assoc in *. apply IH with s1; [done| |done]. eapply pending_step; [|done..].
  rewrite <-app_assoc, added_app, fmap_app in Hnd. by apply NoDup_app in Hnd as [? _].
Qed.

(** An entry that a process had read and not handled when it was stopped stays pending in
    Redis for ever, and no later process reads it: of the entries delivered, exactly
    these and the ones that the running process has still to handle are not
    acknowledged. *)
Theorem stuck_entries `{!StreamGroupLaws G FlowEvent} s acts s' log :
  unborn s → life_run s acts = Some (s', log) → NoDup (added log).*1 →
  sg_pending (co_group s') = stuck log ++ inbox_ids s' ∧ NoDup (sg_pending (co_group s')) ∧
  Forall (λ id, id ∉ (sg_waiting (co_group s')).*1) (sg_pending (co_group s')).
Proof.
  intros (Hw & Hp & _ & Hpr) Hr Hnd.
  assert (Hi : pending_inv s []) by (split; unfold inbox_ids; by rewrite ?Hpr, ?Hp, ?Hw).
  destruct (pending_run s [] acts s' log Hnd Hi Hr) as [H1 H2]. cbn [app] in *.
  pose proof (sublist_NoDup _ _ Hnd H2) as (Hd & Hdis & _)%NoDup_app. split_and!; [done..|].
  apply Forall_forall. intros id Hid. by apply Hdis.
Qed.
End restart.
#[global] Arguments correlator : clear implicits.

(** ** Concrete lives

    A consumer group as two lists; the settings and the messages of the example of
    [Pipeline], but for queues without a bound. *)

Record list_group : Type := mkListGroup { lg_waiting : list (message FlowEvent); lg_pending : list string }.

#[export] Instance list_stream : StreamGroup list_group FlowEvent := {|
  sg_waiting := lg_waiting;
  sg_pending := lg_pending;
  sg_add m g := mkListGroup (lg_waiting g ++ [m]) (lg_pending g);
  sg_read n g := (mkListGroup (drop n (lg_waiting g)) (lg_pending g ++ (take n (lg_waiting g)).*1), take n (lg_waiting g));
  sg_ack id g := mkListGroup (lg_waiting g) (filter (λ x, x ≠ id) (lg_pending g))
|}.

#[export] Instance list_stream_laws : StreamGroupLaws list_group FlowEvent.
Proof.
  split; try done. intros n g g' ms [= <- <-]. cbn. split_and!; [by rewrite take_drop|done|]. rewrite length_take. lia.
Qed.

Definition life_cfg : CorrelatorSettings :=
  mkSettings "redis://r" "postgresql://p" "flows.raw" "identity.events" 5 0 2 500 "INFO" 9100 ["Everyone"] 500.

Definition ex_unborn : correlator (list (interval Binding)) list_group := mkCorrelator (mkListGroup [] []) [] None.

Definition ex_boot : life_action := LStart ex_manual ex_saas ex_ports [] 0.

(** Four entries; the process handles the first two and sees one of them, is stopped, and
    its successor waits for more. *)
Definition ex_stop_acts : list life_action :=
  (LAdd <$> ex_messages) ++ [ex_boot; LRead; LTurn AHandle; LTurn AHandle; LTurn AWindow; LStop; ex_boot; LRead].

Definition ex_life (acts : list life_action) := life_run life_cfg ex_unborn acts.

Definition ex_cell : Z * Key := (0, mkKey "10.0.0.1" "52.97.1.1" 443 6).

(** The two events that were acknowledged are in no row, the other two entries are pending,
    and none is waiting: the successor never gets them. *)
Example stop_loses_events :
  (λ sl, (events_total life_cfg FlowCount ex_cell (decoded (added sl.2)), co_table sl.1,
          sg_waiting (co_group sl.1), sg_pending (co_group sl.1), held life_cfg FlowCount ex_cell <$> holders sl.2 sl.1))
    <$> ex_life ex_stop_acts =
  Some (2, [], [], ["3"; "4"], [2; 0]).
Proof. vm_compute. reflexivity. Qed.

(** Without the stop, the same entries and the plan of [Pipeline] give the table. *)
Definition ex_full_acts : list life_action :=
  (LAdd <$> ex_messages) ++ [ex_boot; LRead] ++ (LTurn <$> tail ex_plan) ++ [LStop; ex_boot; LRead].

Example life_rows :
  (λ sl, ((λ r, (fr_time r, fr_src_ip r, fr_bytes r, fr_flow_count r)) <$> co_table sl.1,
          sg_pending (co_group sl.1), held life_cfg Bytes ex_cell <$> holders sl.2 sl.1)) <$> ex_life ex_full_acts =
  Some ([(0, "10.0.0.1", 15, 2); (10 * second, "10.0.0.2", 7, 1)], [], [0; 0]).
Proof. vm_compute. reflexivity. Qed.

