(* ===== verification/ApiAuth.v ===== *)
(** * Authentication and authorisation of the API
      ([api/auth/*.py], [api/middleware_csrf.py], [api/dependencies.py])

    Roles from the groups of a token, the signed session, the cache of signing
    keys, the check of a bearer token, the CSRF middleware and the gates of the
    routes.  The signature library and the JWT library are interfaces: the
    classes [Signer] and [JwtLib]. *)

From S2P Require Import Prelude PySort PyDict PyStr PyText PyJson.

(** How a request ends: with a value, with an HTTP error, or with an exception that
    nothing catches. *)
Inductive response (A : Type) : Type :=
  | Reply (a : A)
  | HttpError (status : Z)
  | Crash (e : exn).
Arguments Reply {A} a.
Arguments HttpError {A} status.
Arguments Crash {A} e.

#[global] Instance response_bind : MBind response := λ A B f m,
  match m with Reply a => f a | HttpError s => HttpError s | Crash e => Crash e end.
#[global] Instance response_ret : MRet response := λ A a, Reply a.

Definition lift_crash {A} (r : result A) : response A :=
  match r with Ok a => Reply a | Raise e => Crash e end.

(** ** Roles *)

Record RoleMap : Type := mkRoleMap {
  rm_viewer : gset string;
  rm_editor : gset string;
  rm_admin : gset string
}.

Definition hierarchy (role : string) : option (gset string) :=
  if decide (role = "viewer") then Some {["viewer"]}
  else if decide (role = "editor") then Some {["viewer"; "editor"]}
  else if decide (role = "admin") then Some {["viewer"; "editor"; "admin"]}
  else None.

(** [gset & mapping.role] as a truth value. *)
Definition shares (groups members : gset string) : bool := negb (bool_decide (groups ∩ members = ∅)).

Definition roles_from_groups (groups : list string) (m : RoleMap) : gset string :=
  let g := list_to_set groups in
  if shares g (rm_admin m) then default ∅ (hierarchy "admin")
  else if shares g (rm_editor m) then default ∅ (hierarchy "editor")
  else if shares g (rm_viewer m) then default ∅ (hierarchy "viewer")
  else ∅.

(** [_split] and [_role_map] *)
Definition split_ids (val : string) : gset string :=
  list_to_set (filter (λ x, str_true x = true) (split_on "," val)).

Record Settings : Type := mkApiSettings {
  oidc_issuer : string;
  oidc_client_id : string;
  oidc_group_ids_viewer : string;
  oidc_group_ids_editor : string;
  oidc_group_ids_admin : string;
  session_secret : string;
  access_token_ttl_s : Z
}.

Definition role_map (s : Settings) : RoleMap :=
  mkRoleMap (split_ids (oidc_group_ids_viewer s)) (split_ids (oidc_group_ids_editor s))
    (split_ids (oidc_group_ids_admin s)).

(** ** The session *)

(** The timed serializer of the signature library: [sign secret payload at] and
    [unsign secret token max_age now]. *)
Class Signer : Type := {
  sign : string → json → Z → string;
  unsign : string → string → Z → Z → option json;
  unsign_sign secret p at_ max_age now :
    now - at_ ≤ max_age → unsign secret (sign secret p at_) max_age now = Some p;
  unsign_genuine secret token max_age now p :
    unsign secret token max_age now = Some p → ∃ at_, token = sign secret p at_ ∧ now - at_ ≤ max_age
}.

Record SessionData : Type := mkSession {
  sd_user_upn : json;
  sd_roles : gset string;
  sd_csrf : json;
  sd_exp : Z
}.

Record SessionCodec : Type := mkCodec { sc_secret : string; sc_ttl : Z }.

Definition MIN_SECRET_BYTES : Z := 32.

Definition new_codec (secret : string) (ttl_s : Z) : result SessionCodec :=
  if len secret <? MIN_SECRET_BYTES then Raise ValueError else Ok (mkCodec secret ttl_s).

(** [set(v)] of a decoded list, as far as texts can be members. *)
Fixpoint json_texts (l : list json) : result (list string) :=
  match l with
  | [] => Ok []
  | JArr _ :: _ | JObj _ :: _ => Raise TypeError
  | JStr s :: l => r ← json_texts l; Ok (s :: r)
  | _ :: l => json_texts l
  end.

Definition text_set (v : json) : result (list string) := l ← iter_json v; json_texts l.

(** The payload of a session: [asdict] with the roles sorted. *)
Definition session_payload (d : SessionData) : json :=
  JObj [("user_upn", sd_user_upn d); ("roles", JArr (JStr <$> py_sorted id (elements (sd_roles d))));
        ("csrf", sd_csrf d); ("exp", JInt (sd_exp d))].

Definition as_int (v : json) : result Z := match v with JInt z => Ok z | _ => Raise TypeError end.

Section auth.
Context `{Signer, PyPrims}.

(** [encode] and [decode]; [now] is the wall clock in seconds. *)
Definition encode (c : SessionCodec) (now : Z) (d : SessionData) : string :=
  sign (sc_secret c) (session_payload d) now.

Definition decode (c : SessionCodec) (now : Z) (token : string) : result SessionData :=
  match unsign (sc_secret c) token (sc_ttl c) now with
  | None => Raise ValueError
  | Some raw =>
      e ← jitem "exp" raw; e ← as_int e;
      if e <? now then Raise ValueError
      else
        upn ← jitem "user_upn" raw; roles ← jitem "roles" raw; roles ← text_set roles; csrf ← jitem "csrf" raw;
        Ok (mkSession upn (list_to_set roles) csrf e)
  end.

Definition SESSION_TTL : Z := 8 * 3600.

(** [_codec] *)
Definition codec (s : Settings) : result SessionCodec := new_codec (session_secret s) SESSION_TTL.

(** ** The signing keys *)

Record JwksCache : Type := mkJwks {
  jw_ttl : Z;
  jw_keys : pydict string json;
  jw_fetched_at : Z
}.

Definition new_jwks (ttl_s : Z) : JwksCache := mkJwks ttl_s [] 0.

Definition is_stale (c : JwksCache) (now : Z) : bool :=
  match jw_keys c with [] => true | _ => jw_ttl c <? now - jw_fetched_at c end.

(** [_refresh]: the keys that were fetched, with the clock after the fetch. *)
Definition jwks_refresh (c : JwksCache) (fetch : Z * result (pydict string json)) : result JwksCache :=
  keys ← fetch.2; Ok (mkJwks (jw_ttl c) keys fetch.1).

(** [get_key] with the answers of the fetches it may make: the cache, the number of
    fetches and the key. *)
Definition get_key (c : JwksCache) (kid : string) (now : Z) (fetch1 fetch2 : Z * result (pydict string json)) :
    JwksCache * nat * result json :=
  let '(c1, n1, r1, next) :=
    if is_stale c now then
      match jwks_refresh c fetch1 with Ok c1 => (c1, 1%nat, Ok (), fetch2) | Raise e => (c, 1%nat, Raise e, fetch2) end
    else (c, 0%nat, Ok (), fetch1) in
  match r1 with
  | Raise e => (c1, n1, Raise e)
  | Ok _ =>
      match dget kid (jw_keys c1) with
      | Some k => (c1, n1, Ok k)
      | None =>
          match jwks_refresh c1 next with
          | Raise e => (c1, S n1, Raise e)
          | Ok c2 => (c2, S n1, need KeyError (dget kid (jw_keys c2)))
          end
      end
  end.

(** ** Bearer tokens *)

Inductive jwt_outcome : Type := JwtClaims (claims : json) | JwtExpired | JwtError.

(** The JWT library: the header of a token, and the decoding with the checks of the
    signature, the audience, the issuer and the expiry. *)
Class JwtLib : Type := {
  unverified_header : string → option json;
  jwt_decode : string → json → string → string → jwt_outcome
}.

Inductive token_error : Type := InvalidToken | TokenCrash (e : exn).

(** [verify_jwt], with the key source as an argument. *)
Definition verify_jwt `{JwtLib} (token : string) (get_key : json → result json) (audience issuer : string) :
    json + token_error :=
  match unverified_header token with
  | None => inr InvalidToken
  | Some hdr =>
      match jget_none "kid" hdr with
      | Raise e => inr (TokenCrash e)
      | Ok kid =>
          if negb (jtrue kid) then inr InvalidToken
          else
            match get_key kid with
            | Raise KeyError => inr InvalidToken
            | Raise e => inr (TokenCrash e)
            | Ok key =>
                match jwt_decode token key audience issuer with
                | JwtClaims c => inl c
                | JwtExpired | JwtError => inr InvalidToken
                end
            end
      end
  end.

(** ** Requests *)

Record Request : Type := mkRequest {
  rq_method : string;
  rq_cookies : gmap string string;
  rq_headers : gmap string string
}.

Record User : Type := mkUser { us_upn : json; us_roles : gset string }.

(** [s.split(None, 1)[1]] *)
Definition second_word (s : string) : result string :=
  let rest := (span (λ c, negb (is_space c)) (lstrip_by is_space s)).2 in
  let word := lstrip_by is_space rest in
  if str_true word then Ok word else Raise IndexError.

Definition is_bearer (rq : Request) : bool :=
  starts_with (lower (default "" (rq_headers rq !! "authorization"))) "bearer ".

(** [current_user]; [jwks] is the key source built for the request. *)
Definition current_user `{JwtLib} (s : Settings) (jwks : json → result json) (now : Z) (rq : Request) : response User :=
  let auth_header := default "" (rq_headers rq !! "authorization") in
  if is_bearer rq then
    token ← lift_crash (second_word auth_header);
    match verify_jwt token jwks (oidc_client_id s) (oidc_issuer s) with
    | inr InvalidToken => HttpError 401
    | inr (TokenCrash e) => Crash e
    | inl claims =>
        sub ← lift_crash (jget_or "sub" (JStr "unknown") claims);
        upn ← lift_crash (jget_or "upn" sub claims);
        groups ← lift_crash (v ← jget_or "groups" (JArr []) claims; text_set v);
        Reply (mkUser upn (roles_from_groups groups (role_map s)))
    end
  else
    match rq_cookies rq !! "session" with
    | Some cookie =>
        if str_true cookie then
          match (c ← codec s; decode c now cookie) with
          | Ok d => Reply (mkUser (sd_user_upn d) (sd_roles d))
          | Raise ValueError => HttpError 401
          | Raise e => Crash e
          end
        else HttpError 401
    | None => HttpError 401
    end.

(** [require_role(role)] and [require_editor] on a user. *)
Definition require_role (role : string) (u : User) : response User :=
  if decide (role ∈ us_roles u) then Reply u else HttpError 403.
Definition require_editor (u : User) : response User := require_role "editor" u.

(** ** CSRF *)

Definition SAFE_METHODS : list string := ["GET"; "HEAD"; "OPTIONS"].

(** [dispatch]: the request goes on, or is refused. *)
Definition csrf_dispatch {A} (rq : Request) (call_next : Request → response A) : response A :=
  if decide (rq_method rq ∈ SAFE_METHODS) then call_next rq
  else
    match rq_cookies rq !! "session" with
    | None => call_next rq
    | Some _ =>
        match rq_cookies rq !! "csrf_token" with
        | Some t =>
            if str_true t && bool_decide (rq_headers rq !! "x-csrf-token" = Some t) then call_next rq
            else HttpError 403
        | None => HttpError 403
        end
    end.

(** A route: the middleware, the role of the router, the role of the handler, and
    the handler. *)
Definition route `{JwtLib} {A} (s : Settings) (jwks : json → result json) (now : Z) (roles : list string)
    (handler : User → response A) (rq : Request) : response A :=
  csrf_dispatch rq (λ rq,
    u ← current_user s jwks now rq;
    u ← foldl (λ acc role, u ← acc; require_role role u) (Reply u) roles;
    handler u).

(** ** Signing in *)

(** [callback]: the cookies that are set. [csrf] is the random token; [exchange] is
    the answer of the code exchange. *)
Definition callback (s : Settings) (now : Z) (rq : Request) (state csrf : string) (exchange : result json) :
    response (string * string) :=
  if decide (rq_cookies rq !! "oidc_state" ≠ Some state) then HttpError 400
  else
    claims ← lift_crash exchange;
    groups ← lift_crash (v ← jget_or "groups" (JArr []) claims; text_set v);
    upn ← lift_crash (jitem "upn" claims);
    c ← lift_crash (codec s);
    let d := mkSession upn (roles_from_groups groups (role_map s)) (JStr csrf) (now + access_token_ttl_s s) in
    Reply (encode c now d, csrf).

(** [me] and [verify] *)
Definition me (u : User) : json * list string := (us_upn u, py_sorted id (elements (us_roles u))).

Definition verify_route (u : User) (rq : Request) : response (json * list string) :=
  let uri := default "" (rq_headers rq !! "x-forwarded-uri") in
  if starts_with uri "/traefik" && negb (bool_decide ("admin" ∈ us_roles u)) then HttpError 403
  else Reply (us_upn u, py_sorted id (elements (us_roles u))).

(** ** Roles *)

Lemma shares_spec g s : shares (list_to_set g) s = true ↔ ∃ x, x ∈ g ∧ x ∈ s.
Proof.
  unfold shares. rewrite negb_true_iff, bool_decide_eq_false. split.
  - intros Hne. apply set_choose_L in Hne as [x Hx]. exists x. set_solver.
  - intros (x & Hx & Hs) E. assert (x ∈ (∅ : gset string)) by (rewrite <-E; set_solver). set_solver.
Qed.

(** The role of a level, for a user in a group of that level or above. *)
Definition in_any (groups : list string) (s : gset string) : Prop := ∃ g, g ∈ groups ∧ g ∈ s.

(** The roles of a user are exactly those of the role map's hierarchy: [admin] for
    a group of the administrators, [editor] for a group of the administrators or
    editors, [viewer] for a group of any of the three, and no other role. *)
Theorem roles_hierarchy groups m role :
  role ∈ roles_from_groups groups m ↔
  role = "viewer" ∧ (in_any groups (rm_viewer m) ∨ in_any groups (rm_editor m) ∨ in_any groups (rm_admin m)) ∨
  role = "editor" ∧ (in_any groups (rm_editor m) ∨ in_any groups (rm_admin m)) ∨
  role = "admin" ∧ in_any groups (rm_admin m).
Proof.
  unfold roles_from_groups, in_any.
  destruct (shares _ (rm_admin m)) eqn:Ea; [apply shares_spec in Ea; simpl; set_solver|].
  assert (¬ ∃ x, x ∈ groups ∧ x ∈ rm_admin m) by (rewrite <-shares_spec; congruence).
  destruct (shares _ (rm_editor m)) eqn:Ee; [apply shares_spec in Ee; simpl; set_solver|].
  assert (¬ ∃ x, x ∈ groups ∧ x ∈ rm_editor m) by (rewrite <-shares_spec; congruence).
  destruct (shares _ (rm_viewer m)) eqn:Ev; [apply shares_spec in Ev; simpl; set_solver|].
  assert (¬ ∃ x, x ∈ groups ∧ x ∈ rm_viewer m) by (rewrite <-shares_spec; congruence).
  set_solver.
Qed.

(** ** Sessions *)

Lemma json_texts_str l : json_texts (JStr <$> l) = Ok l.
Proof. induction l as [|s l IH]; [done|]. rewrite fmap_cons. cbn [json_texts]. by rewrite IH. Qed.

Lemma sorted_roles (r : gset string) : list_to_set (py_sorted id (elements r)) = r.
Proof. apply set_eq. intros x. by rewrite elem_of_list_to_set, py_sorted_elem, elem_of_elements. Qed.

Lemma decode_encode c at_ now d :
  now - at_ ≤ sc_ttl c → now ≤ sd_exp d → decode c now (encode c at_ d) = Ok d.
Proof.
  intros Ht He. unfold decode, encode. rewrite unsign_sign by done. simpl.
  rewrite (proj2 (Z.ltb_ge _ _)) by lia. unfold text_set. simpl. rewrite json_texts_str. simpl.
  rewrite sorted_roles. by destruct d.
Qed.

(** A session that is accepted was signed with the secret, within the lifetime, and
    has not reached its expiry. *)
Lemma decode_genuine c now token d :
  decode c now token = Ok d →
  ∃ p at_, token = sign (sc_secret c) p at_ ∧ now - at_ ≤ sc_ttl c ∧ now ≤ sd_exp d.
Proof.
  unfold decode. destruct (unsign _ _ _ _) as [p|] eqn:E; [|done]. intros Hd.
  apply unsign_genuine in E as (at_ & -> & Ht). exists p, at_. split; [done|]. split; [done|].
  apply bind_ok in Hd as (e & _ & Hd). apply bind_ok in Hd as (z & _ & Hd).
  destruct (Z.ltb_spec z now); [done|].
  apply bind_ok in Hd as (? & _ & Hd). apply bind_ok in Hd as (? & _ & Hd). apply bind_ok in Hd as (? & _ & Hd).
  apply bind_ok in Hd as (? & _ & Hd). injection Hd as <-. done.
Qed.

Lemma codec_ok s c : codec s = Ok c → c = mkCodec (session_secret s) SESSION_TTL.
Proof. unfold codec, new_codec. destruct (len _ <? _); [done|]. by intros [= <-]. Qed.

(** A request that carries the two cookies and no bearer token. *)
Definition browser_request (rq : Request) (token : string) : Prop :=
  rq_cookies rq !! "session" = Some token ∧ is_bearer rq = false.

(** After a sign-in whose state matches, the session cookie identifies the user
    of the identity provider's claims with the roles of the claims' groups, for as
    long as both the eight hours of the signature and the configured lifetime last. *)
Theorem login_session `{JwtLib} s jwks t rq0 state csrf exchange token csrf' now rq :
  callback s t rq0 state csrf exchange = Reply (token, csrf') →
  token ≠ "" → browser_request rq token → now - t ≤ SESSION_TTL → now ≤ t + access_token_ttl_s s →
  csrf' = csrf ∧ rq_cookies rq0 !! "oidc_state" = Some state ∧
  ∃ claims upn groups, exchange = Ok claims ∧ jitem "upn" claims = Ok upn ∧
    (v ← jget_or "groups" (JArr []) claims; text_set v) = Ok groups ∧
    current_user s jwks now rq = Reply (mkUser upn (roles_from_groups groups (role_map s))).
Proof.
  unfold callback. intros Hc Hne [Hck Hb] Ht1 Ht2. destruct (decide _) as [|Hst]; [done|].
  destruct exchange as [claims|]; [|done]. simpl in Hc.
  destruct (jget_or _ _ claims ≫= text_set) as [groups|] eqn:Hg; [|done]. simpl in Hc.
  destruct (jitem "upn" claims) as [upn|] eqn:Hu; [|done]. simpl in Hc.
  destruct (codec s) as [c|] eqn:Hcd; [|done]. simpl in Hc. injection Hc as <- <-.
  split; [done|]. split; [destruct (decide (rq_cookies rq0 !! "oidc_state" = Some state)); naive_solver|].
  exists claims, upn, groups. repeat split; [done..|].
  unfold current_user. rewrite Hb, Hck, Hcd. assert (str_true (encode c t _) = true) as -> by (by destruct (encode c t _)).
  cbn [mbind result_bind]. rewrite decode_encode; [done|by rewrite (codec_ok _ _ Hcd)|done].
Qed.

(** ** Gates *)

Lemma require_roles_ok roles u u' :
  foldl (λ acc role, u ← acc; require_role role u) (Reply u) roles = Reply u' →
  u' = u ∧ Forall (λ r, r ∈ us_roles u) roles.
Proof.
  induction roles as [|r roles IH]; simpl; [by intros [= ->]|]. unfold require_role at 2.
  destruct (decide (r ∈ us_roles u)) as [Hr|].
  - intros [-> Hall]%IH. auto.
  - intros E. exfalso. clear IH. induction roles; [done|]. simpl in E. auto.
Qed.

(** The user of a request is known from a verified token or from a signed session. *)
Inductive authenticated `{JwtLib} (s : Settings) (now : Z) (rq : Request) (u : User) : Prop :=
  | by_token token key claims groups :
      is_bearer rq = true → jwt_decode token key (oidc_client_id s) (oidc_issuer s) = JwtClaims claims →
      (v ← jget_or "groups" (JArr []) claims; text_set v) = Ok groups →
      us_roles u = roles_from_groups groups (role_map s) → authenticated s now rq u
  | by_session token p at_ :
      is_bearer rq = false → rq_cookies rq !! "session" = Some token →
      token = sign (session_secret s) p at_ → now - at_ ≤ SESSION_TTL → authenticated s now rq u.

Lemma current_user_authenticated `{JwtLib} s jwks now rq u :
  current_user s jwks now rq = Reply u → authenticated s now rq u.
Proof.
  unfold current_user. destruct (is_bearer rq) eqn:Hb.
  - destruct (second_word _) as [token|]; [|done]. simpl.
    unfold verify_jwt. destruct (unverified_header token) as [hdr|]; [|done].
    destruct (jget_none "kid" hdr) as [kid|]; [|done]. destruct (negb (jtrue kid)); [done|].
    destruct (jwks kid) as [key|[]]; try done.
    destruct (jwt_decode token key _ _) as [claims| |] eqn:Hj; [|done..]. simpl.
    destruct (jget_or "sub" _ claims) as [sub|]; [|done]. simpl.
    destruct (jget_or "upn" sub claims) as [upn|]; [|done]. simpl.
    destruct (jget_or "groups" _ claims ≫= text_set) as [groups|] eqn:Hg; [|done]. simpl.
    intros [= <-]. by eapply by_token.
  - destruct (rq_cookies rq !! "session") as [cookie|] eqn:Hck; [|done]. destruct (str_true cookie); [|done].
    destruct (codec s) as [c|[]] eqn:Hc; try done. cbn [mbind result_bind].
    destruct (decode c now cookie) as [d|[]] eqn:Hd; try done. intros [= <-].
    apply decode_genuine in Hd as (p & at_ & E & Ht & _). rewrite (codec_ok _ _ Hc) in *. by eapply by_session.
Qed.

(** A handler of a state-changing request behind the editor gate runs only for a
    user who holds the editor role and is authenticated by a token that verified
    against the audience and issuer, or by a session signed with the secret within
    eight hours; and when the request carries a session cookie, only with the CSRF
    header equal to the non-empty CSRF cookie. *)
Theorem editor_gate `{JwtLib} {A} s jwks now (handler : User → response A) rq a :
  route s jwks now ["viewer"; "editor"] handler rq = Reply a → rq_method rq ∉ SAFE_METHODS →
  ∃ u, handler u = Reply a ∧ "editor" ∈ us_roles u ∧ "viewer" ∈ us_roles u ∧ authenticated s now rq u ∧
    (rq_cookies rq !! "session" ≠ None →
       ∃ t, t ≠ "" ∧ rq_cookies rq !! "csrf_token" = Some t ∧ rq_headers rq !! "x-csrf-token" = Some t).
Proof.
  unfold route, csrf_dispatch. intros Hr Hm. rewrite decide_False in Hr by done.
  assert (Hgate : (u ← current_user s jwks now rq;
                   u ← foldl (λ acc role, u ← acc; require_role role u) (Reply u) ["viewer"; "editor"];
                   handler u) = Reply a ∧
    (rq_cookies rq !! "session" ≠ None →
       ∃ t, t ≠ "" ∧ rq_cookies rq !! "csrf_token" = Some t ∧ rq_headers rq !! "x-csrf-token" = Some t)).
  { destruct (rq_cookies rq !! "session"); [|done]. destruct (rq_cookies rq !! "csrf_token") as [t|]; [|done].
    destruct (str_true t) eqn:Ht; [|done]. simpl in Hr. case_bool_decide; [|done]. split; [done|].
    intros _. exists t. split; [by intros ->|done]. }
  clear Hr. destruct Hgate as [Hr Hcsrf]. destruct (current_user s jwks now rq) as [u| |] eqn:Hu; try done.
  cbn [mbind response_bind] in Hr.
  destruct (foldl _ (Reply u) _) as [u'| |] eqn:Hf; try done. cbn [mbind response_bind] in Hr.
  apply require_roles_ok in Hf as [-> Hall]. apply Forall_cons in Hall as [Hv He]. apply Forall_cons in He as [He _].
  exists u. split; [done|]. split; [done|]. split; [done|]. split; [by eapply current_user_authenticated|done].
Qed.

(** ** Keys *)

(** Looking up a signing key fetches the key set at most twice; it never fetches
    when the cache is fresh and holds the key, always fetches before it reports an
    unknown key, and the key it returns is the one of the key set it leaves cached. *)
Theorem jwks_lookup c kid now f1 f2 c' n r :
  get_key c kid now f1 f2 = (c', n, r) →
  (n ≤ 2)%nat ∧ (∀ k, r = Ok k → dget kid (jw_keys c') = Some k) ∧
  (is_stale c now = false → dget kid (jw_keys c) ≠ None → n = 0%nat ∧ c' = c ∧ r = need KeyError (dget kid (jw_keys c))) ∧
  (∀ e, r = Raise e → (1 ≤ n)%nat) ∧ (is_stale c now = true → (1 ≤ n)%nat).
Proof.
  unfold get_key, jwks_refresh.
  assert (Hneed : ∀ (o : option json) k, need KeyError o = Ok k → o = Some k) by (by intros [j|] k; simpl; congruence).
  destruct (is_stale c now); [|destruct (dget kid (jw_keys c)) as [k|] eqn:E0];
    destruct f1 as [t1 [ks1|e1]], f2 as [t2 [ks2|e2]]; simpl;
    try (destruct (dget kid ks1) as [k1|] eqn:E1; simpl); intros [= <- <- <-];
    repeat split; intros; simplify_eq; simpl in *; try done; try lia; eauto.
Qed.

End auth.

(** ** Witnesses *)

(** A signer with the laws: the token spells out a number that codes the secret, the
    payload and the time. *)
Definition demo_sign (secret : string) (p : json) (at_ : Z) : string :=
  pretty (Npos (countable.encode (secret, p, at_))).

Lemma demo_sign_nonempty secret p at_ : demo_sign secret p at_ ≠ "".
Proof.
  unfold demo_sign. intros E. pose proof (pretty_N_parse (Npos (countable.encode (secret, p, at_)))) as Hp.
  by rewrite E in Hp.
Qed.

Definition demo_unsign (secret token : string) (max_age now : Z) : option json :=
  n ← parse_nat token;
  '(s, p, at_) ← countable.decode (Z.to_pos n);
  if decide (s = secret ∧ token = demo_sign s p at_ ∧ now - at_ ≤ max_age) then Some p else None.

#[local] Program Instance demo_signer : Signer := {| sign := demo_sign; unsign := demo_unsign |}.
Next Obligation.
  intros secret p at_ max_age now Ht. unfold demo_unsign, demo_sign. rewrite pretty_N_parse. simpl.
  rewrite countable.decode_encode. simpl. by rewrite decide_True.
Qed.
Next Obligation.
  intros secret token max_age now p. unfold demo_unsign. destruct (parse_nat token) as [n|]; [|done]. simpl.
  destruct (countable.decode _) as [[[s q] at_]|]; [|done]. simpl. destruct (decide _) as [(-> & -> & Ht)|]; [|done].
  intros [= ->]. by exists at_.
Qed.

#[local] Instance demo_prims : PyPrims :=
  {| float_is := λ _ _, false; float_str := id; container_str := λ _, ""; float_trunc := λ _, Raise OverflowError |}.

#[local] Instance demo_jwt : JwtLib :=
  {| unverified_header := λ t, Some (JObj [("kid", JStr "k1")]);
     jwt_decode := λ t key aud iss,
       if decide (t = "good") then JwtClaims (JObj [("upn", JStr "ed"); ("groups", JArr [JStr "g-ed"])]) else JwtError |}.

Definition demo_settings : Settings :=
  mkApiSettings "https://idp" "client" "g-v" "g-ed" "g-ad" "0123456789abcdef0123456789abcdef" 3600.

Definition bearer_put : Request := mkRequest "PUT" ∅ {["authorization" := "Bearer good"]}.

Lemma editor_gate_witness :
  ∃ u, (Reply tt : response ()) = Reply tt ∧ "editor" ∈ us_roles u ∧ "viewer" ∈ us_roles u ∧
    authenticated demo_settings 0 bearer_put u ∧
    (rq_cookies bearer_put !! "session" ≠ None →
       ∃ t, t ≠ "" ∧ rq_cookies bearer_put !! "csrf_token" = Some t ∧ rq_headers bearer_put !! "x-csrf-token" = Some t).
Proof.
  apply (editor_gate demo_settings (λ _, Ok JNull) 0 (λ _, Reply tt) bearer_put tt).
  - vm_compute. reflexivity.
  - intros H. vm_compute in H. repeat (apply elem_of_cons in H as [H|H]; [discriminate|]). by apply elem_of_nil in H.
Defined.

Definition login_claims : json := JObj [("upn", JStr "ed"); ("groups", JArr [JStr "g-ed"])].
Definition login_token : string :=
  encode (mkCodec (session_secret demo_settings) SESSION_TTL) 100
    (mkSession (JStr "ed") (roles_from_groups ["g-ed"] (role_map demo_settings)) (JStr "c") 3700).
Definition login_request : Request := mkRequest "GET" {["oidc_state" := "st"]} ∅.
Definition next_request : Request := mkRequest "GET" {["session" := login_token]} ∅.

Lemma login_session_witness :
  "c" = "c" ∧ rq_cookies login_request !! "oidc_state" = Some "st" ∧
  ∃ claims upn groups, Ok login_claims = Ok claims ∧ jitem "upn" claims = Ok upn ∧
    (v ← jget_or "groups" (JArr []) claims; text_set v) = Ok groups ∧
    current_user demo_settings (λ _, Ok JNull) 200 next_request =
      Reply (mkUser upn (roles_from_groups groups (role_map demo_settings))).
Proof.
  apply (login_session demo_settings (λ _, Ok JNull) 100 login_request "st" "c" (Ok login_claims) login_token "c" 200
           next_request).
  - reflexivity.
  - apply demo_sign_nonempty.
  - split; [apply lookup_singleton_eq|reflexivity].
  - unfold SESSION_TTL. lia.
  - simpl. lia.
Defined.

Lemma jwks_lookup_witness :
  get_key (new_jwks 3600) "k" 0 (1, Ok [("k", JNull)]) (2, Ok []) = (mkJwks 3600 [("k", JNull)] 1, 1%nat, Ok JNull) ∧
  (1 ≤ 1)%nat.
Proof.
  assert (E : get_key (new_jwks 3600) "k" 0 (1, Ok [("k", JNull)]) (2, Ok []) =
              (mkJwks 3600 [("k", JNull)] 1, 1%nat, Ok JNull)) by reflexivity.
  split; [exact E|]. eapply (jwks_lookup (new_jwks 3600) "k" 0 (1, Ok [("k", JNull)]) (2, Ok [])); [exact E|reflexivity].
Defined.

(** The key source of a request starts empty, so that each bearer request fetches. *)
Example bearer_always_fetches kid now f1 f2 : (1 ≤ (get_key (new_jwks 3600) kid now f1 f2).1.2)%nat.
Proof.
  destruct (get_key _ _ _ _ _) as [[c' n] r] eqn:E. unfold get_key in E. simpl in E.
  destruct (jwks_refresh _ f1) as [c1|]; [|by injection E as _ <- _].
  destruct (dget kid (jw_keys c1)); [by injection E as _ <- _|].
  destruct (jwks_refresh c1 f2); injection E as _ <- _; simpl; lia.
Qed.

(** A bearer request that also carries a session cookie is refused without the CSRF
    header. *)
Example bearer_with_cookie_needs_csrf :
  csrf_dispatch (mkRequest "PUT" {["session" := "x"]} {["authorization" := "Bearer good"]}) (λ _, Reply tt) = HttpError 403.
Proof. reflexivity. Qed.
