(* ===== verification/Cursor.v ===== *)
(** * Opaque cursors ([api/cursor.py], [GroupsService._encode_cursor])

    The cursor of the raw flows is compact JSON in URL-safe base64 without padding;
    the cursor of the group members is the base64 of the last name.  JSON read from
    bytes is UTF-8 unless its first bytes show a wider encoding; the wider ones are
    the class [WideText]. *)

From S2P Require Import Prelude PyDict PyStr PyText PyDatetime PyJson PyBase64 Utf8 EventTypes.

(** ** JSON from bytes *)

(** The text of bytes in UTF-16 or UTF-32. *)
Class WideText : Type := wide_text : string → result string.

(** Well-formed UTF-8, with the surrogates that [surrogatepass] lets through. *)
Definition sp_lead (c : ascii) : option (Z * Z * nat) :=
  if code c =? 237 then Some (128, 191, 2%nat) else lead_byte c.

Fixpoint utf8_valid (skip : nat) (s : string) : bool :=
  match s with
  | EmptyString => true
  | String c r =>
      match skip with
      | S k => utf8_valid k r
      | O =>
          match sp_lead c with
          | None => false
          | Some (lo, hi, k) => (continuation lo hi k r =? k)%nat && utf8_valid k r
          end
      end
  end.

Definition nul_at (i : nat) (s : string) : bool := bool_decide (String.get i s = Some zero).

(** [json.detect_encoding] as far as it tells UTF-8 from the wider encodings. *)
Definition is_wide (s : string) : bool :=
  let b0 := String (chr_Z 255) (String (chr_Z 254) "") in
  let b1 := String (chr_Z 254) (String (chr_Z 255) "") in
  let b2 := String zero (String zero (String (chr_Z 254) (String (chr_Z 255) ""))) in
  if starts_with s b0 || starts_with s b1 || starts_with s b2 then true
  else if starts_with s bom then false
  else if (4 <=? String.length s)%nat then nul_at 0 s || nul_at 1 s
  else if (String.length s =? 2)%nat then nul_at 0 s || nul_at 1 s
  else false.

Definition bytes_text `{WideText} (raw : string) : result string :=
  if is_wide raw then wide_text raw
  else
    let t := if starts_with raw bom then str_drop 3 raw else raw in
    if utf8_valid 0 t then Ok t else Raise ValueError.

(** ** The cursor of the raw flows *)

Record CursorPayload : Type := mkCursor {
  cp_last_time : Z;
  cp_last_src_ip : string;
  cp_last_dst_ip : string;
  cp_last_dst_port : Z
}.

Definition cursor_dict (time src dst : string) (port : Z) : pydict string json :=
  [("last_time", JStr time); ("last_src_ip", JStr src); ("last_dst_ip", JStr dst); ("last_dst_port", JInt port)].

Definition cursor_json (p : CursorPayload) : json :=
  JObj (cursor_dict (isoformat (cp_last_time p)) (cp_last_src_ip p) (cp_last_dst_ip p) (cp_last_dst_port p)).

Definition encode_cursor (p : CursorPayload) : string :=
  rstrip_by is_pad (b64_encode (dumps_compact (cursor_json p))).

Definition CURSOR_KEYS : list string := ["last_time"; "last_src_ip"; "last_dst_ip"; "last_dst_port"].

(** An argument that must be a text. *)
Definition text_arg (v : json) : result string := match v with JStr s => Ok s | _ => Raise TypeError end.

Section cursor.
Context `{PyPrims, WideText}.

(** The fields of the decoded object. *)
Definition cursor_fields (d : json) : result CursorPayload :=
  match d with
  | JObj o =>
      if forallb (λ k, bool_decide (is_Some (dget k o))) CURSOR_KEYS then
        t ← jitem "last_time" d; t ← text_arg t; t ← fromisoformat t;
        src ← jitem "last_src_ip" d; dst ← jitem "last_dst_ip" d;
        port ← jitem "last_dst_port" d; port ← json_int port;
        Ok (mkCursor t (json_str src) (json_str dst) port)
      else Raise ValueError
  | _ => Raise AttributeError
  end.

(** The errors of the first step become [ValueError("malformed cursor")]; the
    exceptions of that step are value errors, those of a wide text included. *)
Definition decode_cursor (token : string) : result CursorPayload :=
  raw ← b64_decode (repad token);
  text ← bytes_text raw;
  d ← loads text;
  cursor_fields d.

(** The fields of a decoded cursor. *)
Lemma cursor_fields_ok o t src dst port :
  dget "last_time" o = Some (JStr t) → dget "last_src_ip" o = Some (JStr src) →
  dget "last_dst_ip" o = Some (JStr dst) → dget "last_dst_port" o = Some (JInt port) →
  cursor_fields (JObj o) = (ts ← fromisoformat t; Ok (mkCursor ts src dst port)).
Proof.
  intros H1 H2 H3 H4. unfold cursor_fields, CURSOR_KEYS, jitem. cbn [forallb].
  rewrite H1, H2, H3, H4. rewrite !bool_decide_true by done. cbn [andb need mbind result_bind text_arg].
  by destruct (fromisoformat t).
Qed.

(** ** Encoded text is plain ASCII *)

Definition is_plain (c : ascii) : bool := (0 <? code c) && (code c <? 128).

Lemma hex_char_plain n : 0 ≤ n < 16 → is_plain (hex_char n) = true.
Proof.
  intros Hn. assert (Hi : n ∈ seqZ 0 16) by (apply elem_of_seqZ; lia). revert n Hi Hn.
  apply (Forall_forall (λ n, 0 ≤ n < 16 → is_plain (hex_char n) = true)). by repeat constructor.
Qed.

Lemma u_escape_plain u : 0 ≤ u < 65536 → str_forall is_plain (u_escape u) = true.
Proof. intros Hu. unfold u_escape. cbn [str_forall]. by rewrite !hex_char_plain by divlia. Qed.

Lemma low6_bounds s i : 0 ≤ low6 s i < 64.
Proof. unfold low6. destruct (String.get i s) as [c|]; [apply Z.mod_pos_bound; lia|lia]. Qed.

Lemma code_point_bounds c r : 128 ≤ code c → 0 ≤ (code_point c r).1 < 2097152.
Proof.
  intros Hc. pose proof (code_bounds c). pose proof (low6_bounds r 0). pose proof (low6_bounds r 1).
  pose proof (low6_bounds r 2). unfold code_point. destruct (code c <? 224); [simpl; divlia|].
  destruct (code c <? 240); simpl; divlia.
Qed.

Lemma dump_chars_plain k s : str_forall is_plain (dump_chars k s) = true.
Proof.
  revert k. induction s as [|c s IH]; intros [|k]; [done..| |apply IH]. cbn [dump_chars].
  destruct (Z.ltb_spec (code c) 128).
  - rewrite str_forall_app, IH, andb_true_r. unfold dump_char.
    destruct (short_escape c) as [e|] eqn:E.
    { unfold short_escape in E. repeat (case_bool_decide; simplify_eq/=; try done). }
    destruct (between 32 126 c) eqn:Hb.
    + unfold between in Hb. rewrite andb_true_iff, !Z.leb_le in Hb. cbn [str_forall]. unfold is_plain.
      rewrite !(proj2 (Z.ltb_lt _ _)) by lia. done.
    + pose proof (code_bounds c). apply u_escape_plain. lia.
  - pose proof (code_point_bounds c s ltac:(done)). destruct (code_point c s) as [u j]. simpl in *.
    rewrite str_forall_app, IH, andb_true_r. unfold dump_code_point. destruct (Z.ltb_spec u 65536).
    + apply u_escape_plain. lia.
    + rewrite str_forall_app, !u_escape_plain by divlia. done.
Qed.

Lemma dump_string_plain s : str_forall is_plain (dump_string s) = true.
Proof. unfold dump_string. cbn [str_forall]. by rewrite str_forall_app, dump_chars_plain. Qed.

Lemma str_Z_plain z : str_forall is_plain (str_Z z) = true.
Proof.
  assert (Hd : ∀ x : N, str_forall is_plain (pretty x) = true).
  { intros x. eapply str_forall_impl; [|apply pretty_N_digits]. intros c. unfold is_digit, between, is_plain.
    rewrite !andb_true_iff, !Z.leb_le, !Z.ltb_lt. lia. }
  destruct z as [|p|p]; [done|apply (Hd (Npos p))|].
  change (str_Z (Z.neg p)) with (String "-" (pretty (Npos p))). cbn [str_forall]. by rewrite Hd.
Qed.

Lemma plain_valid s : str_forall is_plain s = true → utf8_valid 0 s = true.
Proof.
  induction s as [|c s IH]; [done|]. cbn [str_forall utf8_valid]. intros [Hc Hs]%andb_true_iff.
  unfold is_plain in Hc. rewrite andb_true_iff, !Z.ltb_lt in Hc. unfold sp_lead, lead_byte.
  rewrite (proj2 (Z.eqb_neq _ _)) by lia. rewrite (proj2 (Z.ltb_lt _ _)) by lia.
  assert (continuation 0 0 0 s = 0%nat) as -> by (by destruct s). by apply IH.
Qed.

(** Text that starts with a brace and a quote is read as UTF-8. *)
Lemma object_bytes t r :
  t = String "{" (String dquote r) → str_forall is_plain t = true → bytes_text t = Ok t.
Proof.
  intros E Ht. unfold bytes_text.
  assert (is_wide t = false) as ->.
  { unfold is_wide. subst t. change (starts_with (String "{" ?x) _ || _ || _) with false. cbv iota.
    change (starts_with (String "{" ?x) bom) with false. cbv iota.
    change (nul_at 0 (String "{" ?x) || nul_at 1 (String "{" (String dquote r))) with false.
    by repeat case_match. }
  assert (starts_with t bom = false) as -> by (by subst t). by rewrite plain_valid.
Qed.

Lemma cursor_dict_head t src dst port : ∃ r, dumps_compact (JObj (cursor_dict t src dst port)) = String "{" (String dquote r).
Proof.
  unfold dumps_compact, cursor_dict. cbn [dumps map String.concat fst snd]. unfold dump_string at 1.
  rewrite !app_cons_str. by eexists.
Qed.

Lemma cursor_dict_plain t src dst port : str_forall is_plain (dumps_compact (JObj (cursor_dict t src dst port))) = true.
Proof.
  unfold dumps_compact, cursor_dict. cbn [dumps map String.concat fst snd].
  repeat first [rewrite str_forall_app | rewrite dump_string_plain | rewrite str_Z_plain | cbn [str_forall]]. done.
Qed.

Lemma pad_ascii k n : 0 ≤ n < 10 ^ Z.of_nat k → str_forall (λ c, code c <? 128) (pad k n) = true.
Proof.
  revert n. induction k as [|k IH]; intros n Hn; [done|]. cbn [pad str_forall].
  rewrite IH by (apply Z.mod_pos_bound, Z.pow_pos_nonneg; lia). rewrite andb_true_r.
  pattern (digit_char (n / 10 ^ Z.of_nat k)). by apply digit_char_cases; [..|apply pad_head].
Qed.

Lemma isoformat_ascii t : instant_ok t → str_forall (λ c, code c <? 128) (isoformat t) = true.
Proof.
  intros Ht. destruct (civil_from_days (t / second / day_s)) as [[y m] d] eqn:E.
  destruct (instant_date t y m d Ht E) as (Hy & Hm & Hd).
  rewrite (isoformat_text t y m d E). set (sod := (t / second) mod day_s).
  assert (Hsod : 0 ≤ sod < 86400) by (subst sod; apply Z.mod_pos_bound; unfold day_s; lia).
  assert (Hus : 0 ≤ t mod second < second) by (apply Z.mod_pos_bound; unfold second; lia).
  unfold second in Hus. unfold iso_clock_text, iso_tail.
  repeat first [rewrite str_forall_app | rewrite pad_ascii by (simpl; divlia) | cbn [str_forall]].
  destruct (_ =? 0); [done|]. cbn [str_forall]. by rewrite pad_ascii by (simpl; unfold second; lia).
Qed.

(** The cursors that the flows router writes. *)
Definition cursor_ok (p : CursorPayload) : Prop :=
  instant_ok (cp_last_time p) ∧ text_ok (cp_last_src_ip p) ∧ text_ok (cp_last_dst_ip p) ∧
  Z.abs (cp_last_dst_port p) < int_bound.

Lemma cursor_dict_ok t src dst port :
  text_ok t → text_ok src → text_ok dst → Z.abs port < int_bound → json_ok (JObj (cursor_dict t src dst port)).
Proof.
  intros Ht Hs Hd Hp. apply ok_obj.
  - unfold dict_wf. change (dkeys (cursor_dict t src dst port)) with CURSOR_KEYS.
    apply (bool_decide_unpack (NoDup CURSOR_KEYS)). vm_compute. exact I.
  - repeat (apply Forall_cons; split; [by apply ascii_text_ok|]). by apply Forall_nil.
  - repeat (apply Forall_cons; split; [by constructor|]). by apply Forall_nil.
Qed.

(** Decoding the text of any such object. *)
Lemma decode_cursor_dict t src dst port :
  text_ok t → text_ok src → text_ok dst → Z.abs port < int_bound →
  decode_cursor (rstrip_by is_pad (b64_encode (dumps_compact (JObj (cursor_dict t src dst port))))) =
  (ts ← fromisoformat t; Ok (mkCursor ts src dst port)).
Proof.
  intros Ht Hs Hd Hp. unfold decode_cursor. rewrite repad_strip, b64_decode_encode.
  destruct (cursor_dict_head t src dst port) as [r Er]. cbn [mbind result_bind].
  rewrite (object_bytes _ r Er) by apply cursor_dict_plain. cbn [mbind result_bind].
  rewrite loads_compact by (by apply cursor_dict_ok). cbn [mbind result_bind].
  by apply cursor_fields_ok.
Qed.

(** A cursor that the API hands out is read back as the position it was written
    from, whatever the characters of the addresses. *)
Theorem cursor_roundtrip p : cursor_ok p → decode_cursor (encode_cursor p) = Ok p.
Proof.
  intros (Ht & Hs & Hd & Hp). unfold encode_cursor, cursor_json.
  rewrite decode_cursor_dict by (done || by apply ascii_text_ok, isoformat_ascii).
  rewrite fromisoformat_isoformat by done. by destruct p.
Qed.

End cursor.

#[local] Instance cursor_prims : PyPrims :=
  {| float_is := λ _ _, false; float_str := id; container_str := λ _, ""; float_trunc := λ _, Raise OverflowError |}.
#[local] Instance cursor_wide : WideText := λ _, Raise ValueError.

Lemma cursor_roundtrip_witness :
  decode_cursor (encode_cursor (mkCursor 1776859200000001 "10.0.0.1" "10.0.0.2" 443)) =
  Ok (mkCursor 1776859200000001 "10.0.0.1" "10.0.0.2" 443).
Proof.
  apply cursor_roundtrip. split; [vm_compute; split; congruence|].
  split; [apply ascii_text_ok; reflexivity|]. split; [apply ascii_text_ok; reflexivity|]. vm_compute. reflexivity.
Defined.

(** A cursor that is not an object is an [AttributeError], which the router does not
    turn into an answer of status 400. *)
Example list_cursor_crashes : decode_cursor "W10" = Raise AttributeError.
Proof. vm_compute. reflexivity. Qed.
