(* ===== verification/ApiFlows.v ===== *)
(** * The flows router ([api/routers/flows.py])

    The filters of the Sankey graph, its truncation to the largest links, and the
    paging of the raw flows.  The statements run on a list of rows, ordered and cut
    as the SQL says; the conversions between addresses and text are those of the
    database, the class [Inet]. *)

From S2P Require Import Prelude PySort PyDict PyStr PyText PyDatetime PyJson PyIp PyBase64 EventTypes Cursor ApiAuth.

(** ** The Sankey graph *)

Record Link : Type := mkLink {
  lk_src : string;
  lk_dst : string;
  lk_bytes : Z;
  lk_flows : Z;
  lk_users : Z
}.

Record Node : Type := mkNode { nd_id : string; nd_label : string; nd_extra : json }.

(** A delta, with the two fields that truncation adds. *)
Record Delta : Type := mkDelta {
  dl_ts : string;
  dl_window_s : Z;
  dl_nodes_left : list Node;
  dl_nodes_right : list Node;
  dl_links : list Link;
  dl_lossy : bool;
  dl_dropped_count : Z;
  dl_truncated : bool;
  dl_total_links : option Z
}.

Definition with_links (d : Delta) (ls : list Link) : Delta :=
  mkDelta (dl_ts d) (dl_window_s d) (dl_nodes_left d) (dl_nodes_right d) ls (dl_lossy d) (dl_dropped_count d)
    (dl_truncated d) (dl_total_links d).

(** [s.removeprefix("ip:")] *)
Definition strip_ip (s : string) : string := if starts_with s "ip:" then str_drop 3 s else s.

(** [_in_net] *)
Definition in_net_text (net : ip_net) (src : string) : bool :=
  match ip_address (strip_ip src) with Ok a => in_net a net | Raise _ => false end.

(** The query parameters of the filters; an absent text is [None]. *)
Record Filters : Type := mkFilters {
  fl_src_cidr : option string;
  fl_dst_app : option string;
  fl_group : option (gset string);
  fl_user : option string;
  fl_exclude : option (gset string)
}.

(** A parameter that is given and not empty. *)
Definition given (o : option string) : option string := s ← o; if str_true s then Some s else None.
Definition given_set (o : option (gset string)) : option (gset string) :=
  s ← o; if decide (s = ∅) then None else Some s.

Definition keep (P : Link → bool) (ls : list Link) : list Link := filter (λ l, P l = true) ls.

(** A filter whose parameter may be absent. *)
Definition keep_if {A} (o : option A) (P : A → Link → bool) (ls : list Link) : list Link :=
  match o with
  | None => ls
  | Some x => keep (P x) ls
  end.

(** [_filter_links] *)
Definition filter_links (d : Delta) (f : Filters) : response Delta :=
  links ← (match given (fl_src_cidr f) with
           | None => Reply (dl_links d)
           | Some cidr =>
               match ip_network false cidr with
               | Raise _ => HttpError 400
               | Ok net => Reply (keep (λ l, in_net_text net (lk_src l)) (dl_links d))
               end
           end);
  let links := keep_if (given (fl_dst_app f)) (λ app l, bool_decide (lk_dst l = "app:" +:+ app)) links in
  let links := keep_if (given_set (fl_group f))
                 (λ g l, bool_decide (lk_src l ∈ g) || bool_decide (lk_src l = "unknown")) links in
  let links := keep_if (given (fl_user f))
                 (λ u l, bool_decide (lk_src l = u) || bool_decide (lk_src l = "unknown")) links in
  let links := keep_if (given_set (fl_exclude f)) (λ g l, negb (bool_decide (lk_src l ∈ g))) links in
  Reply (with_links d links).

(** [sorted(links, key=bytes, reverse=True)]: equal keys keep their order. *)
Definition by_bytes (l : Link) : Z := - lk_bytes l.

(** [_truncate] *)
Definition truncate (d : Delta) (limit : Z) : Delta :=
  let total := Z.of_nat (length (dl_links d)) in
  mkDelta (dl_ts d) (dl_window_s d) (dl_nodes_left d) (dl_nodes_right d)
    (take (Z.to_nat limit) (py_sorted by_bytes (dl_links d))) (dl_lossy d) (dl_dropped_count d)
    (limit <? total) (Some total).

(** The node lists restricted to the ends of links. *)
Definition used_nodes (d : Delta) : Delta :=
  let used_left : gset string := list_to_set (lk_src <$> dl_links d) in
  let used_right : gset string := list_to_set (lk_dst <$> dl_links d) in
  mkDelta (dl_ts d) (dl_window_s d) (filter (λ n, nd_id n ∈ used_left) (dl_nodes_left d))
    (filter (λ n, nd_id n ∈ used_right) (dl_nodes_right d)) (dl_links d) (dl_lossy d) (dl_dropped_count d)
    (dl_truncated d) (dl_total_links d).

(** A row of the historical query, and its link. *)
Record MinuteRow : Type := mkMinuteRow {
  mr_src_ip : string;
  mr_dst_ip : string;
  mr_dst_port : Z;
  mr_bytes : Z;
  mr_flow_count : Z
}.

Definition historical_link (r : MinuteRow) : Link :=
  mkLink ("ip:" +:+ mr_src_ip r) ("app:" +:+ mr_dst_ip r +:+ ":" +:+ str_Z (mr_dst_port r)) (mr_bytes r)
    (mr_flow_count r) 0.

Definition empty_delta (now : string) : Delta := mkDelta now 5 [] [] [] false 0 false None.

Inductive SankeyMode : Type := Live | Historical.

(** [g.strip() for g in exclude_groups.split(",") if g.strip()] *)
Definition exclude_set (o : option string) : option (gset string) :=
  s ← given o; Some (list_to_set (filter (λ g, str_true g = true) (strip <$> split_on "," s))).

Definition group_set (groups : list string) : option (gset string) :=
  Some (list_to_set (filter (λ g, str_true g = true) groups)).

(** The base graph of a request: the last live delta, or the rows of the interval.
    An interval is a number of microseconds. *)
Definition sankey_base (mode : SankeyMode) (live : option Delta) (now : Z) (from_ts to_ts : option Z)
    (query : Z → Z → list MinuteRow) : response Delta :=
  match mode with
  | Live => Reply (default (empty_delta (isoformat now)) live)
  | Historical =>
      match from_ts, to_ts with
      | Some f, Some t =>
          Reply (mkDelta (isoformat f) (Z.quot (t - f) second) [] [] (historical_link <$> query f t) false 0 false None)
      | _, _ => HttpError 400
      end
  end.

(** [sankey] *)
Definition sankey (mode : SankeyMode) (limit : Z) (src_cidr dst_app : option string) (groups : list string)
    (user exclude_groups : option string) (live : option Delta) (now : Z) (from_ts to_ts : option Z)
    (query : Z → Z → list MinuteRow) : response Delta :=
  base ← sankey_base mode live now from_ts to_ts query;
  filtered ← filter_links base (mkFilters src_cidr dst_app (group_set groups) user (exclude_set exclude_groups));
  Reply (used_nodes (truncate filtered limit)).

(** ** What the filters keep *)

(** A link that all the filters of a request let through. *)
Definition passes (f : Filters) (l : Link) : Prop :=
  (∀ cidr, given (fl_src_cidr f) = Some cidr → ∃ net, ip_network false cidr = Ok net ∧ in_net_text net (lk_src l) = true) ∧
  (∀ app, given (fl_dst_app f) = Some app → lk_dst l = "app:" +:+ app) ∧
  (∀ g, given_set (fl_group f) = Some g → lk_src l ∈ g ∨ lk_src l = "unknown") ∧
  (∀ u, given (fl_user f) = Some u → lk_src l = u ∨ lk_src l = "unknown") ∧
  (∀ g, given_set (fl_exclude f) = Some g → lk_src l ∉ g).

Lemma keep_keep P Q ls : keep P (keep Q ls) = keep (λ l, P l && Q l) ls.
Proof.
  unfold keep. rewrite list_filter_filter. apply list_filter_iff. intros l. by rewrite andb_true_iff.
Qed.

Lemma keep_elem P ls l : l ∈ keep P ls ↔ l ∈ ls ∧ P l = true.
Proof. unfold keep. rewrite list_elem_of_filter. tauto. Qed.

Lemma keep_split P ls : keep P ls ++ keep (λ l, negb (P l)) ls ≡ₚ ls.
Proof.
  unfold keep. induction ls as [|l ls IH]; [done|]. rewrite !filter_cons.
  destruct (P l); cbn [negb]; repeat (case_decide; try done); cbn [app].
  - by rewrite IH.
  - by rewrite <- Permutation_middle, IH.
Qed.

Lemma keep_true ls : keep (λ _, true) ls = ls.
Proof. unfold keep. induction ls as [|l ls IH]; [done|]. rewrite filter_cons_True by done. by rewrite IH. Qed.

Lemma keep_false P ls : keep (λ l, false && P l) ls = [].
Proof. by apply filter_none. Qed.

Lemma keep_if_keep {A} (o : option A) P ls :
  keep_if o P ls = keep (λ l, match o with None => true | Some x => P x l end) ls.
Proof. destruct o; [done|]. cbn. by rewrite keep_true. Qed.

(** The filters are one test, which decides [passes]. *)
Lemma filter_links_spec d f d' :
  filter_links d f = Reply d' →
  ∃ P : Link → bool, (∀ l, P l = true ↔ passes f l) ∧ d' = with_links d (keep P (dl_links d)).
Proof.
  unfold filter_links. intros H.
  assert (∃ P : Link → bool,
    (∀ l, P l = true ↔ ∀ cidr, given (fl_src_cidr f) = Some cidr →
       ∃ net, ip_network false cidr = Ok net ∧ in_net_text net (lk_src l) = true) ∧
    (match given (fl_src_cidr f) with
     | None => Reply (dl_links d)
     | Some cidr => match ip_network false cidr with
                    | Raise _ => HttpError 400
                    | Ok net => Reply (keep (λ l, in_net_text net (lk_src l)) (dl_links d))
                    end
     end) = Reply (keep P (dl_links d))) as (P & HP & Heq).
  { destruct (given (fl_src_cidr f)) as [cidr|]; [destruct (ip_network false cidr) as [net|] eqn:Hn; [|done]|].
    - exists (λ l, in_net_text net (lk_src l)). split; [|done]. intros l. split; [intros Hl c [= <-]; eauto|].
      intros Hp. destruct (Hp cidr eq_refl) as (net' & Hn' & Hin). rewrite Hn in Hn'. by injection Hn' as <-.
    - exists (λ _, true). split; [by intros l|]. by rewrite keep_true. }
  rewrite Heq in H. cbn [mbind response_bind] in H. rewrite !keep_if_keep, !keep_keep in H. injection H as <-.
  eexists. split; [|reflexivity]. intros l. cbn beta. rewrite !andb_true_iff, HP. unfold passes.
  destruct (given (fl_dst_app f)), (given_set (fl_group f)), (given (fl_user f)), (given_set (fl_exclude f));
    rewrite ?orb_true_iff, ?negb_true_iff, ?bool_decide_eq_true, ?bool_decide_eq_false.
  all: split; [intros ((((? & ?) & ?) & ?) & ?) | intros (? & ? & ? & ? & ?)]; split_and!; try done;
    try (intros ? [= <-]); eauto.
Qed.

(** ** What truncation keeps *)

Lemma sorted_app_le (l1 l2 : list Link) a b :
  StronglySorted (key_le by_bytes) (l1 ++ l2) → a ∈ l1 → b ∈ l2 → lk_bytes b ≤ lk_bytes a.
Proof.
  intros Hs Ha Hb. induction l1 as [|x l1 IH]; [by apply not_elem_of_nil in Ha|].
  cbn [app] in Hs. apply StronglySorted_inv in Hs as [Hs Hx]. apply elem_of_cons in Ha as [->|Ha]; [|by apply IH].
  rewrite Forall_forall in Hx. assert (Hbx : b ∈ l1 ++ l2) by (apply elem_of_app; by right). specialize (Hx b Hbx).
  unfold key_le, by_bytes in Hx. apply py_leb_Z in Hx. lia.
Qed.

(** The links of a page of a ranking: the [n] largest, in descending order. *)
Definition largest (n : Z) (ls kept : list Link) : Prop :=
  StronglySorted (λ a b, lk_bytes b ≤ lk_bytes a) ls ∧
  Z.of_nat (length ls) = Z.min n (Z.of_nat (length kept)) ∧
  ∃ rest, ls ++ rest ≡ₚ kept ∧ ∀ a b, a ∈ ls → b ∈ rest → lk_bytes b ≤ lk_bytes a.

Lemma StronglySorted_take {A} (R : A → A → Prop) n l : StronglySorted R l → StronglySorted R (take n l).
Proof.
  intros Hs. revert n. induction Hs as [|x l Hs IH Hx]; intros [|n]; cbn; constructor; [apply IH|].
  by apply Forall_take.
Qed.

Lemma truncate_largest d limit : 0 ≤ limit → largest limit (dl_links (truncate d limit)) (dl_links d).
Proof.
  intros Hl. unfold truncate, largest. cbn [dl_links]. pose proof (py_sorted_strongly_sorted by_bytes (dl_links d)) as Hs.
  split; [|split].
  - apply StronglySorted_take. eapply StronglySorted_weaken; [|exact Hs]. intros a b Hab. unfold key_le, by_bytes in Hab.
    apply py_leb_Z in Hab. lia.
  - rewrite length_take, py_sorted_length. lia.
  - exists (drop (Z.to_nat limit) (py_sorted by_bytes (dl_links d))). split.
    + rewrite take_drop. apply py_sorted_perm.
    + intros a b. apply sorted_app_le. by rewrite take_drop.
Qed.


(** ** The historical graph and address filters *)

Lemma slash_no_address s : has_char "/" s = true → ip_address s = Raise ValueError.
Proof. intros Hs. unfold ip_address, v4_address, v6_address. by rewrite Hs. Qed.

Lemma strip_ip_ip s : strip_ip ("ip:" +:+ s) = s.
Proof. unfold strip_ip. by rewrite !app_cons_str, !starts_with_cons, starts_with_nil, !bool_decide_true. Qed.

(** The text of an address column carries its prefix length ("10.0.0.1/32"), which
    [ip_address] refuses: a historical request with an address filter always answers
    an empty graph. *)
Theorem historical_cidr_empty limit cidr dst_app groups user exclude_groups live now from_ts to_ts query d :
  0 ≤ limit → str_true cidr = true →
  (∀ f t r, r ∈ query f t → has_char "/" (mr_src_ip r) = true) →
  sankey Historical limit (Some cidr) dst_app groups user exclude_groups live now from_ts to_ts query = Reply d →
  dl_links d = [].
Proof.
  intros Hlimit Hc Hq H. unfold sankey, sankey_base in H.
  destruct from_ts as [f|], to_ts as [t|]; try done. cbn [mbind response_bind] in H.
  destruct (filter_links _ _) as [d'| |] eqn:Hf; [|done..]. cbn [mbind response_bind] in H. injection H as <-.
  apply filter_links_spec in Hf as (P & HP & ->). cbn [dl_links used_nodes truncate with_links].
  assert (keep P (historical_link <$> query f t) = []) as ->; [|by destruct (Z.to_nat limit)].
  destruct (keep P _) as [|l ls] eqn:E; [done|]. exfalso. assert (Hin0 : l ∈ keep P (historical_link <$> query f t)) by (rewrite E; left). apply keep_elem in Hin0 as [Hl Hp]. apply HP in Hp as [Hp _].
  destruct (Hp cidr) as (net & _ & Hin); [unfold given; cbn; by rewrite Hc|].
  apply list_elem_of_fmap in Hl as (r & -> & Hr). cbn [historical_link lk_src] in Hin.
  unfold in_net_text in Hin. rewrite strip_ip_ip, slash_no_address in Hin by eauto. done.
Qed.

Definition demo_delta : Delta :=
  mkDelta "" 5 [mkNode "ip:10.0.0.1" "a" JNull; mkNode "ip:10.9.0.1" "b" JNull; mkNode "ip:8.8.8.8" "c" JNull]
    [mkNode "app:x" "x" JNull]
    [mkLink "ip:10.0.0.1" "app:x" 5 1 1; mkLink "ip:8.8.8.8" "app:x" 90 1 1; mkLink "ip:10.9.0.1" "app:x" 7 1 1]
    false 0 false None.

Definition demo_answer : Delta :=
  mkDelta "" 5 [mkNode "ip:10.9.0.1" "b" JNull] [mkNode "app:x" "x" JNull] [mkLink "ip:10.9.0.1" "app:x" 7 1 1]
    false 0 true (Some 2).

Definition demo_rows (f t : Z) : list MinuteRow := [mkMinuteRow "10.0.0.1/32" "10.0.0.2/32" 443 10 1].


Lemma historical_cidr_empty_witness :
  ∃ d, sankey Historical 10 (Some "10.0.0.0/8") None [] None None None 0 (Some 0) (Some 60) demo_rows = Reply d ∧
       dl_links d = [].
Proof.
  eexists. split; [reflexivity|].
  apply (historical_cidr_empty 10 "10.0.0.0/8" None [] None None None 0 (Some 0) (Some 60) demo_rows);
    [lia|done| |reflexivity].
  intros f t r Hr. apply list_elem_of_singleton in Hr as ->. reflexivity.
Defined.
