(* ===== verification/RawFlows.v ===== *)
(** * The raw flows ([api/routers/flows.py], [raw])

    The route as a function of the table, a list of rows: the conditions of the
    WHERE clause, the order, the limit of one row more than the page, and the cursor
    that is made of that row.  The addresses of the database are a parameter: an
    ordered type with its output and input of text.  Rows with equal keys come in
    the order of the table; SQL leaves it open. *)

From S2P Require Import Prelude PySort PyDict PyStr PyText PyDatetime PyJson PyBase64 EventTypes PyIp Cursor ApiAuth ApiFlows.

(** A key of a descending order. *)
Record Desc (K : Type) : Type := desc { undesc : K }.
Arguments desc {K} undesc.
Arguments undesc {K} _.

#[global] Instance desc_pyord {K} `{PyOrd K} : PyOrd (Desc K) := λ a b, py_leb (undesc b) (undesc a).

#[global] Instance desc_pyord_laws {K} `{PyOrdLaws K} : PyOrdLaws (Desc K).
Proof.
  split; unfold py_leb, desc_pyord.
  - intros a b. apply py_leb_total.
  - intros a b c Hab Hbc. by eapply py_leb_trans.
  - intros [a] [b]; cbn. intros. f_equal. by apply py_leb_antisym.
Qed.

Section raw.
Context {Inet : Type} `{EqDecision Inet, !PyOrd Inet, !PyOrdLaws Inet}.
Context (inet_text : Inet → string) (inet_of : string → option Inet).
Context `{PyPrims, WideText}.

(** A row of the table [flows]; the columns that only pass through are [fr_data]. *)
Record FlowRow : Type := mkFlowRow {
  fr_time : Z;
  fr_src_ip : Inet;
  fr_dst_ip : Inet;
  fr_dst_port : Z;
  fr_data : Z * Z * Z * Z * string
}.

(** The columns compared, from the most significant on. *)
Definition Position : Type := Z * (Inet * (Inet * Z)).
Definition position (r : FlowRow) : Position := (fr_time r, (fr_src_ip r, (fr_dst_ip r, fr_dst_port r))).

(** [:x::inet]; a text that is not an address is an error of the database. *)
Definition to_inet (s : string) : response Inet :=
  match inet_of s with Some a => Reply a | None => Crash OtherError end.

(** A condition on a column, when its parameter is given. *)
Definition inet_cond (o : option string) : response (option Inet) :=
  match given o with None => Reply None | Some s => a ← to_inet s; Reply (Some a) end.

Definition cond {A} (o : option A) (P : A → bool) : bool := match o with None => true | Some x => P x end.

(** The query parameters of the route, apart from the limit and the cursor. *)
Record RawQuery : Type := mkRawQuery {
  rw_src_ip : option string;
  rw_dst_ip : option string;
  rw_port : option Z;
  rw_from : option Z;
  rw_to : option Z
}.

(** The position a cursor stands for. *)
Definition cursor_position (cursor : option string) : response (option CursorPayload) :=
  match given cursor with
  | None => Reply None
  | Some token =>
      match decode_cursor token with
      | Ok cur => Reply (Some cur)
      | Raise ValueError => HttpError 400
      | Raise e => Crash e
      end
  end.

Definition anchor_of (cur : option CursorPayload) : response (option Position) :=
  match cur with
  | None => Reply None
  | Some c =>
      src ← to_inet (cp_last_src_ip c); dst ← to_inet (cp_last_dst_ip c);
      Reply (Some (cp_last_time c, (src, (dst, cp_last_dst_port c))))
  end.

Definition row_cursor (r : FlowRow) : CursorPayload :=
  mkCursor (fr_time r) (inet_text (fr_src_ip r)) (inet_text (fr_dst_ip r)) (fr_dst_port r).

(** The rows of the page and one more, if there is one. *)
Definition select (table : list FlowRow) (where_ok : FlowRow → bool) (limit : Z) : list FlowRow :=
  take (Z.to_nat limit) (py_sorted (λ r, desc (position r)) (filter (λ r, where_ok r = true) table)).

(** The page of the rows selected and the cursor of the next one. *)
Definition page_of (limit : Z) (rows : list FlowRow) : list FlowRow * option string :=
  if limit <? Z.of_nat (length rows) then
    match last rows with
    | Some extra => (removelast rows, Some (encode_cursor (row_cursor extra)))
    | None => (rows, None)
    end
  else (rows, None).

(** The conditions other than the cursor's. *)
Definition matches (q : RawQuery) (src dst : option Inet) (r : FlowRow) : bool :=
  cond src (λ a, bool_decide (fr_src_ip r = a)) && cond dst (λ a, bool_decide (fr_dst_ip r = a)) &&
  cond (rw_port q) (λ p, fr_dst_port r =? p) && cond (rw_from q) (λ t, t <=? fr_time r) &&
  cond (rw_to q) (λ t, fr_time r <? t).

(** [raw] *)
Definition raw (table : list FlowRow) (limit : Z) (cursor : option string) (q : RawQuery) :
    response (list FlowRow * option string) :=
  cur ← cursor_position cursor;
  anchor ← anchor_of cur;
  src ← inet_cond (rw_src_ip q);
  dst ← inet_cond (rw_dst_ip q);
  let where_ok r := cond anchor (λ p, py_ltb (position r) p) && matches q src dst r in
  Reply (page_of limit (select table where_ok (limit + 1))).

(** A client that reads page after page. *)
Fixpoint walk (fuel : nat) (table : list FlowRow) (limit : Z) (cursor : option string) (q : RawQuery) :
    response (list FlowRow) :=
  match fuel with
  | O => Crash OtherError
  | S fuel =>
      page ← raw table limit cursor q;
      match page.2 with
      | None => Reply page.1
      | Some next => rest ← walk fuel table limit (Some next) q; Reply (page.1 ++ rest)
      end
  end.

(** A list without the elements at the positions [k], [k + (n + 1)], ... *)
Fixpoint skip_each {A} (n k : nat) (l : list A) : list A :=
  match l with
  | [] => []
  | x :: l => match k with O => skip_each n n l | S k => x :: skip_each n k l end
  end.

(** ** Paging *)

Lemma skip_each_short {A} n k (l : list A) : (length l ≤ k)%nat → skip_each n k l = l.
Proof. revert k. induction l as [|x l IH]; intros [|k] Hk; cbn in *; [done..|lia|]. f_equal. apply IH. lia. Qed.

Lemma skip_each_split {A} n (l1 : list A) x l2 :
  skip_each n (length l1) (l1 ++ x :: l2) = l1 ++ skip_each n n l2.
Proof. induction l1 as [|y l1 IH]; [done|]. cbn. by rewrite IH. Qed.

(** A row that fits the columns of the table: the database reads an address back
    from the text it writes. *)
Definition inet_ok (a : Inet) : Prop := inet_of (inet_text a) = Some a ∧ text_ok (inet_text a).

Definition row_ok (r : FlowRow) : Prop :=
  instant_ok (fr_time r) ∧ 0 ≤ fr_dst_port r < 65536 ∧ inet_ok (fr_src_ip r) ∧ inet_ok (fr_dst_ip r).

Definition row_key (r : FlowRow) : Desc Position := desc (position r).

(** In the order of the query, the rows strictly after a row are those of smaller
    position. *)
Lemma after_anchor l1 x l2 :
  StronglySorted (key_le row_key) (l1 ++ x :: l2) → NoDup (position <$> l1 ++ x :: l2) →
  filter (λ r, py_ltb (position r) (position x) = true) (l1 ++ x :: l2) = l2.
Proof.
  intros Hs Hnd. apply (sorted_after row_key l1 x l2 Hs).
  replace (row_key <$> l1 ++ x :: l2) with (desc <$> (position <$> l1 ++ x :: l2)).
  - by apply NoDup_fmap_2; [intros ? ? [=]|].
  - by rewrite <- list_fmap_compose.
Qed.

Lemma py_sorted_nodup {B} (f : FlowRow → B) l : NoDup (f <$> l) → NoDup (f <$> py_sorted row_key l).
Proof. intros Hnd. by rewrite py_sorted_perm. Qed.

(** The rows that a cursor leaves, in the order of the query. *)
Definition remaining (table : list FlowRow) (q : RawQuery) (src dst : option Inet) (anchor : option Position) :
    list FlowRow :=
  filter (λ r, cond anchor (λ p, py_ltb (position r) p) = true)
    (py_sorted row_key (filter (λ r, matches q src dst r = true) table)).

Lemma select_remaining table q src dst anchor n :
  select table (λ r, cond anchor (λ p, py_ltb (position r) p) && matches q src dst r) n =
  take (Z.to_nat n) (remaining table q src dst anchor).
Proof.
  unfold select, remaining. f_equal. rewrite <- py_sorted_filter, list_filter_filter. f_equal.
  apply list_filter_iff. intros r. by rewrite andb_true_iff.
Qed.

(** The page of what remains. *)
Lemma page_of_take limit rows :
  1 ≤ limit →
  page_of limit (take (Z.to_nat (limit + 1)) rows) =
  match rows !! Z.to_nat limit with
  | Some extra => (take (Z.to_nat limit) rows, Some (encode_cursor (row_cursor extra)))
  | None => (rows, None)
  end.
Proof.
  intros Hl. unfold page_of. rewrite length_take. destruct (rows !! Z.to_nat limit) as [x|] eqn:E.
  - pose proof (lookup_lt_Some _ _ _ E) as Hlt. replace (Z.to_nat (limit + 1)) with (S (Z.to_nat limit)) by lia.
    rewrite (take_S_r _ _ x) by done. rewrite last_snoc, removelast_last.
    destruct (Z.ltb_spec limit (Z.of_nat (Nat.min (S (Z.to_nat limit)) (length rows)))); [done|lia].
  - apply lookup_ge_None in E. rewrite take_ge by lia.
    destruct (Z.ltb_spec limit (Z.of_nat (Nat.min (Z.to_nat (limit + 1)) (length rows)))); [lia|done].
Qed.

Lemma row_cursor_ok r : row_ok r → cursor_ok (row_cursor r).
Proof.
  intros (Ht & Hp & [_ Hs] & [_ Hd]). split_and!; cbn; [done..|]. apply int_bound_small.
  rewrite Z.abs_eq by lia. lia.
Qed.

Lemma row_anchor r :
  row_ok r →
  (cur ← cursor_position (Some (encode_cursor (row_cursor r))); anchor_of cur) = Reply (Some (position r)).
Proof.
  intros Hr. pose proof (cursor_roundtrip _ (row_cursor_ok r Hr)) as Hc. unfold cursor_position, given.
  cbn [mbind option_bind]. destruct (encode_cursor (row_cursor r)) as [|c s] eqn:E; [done|]. cbn [str_true].
  rewrite Hc. cbn. destruct Hr as (_ & _ & [Hs _] & [Hd _]). unfold to_inet. by rewrite Hs; cbn; rewrite Hd.
Qed.

Lemma raw_page table limit cursor q src dst anchor :
  1 ≤ limit → (cur ← cursor_position cursor; anchor_of cur) = Reply anchor →
  inet_cond (rw_src_ip q) = Reply src → inet_cond (rw_dst_ip q) = Reply dst →
  raw table limit cursor q =
  Reply (match remaining table q src dst anchor !! Z.to_nat limit with
         | Some extra => (take (Z.to_nat limit) (remaining table q src dst anchor),
                          Some (encode_cursor (row_cursor extra)))
         | None => (remaining table q src dst anchor, None)
         end).
Proof.
  intros Hl Hc Hs Hd. unfold raw. destruct (cursor_position cursor) as [cur| |]; [|done..].
  cbn [mbind response_bind] in *. rewrite Hc. cbn [mbind response_bind]. rewrite Hs, Hd. cbn [mbind response_bind].
  by rewrite select_remaining, page_of_take.
Qed.

(** A walk from any suffix of the rows. *)
Lemma walk_suffix table limit q src dst :
  1 ≤ limit → NoDup (position <$> table) → Forall row_ok table →
  inet_cond (rw_src_ip q) = Reply src → inet_cond (rw_dst_ip q) = Reply dst →
  ∀ n l1 l2 cursor anchor,
    py_sorted row_key (filter (λ r, matches q src dst r = true) table) = l1 ++ l2 →
    (cur ← cursor_position cursor; anchor_of cur) = Reply anchor →
    remaining table q src dst anchor = l2 → (length l2 < n)%nat →
    walk n table limit cursor q = Reply (skip_each (Z.to_nat limit) (Z.to_nat limit) l2).
Proof.
  intros Hlimit Hnd Hok Hs Hd. set (L := py_sorted row_key _).
  assert (HsL : StronglySorted (key_le row_key) L) by apply py_sorted_strongly_sorted.
  assert (HndL : NoDup (position <$> L)).
  { apply py_sorted_nodup. eapply sublist_NoDup; [exact Hnd|]. apply fmap_sublist, sublist_filter. }
  assert (HokL : ∀ r, r ∈ L → row_ok r).
  { intros r Hr. unfold L in Hr. apply py_sorted_elem, list_elem_of_filter in Hr as [_ Hr].
    rewrite Forall_forall in Hok. by apply Hok. }
  induction n as [|n IH]; intros l1 l2 cursor anchor HL Hc Hrem Hn; [lia|].
  cbn [walk]. rewrite (raw_page table limit cursor q src dst anchor) by done. rewrite Hrem.
  cbn [mbind response_bind]. destruct (l2 !! Z.to_nat limit) as [x|] eqn:E; cbn [fst snd].
  - pose proof (take_drop_middle _ _ _ E) as Hl2. set (a := take (Z.to_nat limit) l2) in *.
    set (b := drop (S (Z.to_nat limit)) l2) in *.
    assert (Ha : length a = Z.to_nat limit) by (unfold a; rewrite length_take; apply lookup_lt_Some in E; lia).
    assert (HL' : L = (l1 ++ a) ++ x :: b) by (rewrite HL, <- Hl2 at 1; by rewrite <- app_assoc).
    assert (Hx : row_ok x) by (apply HokL; rewrite HL'; apply elem_of_app; right; left).
    rewrite (IH ((l1 ++ a) ++ [x]) b _ (Some (position x))).
    + cbn [mbind response_bind]. clearbody a b. by rewrite <- Hl2, <- Ha, skip_each_split.
    + by rewrite <- app_assoc.
    + by apply row_anchor.
    + unfold remaining. fold L. cbn [cond]. rewrite HL'. apply after_anchor; by rewrite <- HL'.
    + rewrite <- Hl2, length_app in Hn. cbn [length] in Hn. lia.
  - apply lookup_ge_None in E. by rewrite skip_each_short.
Qed.

End raw.

(** Addresses of version 4 as numbers, written as the database writes them. *)
#[local] Instance paging_prims : PyPrims :=
  {| float_is := λ _ _, false; float_str := id; container_str := λ _, ""; float_trunc := λ _, Raise OverflowError |}.
#[local] Instance paging_wide : WideText := λ _, Raise ValueError.

Definition demo_text (a : Z) : string :=
  str_Z (Z.shiftr a 24) +:+ "." +:+ str_Z (Z.land (Z.shiftr a 16) 255) +:+ "." +:+
  str_Z (Z.land (Z.shiftr a 8) 255) +:+ "." +:+ str_Z (Z.land a 255) +:+ "/32".
Definition demo_inet (s : string) : option Z := '(n, p) ← parse_net V4 s; if p =? 32 then Some n else None.

Definition demo_row (t : Z) : FlowRow (Inet := Z) := mkFlowRow (t * second) 167772161 167772162 443 (6, 10, 1, 1, "pan").
Definition demo_table : list FlowRow := [demo_row 1; demo_row 2; demo_row 3; demo_row 4; demo_row 5].
Definition all_rows : RawQuery := mkRawQuery None None None None None.

Lemma demo_row_ok t : 0 ≤ t ≤ 10 → row_ok demo_text demo_inet (demo_row t).
Proof.
  intros Ht. assert (Hlo : days_from_civil 1 1 1 = -719162) by reflexivity.
  assert (Hhi : days_from_civil 9999 12 31 = 2932896) by reflexivity.
  split_and!; cbn; [|lia|lia| |];
    [unfold instant_ok, second, day_s; rewrite Hlo, Hhi; lia|..];
    (split; [reflexivity | apply ascii_text_ok; reflexivity]).
Qed.

