(* ===== verification/ApiWs.v ===== *)
(** * The live Sankey socket ([api/routers/ws.py], [api/ws_fanout.py])

    The filter of a client, the messages of a dispatch, and the connections as a
    state machine: the coroutines of the sockets and the task of the fanout
    interleave at their awaits, and every rule of [ws_step] is the code between two
    of them.  The filters of a client are a shared object, which its socket writes
    and the fanout reads. *)

From S2P Require Import Prelude PyDict PyStr PyText PyJson PyIp IdAdapters GraphApi ApiAuth ApiFlows.

(** ** The filter of a client *)

(** [ip_network(v, strict=False)] of a JSON value: a number is an address. *)
Definition int_network (z : Z) : result ip_net :=
  if z <? 0 then Raise ValueError
  else if z <? 2 ^ 32 then Ok (mkNet V4 z 32)
  else if z <? 2 ^ 128 then Ok (mkNet V6 z 128)
  else Raise ValueError.

Definition json_network (v : json) : result ip_net :=
  match v with
  | JStr s => ip_network false s
  | JInt z => int_network z
  | JBool b => int_network (if b then 1 else 0)
  | _ => Raise ValueError
  end.

Section ws.
Context `{Signer, PyPrims}.

(** [ClientState.matches] *)
Definition matches (filters link : json) : result bool :=
  src_cidr ← jget_none "src_cidr" filters;
  inside ← (if jtrue src_cidr then
              src ← jitem "src" link; s ← as_str src;
              match ip_address (strip_ip s), json_network src_cidr with
              | Ok a, Ok net => Ok (in_net a net)
              | _, _ => Ok false
              end
            else Ok true);
  if negb inside then Ok false
  else
    dst_app ← jget_none "dst_app" filters;
    if jtrue dst_app then
      dst ← jitem "dst" link; Ok (jeq_str dst ("app:" +:+ json_str dst_app))
    else Ok true.

(** [[lk for lk in links if c.matches(lk)]] *)
Fixpoint matching (filters : json) (links : list json) : result (list json) :=
  match links with
  | [] => Ok []
  | lk :: links =>
      ok ← matches filters lk; rest ← matching filters links; Ok (if (ok : bool) then lk :: rest else rest)
  end.

(** The text a client is sent for a delta. *)
Definition client_message (filters delta : json) : result string :=
  match delta with
  | JObj d =>
      ls ← jitem "links" delta; ls ← iter_json ls; kept ← matching filters ls;
      Ok (dumps_default (JObj (dset "links" (JArr kept) d)))
  | _ => Raise TypeError
  end.

(** [_dispatch], when nothing else runs between its sends: the messages sent, the
    clients left, and an exception of the filters.  [sends] says whether the send to
    a client succeeds. *)
Fixpoint dispatch (filters : nat → json) (sends : nat → bool) (delta : json) (todo clients : list nat) :
    list (nat * string) * list nat * result () :=
  match todo with
  | [] => ([], clients, Ok ())
  | c :: todo =>
      match client_message (filters c) delta with
      | Raise e => ([], clients, Raise e)
      | Ok m =>
          if sends c then
            let '(sent, clients, r) := dispatch filters sends delta todo clients in ((c, m) :: sent, clients, r)
          else dispatch filters sends delta todo (filter (λ x, x ≠ c) clients)
      end
  end.

(** The loop of a socket on a text: only an object with a [filter] changes the
    filters; a text that is not JSON, or any other value, is ignored. *)
Definition on_message (filters : json) (raw : string) : json :=
  match loads raw with
  | Ok (JObj d) => default filters (dget "filter" d)
  | _ => filters
  end.

(** [_resolve_cookie_user]; a principal name that is [null] counts as none. *)
Definition resolve_cookie_user (s : Settings) (now : Z) (rq : Request) : result (option json) :=
  match given (rq_cookies rq !! "session") with
  | None => Ok None
  | Some cookie =>
      match (c ← codec s; decode c now cookie) with
      | Raise ValueError => Ok None
      | Raise e => Raise e
      | Ok d => Ok (if decide ("viewer" ∈ sd_roles d ∧ sd_user_upn d ≠ JNull) then Some (sd_user_upn d) else None)
      end
  end.

(** ** The connections and the fanout task *)

(** Where the coroutine of a socket is: it has taken the user's place and waits for
    the handshake; it receives; it has left the fanout and waits for the lock; it has
    ended, with the place given back, or with an exception in the handshake; it was
    refused. *)
Inductive Phase : Type := Accepting | Live | Releasing | Done | Failed | Refused (code : Z).

Record Conn : Type := mkConn { cn_upn : string; cn_phase : Phase }.

(** The fanout task waits for a payload, sends one to the clients left of its copy of
    the list, or has ended with an exception. *)
Inductive Task : Type := Waiting | Sending (delta : json) (todo : list nat) | Dead.

Record WsState : Type := mkWs {
  ws_conns : gmap nat Conn;
  ws_clients : list nat;
  ws_filters : nat → json;
  ws_active_upns : gset string;
  ws_task : Task;
  ws_sent : list (nat * string)
}.

Definition ws_init : WsState := mkWs ∅ [] (λ _, JObj []) ∅ Waiting [].

Definition set_conn (s : WsState) (id : nat) (upn : string) (p : Phase) : gmap nat Conn :=
  <[id := mkConn upn p]> (ws_conns s).

Definition remove_client (id : nat) (clients : list nat) : list nat := filter (λ x, x ≠ id) clients.

Inductive ws_step : WsState → WsState → Prop :=
  (** under [_active_lock]: the user has a place already *)
  | step_refuse s id upn :
      ws_conns s !! id = None → upn ∈ ws_active_upns s →
      ws_step s (mkWs (set_conn s id upn (Refused 1008)) (ws_clients s) (ws_filters s) (ws_active_upns s)
                   (ws_task s) (ws_sent s))
  (** under [_active_lock]: the user takes the place *)
  | step_admit s id upn :
      ws_conns s !! id = None → upn ∉ ws_active_upns s →
      ws_step s (mkWs (set_conn s id upn Accepting) (ws_clients s) (ws_filters s) ({[upn]} ∪ ws_active_upns s)
                   (ws_task s) (ws_sent s))
  (** [await ws.accept()] and [add_client] *)
  | step_accept s id upn :
      ws_conns s !! id = Some (mkConn upn Accepting) →
      ws_step s (mkWs (set_conn s id upn Live) (ws_clients s ++ [id])
                   (λ x, if decide (x = id) then JObj [] else ws_filters s x) (ws_active_upns s)
                   (ws_task s) (ws_sent s))
  (** [await ws.accept()] raises *)
  | step_accept_fails s id upn :
      ws_conns s !! id = Some (mkConn upn Accepting) →
      ws_step s (mkWs (set_conn s id upn Failed) (ws_clients s) (ws_filters s) (ws_active_upns s)
                   (ws_task s) (ws_sent s))
  (** a text is received *)
  | step_message s id upn raw :
      ws_conns s !! id = Some (mkConn upn Live) →
      ws_step s (mkWs (ws_conns s) (ws_clients s)
                   (λ x, if decide (x = id) then on_message (ws_filters s id) raw else ws_filters s x)
                   (ws_active_upns s) (ws_task s) (ws_sent s))
  (** the socket is gone: [remove_client] *)
  | step_disconnect s id upn :
      ws_conns s !! id = Some (mkConn upn Live) →
      ws_step s (mkWs (set_conn s id upn Releasing) (remove_client id (ws_clients s)) (ws_filters s)
                   (ws_active_upns s) (ws_task s) (ws_sent s))
  (** under [_active_lock]: the place is given back *)
  | step_release s id upn :
      ws_conns s !! id = Some (mkConn upn Releasing) →
      ws_step s (mkWs (set_conn s id upn Done) (ws_clients s) (ws_filters s) (ws_active_upns s ∖ {[upn]})
                   (ws_task s) (ws_sent s))
  (** a payload of the channel: [list(self._clients)] *)
  | step_payload s text delta :
      ws_task s = Waiting → loads text = Ok delta →
      ws_step s (mkWs (ws_conns s) (ws_clients s) (ws_filters s) (ws_active_upns s)
                   (Sending delta (ws_clients s)) (ws_sent s))
  (** a send that succeeds *)
  | step_send s delta id todo upn m :
      ws_task s = Sending delta (id :: todo) → client_message (ws_filters s id) delta = Ok m →
      ws_conns s !! id = Some (mkConn upn Live) →
      ws_step s (mkWs (ws_conns s) (ws_clients s) (ws_filters s) (ws_active_upns s)
                   (Sending delta todo) (ws_sent s ++ [(id, m)]))
  (** a send that raises: the client is dropped *)
  | step_send_fails s delta id todo m :
      ws_task s = Sending delta (id :: todo) → client_message (ws_filters s id) delta = Ok m →
      ws_step s (mkWs (ws_conns s) (remove_client id (ws_clients s)) (ws_filters s) (ws_active_upns s)
                   (Sending delta todo) (ws_sent s))
  (** the message itself cannot be made: nothing catches it *)
  | step_filter_raises s delta id todo e :
      ws_task s = Sending delta (id :: todo) → client_message (ws_filters s id) delta = Raise e →
      ws_step s (mkWs (ws_conns s) (ws_clients s) (ws_filters s) (ws_active_upns s) Dead (ws_sent s))
  | step_dispatched s delta :
      ws_task s = Sending delta [] →
      ws_step s (mkWs (ws_conns s) (ws_clients s) (ws_filters s) (ws_active_upns s) Waiting (ws_sent s)).

Definition ws_steps : WsState → WsState → Prop := rtc ws_step.

(** ** One place for each user *)

(** The phases in which a connection keeps its user's place. *)
Definition holds (p : Phase) : bool :=
  match p with Accepting | Live | Releasing | Failed => true | _ => false end.

Record ws_inv (s : WsState) : Prop := mkWsInv {
  inv_unique : ∀ id1 id2 upn p1 p2,
    ws_conns s !! id1 = Some (mkConn upn p1) → ws_conns s !! id2 = Some (mkConn upn p2) →
    holds p1 = true → holds p2 = true → id1 = id2;
  inv_active : ∀ upn, upn ∈ ws_active_upns s ↔ ∃ id p, ws_conns s !! id = Some (mkConn upn p) ∧ holds p = true;
  inv_clients : ∀ id, id ∈ ws_clients s → ∃ upn, ws_conns s !! id = Some (mkConn upn Live);
  inv_nodup : NoDup (ws_clients s)
}.

Lemma set_conn_lookup s id upn p id' c :
  set_conn s id upn p !! id' = Some c ↔ (id' = id ∧ c = mkConn upn p) ∨ (id' ≠ id ∧ ws_conns s !! id' = Some c).
Proof. unfold set_conn. rewrite lookup_insert_Some. naive_solver. Qed.

(** A connection that moves between phases that keep the place. *)
Lemma inv_move s id upn p p' clients filters task sent :
  ws_inv s → ws_conns s !! id = Some (mkConn upn p) → holds p = true → holds p' = true →
  (∀ x, x ∈ clients → (x = id ∧ p' = Live) ∨ (x ≠ id ∧ x ∈ ws_clients s)) → NoDup clients →
  ws_inv (mkWs (set_conn s id upn p') clients filters (ws_active_upns s) task sent).
Proof.
  intros [Hu Ha Hc Hn] Hid Hp Hp' Hcl Hnd. split; cbn.
  - intros id1 id2 u p1 p2 H1 H2 Hh1 Hh2. rewrite set_conn_lookup in H1, H2.
    destruct H1 as [[-> E1]|[_ H1]], H2 as [[-> E2]|[_ H2]]; try done; simplify_eq; eauto.
  - intros u. rewrite Ha. setoid_rewrite set_conn_lookup. split.
    + intros (i & q & Hi & Hq). destruct (decide (i = id)) as [->|]; [simplify_eq|]; eauto 6.
    + intros (i & q & [[-> E]|[_ Hi]] & Hq); simplify_eq; eauto.
  - intros x Hx. setoid_rewrite set_conn_lookup. destruct (Hcl x Hx) as [[-> ->]|[Hne Hin]]; [eauto|].
    destruct (Hc x Hin) as [u Hxu]. eauto.
  - done.
Qed.

Lemma remove_client_elem id x clients : x ∈ remove_client id clients ↔ x ≠ id ∧ x ∈ clients.
Proof. unfold remove_client. by rewrite list_elem_of_filter. Qed.

Lemma remove_client_nodup id clients : NoDup clients → NoDup (remove_client id clients).
Proof. intros Hn. by apply NoDup_filter. Qed.

(** Steps that leave the connections and their users alone. *)
Lemma inv_same s clients filters task sent :
  ws_inv s → clients ⊆ ws_clients s → NoDup clients →
  ws_inv (mkWs (ws_conns s) clients filters (ws_active_upns s) task sent).
Proof. intros [Hu Ha Hc Hn] Hsub Hnd. split; cbn; eauto. Qed.

Lemma inv_refuse s id upn :
  ws_inv s → ws_conns s !! id = None →
  ws_inv (mkWs (set_conn s id upn (Refused 1008)) (ws_clients s) (ws_filters s) (ws_active_upns s) (ws_task s) (ws_sent s)).
Proof.
  intros [Hu Ha Hc Hn] Hid. split; cbn; [| | |done].
  - intros id1 id2 u p1 p2 H1 H2 Hh1 Hh2. rewrite set_conn_lookup in H1, H2.
    destruct H1 as [[-> E1]|[_ H1]], H2 as [[-> E2]|[_ H2]]; simplify_eq; eauto.
  - intros u. rewrite Ha. setoid_rewrite set_conn_lookup. split.
    + intros (i & q & Hi & Hq). exists i, q. split; [right; split; [congruence|done]|done].
    + intros (i & q & [[-> E]|[_ Hi]] & Hq); simplify_eq; eauto.
  - intros x Hx. destruct (Hc x Hx) as [u Hxu]. exists u. apply set_conn_lookup. right. split; [congruence|done].
Qed.

Lemma inv_admit s id upn :
  ws_inv s → ws_conns s !! id = None → upn ∉ ws_active_upns s →
  ws_inv (mkWs (set_conn s id upn Accepting) (ws_clients s) (ws_filters s) ({[upn]} ∪ ws_active_upns s) (ws_task s) (ws_sent s)).
Proof.
  intros [Hu Ha Hc Hn] Hid Hup. rewrite Ha in Hup. split; cbn; [| | |done].
  - intros id1 id2 u p1 p2 H1 H2 Hh1 Hh2. rewrite set_conn_lookup in H1, H2.
    destruct H1 as [[-> E1]|[_ H1]], H2 as [[-> E2]|[_ H2]]; simplify_eq; eauto; exfalso; eauto.
  - intros u. rewrite elem_of_union, elem_of_singleton, Ha. setoid_rewrite set_conn_lookup. split.
    + intros [->|(i & q & Hi & Hq)]; [exists id, Accepting; eauto|].
      exists i, q. split; [right; split; [congruence|done]|done].
    + intros (i & q & [[-> E]|[_ Hi]] & Hq); simplify_eq; eauto.
  - intros x Hx. destruct (Hc x Hx) as [u Hxu]. exists u. apply set_conn_lookup. right. split; [congruence|done].
Qed.

Lemma inv_release s id upn :
  ws_inv s → ws_conns s !! id = Some (mkConn upn Releasing) →
  ws_inv (mkWs (set_conn s id upn Done) (ws_clients s) (ws_filters s) (ws_active_upns s ∖ {[upn]}) (ws_task s) (ws_sent s)).
Proof.
  intros [Hu Ha Hc Hn] Hid. split; cbn; [| | |done].
  - intros id1 id2 u p1 p2 H1 H2 Hh1 Hh2. rewrite set_conn_lookup in H1, H2.
    destruct H1 as [[-> E1]|[_ H1]], H2 as [[-> E2]|[_ H2]]; simplify_eq; eauto.
  - intros u. rewrite elem_of_difference, elem_of_singleton, Ha. setoid_rewrite set_conn_lookup. split.
    + intros [(i & q & Hi & Hq) Hne]. exists i, q. split; [right; split; [congruence|done]|done].
    + intros (i & q & [[-> E]|[Hne Hi]] & Hq); simplify_eq. split; [eauto|]. intros ->. apply Hne. by eapply Hu.
  - intros x Hx. destruct (Hc x Hx) as [u Hxu]. exists u. apply set_conn_lookup. right. split; [congruence|done].
Qed.

Lemma ws_step_inv s s' : ws_step s s' → ws_inv s → ws_inv s'.
Proof.
  intros Hstep Hinv. pose proof Hinv as [Hu Ha Hc Hn]. destruct Hstep.
  - by apply inv_refuse.
  - by apply inv_admit.
  - eapply inv_move; [done..| |].
    + intros x [Hx|Hx%list_elem_of_singleton]%elem_of_app; [|by left]. right. split; [|done].
      intros ->. destruct (Hc id Hx) as [u Hu']. congruence.
    + apply NoDup_app. split_and!; [done| |apply NoDup_singleton].
      intros x Hx ->%list_elem_of_singleton. destruct (Hc id Hx) as [u Hu']. congruence.
  - eapply inv_move; [done..| |done]. intros x Hx. right. split; [|done]. intros ->.
    destruct (Hc id Hx) as [u Hu']. congruence.
  - by apply inv_same.
  - eapply inv_move; [done..| |by apply remove_client_nodup]. intros x [Hne Hx]%remove_client_elem. by right.
  - by apply inv_release.
  - by apply inv_same.
  - by apply inv_same.
  - apply inv_same; [done| |by apply remove_client_nodup]. by intros x [_ Hx]%remove_client_elem.
  - by apply inv_same.
  - by apply inv_same.
Qed.

Lemma ws_init_inv : ws_inv ws_init.
Proof.
  split; cbn.
  - intros ????? Hl. by rewrite lookup_empty in Hl.
  - intros upn. split; [by intros []%elem_of_empty|]. intros (id & p & Hl & _). by rewrite lookup_empty in Hl.
  - intros id []%not_elem_of_nil.
  - apply NoDup_nil_2.
Qed.

Lemma ws_reachable_inv s : ws_steps ws_init s → ws_inv s.
Proof.
  intros Hs. assert (∀ a b, ws_steps a b → ws_inv a → ws_inv b) as Hpres.
  { induction 1; eauto using ws_step_inv. }
  eauto using ws_init_inv.
Qed.

(** C21. A user has one place: of the connections of a user that were admitted and have
    not given the place back, there is at most one, whatever the interleaving of
    handshakes, disconnections and the fanout.  A user is refused exactly while such
    a connection exists.  The clients of the fanout are sockets that are receiving,
    each once. *)
Theorem ws_one_connection s :
  ws_steps ws_init s →
  (∀ id1 id2 upn p1 p2,
    ws_conns s !! id1 = Some (mkConn upn p1) → ws_conns s !! id2 = Some (mkConn upn p2) →
    holds p1 = true → holds p2 = true → id1 = id2) ∧
  (∀ upn, upn ∈ ws_active_upns s ↔ ∃ id p, ws_conns s !! id = Some (mkConn upn p) ∧ holds p = true) ∧
  (∀ id, id ∈ ws_clients s → ∃ upn, ws_conns s !! id = Some (mkConn upn Live)) ∧ NoDup (ws_clients s).
Proof. intros [Hu Ha Hc Hn]%ws_reachable_inv. by split_and!. Qed.

Lemma failed_stays s s' id upn :
  ws_step s s' → ws_conns s !! id = Some (mkConn upn Failed) → ws_conns s' !! id = Some (mkConn upn Failed).
Proof.
  intros Hstep Hf. destruct Hstep; cbn; try done; rewrite set_conn_lookup; right; (split; [|done]); congruence.
Qed.

(** A handshake that fails locks its user out: from then on, whatever happens, no
    connection of the user is ever admitted again, because nothing takes the user out
    of [_active_upns]. *)
Theorem failed_accept_locks_out s s' id upn :
  ws_steps ws_init s → ws_conns s !! id = Some (mkConn upn Failed) → ws_steps s s' →
  upn ∈ ws_active_upns s' ∧
  ∀ id' p, id' ≠ id → ws_conns s' !! id' = Some (mkConn upn p) → p ≠ Accepting ∧ p ≠ Live.
Proof.
  intros Hr Hf Hs.
  assert (Hf' : ws_conns s' !! id = Some (mkConn upn Failed)).
  { clear Hr. induction Hs; eauto using failed_stays. }
  assert (Hr' : ws_steps ws_init s') by (by etrans). apply ws_reachable_inv in Hr' as [Hu Ha _ _]. split.
  - apply Ha. eauto.
  - intros id' p Hne Hp. split; intros ->; apply Hne; by eapply Hu.
Qed.

Lemma dead_step s s' : ws_step s s' → ws_task s = Dead → ws_task s' = Dead ∧ ws_sent s' = ws_sent s.
Proof. intros Hstep Hd. destruct Hstep; cbn; try done; congruence. Qed.

(** A fanout task that has ended sends nothing more. *)
Theorem dead_fanout_silent s s' :
  ws_steps s s' → ws_task s = Dead → ws_task s' = Dead ∧ ws_sent s' = ws_sent s.
Proof.
  intros Hs. induction Hs as [|s1 s2 s3 Hstep Hs IH]; [done|]. intros Hd.
  destruct (dead_step s1 s2 Hstep Hd) as [Hd2 <-]. by apply IH.
Qed.

(** ** The filters of the socket and of the route *)

(** A link as it is published. *)
Definition link_json (l : Link) : json :=
  JObj [("src", JStr (lk_src l)); ("dst", JStr (lk_dst l)); ("bytes", JInt (lk_bytes l));
        ("flows", JInt (lk_flows l)); ("users", JInt (lk_users l))].

Lemma matching_spec filters (P : Link → bool) ls :
  (∀ l, l ∈ ls → matches filters (link_json l) = Ok (P l)) →
  matching filters (link_json <$> ls) = Ok (link_json <$> keep P ls).
Proof.
  induction ls as [|l ls IH]; intros Hl; [done|]. cbn [matching fmap list_fmap].
  rewrite (Hl l) by left. cbn [mbind result_bind]. fold (fmap link_json ls).
  rewrite IH by (intros x Hx; apply Hl; by right). cbn [mbind result_bind]. unfold keep. rewrite filter_cons.
  destruct (P l); case_decide; done.
Qed.

(** The parameters of the route as the object a socket sends. *)
Definition socket_filters (src_cidr dst_app : option string) : json :=
  JObj [("src_cidr", opt_str src_cidr); ("dst_app", opt_str dst_app)].

Definition socket_passes (src_cidr dst_app : option string) (l : Link) : bool :=
  match given src_cidr with
  | None => true
  | Some cidr =>
      match ip_network false cidr with Ok net => in_net_text net (lk_src l) | Raise _ => false end
  end &&
  match given dst_app with None => true | Some app => bool_decide (lk_dst l = "app:" +:+ app) end.

Lemma jtrue_opt_str o : jtrue (opt_str o) = match given o with None => false | Some _ => true end.
Proof. destruct o as [[|c s]|]; done. Qed.

Lemma matches_socket src_cidr dst_app l :
  matches (socket_filters src_cidr dst_app) (link_json l) = Ok (socket_passes src_cidr dst_app l).
Proof.
  unfold matches, socket_passes.
  assert (Hs : jget_none "src_cidr" (socket_filters src_cidr dst_app) = Ok (opt_str src_cidr)) by done.
  assert (Ha : jget_none "dst_app" (socket_filters src_cidr dst_app) = Ok (opt_str dst_app)) by done.
  rewrite Hs, Ha. cbn [mbind result_bind]. rewrite !jtrue_opt_str.
  assert (Hdst : ∀ b : bool, (if negb b then Ok false
     else if match given dst_app with None => false | Some _ => true end
          then dst ← jitem "dst" (link_json l); Ok (jeq_str dst ("app:" +:+ json_str (opt_str dst_app)))
          else Ok true) =
    Ok (b && match given dst_app with None => true | Some app => bool_decide (lk_dst l = "app:" +:+ app) end)).
  { intros []; [|done]. destruct dst_app as [[|c a]|]; done. }
  destruct src_cidr as [[|c cidr]|]; [apply (Hdst true)| |apply (Hdst true)].
  change (given (Some (String c cidr))) with (Some (String c cidr)). cbn iota.
  change (jitem "src" (link_json l)) with (Ok (JStr (lk_src l))). cbn [mbind result_bind as_str].
  change (json_network (opt_str (Some (String c cidr)))) with (ip_network false (String c cidr)). unfold in_net_text.
  destruct (ip_address (strip_ip (lk_src l))), (ip_network false (String c cidr)); cbn [mbind result_bind]; apply Hdst.
Qed.

(** The socket and the route filter alike: with the same address range and
    application, the links a client is sent are those the route returns, in the same
    order; on a range that is not a network the route answers 400 and the client is
    sent no link. *)
Theorem socket_agrees_with_route d src_cidr dst_app :
  matching (socket_filters src_cidr dst_app) (link_json <$> dl_links d) =
  Ok (match filter_links d (mkFilters src_cidr dst_app None None None) with
      | Reply d' => link_json <$> dl_links d'
      | _ => []
      end).
Proof.
  rewrite (matching_spec _ (socket_passes src_cidr dst_app)) by (intros; apply matches_socket). f_equal.
  unfold filter_links, socket_passes. cbn [fl_src_cidr fl_dst_app fl_group fl_user fl_exclude given_set mbind option_bind keep_if].
  change (given None) with (@None string). cbn [keep_if].
  destruct (given src_cidr) as [cidr|].
  - destruct (ip_network false cidr) as [net|e]; cbn [mbind response_bind dl_links with_links].
    + rewrite keep_if_keep, keep_keep. f_equal. apply list_filter_iff. intros l. by rewrite andb_comm.
    + by rewrite keep_false.
  - cbn [mbind response_bind dl_links with_links]. rewrite keep_if_keep. done.
Qed.

(** ** One dispatch *)

(** On a published link a filter that is an object never raises. *)
Lemma matches_total o l : ∃ b, matches (JObj o) (link_json l) = Ok b.
Proof.
  unfold matches, jget_none, jget_or, jget. cbn [mbind result_bind].
  change (jitem "src" (link_json l)) with (Ok (JStr (lk_src l))).
  change (jitem "dst" (link_json l)) with (Ok (JStr (lk_dst l))). cbn [mbind result_bind as_str].
  assert (Hd : ∀ b : bool, ∃ b', (if negb b then Ok false
     else if jtrue (default JNull (dget "dst_app" o))
          then Ok (jeq_str (JStr (lk_dst l)) ("app:" +:+ json_str (default JNull (dget "dst_app" o))))
          else Ok true) = Ok b').
  { intros []; cbn [negb]; [|by eexists]. destruct (jtrue _); by eexists. }
  destruct (jtrue (default JNull (dget "src_cidr" o))); [|apply (Hd true)].
  destruct (ip_address _); [destruct (json_network _)|]; apply Hd.
Qed.

(** What a filter keeps of the published links. *)
Definition keeps (filters : json) (l : Link) : bool :=
  match matches filters (link_json l) with Ok b => b | Raise _ => false end.

Lemma client_message_links o d ls :
  dget "links" d = Some (JArr (link_json <$> ls)) →
  client_message (JObj o) (JObj d) =
  Ok (dumps_default (JObj (dset "links" (JArr (link_json <$> keep (keeps (JObj o)) ls)) d))).
Proof.
  intros Hd. unfold client_message, jitem. rewrite Hd. cbn [need mbind result_bind iter_json].
  rewrite (matching_spec _ (keeps (JObj o))); [done|]. intros l _. unfold keeps.
  destruct (matches_total o l) as [b ->]. done.
Qed.

End ws.

#[local] Instance ws_prims : PyPrims :=
  {| float_is := λ _ _, false; float_str := id; container_str := λ _, ""; float_trunc := λ _, Raise OverflowError |}.

Definition demo_failed : WsState := mkWs {[0%nat := mkConn "ann" Failed]} [] (λ _, JObj []) {["ann"]} Waiting [].

Lemma demo_failed_reachable : ws_steps ws_init demo_failed.
Proof.
  eapply rtc_l; [apply (step_admit ws_init 0 "ann"); [done | apply not_elem_of_empty]|].
  eapply rtc_l; [apply (step_accept_fails _ 0 "ann"); reflexivity|].
  unfold demo_failed, set_conn. cbn. rewrite insert_insert_eq, union_empty_r_L. apply rtc_refl.
Qed.

Lemma ws_one_connection_witness :
  ws_steps ws_init demo_failed ∧ "ann" ∈ ws_active_upns demo_failed.
Proof.
  split; [exact demo_failed_reachable|].
  apply (ws_one_connection demo_failed demo_failed_reachable). by exists 0%nat, Failed.
Defined.

Lemma failed_accept_locks_out_witness : ws_steps ws_init demo_failed ∧ "ann" ∈ ws_active_upns demo_failed.
Proof.
  split; [exact demo_failed_reachable|].
  apply (failed_accept_locks_out demo_failed demo_failed 0 "ann" demo_failed_reachable eq_refl (rtc_refl _ _)).
Defined.

Definition demo_links : list Link := [mkLink "ip:10.0.0.1" "app:x" 5 1 1; mkLink "ip:8.8.8.8" "app:y" 9 1 1].
Definition demo_payload : pydict string json := [("lossy", JBool false); ("links", JArr (link_json <$> demo_links))].
Definition demo_filters (c : nat) : json :=
  match c with O => socket_filters (Some "10.0.0.0/8") None | _ => socket_filters None (Some "y") end.


(** A client that sends a [null] filter: its next delta ends the fanout for everyone. *)
Example null_filter_raises :
  let f := on_message (JObj []) (dumps_default (JObj [("filter", JNull)])) in
  f = JNull ∧ client_message f (JObj demo_payload) = Raise AttributeError.
Proof. split; reflexivity. Qed.
