(* ===== verification/GroupsService.v ===== *)
(** * The members of a group ([api/services/groups_service.py], [api/routers/groups.py])

    The pages of the members of a group, as a function of the table [user_groups].
    The order of texts is the collation of the database, a parameter; the cursor is
    the last name of a page in base64. *)

From S2P Require Import Prelude PySort PyStr PyText PyBase64 Utf8 Cursor ApiAuth ApiFlows.

(** A text in the order of the database. *)
Record Collated : Type := coll { uncoll : string }.

#[global] Instance coll_inj : Inj (=) (=) coll.
Proof. by intros ? ? [=]. Qed.

Record UserGroup : Type := mkUserGroup {
  ug_user_upn : string;
  ug_group_id : string;
  ug_group_name : string
}.

Record GroupPage : Type := mkGroupPage {
  gp_group_id : string;
  gp_group_name : string;
  gp_size : Z;
  gp_members : list string;
  gp_next_cursor : option string
}.

(** [_encode_cursor] *)
Definition encode_upn (last_upn : string) : string := b64_encode last_upn.

(** [bytes.decode("utf-8")]: well-formed text is what replacement leaves alone. *)
Definition utf8_strict (s : string) : result string :=
  if decide (utf8_replace s = s) then Ok s else Raise ValueError.

(** [_decode_cursor]: every exception becomes a [ValueError]. *)
Definition decode_upn (cursor : string) : result string :=
  if str_forall is_ascii cursor then
    match (raw ← b64_decode cursor; utf8_strict raw) with
    | Ok upn => Ok upn
    | Raise _ => Raise ValueError
    end
  else Raise ValueError.

Section service.
Context `{!PyOrd Collated, !PyOrdLaws Collated}.

Definition in_group (table : list UserGroup) (group_id : string) : list UserGroup :=
  filter (λ r, ug_group_id r = group_id) table.

(** [MAX(group_name)] *)
Definition max_name (rows : list UserGroup) : option string :=
  foldr (λ r acc, match acc with
                  | None => Some (ug_group_name r)
                  | Some n => Some (if py_ltb (coll n) (coll (ug_group_name r)) then ug_group_name r else n)
                  end) None rows.

(** The second query. *)
Definition members_after (rows : list UserGroup) (after : string) (limit : Z) : list string :=
  take (Z.to_nat limit)
    (py_sorted coll (filter (λ u, py_ltb (coll after) (coll u) = true) (ug_user_upn <$> rows))).

(** [get_members] *)
Definition get_members (table : list UserGroup) (group_id : string) (cursor : option string) (page_size : Z) :
    result (option GroupPage) :=
  after ← (match given cursor with None => Ok "" | Some c => decode_upn c end);
  let rows := in_group table group_id in
  let size := Z.of_nat (length rows) in
  if size =? 0 then Ok None
  else
    let group_name := match given (max_name rows) with Some n => n | None => group_id end in
    let members := members_after rows after page_size in
    next ← (if Z.of_nat (length members) =? page_size then
              l ← need IndexError (last members); Ok (Some (encode_upn l))
            else Ok None);
    Ok (Some (mkGroupPage group_id group_name size members next)).

(** [get_group] *)
Definition get_group (table : list UserGroup) (group_id : string) (cursor : option string) (page_size : Z) :
    response GroupPage :=
  match get_members table group_id cursor page_size with
  | Raise ValueError => HttpError 400
  | Raise e => Crash e
  | Ok None => HttpError 404
  | Ok (Some page) => Reply page
  end.

(** A client that follows the cursors. *)
Fixpoint all_pages (fuel : nat) (table : list UserGroup) (group_id : string) (cursor : option string) (page_size : Z) :
    response (list GroupPage) :=
  match fuel with
  | O => Crash OtherError
  | S fuel =>
      page ← get_group table group_id cursor page_size;
      match gp_next_cursor page with
      | None => Reply [page]
      | Some next => pages ← all_pages fuel table group_id (Some next) page_size; Reply (page :: pages)
      end
  end.

(** ** Cursors *)

Lemma b64_encode_ascii s : str_forall is_ascii (b64_encode s) = true.
Proof.
  destruct (b64_encode_shape s) as (body & k & -> & _ & Ha & _). rewrite str_forall_app. unfold is_ascii at 1. rewrite Ha.
  by induction k.
Qed.

(** A name as the database holds it: text, not empty and after the empty text. *)
Definition upn_ok (u : string) : Prop := utf8_replace u = u ∧ u ≠ "" ∧ py_ltb (coll "") (coll u) = true.

Lemma decode_encode_upn u : utf8_replace u = u → decode_upn (encode_upn u) = Ok u.
Proof.
  intros Hu. unfold decode_upn, encode_upn. rewrite b64_encode_ascii, b64_decode_encode. cbn [mbind result_bind].
  unfold utf8_strict. by rewrite decide_True.
Qed.

Lemma given_encode_upn u : u ≠ "" → given (Some (encode_upn u)) = Some (encode_upn u).
Proof. intros Hu. destruct u as [|a [|b [|c r]]]; done. Qed.

(** ** Pages *)

(** The names that a cursor leaves, in order. *)
Definition left_after (table : list UserGroup) (group_id after : string) : list string :=
  filter (λ u, py_ltb (coll after) (coll u) = true)
    (py_sorted coll (ug_user_upn <$> in_group table group_id)).

Lemma members_left table group_id after limit :
  members_after (in_group table group_id) after limit = take (Z.to_nat limit) (left_after table group_id after).
Proof. unfold members_after, left_after. by rewrite py_sorted_filter. Qed.

(** One page, for a cursor that stands for [after]. *)
Lemma get_group_page table group_id cursor after page_size :
  1 ≤ page_size → in_group table group_id ≠ [] →
  (match given cursor with None => Ok "" | Some c => decode_upn c end) = Ok after →
  ∃ page, get_group table group_id cursor page_size = Reply page ∧ gp_group_id page = group_id ∧
    gp_size page = Z.of_nat (length (in_group table group_id)) ∧
    gp_members page = take (Z.to_nat page_size) (left_after table group_id after) ∧
    gp_next_cursor page =
      if (Z.to_nat page_size <=? length (left_after table group_id after))%nat then
        encode_upn <$> last (take (Z.to_nat page_size) (left_after table group_id after))
      else None.
Proof.
  intros Hp Hne Hc. unfold get_group, get_members. rewrite Hc. cbn [mbind result_bind].
  destruct (Z.eqb_spec (Z.of_nat (length (in_group table group_id))) 0) as [E|_].
  { destruct Hne. apply length_zero_iff_nil. lia. }
  rewrite members_left. set (L := left_after table group_id after).
  destruct (Nat.leb_spec (Z.to_nat page_size) (length L)) as [Hle|Hlt].
  - rewrite (proj2 (Z.eqb_eq _ _)) by (rewrite length_take; lia).
    destruct (last (take (Z.to_nat page_size) L)) as [l|] eqn:El.
    + cbn [need mbind result_bind]. by eexists.
    + apply last_None in El. apply (f_equal length) in El. rewrite length_take in El. simpl in El. lia.
  - rewrite (proj2 (Z.eqb_neq _ _)) by (rewrite length_take; lia). cbn [mbind result_bind]. by eexists.
Qed.

Lemma pages_suffix table group_id page_size :
  1 ≤ page_size → in_group table group_id ≠ [] →
  NoDup (ug_user_upn <$> in_group table group_id) → Forall upn_ok (ug_user_upn <$> in_group table group_id) →
  ∀ n l1 l2 cursor after,
    py_sorted coll (ug_user_upn <$> in_group table group_id) = l1 ++ l2 →
    (match given cursor with None => Ok "" | Some c => decode_upn c end) = Ok after →
    left_after table group_id after = l2 → (length l2 < n)%nat →
    ∃ pages, all_pages n table group_id cursor page_size = Reply pages ∧
      concat (gp_members <$> pages) = l2 ∧
      Forall (λ p, gp_size p = Z.of_nat (length (in_group table group_id))) pages.
Proof.
  intros Hp Hne Hnd Hok. set (L := py_sorted coll _).
  assert (HsL : StronglySorted (key_le coll) L) by apply py_sorted_strongly_sorted.
  assert (HndL : NoDup (coll <$> L)) by (apply NoDup_fmap_2; [apply _|]; unfold L; by rewrite py_sorted_perm).
  assert (HokL : ∀ u, u ∈ L → upn_ok u).
  { intros u Hu. unfold L in Hu. apply py_sorted_elem in Hu. rewrite Forall_forall in Hok. by apply Hok. }
  induction n as [|n IH]; intros l1 l2 cursor after HL Hc Hl2 Hn; [lia|].
  cbn [all_pages]. destruct (get_group_page table group_id cursor after page_size Hp Hne Hc) as (page & -> & _ & Hsz & Hm & Hnx).
  cbn [mbind response_bind]. rewrite Hl2 in Hm, Hnx. rewrite Hnx.
  destruct (Nat.leb_spec (Z.to_nat page_size) (length l2)) as [Hle|Hlt].
  - destruct (last (take (Z.to_nat page_size) l2)) as [x|] eqn:El.
    2:{ apply last_None, (f_equal length) in El. rewrite length_take in El. simpl in El. lia. }
    cbn [fmap option_fmap option_map]. apply last_Some in El as [a Ea].
    pose proof (take_drop (Z.to_nat page_size) l2) as Hsplit. rewrite Ea in Hsplit.
    assert (HL' : L = (l1 ++ a) ++ x :: drop (Z.to_nat page_size) l2).
    { rewrite HL, <- Hsplit at 1. by rewrite <- !app_assoc. }
    assert (Hx : upn_ok x) by (apply HokL; rewrite HL'; apply elem_of_app; right; left). destruct Hx as (Hx1 & Hx2 & _).
    destruct (IH (l1 ++ a ++ [x]) (drop (Z.to_nat page_size) l2) (Some (encode_upn x)) x) as (pages & -> & Hcat & Hall).
    + rewrite HL'. by rewrite <- !app_assoc.
    + by rewrite given_encode_upn, decode_encode_upn.
    + unfold left_after. fold L. rewrite HL'. apply (sorted_after coll); by rewrite <- HL'.
    + rewrite length_drop. lia.
    + cbn [mbind response_bind]. eexists. split; [reflexivity|]. split; [|by constructor].
      cbn [fmap list_fmap concat]. fold (fmap gp_members pages). rewrite Hcat, Hm, Ea. exact Hsplit.
  - eexists. split; [reflexivity|]. split; [|by constructor]. cbn [fmap list_fmap concat]. rewrite Hm, app_nil_r.
    apply take_ge. lia.
Qed.

(** C26. Following the cursors reads the whole group: for any page size, the pages
    together hold every member exactly once and in order, each page tells the size of
    the group, and the walk ends. *)
Theorem group_pages_complete table group_id page_size fuel :
  1 ≤ page_size → in_group table group_id ≠ [] →
  NoDup (ug_user_upn <$> in_group table group_id) → Forall upn_ok (ug_user_upn <$> in_group table group_id) →
  (length (in_group table group_id) < fuel)%nat →
  ∃ pages, all_pages fuel table group_id None page_size = Reply pages ∧
    concat (gp_members <$> pages) = py_sorted coll (ug_user_upn <$> in_group table group_id) ∧
    Forall (λ p, gp_size p = Z.of_nat (length (in_group table group_id))) pages.
Proof.
  intros Hp Hne Hnd Hok Hf. eapply (pages_suffix table group_id page_size Hp Hne Hnd Hok fuel []); [done..| |].
  - unfold left_after. apply filter_all. intros u Hu. apply py_sorted_elem in Hu.
    rewrite Forall_forall in Hok. by apply Hok.
  - rewrite py_sorted_length, length_fmap. done.
Qed.

(** The errors of the route: a cursor that is not the base64 of text is answered
    400 whatever the group, an unknown group 404, and nothing else fails. *)
Theorem get_group_outcome table group_id cursor page_size :
  1 ≤ page_size →
  match get_group table group_id cursor page_size with
  | Reply p => gp_group_id p = group_id ∧ in_group table group_id ≠ []
  | HttpError 400 => ∃ c, given cursor = Some c ∧ decode_upn c = Raise ValueError
  | HttpError 404 => in_group table group_id = []
  | _ => False
  end.
Proof.
  intros Hp.
  assert (Hd : ∀ c, decode_upn c = Raise ValueError ∨ ∃ u, decode_upn c = Ok u).
  { intros c. unfold decode_upn. destruct (str_forall _ _); [|by left].
    destruct (raw ← b64_decode c; utf8_strict raw); [right; by eexists|by left]. }
  destruct (in_group table group_id) as [|r rows] eqn:Er.
  - unfold get_group, get_members. rewrite Er. destruct (given cursor) as [c|] eqn:Ec; [|done].
    destruct (Hd c) as [E|[u E]]; rewrite E; cbn; [by exists c|done].
  - destruct (given cursor) as [c|] eqn:Ec.
    + destruct (Hd c) as [E|[u E]].
      * unfold get_group, get_members. rewrite Ec, E. cbn. by exists c.
      * destruct (get_group_page table group_id cursor u page_size Hp) as (page & -> & Hid & _); [by rewrite Er|by rewrite Ec|done].
    + destruct (get_group_page table group_id cursor "" page_size Hp) as (page & -> & Hid & _); [by rewrite Er|by rewrite Ec|done].
Qed.
End service.

(** The order of bytes as a collation. *)
#[local] Instance demo_collation : PyOrd Collated := λ a b, py_leb (uncoll a) (uncoll b).
#[local] Instance demo_collation_laws : PyOrdLaws Collated.
Proof.
  split; unfold py_leb, demo_collation.
  - intros a b. apply py_leb_total.
  - intros a b c. apply py_leb_trans.
  - intros [a] [b]; cbn. intros. f_equal. by apply py_leb_antisym.
Qed.

Definition demo_group : list UserGroup :=
  [mkUserGroup "cy" "g1" "Staff"; mkUserGroup "al" "g1" "Staff"; mkUserGroup "bo" "g1" "Staff";
   mkUserGroup "al" "g2" "Other"; mkUserGroup "di" "g1" "Staff"].

Lemma group_pages_complete_witness :
  ∃ pages, all_pages 5 demo_group "g1" None 2 = Reply pages ∧ concat (gp_members <$> pages) = ["al"; "bo"; "cy"; "di"].
Proof.
  destruct (group_pages_complete demo_group "g1" 2 5) as (pages & Hp & Hm & _); [lia|done| | |apply Nat.ltb_lt; reflexivity|].
  - apply (bool_decide_unpack _). reflexivity.
  - repeat (apply Forall_cons; split; [split_and!; done|]). by apply Forall_nil.
  - exists pages. split; [exact Hp|]. rewrite Hm. reflexivity.
Defined.

Lemma get_group_outcome_witness : get_group demo_group "g1" (Some "!") 2 ≠ HttpError 404.
Proof.
  pose proof (get_group_outcome demo_group "g1" (Some "!") 2 ltac:(lia)) as Ho. intros E. rewrite E in Ho. discriminate Ho.
Defined.
