(* ===== verification/IdentityService.v ===== *)
(** * Point-in-time identity ([api/services/identity_service.py], [api/routers/identity.py])

    The lookup of the API over the table of identity events, and its relation to the
    index of the correlator, which the source says has the same semantics.  Addresses
    of the database are a parameter, with their input ([inet_of]) and the text of a
    host address ([host]). *)

From S2P Require Import Prelude PySort PyStr EventTypes IdentityIndex ApiAuth GroupsService.

Section service.
Context {Inet : Type} `{EqDecision Inet} (inet_of : string → option Inet) (host : Inet → string).
Context `{!PyOrd Collated, !PyOrdLaws Collated}.

(** A row of [identity_events]. *)
Record IdentityRow : Type := mkIdentityRow {
  ir_time : Z;
  ir_src_ip : Inet;
  ir_user_upn : string;
  ir_source : string;
  ir_confidence : Z;
  ir_ttl_seconds : Z;
  ir_event_type : string
}.

Record IdentityHit : Type := mkIdentityHit {
  ih_user_upn : string;
  ih_source : string;
  ih_confidence : Z;
  ih_groups : list string;
  ih_ttl_remaining : Z
}.

(** The WHERE clause. *)
Definition candidate (a : Inet) (at_ : Z) (r : IdentityRow) : bool :=
  bool_decide (ir_src_ip r = a) && (ir_time r <=? at_) && (at_ <=? ir_time r + ir_ttl_seconds r * second) &&
  negb (bool_decide (ir_event_type r = "nac-auth-stop")).

(** The ORDER BY clause. *)
Definition row_rank (r : IdentityRow) : Z * Z := (- ir_confidence r, - ir_time r).

(** [resolve]; [user_groups] are the pairs of a user and a group name. *)
Definition resolve_at (rows : list IdentityRow) (user_groups : list (string * string)) (src_ip : string) (at_ : Z) :
    response (option IdentityHit) :=
  match inet_of src_ip with
  | None => Crash OtherError
  | Some a =>
      match py_sorted row_rank (filter (λ r, candidate a at_ r = true) rows) with
      | [] => Reply None
      | row :: _ =>
          let groups := py_sorted coll (filter (λ g, g.1 = ir_user_upn row) user_groups).*2 in
          let ttl_remaining :=
            Z.max 0 (Z.quot (ir_ttl_seconds row * second - (at_ - ir_time row)) second) in
          Reply (Some (mkIdentityHit (ir_user_upn row) (ir_source row) (ir_confidence row) groups ttl_remaining))
      end
  end.

(** ** What the lookup finds *)

Lemma candidate_spec a at_ r :
  candidate a at_ r = true ↔
  ir_src_ip r = a ∧ ir_time r ≤ at_ ≤ ir_time r + ir_ttl_seconds r * second ∧ ir_event_type r ≠ "nac-auth-stop".
Proof.
  unfold candidate. rewrite !andb_true_iff, negb_true_iff, !Z.leb_le, bool_decide_eq_true, bool_decide_eq_false. tauto.
Qed.

Lemma rank_le r r' :
  py_leb (row_rank r) (row_rank r') = true ↔
  ir_confidence r' < ir_confidence r ∨ (ir_confidence r' = ir_confidence r ∧ ir_time r' ≤ ir_time r).
Proof.
  unfold row_rank. rewrite py_leb_pair, !py_leb_Z. destruct (decide (ir_confidence r' = ir_confidence r)) as [->|];
    [rewrite Z.opp_le_mono|]; intuition lia.
Qed.

(** The answer is a row that covers the instant, both ends included, and no other
    such row is more confident, or as confident and later; there is no answer exactly
    when no row covers the instant.  The groups are those of the user, and the
    remaining lifetime is not negative. *)
Lemma resolve_at_best rows user_groups src_ip a at_ :
  inet_of src_ip = Some a →
  match resolve_at rows user_groups src_ip at_ with
  | Reply None => ∀ r, r ∈ rows → candidate a at_ r = false
  | Reply (Some h) =>
      ∃ r, r ∈ rows ∧ candidate a at_ r = true ∧
        (∀ r', r' ∈ rows → candidate a at_ r' = true → py_leb (row_rank r) (row_rank r') = true) ∧
        ih_user_upn h = ir_user_upn r ∧ ih_source h = ir_source r ∧ ih_confidence h = ir_confidence r ∧
        ih_ttl_remaining h = Z.quot (ir_time r + ir_ttl_seconds r * second - at_) second ∧ 0 ≤ ih_ttl_remaining h ∧
        (∀ g, g ∈ ih_groups h ↔ (ir_user_upn r, g) ∈ user_groups)
  | _ => False
  end.
Proof.
  intros Ha. unfold resolve_at. rewrite Ha. set (cs := filter _ rows).
  pose proof (py_sorted_perm row_rank cs) as Hperm. pose proof (py_sorted_strongly_sorted row_rank cs) as Hs.
  destruct (py_sorted row_rank cs) as [|row rest] eqn:E.
  - intros r Hr. destruct (candidate a at_ r) eqn:Ec; [|done]. exfalso.
    assert (Hin : r ∈ cs) by (apply list_elem_of_filter; done).
    rewrite <- Hperm in Hin. by apply not_elem_of_nil in Hin.
  - assert (Hrow : row ∈ cs) by (rewrite <- Hperm; left). apply list_elem_of_filter in Hrow as [Hc Hin].
    exists row. cbn [ih_user_upn ih_source ih_confidence ih_ttl_remaining ih_groups].
    pose proof (proj1 (candidate_spec a at_ row) Hc) as (_ & Hcov & _).
    replace (ir_ttl_seconds row * second - (at_ - ir_time row)) with (ir_time row + ir_ttl_seconds row * second - at_) by lia.
    assert (0 ≤ Z.quot (ir_time row + ir_ttl_seconds row * second - at_) second) by (apply Z.quot_pos; unfold second in *; lia).
    split_and!; [done..| | | | | | |].
    + intros r' Hr' Hc'. assert (Hin' : r' ∈ cs) by (by apply list_elem_of_filter).
      rewrite <- Hperm in Hin'. apply elem_of_cons in Hin' as [->|Hin']; [by apply rank_le; lia|].
      apply StronglySorted_inv in Hs as [_ Hs]. rewrite Forall_forall in Hs. by apply Hs.
    + done.
    + done.
    + done.
    + lia.
    + lia.
    + intros g. rewrite py_sorted_elem, list_elem_of_fmap. split.
      * intros ([u g'] & -> & [Hu Hg]%list_elem_of_filter). cbn in *. by subst.
      * intros Hg. exists (ir_user_upn row, g). split; [done|]. by apply list_elem_of_filter.
Qed.

(** ** The index of the correlator *)

(** A sign-in as the correlator receives it. *)
Definition row_event (r : IdentityRow) : IdentityEvent :=
  mkIdentityEvent (Some (ir_time r)) (Some (host (ir_src_ip r))) (Some (ir_user_upn r)) (Some (ir_source r))
    (Some (ir_event_type r)) (Some (ir_confidence r)) (Some (ir_ttl_seconds r)) None None.

Definition row_interval (r : IdentityRow) : interval Binding :=
  mkInterval (ir_time r) (ir_time r + ir_ttl_seconds r * second)
    (mkBinding (ir_user_upn r) (ir_confidence r) (ir_source r) (ir_time r)).

(** A sign-in with a lifetime, whose end is an instant. *)
Definition login_ok (r : IdentityRow) : Prop :=
  ir_event_type r ≠ "nac-auth-stop" ∧ 0 < ir_ttl_seconds r ∧
  add_seconds (ir_time r) (ir_ttl_seconds r) = Ok (ir_time r + ir_ttl_seconds r * second).

Lemma login_meaning r : login_ok r → meaning (row_event r) = MBind (host (ir_src_ip r)) (row_interval r).
Proof.
  intros (Ht & Httl & Hadd). unfold meaning, row_event, is_stop. cbn [ie_src_ip ie_ts ie_event_type ie_ttl_seconds ie_user_upn default].
  change (id (ir_ttl_seconds r)) with (ir_ttl_seconds r).
  rewrite bool_decide_eq_false_2 by congruence. destruct (Z.eqb_spec (ir_ttl_seconds r) 0) as [E|_]; [lia|]. cbn [orb]. rewrite Hadd.
  unfold event_binding. cbn [ie_user_upn ie_confidence ie_source need mbind result_bind mret result_ret].
  destruct (Z.ltb_spec (ir_time r) (ir_time r + ir_ttl_seconds r * second)); [done|unfold second in *; lia].
Qed.

Definition logins (rows : list IdentityRow) : list index_op := (λ r, OpInsert (row_event r)) <$> rows.

Lemma abs_run_logins rows ip iv :
  Forall login_ok rows →
  (abs_run (logins rows) ip iv ↔ ∃ r, r ∈ rows ∧ host (ir_src_ip r) = ip ∧ iv = row_interval r).
Proof.
  induction rows as [|r rows IH] using rev_ind; intros Hok; [cbn; set_solver|].
  apply Forall_app in Hok as [Hok [Hr _]%Forall_cons]. unfold logins. rewrite fmap_app. unfold abs_run.
  rewrite foldl_app. cbn [fmap list_fmap foldl abs_step]. rewrite login_meaning by done.
  change (foldl abs_step (λ _ _, False) ((λ r, OpInsert (row_event r)) <$> rows)) with (abs_run (logins rows)).
  setoid_rewrite elem_of_app. rewrite IH by done. split.
  - intros [[-> ->]|(r' & Hr' & <- & ->)]; [exists r; split; [right; left|done]|exists r'; eauto].
  - intros (r' & [Hr'|Hr'%list_elem_of_singleton] & <- & ->); [right; eauto|left; by subst].
Qed.

Section agreement.
Context {T : Type} `{IntervalTreeLaws Binding T}.

(** C27. On sign-ins alone the lookup of the API and the index of the correlator agree:
    after the same events both answer nothing, or the same user, source, confidence
    and remaining lifetime, at any instant that is not the end of a binding of the
    address, provided equally confident sign-ins of the same instant agree. *)
Theorem service_agrees_with_index rows user_groups a at_ :
  inet_of (host a) = Some a → (∀ r, r ∈ rows → host (ir_src_ip r) = host a → ir_src_ip r = a) →
  Forall login_ok rows →
  (∀ r, r ∈ rows → ir_src_ip r = a → ir_time r + ir_ttl_seconds r * second ≠ at_) →
  (∀ r r', r ∈ rows → r' ∈ rows → ir_src_ip r = a → ir_src_ip r' = a → row_rank r = row_rank r' →
    row_interval r = row_interval r') →
  match resolve_at rows user_groups (host a) at_, (resolve (host a) at_ (index_run (T := T) (logins rows))).2 with
  | Reply (Some h), Some r =>
      ih_user_upn h = rs_user_upn r ∧ ih_source h = rs_source r ∧ ih_confidence h = rs_confidence r ∧
      ih_ttl_remaining h = rs_ttl_remaining r
  | Reply None, None => True
  | _, _ => False
  end.
Proof.
  intros Ha Hhost Hok Hend Htie.
  assert (Hcov : ∀ r, r ∈ rows → ir_src_ip r = a → (candidate a at_ r = true ↔ covers (row_interval r) at_)).
  { intros r Hr Hra. rewrite candidate_spec. unfold covers, row_interval. cbn [iv_begin iv_end].
    rewrite Forall_forall in Hok. destruct (Hok r Hr) as (Ht & _). specialize (Hend r Hr Hra). intuition lia. }
  assert (Hlive : ∀ iv, abs_run (logins rows) (host a) iv ∧ covers iv at_ ↔
            ∃ r, r ∈ rows ∧ candidate a at_ r = true ∧ iv = row_interval r).
  { intros iv. rewrite (abs_run_logins rows _ iv Hok). split.
    - intros [(r & Hr & Hra & ->) Hc]. pose proof (Hhost r Hr Hra). exists r. split_and!; [done|by apply Hcov|done].
    - intros (r & Hr & Hc & ->). pose proof (proj1 (candidate_spec a at_ r) Hc) as (Hra & _).
      split; [exists r; by subst|by apply Hcov]. }
  pose proof (resolve_in_order (T := T) (logins rows) (host a) at_) as Hi.
  pose proof (resolve_at_best rows user_groups (host a) a at_ Ha) as Hs.
  assert (Hno : ∀ a', OpResolve (host a) a' ∈ logins rows → a' ≤ at_).
  { intros a' Hin. apply list_elem_of_fmap in Hin as (r & [=] & _). }
  specialize (Hi Hno). destruct (resolve_at _ _ _ _) as [[h|]| |]; try done; destruct (resolve _ _ _).2 as [res|].
  - destruct Hi as (iv & Hab & Hc & -> & Hbest).
    destruct (proj1 (Hlive iv) (conj Hab Hc)) as (r & Hr & Hrc & ->).
    destruct Hs as (r' & Hr' & Hrc' & Hbest' & -> & -> & -> & -> & _).
    destruct (proj2 (Hlive (row_interval r'))) as [Hab' Hc']; [by exists r'|].
    specialize (Hbest _ Hab' Hc'). specialize (Hbest' r Hr Hrc). apply rank_le in Hbest'.
    pose proof (proj1 (candidate_spec a at_ r) Hrc) as (Hra & _). pose proof (proj1 (candidate_spec a at_ r') Hrc') as (Hra' & _).
    assert (E : row_interval r = row_interval r').
    { apply Htie; try done. unfold no_worse in Hbest. cbn in Hbest. unfold row_rank. f_equal; lia. }
    rewrite E. by split_and!.
  - destruct Hs as (r' & Hr' & Hrc' & _). destruct (proj2 (Hlive (row_interval r'))) as [Hab' Hc']; [by exists r'|].
    by apply (Hi _ Hab').
  - destruct Hi as (iv & Hab & Hc & _). destruct (proj1 (Hlive iv) (conj Hab Hc)) as (r & Hr & Hrc & _).
    by rewrite Hs in Hrc.
  - done.
Qed.
End agreement.
End service.

(** ** Where the two differ *)

#[local] Existing Instances demo_collation demo_collation_laws.

Definition demo_login : IdentityRow (Inet := string) :=
  mkIdentityRow 0 "10.0.0.1" "bob@corp" "cisco_ise" 95 3600 "nac-auth".
Definition demo_stop : IdentityRow (Inet := string) :=
  mkIdentityRow (60 * second) "10.0.0.1" "bob@corp" "cisco_ise" 95 0 "nac-auth-stop".

Lemma service_agrees_with_index_witness :
  ih_user_upn <$> (match resolve_at Some [demo_login] [] "10.0.0.1" (90 * second) with Reply h => h | _ => None end) =
  Some "bob@corp" ∧
  rs_user_upn <$> (resolve "10.0.0.1" (90 * second) (index_run (T := LT) (logins id [demo_login]))).2 = Some "bob@corp".
Proof.
  pose proof (service_agrees_with_index Some id (T := LT) [demo_login] [] "10.0.0.1" (90 * second)) as Ha.
  assert (Hs : resolve_at Some [demo_login] [] "10.0.0.1" (90 * second) =
               Reply (Some (mkIdentityHit "bob@corp" "cisco_ise" 95 [] 3510))) by reflexivity.
  change (id "10.0.0.1") with "10.0.0.1" in Ha. rewrite Hs in Ha. rewrite Hs. split; [reflexivity|].
  revert Ha. destruct (resolve _ _ _).2 as [r|]; intros Ha; [|exfalso; apply Ha].
  1: destruct Ha as (Hu & _); [| | | | |cbn; by rewrite <- Hu].
  all: try done.
  all: try (by apply Forall_singleton; split_and!).
  all: try (by intros r' ->%list_elem_of_singleton).
  all: by intros r1 r2 ->%list_elem_of_singleton ->%list_elem_of_singleton.
Defined.

(** After the stop event the index knows nobody, the table still gives the user. *)
Example stop_not_seen :
  (resolve "10.0.0.1" (90 * second) (index_run (T := LT) (logins id [demo_login; demo_stop]))).2 = None ∧
  resolve_at Some [demo_login; demo_stop] [] "10.0.0.1" (90 * second) =
    Reply (Some (mkIdentityHit "bob@corp" "cisco_ise" 95 [] 3510)).
Proof. split; reflexivity. Qed.

(** At the end of a binding the index has let it go, the table has not. *)
Example end_included :
  (resolve "10.0.0.1" (3600 * second) (index_run (T := LT) (logins id [demo_login]))).2 = None ∧
  resolve_at Some [demo_login] [] "10.0.0.1" (3600 * second) =
    Reply (Some (mkIdentityHit "bob@corp" "cisco_ise" 95 [] 0)).
Proof. split; reflexivity. Qed.
