(* ===== verification/Catalog.v ===== *)
(** * Applications and SaaS entries ([api/routers/applications.py], [api/routers/saas.py])

    The handlers as functions of the tables [applications], [application_audit] and
    [saas_catalog].  A handler that ends in an exception leaves the tables as they
    were: its session is closed without a commit.  The conversion of a text to a
    network of the database is a parameter, and [now] the instant of its clock. *)

From S2P Require Import Prelude PySort PyDict PyStr PyJson PyBase64 ApiAuth.

(** ** Users *)

(** The dictionary that [current_user] returns. *)
Definition user_dict (u : User) : pydict string json :=
  [("user_upn", us_upn u); ("roles", JArr (JStr <$> elements (us_roles u)))].

(** [user["upn"]] as the text parameter of a statement. *)
Definition user_upn (user : pydict string json) : response string :=
  match dget "upn" user with
  | None => Crash KeyError
  | Some (JStr s) => Reply s
  | Some _ => Crash OtherError
  end.

(** ** The tables *)

Record ApplicationIn : Type := mkAppIn {
  ai_name : string;
  ai_description : option string;
  ai_owner : option string;
  ai_dst_cidr : string;
  ai_dst_port_min : option Z;
  ai_dst_port_max : option Z;
  ai_proto : option Z;
  ai_priority : Z
}.

Record AppRow : Type := mkAppRow {
  ap_id : Z;
  ap_fields : ApplicationIn;
  ap_source : string;
  ap_created_at : Z;
  ap_updated_at : Z;
  ap_updated_by : option string
}.

Inductive AuditOp : Type := OpCreate | OpUpdate.

Record AuditRow : Type := mkAudit {
  au_application_id : Z;
  au_changed_at : Z;
  au_changed_by : string;
  au_op : AuditOp;
  au_before : option AppRow;
  au_after : option AppRow
}.

(** The audit rows are in the order they were inserted. *)
Record AppDb : Type := mkAppDb {
  db_apps : gmap Z AppRow;
  db_next_id : Z;
  db_audit : list AuditRow
}.

Section applications.
Context (to_cidr : string → option string).

Definition port_ok (o : option Z) : bool :=
  match o with None => true | Some p => (0 <=? p) && (p <=? 65535) end.

(** The checks of the request model; a body that fails them is answered 422. *)
Definition body_ok (b : ApplicationIn) : bool :=
  (1 <=? char_len (ai_name b)) && (char_len (ai_name b) <=? 200) && port_ok (ai_dst_port_min b) &&
  port_ok (ai_dst_port_max b).

Definition with_cidr (b : ApplicationIn) (cidr : string) : ApplicationIn :=
  mkAppIn (ai_name b) (ai_description b) (ai_owner b) cidr (ai_dst_port_min b) (ai_dst_port_max b) (ai_proto b)
    (ai_priority b).

(** [:dst_cidr::cidr] *)
Definition stored (b : ApplicationIn) : response ApplicationIn :=
  match to_cidr (ai_dst_cidr b) with Some c => Reply (with_cidr b c) | None => Crash OtherError end.

(** [list_apps] *)
Definition app_rank (r : AppRow) : Z * Z := (- ai_priority (ap_fields r), ap_id r).
Definition list_apps (db : AppDb) (limit offset : Z) : list AppRow :=
  take (Z.to_nat limit) (drop (Z.to_nat offset) (py_sorted app_rank (map_to_list (db_apps db)).*2)).

(** [create_app] *)
Definition create_app (db : AppDb) (body : ApplicationIn) (user : pydict string json) (now : Z) : AppDb * response AppRow :=
  if negb (body_ok body) then (db, HttpError 422)
  else
    match (by_ ← user_upn user; fields ← stored body; Reply (by_, fields)) with
    | Reply (by_, fields) =>
        let row := mkAppRow (db_next_id db) fields "manual" now now (Some by_) in
        (mkAppDb (<[ap_id row := row]> (db_apps db)) (db_next_id db + 1)
           (db_audit db ++ [mkAudit (ap_id row) now by_ OpCreate None (Some row)]), Reply row)
    | HttpError s => (db, HttpError s)
    | Crash e => (db, Crash e)
    end.

(** [update_app] *)
Definition update_app (db : AppDb) (app_id : Z) (body : ApplicationIn) (user : pydict string json) (now : Z) :
    AppDb * response AppRow :=
  if negb (body_ok body) then (db, HttpError 422)
  else
    match db_apps db !! app_id with
    | None => (db, HttpError 404)
    | Some before =>
        match (by_ ← user_upn user; fields ← stored body; Reply (by_, fields)) with
        | Reply (by_, fields) =>
            let after := mkAppRow app_id fields (ap_source before) (ap_created_at before) now (Some by_) in
            (mkAppDb (<[app_id := after]> (db_apps db)) (db_next_id db)
               (db_audit db ++ [mkAudit app_id now by_ OpUpdate (Some before) (Some after)]), Reply after)
        | HttpError s => (db, HttpError s)
        | Crash e => (db, Crash e)
        end
    end.

(** [delete_app]; the audit rows of the application go with it (ON DELETE CASCADE). *)
Definition delete_app (db : AppDb) (app_id : Z) : AppDb * response () :=
  match db_apps db !! app_id with
  | None => (db, HttpError 404)
  | Some _ =>
      (mkAppDb (delete app_id (db_apps db)) (db_next_id db)
         (filter (λ a, au_application_id a ≠ app_id) (db_audit db)), Reply ())
  end.

(** [get_audit]: the latest first. *)
Definition audit_rank (a : AuditRow) : Z := - au_changed_at a.
Definition audit_of (db : AppDb) (app_id : Z) : list AuditRow :=
  filter (λ a, au_application_id a = app_id) (db_audit db).
Definition get_audit (db : AppDb) (app_id : Z) : list AuditRow := py_sorted audit_rank (audit_of db app_id).

(** ** The audit trail *)

Inductive app_request : Type :=
  | ReqCreate (body : ApplicationIn) (user : pydict string json) (now : Z)
  | ReqUpdate (app_id : Z) (body : ApplicationIn) (user : pydict string json) (now : Z)
  | ReqDelete (app_id : Z).

Definition app_step (db : AppDb) (rq : app_request) : AppDb :=
  match rq with
  | ReqCreate body user now => (create_app db body user now).1
  | ReqUpdate id body user now => (update_app db id body user now).1
  | ReqDelete id => (delete_app db id).1
  end.

Definition empty_db : AppDb := mkAppDb ∅ 1 [].
Definition app_run (rqs : list app_request) : AppDb := foldl app_step empty_db rqs.

(** A trail that leads to a row: a creation, then updates, each from what the one
    before it left. *)
Inductive trail : list AuditRow → AppRow → Prop :=
  | trail_create r t by_ : trail [mkAudit (ap_id r) t by_ OpCreate None (Some r)] r
  | trail_update l r r' t by_ :
      trail l r → ap_id r' = ap_id r → ap_created_at r' = ap_created_at r →
      trail (l ++ [mkAudit (ap_id r) t by_ OpUpdate (Some r) (Some r')]) r'.

Record db_inv (db : AppDb) : Prop := mkDbInv {
  di_ids : ∀ i r, db_apps db !! i = Some r → ap_id r = i ∧ i < db_next_id db;
  di_audit : ∀ a, a ∈ db_audit db → is_Some (db_apps db !! au_application_id a);
  di_trail : ∀ i r, db_apps db !! i = Some r → trail (audit_of db i) r
}.

Lemma audit_of_app db l i : filter (λ a, au_application_id a = i) (db ++ l) =
  filter (λ a, au_application_id a = i) db ++ filter (λ a, au_application_id a = i) l.
Proof. apply filter_app. Qed.

(** An application without audit rows, when there is none of that id. *)
Lemma audit_of_absent db i : db_inv db → db_apps db !! i = None → audit_of db i = [].
Proof.
  intros Hinv Hi. apply filter_none. intros a Ha <-. destruct (di_audit db Hinv a Ha) as [r Hr]. congruence.
Qed.

Lemma create_inv db body user now : db_inv db → db_inv (create_app db body user now).1.
Proof.
  intros Hinv. unfold create_app. destruct (negb (body_ok body)); [done|].
  destruct (by_ ← _; _) as [[by_ fields]| |]; [|done..]. cbn [fst].
  assert (Hfresh : db_apps db !! db_next_id db = None).
  { destruct (db_apps db !! db_next_id db) as [r|] eqn:E; [|done]. apply (di_ids db Hinv) in E as [_ ?]. lia. }
  split; cbn [db_apps db_next_id db_audit ap_id].
  - intros i r Hr. apply lookup_insert_Some in Hr as [[<- <-]|[Hne Hr]]; cbn [ap_id]; [lia|].
    apply (di_ids db Hinv) in Hr as [? ?]. lia.
  - intros a Ha. apply elem_of_app in Ha as [Ha| ->%list_elem_of_singleton]; cbn [au_application_id].
    + destruct (di_audit db Hinv a Ha) as [r Hr]. rewrite lookup_insert_ne by congruence. by exists r.
    + rewrite lookup_insert_eq. by eexists.
  - intros i r Hr. unfold audit_of. cbn [db_audit]. rewrite audit_of_app.
    apply lookup_insert_Some in Hr as [[<- <-]|[Hne Hr]].
    + change (filter _ (db_audit db)) with (audit_of db (db_next_id db)). rewrite audit_of_absent by done.
      rewrite filter_cons_True by done. apply (trail_create (mkAppRow _ _ _ _ _ _)).
    + rewrite filter_cons_False by (cbn; congruence). rewrite filter_nil, app_nil_r. by apply (di_trail db Hinv).
Qed.

Lemma update_inv db i body user now : db_inv db → db_inv (update_app db i body user now).1.
Proof.
  intros Hinv. unfold update_app. destruct (negb (body_ok body)); [done|].
  destruct (db_apps db !! i) as [before|] eqn:Hb; [|done].
  destruct (by_ ← _; _) as [[by_ fields]| |]; [|done..]. cbn [fst].
  destruct (di_ids db Hinv i before Hb) as [Hid Hlt].
  split; cbn [db_apps db_next_id db_audit].
  - intros j r Hr. apply lookup_insert_Some in Hr as [[<- <-]|[Hne Hr]]; cbn [ap_id]; [lia|].
    by apply (di_ids db Hinv).
  - intros a Ha. apply elem_of_app in Ha as [Ha| ->%list_elem_of_singleton]; cbn [au_application_id].
    + destruct (decide (au_application_id a = i)) as [->|Hne]; [rewrite lookup_insert_eq; by eexists|].
      rewrite lookup_insert_ne by done. by apply (di_audit db Hinv).
    + rewrite lookup_insert_eq. by eexists.
  - intros j r Hr. unfold audit_of. cbn [db_audit]. rewrite audit_of_app.
    apply lookup_insert_Some in Hr as [[<- <-]|[Hne Hr]].
    + rewrite filter_cons_True, filter_nil by done.
      pose proof (trail_update (audit_of db i) before (mkAppRow i fields (ap_source before) (ap_created_at before) now (Some by_))
        now by_ (di_trail db Hinv i before Hb)) as Ht. rewrite Hid in Ht. by apply Ht.
    + rewrite filter_cons_False by (cbn; congruence). rewrite filter_nil, app_nil_r. by apply (di_trail db Hinv).
Qed.

Lemma delete_inv db i : db_inv db → db_inv (delete_app db i).1.
Proof.
  intros Hinv. unfold delete_app. destruct (db_apps db !! i) as [before|]; [|done]. cbn [fst].
  split; cbn [db_apps db_next_id db_audit].
  - intros j r [_ Hr]%lookup_delete_Some. by apply (di_ids db Hinv).
  - intros a [Hne Ha]%list_elem_of_filter. rewrite lookup_delete_ne by done. by apply (di_audit db Hinv).
  - intros j r [Hne Hr]%lookup_delete_Some. unfold audit_of. cbn [db_audit]. rewrite list_filter_filter.
    replace (filter _ (db_audit db)) with (audit_of db j); [by apply (di_trail db Hinv)|].
    apply list_filter_iff. intros a. split; [intros <-; split; congruence|by intros [? _]].
Qed.


(** With the dictionary that the authentication really returns, whose key is
    [user_upn], no request creates or changes an application: a creation that passes
    the validation of its body ends in a [KeyError], and so does an update of an
    application that exists. *)
Theorem editors_cannot_write db i body u now :
  create_app db body (user_dict u) now = (db, if body_ok body then Crash KeyError else HttpError 422) ∧
  update_app db i body (user_dict u) now =
    (db, if body_ok body then
           match db_apps db !! i with None => HttpError 404 | Some _ => Crash KeyError end
         else HttpError 422).
Proof.
  unfold create_app, update_app. destruct (body_ok body); [|done]. cbn [negb]. by destruct (db_apps db !! i).
Qed.
End applications.

(** ** The SaaS catalogue *)

Record SaasIn : Type := mkSaasIn {
  si_name : string;
  si_vendor : option string;
  si_fqdn_pattern : string;
  si_category : option string;
  si_priority : Z
}.

Record SaasDbRow : Type := mkSaasDbRow { sd_id : Z; sd_fields : SaasIn; sd_source : string }.

Record SaasDb : Type := mkSaasDb { sdb_rows : gmap Z SaasDbRow; sdb_next_id : Z }.

Definition saas_body_ok (b : SaasIn) : bool := (1 <=? char_len (si_name b)) && (2 <=? char_len (si_fqdn_pattern b)).

(** The unique constraint on [fqdn_pattern]: some other row has the pattern. *)
Definition pattern_taken (db : SaasDb) (id : Z) (pattern : string) : bool :=
  existsb (λ r, negb (sd_id r =? id) && bool_decide (si_fqdn_pattern (sd_fields r) = pattern))
    (map_to_list (sdb_rows db)).*2.

(** [list_saas] *)
Definition list_saas (db : SaasDb) : list SaasDbRow := py_sorted sd_id (map_to_list (sdb_rows db)).*2.

(** [create_saas] *)
Definition create_saas (db : SaasDb) (body : SaasIn) : SaasDb * response SaasDbRow :=
  if negb (saas_body_ok body) then (db, HttpError 422)
  else if pattern_taken db (sdb_next_id db) (si_fqdn_pattern body) then (db, Crash OtherError)
  else
    let row := mkSaasDbRow (sdb_next_id db) body "manual" in
    (mkSaasDb (<[sdb_next_id db := row]> (sdb_rows db)) (sdb_next_id db + 1), Reply row).

(** [update_saas] *)
Definition update_saas (db : SaasDb) (saas_id : Z) (body : SaasIn) : SaasDb * response SaasDbRow :=
  if negb (saas_body_ok body) then (db, HttpError 422)
  else
    match sdb_rows db !! saas_id with
    | None => (db, HttpError 404)
    | Some old =>
        if pattern_taken db saas_id (si_fqdn_pattern body) then (db, Crash OtherError)
        else
          let row := mkSaasDbRow saas_id body (sd_source old) in
          (mkSaasDb (<[saas_id := row]> (sdb_rows db)) (sdb_next_id db), Reply row)
    end.

(** [delete_saas]: deleting what is not there is no error. *)
Definition delete_saas (db : SaasDb) (saas_id : Z) : SaasDb * response () :=
  (mkSaasDb (delete saas_id (sdb_rows db)) (sdb_next_id db), Reply ()).
