(* ===== verification/CatalogReload.v ===== *)
(** * Reloading the catalogue ([correlator/main.py], [_load_app_resolver], [_listen_reload])

    The tables that the API edits reach the resolver of the correlator by
    notifications: a trigger notifies every change, the listener starts a task for
    each notification, and a task makes three queries and loads their rows.  Tasks
    interleave at the queries. *)

From S2P Require Import Prelude PySort PyIp AppResolver Catalog.

(** The rows of the queries. *)
Definition manual_of (r : AppRow) : ManualApp :=
  mkManualApp (ap_id r) (ai_name (ap_fields r)) (ai_dst_cidr (ap_fields r)) (ai_dst_port_min (ap_fields r))
    (ai_dst_port_max (ap_fields r)) (ai_proto (ap_fields r)) (ai_priority (ap_fields r)).

Definition saas_of (r : SaasDbRow) : SaasEntry :=
  mkSaasEntry (sd_id r) (si_name (sd_fields r)) (si_fqdn_pattern (sd_fields r)) (si_priority (sd_fields r)).

Definition manual_rows (apps : gmap Z AppRow) : list ManualApp := manual_of <$> (map_to_list apps).*2.
Definition saas_rows (saas : gmap Z SaasDbRow) : list SaasEntry := saas_of <$> (map_to_list saas).*2.

(** A task before its first, second and third query. *)
Inductive ReloadTask : Type :=
  | Fetch0
  | Fetch1 (manual : list ManualApp)
  | Fetch2 (manual : list ManualApp) (saas : list SaasEntry).

Record Reloader : Type := mkReloader {
  rl_apps : gmap Z AppRow;
  rl_saas : gmap Z SaasDbRow;
  rl_ports : list PortDefault;
  rl_pending : nat;
  rl_tasks : gmap nat ReloadTask;
  rl_next_task : nat;
  rl_resolver : AppResolver
}.

Inductive reload_op : Type :=
  | Commit (apps : gmap Z AppRow) (saas : gmap Z SaasDbRow)
  | Notified
  | Progress (task : nat).

(** One step: a commit of the API, whose trigger notifies; the callback [_cb]; a query
    of a task, after the last of which the rows are loaded.  A [load] that raises ends
    the task and leaves the resolver. *)
Definition reload_step (s : Reloader) (o : reload_op) : Reloader :=
  match o with
  | Commit apps saas =>
      mkReloader apps saas (rl_ports s) (S (rl_pending s)) (rl_tasks s) (rl_next_task s) (rl_resolver s)
  | Notified =>
      match rl_pending s with
      | O => s
      | S n =>
          mkReloader (rl_apps s) (rl_saas s) (rl_ports s) n (<[rl_next_task s := Fetch0]> (rl_tasks s))
            (S (rl_next_task s)) (rl_resolver s)
      end
  | Progress t =>
      match rl_tasks s !! t with
      | None => s
      | Some Fetch0 =>
          mkReloader (rl_apps s) (rl_saas s) (rl_ports s) (rl_pending s)
            (<[t := Fetch1 (manual_rows (rl_apps s))]> (rl_tasks s)) (rl_next_task s) (rl_resolver s)
      | Some (Fetch1 manual) =>
          mkReloader (rl_apps s) (rl_saas s) (rl_ports s) (rl_pending s)
            (<[t := Fetch2 manual (saas_rows (rl_saas s))]> (rl_tasks s)) (rl_next_task s) (rl_resolver s)
      | Some (Fetch2 manual saas) =>
          mkReloader (rl_apps s) (rl_saas s) (rl_ports s) (rl_pending s) (delete t (rl_tasks s)) (rl_next_task s)
            (load_tables (rl_resolver s) manual saas (rl_ports s)).1
      end
  end.

Definition reload_run (s : Reloader) (ops : list reload_op) : Reloader := foldl reload_step s ops.

(** No notification is on its way and no task runs. *)
Definition quiet (s : Reloader) : Prop := rl_pending s = 0%nat ∧ rl_tasks s = ∅.

#[global] Instance quiet_dec s : Decision (quiet s).
Proof. unfold quiet. apply _. Defined.

(** Runs in which the API commits only in quiet moments. *)
Fixpoint spaced (s : Reloader) (ops : list reload_op) : Prop :=
  match ops with
  | [] => True
  | o :: ops => (match o with Commit _ _ => quiet s | _ => True end) ∧ spaced (reload_step s o) ops
  end.

(** The tables of the API can be loaded: every network of the database is one. *)
Definition loadable (apps : gmap Z AppRow) : Prop :=
  Forall (λ app, is_ok (ip_network true (ma_cidr app)) = true) (manual_rows apps).

Fixpoint all_loadable (ops : list reload_op) : Prop :=
  match ops with
  | [] => True
  | Commit apps _ :: ops => loadable apps ∧ all_loadable ops
  | _ :: ops => all_loadable ops
  end.

(** What a task has read is what the tables hold. *)
Definition task_current (s : Reloader) (t : ReloadTask) : Prop :=
  match t with
  | Fetch0 => True
  | Fetch1 manual => manual = manual_rows (rl_apps s)
  | Fetch2 manual saas => manual = manual_rows (rl_apps s) ∧ saas = saas_rows (rl_saas s)
  end.

(** The resolver has the tables as they are. *)
Definition is_current (s : Reloader) : Prop :=
  ∀ r0, load_tables r0 (manual_rows (rl_apps s)) (saas_rows (rl_saas s)) (rl_ports s) = (rl_resolver s, Ok ()).

Record reload_inv (s : Reloader) : Prop := mkReloadInv {
  ri_loadable : loadable (rl_apps s);
  ri_tasks : ∀ i t, rl_tasks s !! i = Some t → task_current s t;
  ri_quiet : quiet s → is_current s
}.

Lemma load_tables_loadable manual saas ports :
  Forall (λ app, is_ok (ip_network true (ma_cidr app)) = true) manual →
  ∃ r', ∀ r0, load_tables r0 manual saas ports = (r', Ok ()).
Proof.
  intros Hok. unfold load_tables. destruct (mapM manual_key manual) as [keys|e] eqn:E; [by eexists|]. exfalso.
  apply mapM_Raise in E as (app & Hin & He). rewrite Forall_forall in Hok. specialize (Hok app Hin).
  unfold manual_key in He. by destruct (ip_network true (ma_cidr app)).
Qed.

Lemma insert_not_quiet s t x pending next r :
  ¬ quiet (mkReloader (rl_apps s) (rl_saas s) (rl_ports s) pending (<[t := x]> (rl_tasks s)) next r).
Proof. intros [_ Ht]. cbn in Ht. by apply insert_non_empty in Ht. Qed.

Lemma reload_step_inv s o :
  reload_inv s → (match o with Commit apps _ => quiet s ∧ loadable apps | _ => True end) → reload_inv (reload_step s o).
Proof.
  intros [Hl Ht Hq] Ho. destruct o as [apps saas| |t]; cbn [reload_step].
  - destruct Ho as [[Hp Htasks] Hload]. split; cbn; [done| |].
    + intros i t. by rewrite Htasks, lookup_empty.
    + intros [Hp' _]. done.
  - destruct (rl_pending s); [done|]. split; cbn; [done| |].
    + intros i t [[<- <-]|[_ Hi]]%lookup_insert_Some; [done|]. by apply Ht in Hi.
    + intros Hquiet. by apply insert_not_quiet in Hquiet.
  - destruct (rl_tasks s !! t) as [[|manual|manual saas]|] eqn:E; [| | |done]; (split; cbn; [done| |]).
    + intros i x [[<- <-]|[_ Hi]]%lookup_insert_Some; [done|]. by apply Ht in Hi.
    + intros Hquiet. by apply insert_not_quiet in Hquiet.
    + intros i x [[<- <-]|[_ Hi]]%lookup_insert_Some; [|by apply Ht in Hi]. split; [|done]. by apply Ht in E.
    + intros Hquiet. by apply insert_not_quiet in Hquiet.
    + intros i x [_ Hi]%lookup_delete_Some. by apply Ht in Hi.
    + intros _ r0. apply Ht in E as [-> ->]. cbn.
      destruct (load_tables_loadable _ (saas_rows (rl_saas s)) (rl_ports s) Hl) as [r' Hr']. by rewrite !Hr'.
Qed.


(** ** Concrete runs *)

Definition demo_app (name : string) : AppRow :=
  mkAppRow 1 (mkAppIn name None None "10.0.0.0/8" None None None 100) "manual" 0 0 None.
Definition demo_start : Reloader := mkReloader ∅ ∅ [] 0 ∅ 0 (mkAppResolver [] [] ∅).
Definition demo_edit (name : string) : reload_op := Commit {[1 := demo_app name]} ∅.

Lemma demo_start_inv : reload_inv demo_start.
Proof. split; [by apply Forall_nil|intros i t Hi; cbn in Hi; by rewrite lookup_empty in Hi|intros _ r0; reflexivity]. Qed.


(** Two edits in quick succession: the task of the first one reads before the second
    edit and loads after the task of the second one.  Everything has finished and the
    resolver has the old name. *)
Example reload_out_of_order :
  let s := reload_run demo_start
    [demo_edit "old"; Notified; Progress 0; demo_edit "new"; Notified; Progress 1; Progress 1; Progress 1;
     Progress 0; Progress 0] in
  quiet s ∧ ap_fields <$> rl_apps s !! 1 = Some (ap_fields (demo_app "new")) ∧ ma_name <$> rs_manual (rl_resolver s) = ["old"].
Proof. split; [split; reflexivity|split; vm_compute; reflexivity]. Qed.
