(* ===== verification/ApiMain.v ===== *)
(** * The API as an application ([api/main.py], [api/db.py], [api/redis.py], [auth/router.py], [routers/adapters.py])

    The endpoints that [build_app] registers with their guards, the cookies of a
    sign-in and a sign-out in a browser, the probes, the routes of [MOCK_SESSION] and
    the records of adapters and statistics.  Which endpoint a request reaches is
    Starlette's choice; pydantic's reading of a record is a parameter. *)

From Stdlib Require Import QArith.
From S2P Require Import Prelude PySort PyDict PyStr PyJson ApiAuth ApiFlows ApiWs.

#[local] Open Scope Z_scope.

(** ** Settings and start *)

Record AppSettings : Type := mkAppSettings {
  st_auth : Settings;
  st_redirect_uri : string;
  mock_session_enabled : bool
}.

(** The singletons of [db.py], [redis.py] and [routers/ws.py]. *)
Record AppState : Type := mkApp { app_engine : bool; app_redis : bool; app_fanout : option bool }.

Definition unstarted : AppState := mkApp false false None.

(** [_lifespan] before and after the [yield]; the fanout is cancelled, the clients stay. *)
Definition lifespan_start (s : AppState) : AppState := mkApp true true (Some true).
Definition lifespan_stop (s : AppState) : AppState :=
  mkApp (app_engine s) (app_redis s) (match app_fanout s with Some _ => Some false | None => None end).

(** [get_session] and [get_redis], which raise [RuntimeError] before the start. *)
Definition get_session (s : AppState) : result () := if app_engine s then Ok () else Raise OtherError.
Definition get_redis (s : AppState) : result () := if app_redis s then Ok () else Raise OtherError.

(** [ping_db] and [ping_redis]: the outcome of [SELECT 1] and of [PING]. *)
Definition ping_db (s : AppState) (select1 : result ()) : bool := app_engine s && is_ok select1.
Definition ping_redis (s : AppState) (ping : result bool) : bool :=
  app_redis s && match ping with Ok b => b | Raise _ => false end.

(** [live] and [ready]: the status and the body. *)
Definition live : Z * json := (200, JObj [("status", JStr "ok")]).
Definition ready (s : AppState) (select1 : result ()) (ping : result bool) : Z * json :=
  let db_ok := ping_db s select1 in
  let redis_ok := ping_redis s ping in
  let healthy := db_ok && redis_ok in
  (if healthy then 200 else 503,
   JObj [("status", JStr (if healthy then "ok" else "degraded"));
         ("components", JObj [("db", JBool db_ok); ("redis", JBool redis_ok)])]).

(** ** The endpoints *)

Inductive Guard : Type :=
  | Anyone
  | SignedIn
  | HasRoles (roles : list string).

Record Endpoint : Type := mkEndpoint { ep_method : string; ep_path : string; ep_guard : Guard }.

Definition viewer_guard : Guard := HasRoles ["viewer"].
Definition editor_guard : Guard := HasRoles ["viewer"; "editor"].

(** [auth_router] *)
Definition auth_endpoints : list Endpoint :=
  [mkEndpoint "GET" "/api/auth/login" Anyone; mkEndpoint "GET" "/api/auth/callback" Anyone;
   mkEndpoint "POST" "/api/auth/logout" Anyone; mkEndpoint "GET" "/api/auth/me" SignedIn;
   mkEndpoint "GET" "/auth/verify" SignedIn].

Definition flows_endpoints : list Endpoint :=
  [mkEndpoint "GET" "/api/flows/sankey" viewer_guard; mkEndpoint "GET" "/api/flows/raw" viewer_guard].

Definition applications_endpoints : list Endpoint :=
  [mkEndpoint "GET" "/api/applications" viewer_guard; mkEndpoint "POST" "/api/applications" editor_guard;
   mkEndpoint "PUT" "/api/applications/{app_id}" editor_guard;
   mkEndpoint "DELETE" "/api/applications/{app_id}" editor_guard;
   mkEndpoint "GET" "/api/applications/{app_id}/audit" viewer_guard].

Definition saas_endpoints : list Endpoint :=
  [mkEndpoint "GET" "/api/saas" viewer_guard; mkEndpoint "POST" "/api/saas" editor_guard;
   mkEndpoint "PUT" "/api/saas/{saas_id}" editor_guard; mkEndpoint "DELETE" "/api/saas/{saas_id}" editor_guard].

Definition adapters_endpoints : list Endpoint :=
  [mkEndpoint "GET" "/api/adapters" viewer_guard; mkEndpoint "GET" "/api/stats" viewer_guard].

Definition identity_endpoints : list Endpoint := [mkEndpoint "GET" "/api/identity/resolve" viewer_guard].
Definition groups_endpoints : list Endpoint := [mkEndpoint "GET" "/api/groups/{group_id}" viewer_guard].

Definition test_endpoints : list Endpoint :=
  [mkEndpoint "POST" "/api/test/login-as" Anyone; mkEndpoint "POST" "/api/test/seed" Anyone].

(** [build_app]: the HTTP endpoints, in the order they are registered. *)
Definition build_app (s : AppSettings) : list Endpoint :=
  [mkEndpoint "GET" "/health/live" Anyone; mkEndpoint "GET" "/health/ready" Anyone; mkEndpoint "GET" "/metrics" Anyone] ++
  auth_endpoints ++ flows_endpoints ++ applications_endpoints ++ saas_endpoints ++ adapters_endpoints ++
  identity_endpoints ++ groups_endpoints ++ (if mock_session_enabled s then test_endpoints else []).

(** ** The cookies of a browser *)

(** A response sets a cookie to a value or deletes it. *)
Definition set_cookies (jar : gmap string string) (cs : list (string * option string)) : gmap string string :=
  foldl (λ jar c, match c.2 with Some v => <[c.1 := v]> jar | None => delete c.1 jar end) jar cs.

Definition issuer_base (s : AppSettings) : string :=
  rstrip_by (λ c, bool_decide (c = "/"%char)) (oidc_issuer (st_auth s)).

(** [login]: the redirect and its cookie; [state] is the random token. *)
Definition login (s : AppSettings) (state : string) : string * list (string * option string) :=
  (issuer_base s +:+ "/authorize" +:+ "?response_type=code&client_id=" +:+ oidc_client_id (st_auth s) +:+
   "&redirect_uri=" +:+ st_redirect_uri s +:+ "&scope=openid+profile+email" +:+ "&state=" +:+ state,
   [("oidc_state", Some state)]).

Definition logout : Z * list (string * option string) := (204, [("session", None); ("csrf_token", None)]).

Section app.
Context `{PyPrims} `{Signer} `{JwtLib}.

(** The middleware, the dependencies of the endpoint and its handler. *)
Definition serve {A} (s : Settings) (jwks : json → result json) (now : Z) (e : Endpoint)
    (handler : option User → response A) (rq : Request) : response A :=
  match ep_guard e with
  | Anyone => csrf_dispatch rq (λ _, handler None)
  | SignedIn => route s jwks now [] (λ u, handler (Some u)) rq
  | HasRoles roles => route s jwks now roles (λ u, handler (Some u)) rq
  end.

(** [exchange_code] of [auth/oidc.py], as it is in the repository: [NotImplementedError]. *)
Definition exchange_code (code : string) : result json := Raise OtherError.

(** [callback] with the cookies of its redirect. *)
Definition callback_response (s : Settings) (now : Z) (rq : Request) (state csrf : string) (exchange : result json) :
    response (list (string * option string)) :=
  '(token, csrf_token) ← callback s now rq state csrf exchange;
  Reply [("session", Some token); ("csrf_token", Some csrf_token); ("oidc_state", None)].

(** [_test_login_as]: the session and the token of the answer. *)
Definition test_login_as (s : Settings) (now : Z) (csrf : string) (payload : json) : response (string * string) :=
  c ← lift_crash (codec s);
  upn ← lift_crash (jitem "upn" payload);
  roles ← lift_crash (v ← jitem "roles" payload; text_set v);
  Reply (encode c now (mkSession upn (list_to_set roles) (JStr csrf) (now + 3600)), csrf).

(** [_test_seed]: what is published on which channel. *)
Definition test_seed (payload : json) : string * string := ("sankey.live", dumps_default payload).

(** ** Adapters and statistics *)

Record AdapterHealth : Type := mkHealth {
  ah_name : string;
  ah_kind : string;
  ah_enabled : bool;
  ah_events_per_sec : Q;
  ah_queue_depth : Z;
  ah_last_event_ts : option string
}.

Record Stats : Type := mkStats {
  sts_flows_per_sec : Q;
  sts_unknown_user_ratio : Q;
  sts_redis_lag_ms : Q;
  sts_lossy_windows_total : Z;
  sts_group_sync_age_seconds : option Q
}.

Definition base_stats : Stats := mkStats 0 0 0 0 None.

(** [AdapterHealth] of a decoded record and [Stats] of one, with pydantic's validation. *)
Context (health_of : json → result AdapterHealth) (stats_of : json → result Stats).

(** [adapters]: a record that is gone, empty or malformed is passed over; an
    exception of Redis is not caught. *)
Fixpoint read_health (get : string → result (option string)) (keys : list string) : result (list AdapterHealth) :=
  match keys with
  | [] => Ok []
  | k :: keys =>
      raw ← get k;
      rest ← read_health get keys;
      Ok (match given raw with
          | None => rest
          | Some raw => match (v ← loads raw; health_of v) with Ok h => h :: rest | Raise _ => rest end
          end)
  end.

Definition adapters (keys : result (list string)) (get : string → result (option string)) :
    response (list AdapterHealth) :=
  lift_crash (ks ← keys; read_health get ks).

(** [_group_sync_age]: [latest] is the row of the query, instants in microseconds. *)
Definition group_sync_age (now : Z) (refreshed : list Z) : option Q :=
  match refreshed with
  | [] => None
  | t :: ts => Some (Z.max 0 (now - foldl Z.max t ts) # 1000000)%Q
  end.

Definition stats (get : string → result (option string)) (now : Z) (refreshed : result (list Z)) : response Stats :=
  raw ← lift_crash (get "stats.global");
  let base := match given raw with
              | None => base_stats
              | Some raw => match (v ← loads raw; stats_of v) with Ok b => b | Raise _ => base_stats end
              end in
  Reply (match refreshed with
         | Raise _ => base
         | Ok ts => mkStats (sts_flows_per_sec base) (sts_unknown_user_ratio base) (sts_redis_lag_ms base)
                      (sts_lossy_windows_total base) (group_sync_age now ts)
         end).
(** ** Who reaches a handler *)

(** The endpoints open to everybody, and those for any signed-in user. *)
Definition open_paths (s : AppSettings) : list string :=
  ["/health/live"; "/health/ready"; "/metrics"; "/api/auth/login"; "/api/auth/callback"; "/api/auth/logout"] ++
  (if mock_session_enabled s then ["/api/test/login-as"; "/api/test/seed"] else []).
Definition signed_in_paths : list string := ["/api/auth/me"; "/auth/verify"].

(** What the guard of an endpoint must be. *)
Definition guard_ok (s : AppSettings) (e : Endpoint) : bool :=
  match ep_guard e with
  | Anyone => bool_decide (ep_path e ∈ open_paths s)
  | SignedIn => bool_decide (ep_path e ∈ signed_in_paths)
  | HasRoles roles =>
      bool_decide ("viewer" ∈ roles) && (bool_decide (ep_method e ∈ SAFE_METHODS) || bool_decide ("editor" ∈ roles))
  end.

Lemma build_app_guards s : Forall (λ e, guard_ok s e = true) (build_app s).
Proof.
  assert (Hb : forallb (guard_ok s) (build_app s) = true) by (destruct s as [a u []]; vm_compute; reflexivity).
  apply Forall_forall. intros e He. apply (proj1 (forallb_forall _ _) Hb). by apply list_elem_of_In.
Qed.

Definition csrf_matches (rq : Request) : Prop :=
  rq_method rq ∉ SAFE_METHODS → rq_cookies rq !! "session" ≠ None →
  ∃ t, t ≠ "" ∧ rq_cookies rq !! "csrf_token" = Some t ∧ rq_headers rq !! "x-csrf-token" = Some t.

Lemma csrf_dispatch_ok {A} rq (f : Request → response A) a :
  csrf_dispatch rq f = Reply a → f rq = Reply a ∧ csrf_matches rq.
Proof.
  unfold csrf_dispatch, csrf_matches. case_decide as Hm; [by intros ->|].
  destruct (rq_cookies rq !! "session"); [|by intros ->]. destruct (rq_cookies rq !! "csrf_token") as [t|]; [|done].
  destruct (str_true t) eqn:Ht; [|done]. simpl. case_bool_decide; [|done]. intros ->. split; [done|].
  intros _ _. exists t. split; [by intros ->|done].
Qed.

Lemma route_ok {A} s jwks now roles (handler : User → response A) rq a :
  route s jwks now roles handler rq = Reply a →
  csrf_matches rq ∧ ∃ u, handler u = Reply a ∧ authenticated s now rq u ∧ Forall (λ r, r ∈ us_roles u) roles.
Proof.
  unfold route. intros [Hr Hc]%csrf_dispatch_ok. split; [done|].
  destruct (current_user s jwks now rq) as [u| |] eqn:Hu; [|done..]. cbn [mbind response_bind] in Hr.
  destruct (foldl _ (Reply u) _) as [u'| |] eqn:Hf; [|done..]. cbn [mbind response_bind] in Hr.
  apply require_roles_ok in Hf as [-> Hall]. exists u. split; [done|]. split; [|done].
  by eapply current_user_authenticated.
Qed.

(** ** Signing in and out in a browser *)

Lemma session_accepted s jwks at_ now d c rq :
  codec s = Ok c → encode c at_ d ≠ "" → rq_cookies rq !! "session" = Some (encode c at_ d) → is_bearer rq = false →
  now - at_ ≤ SESSION_TTL → now ≤ sd_exp d →
  current_user s jwks now rq = Reply (mkUser (sd_user_upn d) (sd_roles d)).
Proof.
  intros Hc Hne Hck Hb Ht He. unfold current_user. rewrite Hb, Hck, Hc.
  assert (str_true (encode c at_ d) = true) as -> by (by destruct (encode c at_ d)).
  cbn [mbind result_bind]. rewrite decode_encode; [done|by rewrite (codec_ok _ _ Hc)|done].
Qed.

Lemma codec_long s : MIN_SECRET_BYTES ≤ len (session_secret s) → codec s = Ok (mkCodec (session_secret s) SESSION_TTL).
Proof. intros Hl. unfold codec, new_codec. by rewrite (proj2 (Z.ltb_ge _ _)). Qed.


(** With [MOCK_SESSION] set, the test route gives whoever calls it a session of the
    name and roles in the body, which the routes accept for an hour. *)
Theorem test_login_grants s jwks t now csrf payload token csrf' rq :
  test_login_as s t csrf payload = Reply (token, csrf') → token ≠ "" →
  rq_cookies rq !! "session" = Some token → is_bearer rq = false → now ≤ t + 3600 →
  ∃ upn roles, jitem "upn" payload = Ok upn ∧ (v ← jitem "roles" payload; text_set v) = Ok roles ∧
    current_user s jwks now rq = Reply (mkUser upn (list_to_set roles)).
Proof.
  unfold test_login_as. intros Hr Hne Hck Hb Ht.
  destruct (codec s) as [c|] eqn:Hc; [|done]. cbn [lift_crash mbind response_bind] in Hr.
  destruct (jitem "upn" payload) as [upn|]; [|done]. cbn [lift_crash mbind response_bind] in Hr.
  destruct (jitem "roles" payload ≫= text_set) as [roles|] eqn:Hg; [|done]. cbn in Hr. injection Hr as <- <-.
  exists upn, roles. split; [done|]. split; [done|].
  apply (session_accepted s jwks t now (mkSession upn (list_to_set roles) (JStr csrf) (t + 3600)) c); try done.
  unfold SESSION_TTL. lia.
Qed.

(** ** Records of adapters *)

Definition health_at (get : string → result (option string)) (k : string) : option AdapterHealth :=
  match get k with
  | Ok raw => raw ← given raw; match (v ← loads raw; health_of v) with Ok h => Some h | Raise _ => None end
  | Raise _ => None
  end.

(** A record that is missing, empty or malformed hides no other: when Redis answers,
    the list holds the readable records in the order of the keys. *)
Theorem adapters_readable keys get :
  (∀ k, k ∈ keys → is_ok (get k) = true) → adapters (Ok keys) get = Reply (omap (health_at get) keys).
Proof.
  intros Hk. unfold adapters. cbn [mbind result_bind].
  assert (Hr : read_health get keys = Ok (omap (health_at get) keys)); [|by rewrite Hr].
  induction keys as [|k keys IH]; [done|]. cbn [read_health omap list_omap].
  rewrite IH by (intros; apply Hk; by right). specialize (Hk k (list_elem_of_here _ _)).
  unfold health_at at 2. destruct (get k) as [raw|]; [|done]. cbn [mbind result_bind].
  destruct (given raw) as [txt|]; [|done]. cbn [mbind option_bind]. by destruct (loads txt ≫= health_of).
Qed.
(** ** The seed route *)

Lemma dset_same {V} k (v : V) (d : pydict string V) : dget k d = Some v → dset k v d = d.
Proof.
  induction d as [|[k' v'] d IH]; simpl; [done|]. destruct (decide (k = k')); [by intros [= ->]|].
  intros Hd. by rewrite IH.
Qed.

Lemma matching_no_filter ls : matching (JObj []) ls = Ok ls.
Proof. induction ls as [|l ls IH]; simpl; [done|]. by rewrite IH. Qed.

(** A seeded delta reaches a client without filters as it was posted. *)
Theorem seed_reaches_client d ls :
  json_ok (JObj d) → dget "links" d = Some (JArr ls) →
  (test_seed (JObj d)).1 = "sankey.live" ∧
  (v ← loads (test_seed (JObj d)).2; client_message (JObj []) v) = Ok (test_seed (JObj d)).2.
Proof.
  intros Hok Hl. split; [done|]. unfold test_seed. simpl snd. rewrite loads_default by done. cbn [mbind result_bind].
  unfold client_message, jitem. rewrite Hl. cbn [need mbind result_bind iter_json].
  rewrite matching_no_filter. cbn [mbind result_bind]. by rewrite dset_same.
Qed.

(** With the code exchange of the repository nobody signs in: the callback of a request with
    the right state is an error of the server, of any other request a 400, and no answer
    sets a cookie. *)
Theorem no_sign_in s now rq state csrf code :
  callback_response s now rq state csrf (exchange_code code) =
    if decide (rq_cookies rq !! "oidc_state" = Some state) then Crash OtherError else HttpError 400.
Proof. unfold callback_response, callback. by repeat case_decide. Qed.
End app.

(** ** Concrete runs *)

#[local] Existing Instance demo_signer.
#[local] Existing Instance demo_prims.
#[local] Existing Instance demo_jwt.

Definition ex_app (mock : bool) : AppSettings := mkAppSettings demo_settings "https://ztna/api/auth/callback" mock.
Definition no_keys : json → result json := λ _, Ok JNull.

Example login_url :
  (login (ex_app false) "st").1 =
  "https://idp/authorize?response_type=code&client_id=client&redirect_uri=https://ztna/api/auth/callback&scope=openid+profile+email&state=st".
Proof. reflexivity. Qed.

(** Before the start nothing is ready, and a request for a session raises. *)
Example ready_runs :
  [(ready unstarted (Ok ()) (Ok true)).1; (ready (lifespan_start unstarted) (Ok ()) (Ok true)).1;
   (ready (lifespan_start unstarted) (Raise OtherError) (Ok true)).1;
   (ready (lifespan_start unstarted) (Ok ()) (Raise OtherError)).1] = [503; 200; 503; 503] ∧
  get_session unstarted = Raise OtherError ∧ get_session (lifespan_start unstarted) = Ok ().
Proof. repeat split. Qed.

Definition put_app : Endpoint := mkEndpoint "PUT" "/api/applications/{app_id}" editor_guard.



Definition mock_body : json := JObj [("upn", JStr "eve"); ("roles", JArr [JStr "viewer"; JStr "admin"])].
Definition mock_token : string :=
  encode (mkCodec (session_secret demo_settings) SESSION_TTL) 100
    (mkSession (JStr "eve") (list_to_set ["viewer"; "admin"]) (JStr "c") (100 + 3600)).

Lemma test_login_grants_witness :
  ∃ token, test_login_as demo_settings 100 "c" mock_body = Reply (token, "c") ∧
  ∃ upn roles, jitem "upn" mock_body = Ok upn ∧ (v ← jitem "roles" mock_body; text_set v) = Ok roles ∧
    current_user demo_settings no_keys 200 (mkRequest "GET" {["session" := token]} ∅) = Reply (mkUser upn (list_to_set roles)).
Proof.
  exists mock_token. split; [reflexivity|].
  apply (test_login_grants demo_settings no_keys 100 200 "c" mock_body mock_token "c"
           (mkRequest "GET" {["session" := mock_token]} ∅)).
  - reflexivity.
  - apply demo_sign_nonempty.
  - apply lookup_singleton_eq.
  - reflexivity.
  - lia.
Defined.

Definition ex_health (v : json) : result AdapterHealth :=
  match jitem "name" v with Ok (JStr n) => Ok (mkHealth n "flow" true 0 0 None) | _ => Raise ValueError end.
Definition ex_get (k : string) : result (option string) :=
  Ok (if decide (k = "a") then Some "{" else if decide (k = "b") then Some (dumps_default (JObj [("name", JStr "b")])) else None).

Lemma adapters_readable_witness :
  adapters ex_health (Ok ["a"; "b"; "c"]) ex_get = Reply [mkHealth "b" "flow" true 0 0 None].
Proof. rewrite (adapters_readable ex_health ["a"; "b"; "c"] ex_get); [vm_compute; reflexivity|reflexivity]. Defined.

Definition ex_delta : pydict string json := [("links", JArr [JObj [("src", JStr "u"); ("dst", JStr "app:x")]])].

Lemma seed_reaches_client_witness :
  (v ← loads (test_seed (JObj ex_delta)).2; client_message (JObj []) v) = Ok (test_seed (JObj ex_delta)).2.
Proof.
  apply (seed_reaches_client ex_delta [JObj [("src", JStr "u"); ("dst", JStr "app:x")]]); [|reflexivity].
  plain_json.
Defined.

(** The age of the last group synchronisation, also from a broken record of statistics. *)
Example stats_runs :
  stats (λ _, Raise ValueError) (λ _, Ok (Some "{}")) 5000000 (Ok [1000000; 3000000]) =
    Reply (mkStats 0 0 0 0 (Some (2000000 # 1000000)%Q)) ∧
  stats (λ _, Raise ValueError) (λ _, Ok None) 5000000 (Raise OtherError) = Reply base_stats ∧
  stats (λ _, Raise ValueError) (λ _, Raise OtherError) 5000000 (Ok []) = Crash OtherError.
Proof. repeat split. Qed.
