(* ===== verification/LiveView.v ===== *)
(** * The live graph from the publisher to a client

    The delta that the correlator stores under [sankey.last] and publishes, as JSON
    ([correlator/pipeline/sankey_publisher.py]); the models that the API answers with
    ([api/schemas/sankey.py]); and what a client of the route or of the socket sees of a
    publication.  How pydantic converts a value that is not of the type of the field is a
    parameter. *)

From S2P Require Import Prelude PySort PyDict PyStr PyText PyDatetime PyJson PyIp AppResolver GroupIndex GroupAggregator SankeyPublisher.
From S2P Require Import ApiAuth ApiFlows ApiWs ApiMain.

(** ** What labels the aggregator can give *)

Section labels.
Context (P : string → Prop).

(** The sources of the links so far, and the cached choices. *)
Definition links_from (links : pydict (string * string) live_link) : Prop :=
  Forall (λ e, P e.1.1 ∧ ll_src e.2 = e.1.1) links.
Definition cache_from (ga : GroupAggregator) : Prop := ∀ users g, ga_cache ga !! users = Some (Some g) → P g.
Definition row_from (r : agg_row) : Prop := P (ar_user_upn r) ∧ ∀ g, g ∈ default ∅ (ar_groups r) → P g.

Lemma dupd_forall {K V} `{EqDecision K} (Q : K * V → Prop) k (v0 : V) f (d : pydict K V) :
  Q (k, f v0) → (∀ v, Q (k, v) → Q (k, f v)) → Forall Q d → Forall Q (dupd k v0 f d).
Proof.
  intros H0 Hf. unfold dupd. induction 1 as [|[k' v'] d Hkv Hd IH]; [by constructor|]. cbn [dset dget] in *.
  destruct (decide (k = k')) as [<-|]; cbn; constructor; auto.
Qed.

Lemma accum_from links src dst r : P src → links_from links → links_from (accum links src dst r).
Proof. intros Hs. apply dupd_forall; cbn; [done|]. by intros v [_ ?]. Qed.

Hypotheses (Hunknown : P "unknown") (Hempty : P "").

Lemma dict_on_from (f : string → string) known u : (∀ u, u ∈ known → P (f u)) → P (dict_on f known !!! u).
Proof. intros Hf. rewrite lookup_total_alt, dict_on_lookup. case_decide; cbn; auto. Qed.

Lemma lcd_from users ug sizes excluded floor g :
  lcd users ug sizes excluded floor = Some g → ∃ u gs, u ∈ users ∧ ug !! u = Some gs ∧ g ∈ gs.
Proof.
  unfold lcd. destruct (decide (users = ∅)) as [|Hne]; [done|]. destruct (mapM _ _) as [sets|] eqn:Hm; [|done].
  intros Hg. apply (lcd_pick sizes floor users _ (lcd_candidate users ug excluded)) in Hg as ((Hc & _) & _).
  - apply set_choose_L in Hne as [u Hu]. destruct (Hc u Hu) as (gs & Hgs & Hin). eauto.
  - intros g'. rewrite elem_of_elements. by apply lcd_candidates.
Qed.

Lemma user_groups_from rows u g : Forall row_from rows → g ∈ row_user_groups rows !!! u → P g.
Proof.
  unfold row_user_groups. intros HF.
  assert (Hgen : ∀ m : gmap string (gset string), (∀ u g, g ∈ m !!! u → P g) →
    ∀ u g, g ∈ foldl (λ ug r, <[ar_user_upn r := default ∅ (ar_groups r)]> ug) m rows !!! u → P g).
  { induction HF as [|r rows [_ Hr] _ IH]; intros m Hm; [done|]. apply IH. intros u' g'.
    destruct (decide (u' = ar_user_upn r)) as [->|Hu]; [rewrite lookup_total_insert_eq; apply Hr|].
    rewrite lookup_total_insert_ne by done. apply Hm. }
  apply Hgen. intros u' g'. rewrite lookup_total_empty. intros []%elem_of_empty.
Qed.

Lemma choose_from ga ug sizes gb rows known :
  gb ≠ "src_ip" → cache_from ga → (∀ u, u ∈ known → P u) → (∀ u g, g ∈ ug !!! u → P g) →
  let res := choose_labels ga ug sizes gb rows known in cache_from res.1 ∧ ∀ u, P (res.2 !!! u).
Proof.
  intros Hgb Hc Hk Hug. unfold choose_labels.
  destruct (decide (gb = "user")); [by split; [|intros u; apply dict_on_from]|]. rewrite decide_False by done.
  set (ga' := match ga_cache ga !! known with Some _ => _ | None => _ end).
  assert (Hc' : cache_from ga').
  { subst ga'. destruct (ga_cache ga !! known) eqn:E; [done|]. intros users g. cbn.
    destruct (decide (users = known)) as [->|Hu]; [|rewrite lookup_insert_ne by done; apply Hc].
    rewrite lookup_insert_eq. intros [= Hl]. apply lcd_from in Hl as (u & gs & _ & Hgs & Hg).
    rewrite dict_on_lookup in Hgs. case_decide; [|done]. injection Hgs as <-. by eapply Hug. }
  cbv zeta. destruct (ga_cache ga' !! known) as [[g|]|] eqn:E; cbn [default from_option id]; (split; [done|]); intros u;
    apply dict_on_from; cbn; [intros _ _; by eapply Hc'|exact Hk|exact Hk].
Qed.

Lemma process_from rows sizes gb ga links du :
  gb ≠ "src_ip" → Forall row_from rows → cache_from ga → links_from links → (∀ u, u ∈ du.2 → P u) →
  let res := process_dst (per_dst_rows rows) (row_user_groups rows) sizes gb (ga, links) du in
  cache_from res.1 ∧ links_from res.2.
Proof.
  intros Hgb Hrows Hc Hl Hu. destruct du as [dst users]. cbn [snd] in Hu. unfold process_dst.
  set (dst_rows := default [] _). set (links1 := if decide _ then links else _).
  assert (H1 : links_from links1).
  { subst links1. case_decide; [done|]. apply (foldl_invariant links_from); [done|]. intros ls r _ Hls. case_decide; [done|]. by apply accum_from. }
  case_decide; [done|].
  destruct (choose_labels ga (row_user_groups rows) sizes gb dst_rows (known_users users)) as [ga' label_for] eqn:E.
  destruct (choose_from ga (row_user_groups rows) sizes gb dst_rows (known_users users)) as [Hc' Hlab];
    [done|done|by intros u [_ ?]%elem_of_filter; apply Hu|by intros u g; apply user_groups_from|].
  rewrite E in Hc', Hlab. cbn in Hc', Hlab |- *. split; [done|].
  apply (foldl_invariant links_from); [done|]. intros ls r _ Hls. case_decide; [by apply accum_from|done].
Qed.

(** Unless the links are grouped by address, every source is ["unknown"], a user or a
    group of the rows, or a choice cached before. *)
Lemma aggregate_from ga rows sizes gb :
  gb ≠ "src_ip" → Forall row_from rows → cache_from ga →
  cache_from (aggregate ga rows sizes gb).1 ∧ Forall (λ l, P (GroupAggregator.lk_src l)) (aggregate ga rows sizes gb).2.
Proof.
  intros Hgb Hrows Hc. unfold aggregate, aggregate_links.
  assert (Hu : Forall (λ du : string * gset string, ∀ u, u ∈ du.2 → P u) (per_dst_users rows)).
  { apply Forall_forall. intros [d us] Hin u Hu. apply per_dst_users_in in Hin as ->. cbn in Hu.
    apply elem_of_list_to_set, list_elem_of_fmap in Hu as (r & -> & [_ Hr]%list_elem_of_filter).
    rewrite Forall_forall in Hrows. by apply Hrows. }
  rewrite Forall_forall in Hu.
  pose proof (foldl_invariant (λ s, cache_from s.1 ∧ links_from s.2)
    (process_dst (per_dst_rows rows) (row_user_groups rows) sizes gb) (per_dst_users rows) (ga, [])) as Hinv.
  destruct Hinv as [H1 H2]; [by split; [|constructor]|intros [ga1 ls] du Hdu [? ?]; apply process_from; [done..|by apply Hu]|].
  destruct (foldl (process_dst _ _ _ _) _ _) as [ga' links]. cbn in *. split; [done|]. rewrite Forall_fmap. unfold dvalues. rewrite Forall_fmap.
  eapply Forall_impl; [exact H2|]. intros [k v] [Hk Hv]. cbn in *. by rewrite Hv.
Qed.
End labels.

(** ** The message ([_build_legacy_delta], [_build_group_delta], [_publish]) *)

Definition kind_text (k : LabelKind) : string :=
  match k with Lmanual => "manual" | Lsaas => "saas" | Lptr => "ptr" | Lport => "port" | Lraw => "raw" end.

Definition left_json (n : left_node) : json :=
  JObj [("id", JStr (ln_id n)); ("label", JStr (ln_label n)); ("size", JInt (ln_size n))].
Definition right_json (n : right_node) : json :=
  JObj [("id", JStr (rn_id n)); ("label", JStr (rn_label n)); ("kind", JStr (kind_text (rn_kind n)))].
Definition api_link (l : GroupAggregator.Link) : Link :=
  mkLink (GroupAggregator.lk_src l) (GroupAggregator.lk_dst l) (GroupAggregator.lk_bytes l)
    (GroupAggregator.lk_flows l) (GroupAggregator.lk_users l).

Definition delta_json (d : SankeyPublisher.delta) : json :=
  JObj [("ts", JStr (isoformat (SankeyPublisher.dl_ts d))); ("window_s", JInt (SankeyPublisher.dl_window_s d));
        ("nodes_left", JArr (left_json <$> SankeyPublisher.dl_nodes_left d));
        ("nodes_right", JArr (right_json <$> SankeyPublisher.dl_nodes_right d));
        ("links", JArr (link_json <$> (api_link <$> SankeyPublisher.dl_links d)));
        ("lossy", JBool (SankeyPublisher.dl_lossy d)); ("dropped_count", JInt (SankeyPublisher.dl_dropped_count d))].

(** What Redis is sent: the key and text of the [SET], the channel and text of the PUBLISH. *)
Definition serialized (c : sankey_cmd) : string * string :=
  match c with
  | StoreLast d => ("sankey.last", dumps_default (delta_json d))
  | PublishOn channel d => (channel, dumps_default (delta_json d))
  end.

(** ** The models ([api/schemas/sankey.py]) *)

(** The conversion of a value to the type of a field; on a value of the type it is the
    identity. *)
Class Pydantic : Type := {
  to_str : json → result string;
  to_int : json → result Z;
  to_bool : json → result bool
}.

Class PydanticLaws `{Pydantic} : Prop := {
  to_str_str s : to_str (JStr s) = Ok s;
  to_int_int n : to_int (JInt n) = Ok n;
  to_bool_bool b : to_bool (JBool b) = Ok b
}.

Section schema.
Context `{Pydantic, PyPrims, Signer}.

(** A required field, and one with a default. *)
Definition field {A} (conv : json → result A) (k : string) (v : json) : result A :=
  match v with JObj d => x ← need ValueError (dget k d); conv x | _ => Raise ValueError end.
Definition field_or {A} (conv : json → result A) (k : string) (a : A) (v : json) : result A :=
  match v with
  | JObj d => match dget k d with Some x => conv x | None => Ok a end
  | _ => Raise ValueError
  end.
Definition field_list {A} (conv : json → result A) (v : json) : result (list A) :=
  match v with JArr l => mapM conv l | _ => Raise ValueError end.

Definition read_left (v : json) : result Node :=
  id ← field to_str "id" v; label ← field to_str "label" v; size ← field to_int "size" v; Ok (mkNode id label (JInt size)).
Definition read_right (v : json) : result Node :=
  id ← field to_str "id" v; label ← field to_str "label" v; kind ← field to_str "kind" v; Ok (mkNode id label (JStr kind)).
Definition read_link (v : json) : result Link :=
  src ← field to_str "src" v; dst ← field to_str "dst" v; bytes ← field to_int "bytes" v; flows ← field to_int "flows" v;
  users ← field_or to_int "users" 0 v;
  Ok (mkLink src dst bytes flows users).

Definition read_delta (v : json) : result Delta :=
  ts ← field to_str "ts" v;
  window_s ← field to_int "window_s" v;
  left ← field (field_list read_left) "nodes_left" v;
  right ← field (field_list read_right) "nodes_right" v;
  links ← field (field_list read_link) "links" v;
  lossy ← field_or to_bool "lossy" false v;
  dropped ← field_or to_int "dropped_count" 0 v;
  Ok (mkDelta ts window_s left right links lossy dropped false None).

(** The live branch of the route: [sankey.last], read when there is something; a text
    that does not fit the models is an error of the server.  The fields are taken here,
    where the route takes some in the filters and the rest with its answer; which of two
    errors comes first is all that this changes. *)
Definition live_base (raw : option string) : response (option Delta) :=
  match given raw with
  | None => Reply None
  | Some text => lift_crash (Some <$> (loads text ≫= read_delta))
  end.

Definition live_sankey (raw : option string) (limit : Z) (src_cidr dst_app : option string) (groups : list string)
    (user exclude_groups : option string) (now : Z) : response Delta :=
  base ← live_base raw;
  sankey ApiFlows.Live limit src_cidr dst_app groups user exclude_groups base now None None (λ _ _, []).

(** ** A publication read back *)

Definition view_left (n : left_node) : Node := mkNode (ln_id n) (ln_label n) (JInt (ln_size n)).
Definition view_right (n : right_node) : Node := mkNode (rn_id n) (rn_label n) (JStr (kind_text (rn_kind n))).

Definition view (d : SankeyPublisher.delta) : Delta :=
  mkDelta (isoformat (SankeyPublisher.dl_ts d)) (SankeyPublisher.dl_window_s d)
    (view_left <$> SankeyPublisher.dl_nodes_left d) (view_right <$> SankeyPublisher.dl_nodes_right d)
    (api_link <$> SankeyPublisher.dl_links d) (SankeyPublisher.dl_lossy d) (SankeyPublisher.dl_dropped_count d) false None.

Lemma field_hit {A} (conv : json → result A) k d x : dget k d = Some x → field conv k (JObj d) = conv x.
Proof. unfold field. by intros ->. Qed.
Lemma field_or_hit {A} (conv : json → result A) k a d x : dget k d = Some x → field_or conv k a (JObj d) = conv x.
Proof. unfold field_or. by intros ->. Qed.

Ltac read_field :=
  first [erewrite field_hit by reflexivity | erewrite field_or_hit by reflexivity];
  rewrite ?to_str_str, ?to_int_int, ?to_bool_bool; cbn [mbind result_bind].

Lemma read_left_json `{!PydanticLaws} n : read_left (left_json n) = Ok (view_left n).
Proof. unfold read_left, left_json. by repeat read_field. Qed.
Lemma read_right_json `{!PydanticLaws} n : read_right (right_json n) = Ok (view_right n).
Proof. unfold read_right, right_json. by repeat read_field. Qed.
Lemma read_link_json `{!PydanticLaws} l : read_link (link_json l) = Ok l.
Proof. unfold read_link, link_json. repeat read_field. by destruct l. Qed.

Lemma field_list_map {A B} (conv : json → result B) (to : A → json) (f : A → B) (l : list A) :
  (∀ x, conv (to x) = Ok (f x)) → field_list conv (JArr (to <$> l)) = Ok (f <$> l).
Proof. intros Hc. cbn [field_list]. apply mapM_Ok. induction l as [|x l IH]; constructor; [apply Hc|exact IH]. Qed.

Lemma read_delta_json `{!PydanticLaws} d : read_delta (delta_json d) = Ok (view d).
Proof.
  unfold read_delta, delta_json. do 2 read_field.
  read_field. rewrite (field_list_map _ _ view_left) by apply read_left_json. cbn [mbind result_bind].
  read_field. rewrite (field_list_map _ _ view_right) by apply read_right_json. cbn [mbind result_bind].
  read_field. rewrite (field_list_map read_link link_json id) by apply read_link_json. cbn [mbind result_bind].
  do 2 read_field. by rewrite list_fmap_id.
Qed.

(** The texts of a delta are text and its numbers can be read again. *)
Definition int_ok (z : Z) : Prop := Z.abs z < int_bound.
Definition delta_ok (d : SankeyPublisher.delta) : Prop :=
  text_ok (isoformat (SankeyPublisher.dl_ts d)) ∧ int_ok (SankeyPublisher.dl_window_s d) ∧
  int_ok (SankeyPublisher.dl_dropped_count d) ∧
  Forall (λ n, text_ok (ln_id n) ∧ text_ok (ln_label n) ∧ int_ok (ln_size n)) (SankeyPublisher.dl_nodes_left d) ∧
  Forall (λ n, text_ok (rn_id n) ∧ text_ok (rn_label n)) (SankeyPublisher.dl_nodes_right d) ∧
  Forall (λ l, text_ok (lk_src l) ∧ text_ok (lk_dst l) ∧ int_ok (lk_bytes l) ∧ int_ok (lk_flows l) ∧ int_ok (lk_users l))
    (api_link <$> SankeyPublisher.dl_links d).

Ltac obj_ok :=
  apply ok_obj; [apply (bool_decide_unpack _); vm_compute; exact I|repeat (apply Forall_cons; split; [plain_text|]); apply Forall_nil; exact I|].

Lemma array_ok {A} (f : A → json) (l : list A) : Forall (λ x, json_ok (f x)) l → json_ok (JArr (f <$> l)).
Proof. intros Hl. apply ok_arr. by rewrite Forall_fmap. Qed.

Lemma left_json_ok n : text_ok (ln_id n) → text_ok (ln_label n) → int_ok (ln_size n) → json_ok (left_json n).
Proof. intros. obj_ok. by repeat constructor. Qed.
Lemma right_json_ok n : text_ok (rn_id n) → text_ok (rn_label n) → json_ok (right_json n).
Proof. intros. obj_ok. repeat constructor; try done. destruct (rn_kind n); plain_text. Qed.
Lemma link_json_ok l :
  text_ok (lk_src l) → text_ok (lk_dst l) → int_ok (lk_bytes l) → int_ok (lk_flows l) → int_ok (lk_users l) → json_ok (link_json l).
Proof. intros. obj_ok. by repeat constructor. Qed.

Lemma delta_json_ok d : delta_ok d → json_ok (delta_json d).
Proof.
  intros (Ht & Hw & Hdr & Hl & Hr & Hk). obj_ok.
  repeat (apply Forall_cons; split); [by constructor|by constructor| | | |constructor|by constructor|constructor]; apply array_ok.
  - eapply Forall_impl; [exact Hl|]. intros n (? & ? & ?). by apply left_json_ok.
  - eapply Forall_impl; [exact Hr|]. intros n (? & ?). by apply right_json_ok.
  - eapply Forall_impl; [exact Hk|]. intros n (? & ? & ? & ? & ?). by apply link_json_ok.
Qed.

Lemma dumps_not_empty v : json_ok v → str_true (dumps_default v) = true.
Proof. intros Hv. destruct (dumps_head " " " " v Hv) as (c & t & E & _). unfold dumps_default. by rewrite E. Qed.

Lemma live_base_published `{!PydanticLaws} d :
  delta_ok d → live_base (Some (dumps_default (delta_json d))) = Reply (Some (view d)).
Proof.
  intros Hd. apply delta_json_ok in Hd. unfold live_base, given. cbn [mbind option_bind].
  rewrite dumps_not_empty, loads_default by done. cbn [mbind result_bind]. by rewrite read_delta_json.
Qed.

(** ** What a client sees *)

Lemma published_delta p gi bucket flows store d :
  StoreLast d ∈ (publish p gi bucket flows store).2 →
  d = (build_delta p gi bucket flows).2 ∧ delta_graph d ∧ delta_traffic d flows ∧ SankeyPublisher.dl_ts d = bucket.
Proof.
  unfold publish. destruct flows as [|f fs]; [by intros ?%elem_of_nil|]. set (flows := f :: fs).
  destruct (build_delta p gi bucket flows) as [agg' d'] eqn:E. cbn [snd]. intros Hin.
  assert (d = d') as -> by (unfold send_delta in Hin; destruct store; set_unfold in Hin; naive_solver).
  split; [done|]. unfold build_delta in E. destruct (sp_aggregator p) as [agg|];
    [case_decide|]; [injection E as _ <-; split_and!; [apply legacy_graph|apply legacy_traffic|done]| |
                     injection E as _ <-; split_and!; [apply legacy_graph|apply legacy_traffic|done]].
  pose proof (group_graph agg gi (sp_group_by p) bucket flows) as Hg.
  pose proof (group_traffic agg gi (sp_group_by p) bucket flows) as Ht.
  assert (Hts : SankeyPublisher.dl_ts (build_group_delta agg gi (sp_group_by p) bucket flows).1.2 = bucket).
  { unfold build_group_delta. by destruct (aggregate _ _ _ _). }
  destruct (build_group_delta agg gi (sp_group_by p) bucket flows) as [[agg2 d2] m]. by injection E as _ <-.
Qed.

Lemma live_unfiltered `{!PydanticLaws} d limit now :
  delta_ok d →
  live_sankey (Some (dumps_default (delta_json d))) limit None None [] None None now =
    Reply (used_nodes (truncate (view d) limit)).
Proof. intros Hd. unfold live_sankey. by rewrite live_base_published. Qed.

Lemma view_bytes d :
  sum_by lk_bytes (api_link <$> SankeyPublisher.dl_links d) = sum_by GroupAggregator.lk_bytes (SankeyPublisher.dl_links d).
Proof. by rewrite sum_by_fmap. Qed.

Lemma all_used {A} (f : A → Node) (id_of : A → string) (ns : list A) (used : gset string) :
  (∀ n, nd_id (f n) = id_of n) → (∀ x, x ∈ id_of <$> ns → x ∈ used) →
  filter (λ n, nd_id n ∈ used) (f <$> ns) = f <$> ns.
Proof.
  intros Hf Hu. induction ns as [|n ns IH]; [done|]. csimpl. rewrite filter_cons_True.
  - by rewrite IH by (intros x Hx; apply Hu; by right).
  - rewrite Hf. apply Hu. by left.
Qed.

Lemma largest_first ls : StronglySorted (λ l l', lk_bytes l' ≤ lk_bytes l) (py_sorted by_bytes ls).
Proof.
  eapply StronglySorted_weaken; [|apply py_sorted_strongly_sorted]. intros l l' Hle%Z.leb_le. unfold by_bytes in Hle. lia.
Qed.


(** ** The address range on the live graph *)

Definition not_address (s : string) : Prop := is_ok (ip_address (strip_ip s)) = false.
Definition flow_named (f : LabelledFlow) : Prop := not_address (lf_user_upn f) ∧ ∀ g, g ∈ lf_groups f → not_address g.
Definition named_links (ls : list GroupAggregator.Link) : Prop := Forall (λ l, not_address (GroupAggregator.lk_src l)) ls.

(** A publisher as [_run] builds it, at any time. *)
Definition named_publisher (p : SankeyPublisher) : Prop :=
  sp_group_by p = "group" ∧ (∃ agg, sp_aggregator p = Some agg ∧ cache_from not_address agg) ∧
  Forall flow_named (sp_pending p).

Lemma group_delta_named agg gi bucket flows :
  Forall flow_named flows → cache_from not_address agg →
  cache_from not_address (build_group_delta agg gi "group" bucket flows).1.1 ∧
  named_links (SankeyPublisher.dl_links (build_group_delta agg gi "group" bucket flows).1.2).
Proof.
  intros Hf Hc. unfold build_group_delta.
  destruct (aggregate_from not_address eq_refl eq_refl agg (flow_row <$> flows)
    (match gi with Some g => group_sizes g | None => ∅ end) "group") as [Hc1 Hc2]; [done| |done|].
  { rewrite Forall_fmap. eapply Forall_impl; [exact Hf|]. intros f [? ?]. by split. }
  by destruct (aggregate _ _ _ _).
Qed.

Lemma publish_named p gi bucket store :
  named_publisher p →
  (∃ agg, (publish p gi bucket (sp_pending p) store).1 = Some agg ∧ cache_from not_address agg) ∧
  ∀ d, StoreLast d ∈ (publish p gi bucket (sp_pending p) store).2 → named_links (SankeyPublisher.dl_links d).
Proof.
  intros (Hgb & (agg & Ha & Hc) & Hp). unfold publish. destruct (sp_pending p) as [|f fs].
  { split; [by exists agg|]. by intros d ?%elem_of_nil. }
  unfold build_delta. rewrite Ha, Hgb, decide_False by done.
  destruct (group_delta_named agg gi bucket (f :: fs) Hp Hc) as [Hc1 Hc2].
  destruct (build_group_delta agg gi "group" bucket (f :: fs)) as [[agg' d'] m]. cbn in *. split; [by exists agg'|].
  intros d Hin. assert (d = d') as -> by (unfold send_delta in Hin; destruct store; set_unfold in Hin; naive_solver). done.
Qed.

Lemma publisher_step_named gi store p lf :
  named_publisher p → flow_named lf →
  named_publisher (publisher_step gi store p lf).1 ∧
  ∀ d, StoreLast d ∈ (publisher_step gi store p lf).2 → named_links (SankeyPublisher.dl_links d).
Proof.
  intros Hp Hlf. unfold publisher_step. destruct (_ <? _).
  - destruct (publish_named p gi (default (lf_bucket_start lf) (sp_current p)) store Hp) as [Hagg Hd].
    destruct (publish _ _ _ _ _) as [agg' cmds]. cbn in *. split; [|done]. destruct Hp as (Hgb & _ & _).
    split_and!; [done|done|by apply Forall_singleton].
  - destruct Hp as (Hgb & Hagg & Hpend). split; [|by intros d ?%elem_of_nil]. split_and!; [done|done|].
    cbn. apply Forall_app. split; [done|]. by apply Forall_singleton.
Qed.

Lemma run_named p inputs :
  named_publisher p → Forall (λ i : sankey_input, flow_named i.1.1) inputs →
  ∀ d, StoreLast d ∈ tr_cmds (sankey_run p inputs) → named_links (SankeyPublisher.dl_links d).
Proof.
  intros Hp Hi. rewrite Forall_forall in Hi. unfold sankey_run.
  pose proof (foldl_invariant (λ t, named_publisher (tr_pub t) ∧
    ∀ d, StoreLast d ∈ tr_cmds t → named_links (SankeyPublisher.dl_links d)) trace_step inputs (mkTrace p [] [])) as Hinv.
  apply Hinv; [split; [done|]; by intros d ?%elem_of_nil|].
  intros t [[lf gi] store] Hin [Ht Hd]. apply Hi in Hin. cbn in Hin. unfold trace_step.
  destruct (publisher_step_named gi store (tr_pub t) lf Ht Hin) as [Hp1 Hp2].
  destruct (publisher_step gi store (tr_pub t) lf) as [p' cmds]. cbn in *. split; [done|].
  intros d [?|?]%elem_of_app; auto.
Qed.

Lemma range_keeps_none net ls : named_links ls → keep (λ l, in_net_text net (lk_src l)) (api_link <$> ls) = [].
Proof.
  intros Hn. unfold keep. induction Hn as [|l ls Hl _ IH]; [done|]. csimpl. rewrite filter_cons_False; [done|].
  unfold in_net_text. cbn [api_link lk_src]. unfold not_address in Hl. by destruct (ip_address _).
Qed.

Lemma keep_if_nil {A} (o : option A) P : keep_if o P [] = [].
Proof. by destruct o. Qed.

Lemma no_links_no_nodes d limit :
  let g := used_nodes (truncate (with_links d []) limit) in
  dl_links g = [] ∧ dl_nodes_left g = [] ∧ dl_nodes_right g = [].
Proof.
  assert (Hl : dl_links (truncate (with_links d []) limit) = []) by (cbn; apply take_nil).
  cbv zeta. unfold used_nodes. rewrite Hl. cbn [dl_links dl_nodes_left dl_nodes_right fmap list_fmap list_to_set].
  split_and!; [done|apply filter_none; set_solver..].
Qed.

(** The live graph is one of users and groups, and its filter one of addresses: as long as no
    name of a user or a group is the text of an address, every delta that the publisher of
    the service stores has no link for the route or for a socket in any address range. *)
Theorem live_range_empty `{!PydanticLaws} channel excluded floor inputs d limit cidr net now :
  Forall (λ i : sankey_input, flow_named i.1.1) inputs →
  StoreLast d ∈ tr_cmds (sankey_run (new_publisher channel "group" (Some (new_aggregator excluded floor))) inputs) →
  delta_ok d → given (Some cidr) = Some cidr → ip_network false cidr = Ok net →
  (∃ g, live_sankey (Some (dumps_default (delta_json d))) limit (Some cidr) None [] None None now = Reply g ∧
     dl_links g = [] ∧ dl_nodes_left g = [] ∧ dl_nodes_right g = []) ∧
  matching (socket_filters (Some cidr) None) (link_json <$> (api_link <$> SankeyPublisher.dl_links d)) = Ok [].
Proof.
  intros Hi Hst Hok Hgiven Hnet.
  assert (Hn : named_links (SankeyPublisher.dl_links d)).
  { eapply run_named; [|exact Hi|exact Hst]. split; [done|]. split; [|constructor]. eexists. split; [done|].
    intros users g. cbn. by rewrite lookup_empty. }
  split.
  - unfold live_sankey. rewrite live_base_published by done. cbn [mbind response_bind].
    unfold sankey, filter_links. cbn [sankey_base mbind response_bind default from_option id fl_src_cidr fl_dst_app fl_group fl_user fl_exclude].
    rewrite Hgiven, Hnet. cbn [mbind response_bind]. cbn [view dl_links]. rewrite (range_keeps_none _ _ Hn).
    rewrite !keep_if_nil. eexists. split; [reflexivity|]. apply no_links_no_nodes.
  - rewrite (matching_spec _ (socket_passes (Some cidr) None)) by (intros; apply matches_socket).
    assert (keep (socket_passes (Some cidr) None) (api_link <$> SankeyPublisher.dl_links d) = []) as ->; [|done].
    rewrite <-(range_keeps_none net _ Hn). apply list_filter_iff. intros l. unfold socket_passes. rewrite Hgiven, Hnet.
    change (given None) with (@None string). by rewrite andb_true_r.
Qed.
End schema.

(** ** Concrete publications *)

#[local] Existing Instance demo_signer.
#[local] Existing Instance demo_prims.

#[local] Instance strict_models : Pydantic := {|
  to_str v := match v with JStr s => Ok s | _ => Raise ValueError end;
  to_int v := match v with JInt n => Ok n | _ => Raise ValueError end;
  to_bool v := match v with JBool b => Ok b | _ => Raise ValueError end
|}.

#[local] Instance strict_laws : PydanticLaws.
Proof. by split. Qed.

Definition ex_publisher : SankeyPublisher := new_publisher "sankey.live" "group" (Some (new_aggregator ∅ 500)).
Definition ex_batch : list LabelledFlow := fst ∘ fst <$> take 3 SankeyPublisher.ex_inputs.
Definition ex_delta : SankeyPublisher.delta := (build_delta ex_publisher (Some SankeyPublisher.ex_index) 0 ex_batch).2.
Definition ex_text : string := dumps_default (delta_json ex_delta).

Example ex_delta_value :
  ex_delta = SankeyPublisher.mkDelta 0 5 [mkLeftNode "unknown" "unknown" 0; mkLeftNode "eng" "eng" 2]
    [mkRightNode "app:crm" "crm" Lsaas]
    [GroupAggregator.mkLink "unknown" "app:crm" 5 1 1; GroupAggregator.mkLink "eng" "app:crm" 30 2 2] false 0.
Proof. vm_compute. reflexivity. Qed.

Lemma ex_delta_ok : delta_ok ex_delta.
Proof.
  rewrite ex_delta_value. unfold delta_ok, int_ok. cbn -[int_bound isoformat].
  repeat match goal with
  | |- _ ∧ _ => split | |- Forall _ (_ :: _) => apply Forall_cons; split | |- Forall _ [] => apply Forall_nil; exact I
  | |- text_ok _ => plain_text | |- _ < _ => vm_compute; reflexivity
  end.
Qed.

(** The route shows both strands, the largest first; over all the addresses that IPv4 has,
    it shows nothing. *)
Example live_answers :
  (match live_sankey (Some ex_text) 200 None None [] None None 0 with
   | Reply g => lk_src <$> dl_links g | _ => [] end) = ["eng"; "unknown"] ∧
  (match live_sankey (Some ex_text) 200 (Some "0.0.0.0/0") None [] None None 0 with
   | Reply g => lk_src <$> dl_links g | _ => ["error"] end) = [].
Proof. vm_compute. split; reflexivity. Qed.

