(* ===== verification/History.v ===== *)
(** * The flow table and its history ([migrate/alembic/versions/0001], [api/routers/flows.py])

    The table [flows] with the copies of the writer, the continuous aggregate [flows_1m]
    with its refresh policy, and the query of the historical Sankey graph.  The
    addresses of the database are a parameter with their input and output of text.  A
    refresh recomputes the buckets that lie in its window, as the database documents;
    a query reads what was materialised last. *)

From S2P Require Import Prelude PySort PyDict PyStr PyText PyDatetime EventTypes ApiAuth Cursor ApiFlows Writer.

#[local] Open Scope Z_scope.

Definition minute : Z := 60 * second.
Definition hour : Z := 60 * minute.

(** [time_bucket('1 minute', time)] *)
Definition time_bucket (t : Z) : Z := t / minute * minute.

Section history.
Context {K : Type} `{EqDecision K}.
Context (inet_of : string → option K) (inet_text : K → string).

(** ** The table [flows] *)

(** The columns that the aggregate groups by, apart from the time. *)
Abbreviation flow_key := (K * K * Z * Z)%type.

Record table_row : Type := mkTableRow {
  tb_time : Z;
  tb_key : flow_key;               (* src_ip, dst_ip, dst_port, proto *)
  tb_bytes : Z;
  tb_packets : Z;
  tb_flow_count : Z;
  tb_source : string
}.

(** A number in the range of a column of the given width. *)
Definition in_column (bits n : Z) : bool := (- 2 ^ (bits - 1) <=? n) && (n <? 2 ^ (bits - 1)).

(** The row of a record of the COPY, if its values fit the columns. *)
Definition load_row (r : flow_rec) : option table_row :=
  src ← inet_of (fr_src_ip r); dst ← inet_of (fr_dst_ip r);
  if in_column 32 (fr_dst_port r) && in_column 16 (fr_proto r) && in_column 64 (fr_bytes r) &&
     in_column 64 (fr_packets r) && in_column 32 (fr_flow_count r)
  then Some (mkTableRow (fr_time r) (src, dst, fr_dst_port r, fr_proto r) (fr_bytes r) (fr_packets r) (fr_flow_count r)
               (fr_source r))
  else None.

(** [copy_records_to_table]: all the records, or none of them. *)
Definition copy_records (table : list table_row) (rs : list flow_rec) : list table_row * result () :=
  match mapM load_row rs with
  | Some rows => (table ++ rows, Ok ())
  | None => (table, Raise OtherError)
  end.

(** ** The aggregate [flows_1m] *)

Record sums : Type := mkSums { su_bytes : Z; su_packets : Z; su_flow_count : Z }.

Definition no_sums : sums := mkSums 0 0 0.
Definition add_sums (a b : sums) : sums :=
  mkSums (su_bytes a + su_bytes b) (su_packets a + su_packets b) (su_flow_count a + su_flow_count b).
Definition row_sums (r : table_row) : sums := mkSums (tb_bytes r) (tb_packets r) (tb_flow_count r).

(** The rows of the aggregate: their bucket and key, and the sums. *)
Abbreviation minutes := (pydict (Z * flow_key) sums).

Definition minute_key (r : table_row) : Z * flow_key := (time_bucket (tb_time r), tb_key r).

Definition flows_1m (table : list table_row) : minutes :=
  group_fold minute_key (λ _, no_sums) (λ s r, add_sums s (row_sums r)) [] table.

(** The buckets of a refresh at [now]: from three hours to one minute back. *)
Definition in_refresh (now b : Z) : bool := (now - 3 * hour <=? b) && (b + minute <=? now - minute).

Definition refresh (now : Z) (table : list table_row) (mat : minutes) : minutes :=
  filter (λ e, in_refresh now e.1.1 = false) mat ++ filter (λ e, in_refresh now e.1.1 = true) (flows_1m table).

(** ** The historical query *)

Definition in_interval (f t b : Z) : bool := (f <=? b) && (b <? t).

(** The sums of the keys over the buckets of the interval. *)
Definition interval_sums (mat : minutes) (f t : Z) : pydict flow_key sums :=
  group_fold (λ e, e.1.2) (λ _, no_sums) (λ s e, add_sums s e.2) [] (filter (λ e, in_interval f t e.1.1 = true) mat).

Definition minute_row (e : flow_key * sums) : MinuteRow :=
  let '(src, dst, port, _) := e.1 in
  mkMinuteRow (inet_text src) (inet_text dst) port (su_bytes e.2) (su_flow_count e.2).

Definition history_query (mat : minutes) (f t : Z) : list MinuteRow := minute_row <$> interval_sums mat f t.

(** ** The machine

    Operations with the clock of the database: a copy with the outcome of its
    transport, a refresh of the aggregate, and the retention of thirty days, which drops
    the chunks of an hour that lie wholly before. *)

Record history : Type := mkHistory { hs_table : list table_row; hs_mat : minutes }.

Inductive history_op : Type :=
  | CopyRows (rs : list flow_rec) (pg : result ())
  | Refresh
  | Retain.

Definition expired (now : Z) (r : table_row) : bool := (tb_time r / hour + 1) * hour <=? now - 720 * hour.

Definition history_step (h : history) (o : Z * history_op) : history :=
  match o.2 with
  | CopyRows rs (Ok _) => mkHistory (copy_records (hs_table h) rs).1 (hs_mat h)
  | CopyRows rs (Raise _) => h
  | Refresh => mkHistory (hs_table h) (refresh o.1 (hs_table h) (hs_mat h))
  | Retain => mkHistory (filter (λ r, expired o.1 r = false) (hs_table h)) (hs_mat h)
  end.

Definition history_run (h : history) (ops : list (Z * history_op)) : history := foldl history_step h ops.

Definition empty_history : history := mkHistory [] [].

(** ** Specification vocabulary *)

(** The rows that the copies of a run have brought to the table. *)
Definition rows_of (o : history_op) : list table_row :=
  match o with CopyRows rs (Ok _) => default [] (mapM load_row rs) | _ => [] end.
Definition all_rows (ops : list (Z * history_op)) : list table_row := ops ≫= (λ o, rows_of o.2).

(** The clock does not go back. *)
Definition clocked (ops : list (Z * history_op)) : Prop := StronglySorted Z.le ops.*1.

(** The bucket [b] is settled: some refresh covered it after its last row. *)
Definition settled (ops : list (Z * history_op)) (b : Z) : Prop :=
  ∃ ops1 now ops2, ops = ops1 ++ (now, Refresh) :: ops2 ∧ in_refresh now b = true ∧
    ∀ r, r ∈ all_rows ops2 → time_bucket (tb_time r) ≠ b.

(** The sums of the rows that pass a test. *)
Definition rows_with (P : table_row → bool) (rows : list table_row) : list table_row := filter (λ r, P r = true) rows.
Definition sums_of (rows : list table_row) : sums :=
  mkSums (sum_by tb_bytes rows) (sum_by tb_packets rows) (sum_by tb_flow_count rows).

Definition in_bucket (b : Z) (r : table_row) : bool := time_bucket (tb_time r) =? b.

(** ** Time *)

Lemma minute_pos : 0 < minute. Proof. done. Qed.

Lemma time_bucket_le t : time_bucket t ≤ t < time_bucket t + minute.
Proof. unfold time_bucket. pose proof (Z.div_mod t minute ltac:(done)). pose proof (Z.mod_pos_bound t minute minute_pos). lia. Qed.

(** For ends on a minute the test on the bucket is the test on the time. *)
Lemma interval_aligned f t x :
  f mod minute = 0 → t mod minute = 0 → in_interval f t (time_bucket x) = in_interval f t x.
Proof.
  intros Hf Ht. assert (Hcut : ∀ a, a mod minute = 0 → (a <=? time_bucket x) = (a <=? x)).
  { intros a Ha. pose proof (time_bucket_le x). unfold time_bucket in *. pose proof (Z.div_mod a minute ltac:(done)).
    destruct (Z.leb_spec a (x / minute * minute)), (Z.leb_spec a x); try lia. exfalso.
    assert (a / minute ≤ x / minute) by (apply Z.div_le_mono; [apply minute_pos|lia]).
    assert (a = a / minute * minute) by lia. pose proof minute_pos. nia. }
  unfold in_interval. rewrite Hcut, !Z.ltb_antisym, Hcut by done. done.
Qed.

(** ** Grouped sums *)

Lemma sums_eq a b : su_bytes a = su_bytes b → su_packets a = su_packets b → su_flow_count a = su_flow_count b → a = b.
Proof. destruct a, b. simpl. by intros -> -> ->. Qed.

(** A group by keys that adds up: the value of a key is the sum over its elements. *)
Lemma dget_group_sums {A} {K' : Type} `{EqDecision K'} (kf : A → K') (w : A → sums) l k :
  dget k (group_fold kf (λ _, no_sums) (λ s e, add_sums s (w e)) [] l) =
  match filter (λ e, kf e = k) l with
  | [] => None
  | es => Some (mkSums (sum_by (λ e, su_bytes (w e)) es) (sum_by (λ e, su_packets (w e)) es)
                  (sum_by (λ e, su_flow_count (w e)) es))
  end.
Proof.
  rewrite dget_group_fold_nil. unfold group_slot. destruct (filter _ l) as [|e es]; [done|]. f_equal.
  assert (Hf : ∀ xs s, foldl (λ s e, add_sums s (w e)) s xs =
    mkSums (su_bytes s + sum_by (λ e, su_bytes (w e)) xs) (su_packets s + sum_by (λ e, su_packets (w e)) xs)
      (su_flow_count s + sum_by (λ e, su_flow_count (w e)) xs)).
  { induction xs as [|x xs IH]; intros s; [destruct s; simpl; f_equal; lia|]. cbn [foldl]. rewrite IH.
    cbn [add_sums su_bytes su_packets su_flow_count]. f_equal; rewrite sum_by_cons; lia. }
  rewrite Hf. apply sums_eq; cbn [su_bytes su_packets su_flow_count no_sums]; lia.
Qed.

(** What the grouping of rows by a key gives. *)
Definition opt_sums (rows : list table_row) : option sums := match rows with [] => None | _ => Some (sums_of rows) end.

Lemma flows_1m_lookup rows bk : dget bk (flows_1m rows) = opt_sums (filter (λ r, minute_key r = bk) rows).
Proof. unfold flows_1m. rewrite dget_group_sums. by destruct (filter _ rows). Qed.

(** ** The refresh *)

Lemma dget_filter_key {K' V : Type} `{EqDecision K'} (P : K' → bool) b k (d : pydict K' V) :
  dget k (filter (λ e, P e.1 = b) d) = if decide (P k = b) then dget k d else None.
Proof.
  induction d as [|[k' v] d IH]; [by case_decide|]. rewrite filter_cons. cbn [fst].
  destruct (decide (P k' = b)) as [Hp|Hp]; cbn [dget]; destruct (decide (k = k')) as [->|Hne]; rewrite ?IH;
    repeat case_decide; done.
Qed.

Lemma dget_app {K' V : Type} `{EqDecision K'} k (d1 d2 : pydict K' V) :
  dget k (d1 ++ d2) = match dget k d1 with Some v => Some v | None => dget k d2 end.
Proof. induction d1 as [|[k' v] d1 IH]; [done|]. cbn [app dget]. by case_decide. Qed.

Lemma filter_dict_wf {K' V : Type} (P : K' * V → Prop) `{∀ e, Decision (P e)} (d : pydict K' V) : dict_wf d → dict_wf (filter P d).
Proof. unfold dict_wf, dkeys. intros Hd. eapply sublist_NoDup; [exact Hd|]. apply fmap_sublist, sublist_filter. Qed.

Lemma refresh_lookup now table mat bk :
  dget bk (refresh now table mat) = if in_refresh now bk.1 then dget bk (flows_1m table) else dget bk mat.
Proof.
  unfold refresh. rewrite dget_app, !(dget_filter_key (λ bk : Z * flow_key, in_refresh now bk.1)).
  destruct (in_refresh now bk.1); cbn; [done|]. by destruct (dget bk mat).
Qed.

Lemma refresh_wf now table mat : dict_wf mat → dict_wf (refresh now table mat).
Proof.
  intros Hm. unfold refresh, dict_wf, dkeys. rewrite fmap_app. apply NoDup_app. split_and!.
  - by apply filter_dict_wf.
  - intros bk Hin Hin'. apply list_elem_of_fmap in Hin as (e & -> & He), Hin' as (e' & Heq & He').
    apply list_elem_of_filter in He as [He _], He' as [He' _]. rewrite Heq in He. congruence.
  - apply filter_dict_wf, group_fold_wf. constructor.
Qed.

(** ** Runs *)

Lemma all_rows_app ops ops' : all_rows (ops ++ ops') = all_rows ops ++ all_rows ops'.
Proof. apply bind_app. Qed.

Lemma copy_rows_table table rs : (copy_records table rs).1 = table ++ default [] (mapM load_row rs).
Proof. unfold copy_records. destruct (mapM load_row rs); [done|]. cbn. by rewrite app_nil_r. Qed.

Lemma history_step_table h o :
  hs_table (history_step h o) =
    match o.2 with Retain => filter (λ r, expired o.1 r = false) (hs_table h) | _ => hs_table h ++ rows_of o.2 end.
Proof.
  destruct o as [now [rs [[]|e]| |]]; cbn [history_step snd hs_table rows_of]; rewrite ?app_nil_r; [|done..].
  apply copy_rows_table.
Qed.

Lemma history_step_mat h o :
  hs_mat (history_step h o) = match o.2 with Refresh => refresh o.1 (hs_table h) (hs_mat h) | _ => hs_mat h end.
Proof. by destruct o as [now [rs []| |]]. Qed.

(** Rows of a recent bucket are all in the table. *)
Lemma run_table ops c b :
  Forall (λ o, o.1 ≤ c) ops → c - 720 * hour ≤ b →
  filter (λ r, in_bucket b r = true) (hs_table (history_run empty_history ops)) =
  filter (λ r, in_bucket b r = true) (all_rows ops).
Proof.
  intros Hc Hb. induction ops as [|o ops IH] using rev_ind; [done|]. apply Forall_app in Hc as [Hc Ho].
  rewrite Forall_singleton in Ho. unfold history_run. rewrite foldl_snoc. change (foldl history_step empty_history ops) with
    (history_run empty_history ops). rewrite history_step_table, all_rows_app, filter_app, <-(IH Hc).
  destruct o as [now [rs pg| |]]; cbn [fst snd] in *; unfold all_rows; cbn [mbind list_bind snd rows_of].
  - by rewrite filter_app, app_nil_r.
  - by rewrite !filter_app.
  - rewrite app_nil_r, list_filter_filter. apply list_filter_iff. intros r. unfold in_bucket. split; [tauto|]. intros Hr.
    split; [done|]. apply Z.eqb_eq in Hr. unfold expired. apply Z.leb_gt. pose proof (time_bucket_le (tb_time r)).
    pose proof (Z.div_mod (tb_time r) hour ltac:(done)). pose proof (Z.mod_pos_bound (tb_time r) hour ltac:(done)). lia.
Qed.

Lemma filter_key_bucket b k (rows : list table_row) :
  filter (λ r, minute_key r = (b, k)) rows = filter (λ r, minute_key r = (b, k)) (filter (λ r, in_bucket b r = true) rows).
Proof.
  rewrite list_filter_filter. apply list_filter_iff. intros r. unfold minute_key, in_bucket. rewrite Z.eqb_eq. naive_solver.
Qed.

Lemma clocked_app ops ops' : clocked (ops ++ ops') → clocked ops ∧ clocked ops' ∧ ∀ o o', o ∈ ops → o' ∈ ops' → o.1 ≤ o'.1.
Proof.
  unfold clocked. rewrite fmap_app, StronglySorted_app. intros (Hle & H1 & H2). split_and!; [done..|].
  intros o o' Ho Ho'. apply Hle; apply list_elem_of_fmap; eauto.
Qed.

(** What a refresh of the bucket [b] finds in the table: all its rows. *)
Lemma refresh_finds ops now b k :
  Forall (λ o, o.1 ≤ now) ops → in_refresh now b = true →
  dget (b, k) (flows_1m (hs_table (history_run empty_history ops))) =
  opt_sums (filter (λ r, minute_key r = (b, k)) (all_rows ops)).
Proof.
  intros Hle Hin. unfold in_refresh in Hin. apply andb_true_iff in Hin as [Hin%Z.leb_le _].
  rewrite flows_1m_lookup, filter_key_bucket, (run_table ops now b), <-filter_key_bucket; [done|done|].
  unfold hour, minute, second in *. lia.
Qed.

Lemma settled_bucket ops b k :
  clocked ops → settled ops b →
  dget (b, k) (hs_mat (history_run empty_history ops)) = opt_sums (filter (λ r, minute_key r = (b, k)) (all_rows ops)).
Proof.
  intros Hc (ops1 & now & ops2 & -> & Hin & Hno). revert Hc Hno. induction ops2 as [|o ops2 IH] using rev_ind; intros Hc Hno.
  - unfold history_run. rewrite foldl_snoc. change (foldl history_step empty_history ops1) with (history_run empty_history ops1).
    rewrite history_step_mat, all_rows_app. cbn [fst snd]. rewrite refresh_lookup. cbn [fst]. rewrite Hin, (refresh_finds _ now).
    + unfold all_rows at 3. cbn. by rewrite app_nil_r.
    + apply clocked_app in Hc as (_ & _ & Hle). apply Forall_forall. intros o Ho. apply (Hle o (now, Refresh)); [done|by left].
    + done.
  - rewrite app_comm_cons, (assoc_L (++)) in Hc |- *. set (ops := ops1 ++ (now, Refresh) :: ops2) in *.
    destruct (clocked_app _ _ Hc) as (Hc1 & _ & Hle).
    unfold history_run. rewrite foldl_snoc. change (foldl history_step empty_history ops) with (history_run empty_history ops).
    rewrite all_rows_app in Hno |- *. rewrite history_step_mat, filter_app.
    assert (Hnew : filter (λ r, minute_key r = (b, k)) (all_rows [o]) = []).
    { apply filter_none. intros r Hr Hk. apply (Hno r); [apply elem_of_app; by right|]. unfold minute_key in Hk. congruence. }
    rewrite Hnew, app_nil_r.
    assert (IH' : dget (b, k) (hs_mat (history_run empty_history ops)) = opt_sums (filter (λ r, minute_key r = (b, k)) (all_rows ops))).
    { apply IH; [done|]. intros r Hr. apply Hno, elem_of_app. by left. }
    destruct (o.2) as [rs pg| |]; [exact IH'| |exact IH']. rewrite refresh_lookup. cbn [fst].
    destruct (in_refresh o.1 b) eqn:E; [|exact IH']. apply (refresh_finds _ o.1); [|done].
    apply Forall_forall. intros o' Ho'. apply Hle; [done|]. by left.
Qed.

(** Every row of the aggregate comes from rows of the table. *)
Lemma table_rows ops r : r ∈ hs_table (history_run empty_history ops) → r ∈ all_rows ops.
Proof.
  induction ops as [|o ops IH] using rev_ind; [done|]. unfold history_run. rewrite foldl_snoc.
  change (foldl history_step empty_history ops) with (history_run empty_history ops).
  rewrite history_step_table, all_rows_app, elem_of_app. unfold all_rows at 2. cbn [mbind list_bind]. rewrite app_nil_r.
  destruct (o.2); rewrite ?elem_of_app, ?list_elem_of_filter; naive_solver.
Qed.

Lemma mat_rows ops bk :
  bk ∈ dkeys (hs_mat (history_run empty_history ops)) → ∃ r, r ∈ all_rows ops ∧ minute_key r = bk.
Proof.
  induction ops as [|o ops IH] using rev_ind; [by intros ?%not_elem_of_nil|]. unfold history_run. rewrite foldl_snoc.
  change (foldl history_step empty_history ops) with (history_run empty_history ops).
  rewrite history_step_mat, all_rows_app. setoid_rewrite elem_of_app.
  destruct (o.2); try (intros Hk; apply IH in Hk as (r & ? & ?); eauto).
  intros Hk. unfold refresh, dkeys in Hk. rewrite fmap_app, elem_of_app in Hk.
  destruct Hk as [Hk|Hk]; apply list_elem_of_fmap in Hk as (e & -> & [_ He]%list_elem_of_filter).
  - destruct IH as (r & ? & ?); [apply list_elem_of_fmap; eauto|]. eauto.
  - assert (Hg : e.1 ∈ dkeys (flows_1m (hs_table (history_run empty_history ops)))) by (apply list_elem_of_fmap; eauto).
    unfold flows_1m in Hg. apply group_fold_key_nil, list_elem_of_fmap in Hg as (r & Hr & Hin). apply table_rows in Hin. eauto.
Qed.

Lemma mat_wf ops : dict_wf (hs_mat (history_run empty_history ops)).
Proof.
  induction ops as [|o ops IH] using rev_ind; [constructor|]. unfold history_run. rewrite foldl_snoc.
  change (foldl history_step empty_history ops) with (history_run empty_history ops). rewrite history_step_mat.
  destruct (o.2); [done|by apply refresh_wf|done].
Qed.

(** ** The query *)

(** The sum of rows, grouped by the entries of a dictionary with their keys. *)
Lemma sum_partition {V : Type} (kf : table_row → Z * flow_key) (w : table_row → Z) (d : pydict (Z * flow_key) V) rows :
  dict_wf d → (∀ r, r ∈ rows → kf r ∈ dkeys d) →
  sum_by (λ e, sum_by w (filter (λ r, kf r = e.1) rows)) d = sum_by w rows.
Proof.
  intros Hd. induction rows as [|r rows IH]; intros Hin; [by apply sum_by_zero|].
  rewrite sum_by_cons, <-IH by (intros r' Hr'; apply Hin; by right).
  rewrite (sum_by_ext _ (λ e, (if decide (e.1 = kf r) then w r else 0) + sum_by w (filter (λ r, kf r = e.1) rows))).
  - rewrite sum_by_add. f_equal. rewrite (sum_indicator (λ _, w r)) by done.
    assert (Hr : kf r ∈ dkeys d) by (apply Hin; by left). destruct (dget (kf r) d) eqn:E; [done|]. by apply dget_none in E.
  - intros e _. rewrite filter_cons. repeat case_decide; try congruence; rewrite ?sum_by_cons; lia.
Qed.

Definition row_in (f t : Z) (r : table_row) : bool := in_interval f t (time_bucket (tb_time r)).

(** The rows of an interval are settled: the aggregate holds their sums. *)
Definition interval_settled (ops : list (Z * history_op)) (f t : Z) : Prop :=
  ∀ r, r ∈ all_rows ops → row_in f t r = true → settled ops (time_bucket (tb_time r)).

Section interval.
Context (ops : list (Z * history_op)) (f t : Z).
Hypothesis Hclock : clocked ops.
Hypothesis Hsettled : interval_settled ops f t.

Let mat : minutes := hs_mat (history_run empty_history ops).
Let rows : list table_row := rows_with (row_in f t) (all_rows ops).

(** An entry of the aggregate in the interval. *)
Lemma entry_sums bk s :
  (bk, s) ∈ filter (λ e, in_interval f t e.1.1 = true) mat →
  s = sums_of (filter (λ r, minute_key r = bk) rows) ∧ filter (λ r, minute_key r = bk) rows ≠ [].
Proof.
  intros [Hin Hm]%list_elem_of_filter. cbn [fst] in Hin. destruct bk as [b k]. cbn [fst] in Hin.
  assert (Hrows : filter (λ r, minute_key r = (b, k)) rows = filter (λ r, minute_key r = (b, k)) (all_rows ops)).
  { unfold rows, rows_with. rewrite list_filter_filter. apply list_filter_iff. intros r. unfold row_in, minute_key.
    split; [tauto|]. intros Heq. split; [done|]. by injection Heq as -> _. }
  apply in_dget in Hm as Hg; [|apply mat_wf].
  assert (Hk : (b, k) ∈ dkeys mat) by (apply list_elem_of_fmap; by exists ((b, k), s)).
  apply mat_rows in Hk as (r & Hr & Hrk). unfold minute_key in Hrk. injection Hrk as Hb Hkey.
  unfold mat in Hg. rewrite settled_bucket in Hg by (done || (rewrite <-Hb; apply Hsettled; [done|]; unfold row_in; by rewrite Hb)).
  rewrite Hrows. destruct (filter _ (all_rows ops)); [done|]. by injection Hg as <-.
Qed.

Lemma entry_keys r : r ∈ rows → minute_key r ∈ dkeys (filter (λ e, in_interval f t e.1.1 = true) mat).
Proof.
  intros [Hin Hr]%list_elem_of_filter.
  assert (Hg : is_Some (dget (minute_key r) mat)).
  { unfold minute_key, mat. rewrite settled_bucket by (done || by apply Hsettled).
    destruct (filter _ (all_rows ops)) as [|r' rs] eqn:E; [|done]. exfalso. apply (not_elem_of_nil r). rewrite <-E.
    by apply list_elem_of_filter. }
  destruct Hg as [s Hg%dget_in]. apply list_elem_of_fmap. exists (minute_key r, s). split; [done|].
  by apply list_elem_of_filter.
Qed.

(** A measure of the entries of a key is that of its rows. *)
Lemma interval_measure (m : sums → Z) (w : table_row → Z) k :
  (∀ rs, m (sums_of rs) = sum_by w rs) →
  sum_by (λ e, m e.2) (filter (λ e, e.1.2 = k) (filter (λ e, in_interval f t e.1.1 = true) mat)) =
  sum_by w (filter (λ r, tb_key r = k) rows).
Proof.
  intros Hm. set (es := filter _ (filter _ mat)).
  rewrite <-(sum_partition minute_key w es (filter (λ r, tb_key r = k) rows)).
  - apply sum_by_ext. intros [bk s] [Hk He]%list_elem_of_filter. cbn [fst snd] in *.
    apply entry_sums in He as [-> _]. rewrite Hm. f_equal. rewrite list_filter_filter. apply list_filter_iff. intros r.
    unfold minute_key. naive_solver.
  - apply filter_dict_wf, filter_dict_wf, mat_wf.
  - intros r [Hk Hr]%list_elem_of_filter. pose proof (entry_keys r Hr) as He. apply list_elem_of_fmap in He as (e & Hek & He).
    apply list_elem_of_fmap. exists e. split; [done|]. apply list_elem_of_filter. split; [|done]. by rewrite <-Hek.
Qed.

(** The history of an interval is exact: the query gives every key of the rows of the
    interval once, with the sums of all of them. *)
Lemma interval_lookup k : dget k (interval_sums mat f t) = opt_sums (filter (λ r, tb_key r = k) rows).
Proof.
  unfold interval_sums. rewrite dget_group_sums.
  pose proof (interval_measure su_bytes tb_bytes k (λ _, eq_refl)) as H1.
  pose proof (interval_measure su_packets tb_packets k (λ _, eq_refl)) as H2.
  pose proof (interval_measure su_flow_count tb_flow_count k (λ _, eq_refl)) as H3.
  unfold opt_sums. destruct (filter (λ e, e.1.2 = k) _) as [|[bk s] es] eqn:E, (filter (λ r, tb_key r = k) rows) as [|r rs] eqn:Er;
    [done| | |by unfold sums_of; rewrite <-H1, <-H2, <-H3]; exfalso.
  - assert (Hr : r ∈ filter (λ r, tb_key r = k) rows) by (rewrite Er; left). apply list_elem_of_filter in Hr as [Hk Hr].
    apply entry_keys, list_elem_of_fmap in Hr as (e & Hek & He). apply (not_elem_of_nil e). rewrite <-E.
    apply list_elem_of_filter. split; [by rewrite <-Hek|done].
  - assert (He : (bk, s) ∈ filter (λ e, e.1.2 = k) (filter (λ e, in_interval f t e.1.1 = true) mat)) by (rewrite E; left).
    apply list_elem_of_filter in He as [Hk [_ Hne]%entry_sums]. apply Hne. cbn in Hk. apply filter_none. intros r Hr Hrk.
    apply (not_elem_of_nil r). rewrite <-Er. apply list_elem_of_filter. split; [|done]. unfold minute_key in Hrk. by rewrite <-Hrk in Hk.
Qed.

Lemma interval_total (m : sums → Z) (w : table_row → Z) :
  m no_sums = 0 → (∀ a b, m (add_sums a b) = m a + m b) → (∀ rs, m (sums_of rs) = sum_by w rs) →
  sum_by (λ e, m e.2) (interval_sums mat f t) = sum_by w rows.
Proof.
  intros H0 Hadd Hm. unfold interval_sums. rewrite (group_fold_sum _ _ _ m (λ e, m e.2)) by (intros; rewrite ?Hadd; done).
  rewrite sum_by_nil, Z.add_0_l. rewrite <-(sum_partition minute_key w (filter (λ e, in_interval f t e.1.1 = true) mat) rows).
  - apply sum_by_ext. intros [bk s] He. apply entry_sums in He as [-> _]. apply Hm.
  - apply filter_dict_wf, mat_wf.
  - apply entry_keys.
Qed.
End interval.

(** C5. The historical graph is exact on what is settled.  Let the clock of the database
    not go back, and let every bucket of the interval that has rows have been refreshed
    after the last of them, whatever copies, failed copies, refreshes and retentions
    there were besides.  Then the query gives every source, destination, port and
    protocol of the rows of these buckets once, with the sums over all of them, those
    included that the retention has dropped since; and the links of the graph carry
    the bytes and the flows of these rows. *)
Theorem history_exact ops f t live now :
  clocked ops → interval_settled ops f t →
  let mat := hs_mat (history_run empty_history ops) in
  let rows := rows_with (row_in f t) (all_rows ops) in
  NoDup (interval_sums mat f t).*1 ∧
  (∀ k, dget k (interval_sums mat f t) = opt_sums (filter (λ r, tb_key r = k) rows)) ∧
  ∃ d, sankey_base Historical live now (Some f) (Some t) (history_query mat) = Reply d ∧
    sum_by lk_bytes (dl_links d) = sum_by tb_bytes rows ∧ sum_by lk_flows (dl_links d) = sum_by tb_flow_count rows.
Proof.
  intros Hc Hs mat rows. subst mat rows. split_and!.
  - apply group_fold_wf. constructor.
  - intros k. by apply interval_lookup.
  - eexists. split; [reflexivity|]. cbn [dl_links]. unfold history_query. rewrite <-list_fmap_compose, !sum_by_fmap.
    split.
    + rewrite <-(interval_total ops f t Hc Hs su_bytes tb_bytes) by done. apply sum_by_ext. by intros [[[[? ?] ?] ?] ?] _.
    + rewrite <-(interval_total ops f t Hc Hs su_flow_count tb_flow_count) by done. apply sum_by_ext.
      by intros [[[[? ?] ?] ?] ?] _.
Qed.

(** For an interval between whole minutes these are the rows of the interval. *)
Corollary rows_aligned ops f t :
  f mod minute = 0 → t mod minute = 0 →
  rows_with (row_in f t) (all_rows ops) = rows_with (λ r, in_interval f t (tb_time r)) (all_rows ops).
Proof. intros Hf Ht. apply list_filter_iff. intros r. unfold row_in. by rewrite interval_aligned. Qed.

(** A bucket is settled by the first refresh that runs from two minutes to three hours
    after its start, if its rows have come by then. *)
Lemma settled_by ops1 ops2 now b :
  b + 2 * minute ≤ now ≤ b + 3 * hour → (∀ r, r ∈ all_rows ops2 → time_bucket (tb_time r) ≠ b) →
  settled (ops1 ++ (now, Refresh) :: ops2) b.
Proof.
  intros [H1 H2] Hno. exists ops1, now, ops2. split; [done|]. split; [|done]. unfold in_refresh.
  apply andb_true_iff. rewrite !Z.leb_le. unfold hour in *. lia.
Qed.
End history.

(** ** Concrete runs *)

Definition ex_inet (s : string) : option string := if contains "." s then Some s else None.

Definition ex_rec (t : Z) (port proto bytes : Z) : flow_rec := mkFlowRec t "10.0.0.1" "1.1.1.1" port proto bytes 1 1 "correlator".

Definition ex_run (ops : list (Z * history_op)) : history (K:=string) := history_run ex_inet empty_history ops.

Definition ex_ops : list (Z * history_op) :=
  [(10 * second, CopyRows [ex_rec 0 53 17 100; ex_rec (5 * second) 53 17 20] (Ok ()));
   (70 * second, CopyRows [ex_rec (65 * second) 53 6 7] (Ok ()));
   (3 * minute, Refresh)].

(** One link per protocol: two with the same ends. *)
Example history_runs :
  history_query id (hs_mat (ex_run ex_ops)) 0 (2 * minute) =
    [mkMinuteRow "10.0.0.1" "1.1.1.1" 53 120 2; mkMinuteRow "10.0.0.1" "1.1.1.1" 53 7 1] ∧
  (let links := historical_link <$> history_query id (hs_mat (ex_run ex_ops)) 0 (2 * minute) in
   (λ l, (lk_src l, lk_dst l)) <$> links = replicate 2 ("ip:10.0.0.1", "app:1.1.1.1:53")).
Proof. vm_compute. done. Qed.

(** An interval that does not begin on a minute leaves out the rest of its first minute. *)
Example history_unaligned :
  history_query id (hs_mat (ex_run ex_ops)) (5 * second) (2 * minute) = [mkMinuteRow "10.0.0.1" "1.1.1.1" 53 7 1].
Proof. vm_compute. done. Qed.

(** Rows that arrive after three hours never reach the graph, though the table has them;
    one bad address refuses the whole copy. *)
Example history_late :
  let ops := ex_ops ++ [(200 * minute, CopyRows [ex_rec 0 53 17 1000] (Ok ())); (201 * minute, Refresh)] in
  history_query id (hs_mat (ex_run ops)) 0 (2 * minute) = history_query id (hs_mat (ex_run ex_ops)) 0 (2 * minute) ∧
  length (hs_table (ex_run ops)) = 4%nat ∧
  copy_records ex_inet [] [ex_rec 0 53 17 1; mkFlowRec 0 "nowhere" "1.1.1.1" 53 17 1 1 1 "correlator"] = ([], Raise OtherError).
Proof. vm_compute. done. Qed.

(** After forty days the rows are gone and their sums are still there. *)
Example history_retained :
  let ops := ex_ops ++ [(40 * 24 * hour, Retain); (40 * 24 * hour, Refresh)] in
  hs_table (ex_run ops) = [] ∧ hs_mat (ex_run ops) = hs_mat (ex_run ex_ops).
Proof. vm_compute. done. Qed.

Lemma history_exact_witness :
  dget ("10.0.0.1", "1.1.1.1", 53, 17) (interval_sums (hs_mat (ex_run ex_ops)) 0 (2 * minute)) = Some (mkSums 120 2 2).
Proof.
  destruct (history_exact ex_inet id ex_ops 0 (2 * minute) None 0) as (_ & Hk & _).
  - repeat constructor; discriminate.
  - intros r Hr Hin. apply (settled_by ex_inet [_; _] []); [|by intros r' ?%not_elem_of_nil].
    vm_compute in Hr. set_unfold in Hr. destruct Hr as [->|[->|[->|[]]]]; vm_compute; split; discriminate.
  - rewrite Hk. reflexivity.
Defined.
