(* ===== verification/Wire.v ===== *)
(** * Events on the wire ([redis_bus.py], the readers of [correlator/main.py])

    The JSON of the events that the publishers add to the Redis streams, what the
    readers of the correlator make of it, and the composition of the two ends: the
    flows that reach the windower, and the sign-outs that reach the identity index.
    A value of a type that no producer writes is an error of the reader here; the
    code would carry it along. *)

From S2P Require Import Prelude PyDict PyStr PyText PyDatetime PyJson EventTypes RedisBus IdAdapters IdentityIndex.
From S2P Require Import Cursor Windower Correlator.

(** ** Writing *)

(** [_default] writes the instant; the order of the keys is that of the adapters. *)
Definition flow_dict (e : FlowEvent) : pydict string json :=
  [("ts", JStr (isoformat (fe_ts e))); ("src_ip", JStr (fe_src_ip e)); ("src_port", JInt (fe_src_port e));
   ("dst_ip", JStr (fe_dst_ip e)); ("dst_port", JInt (fe_dst_port e)); ("proto", JInt (fe_proto e));
   ("bytes", JInt (fe_bytes e)); ("packets", JInt (fe_packets e)); ("action", JStr (fe_action e));
   ("fqdn", opt_str (fe_fqdn e)); ("app_id", opt_str (fe_app_id e)); ("source", JStr (fe_source e));
   ("raw_id", opt_str (fe_raw_id e))].

Definition jsonify_flow (e : FlowEvent) : string := dumps_compact (JObj (flow_dict e)).

Definition identity_dict (d : IdentityDict) : pydict string json :=
  [("ts", JStr (isoformat (id_ts d))); ("src_ip", id_src_ip d); ("user_upn", id_user_upn d);
   ("source", JStr (id_source d)); ("event_type", JStr (id_event_type d)); ("confidence", JInt (id_confidence d));
   ("ttl_seconds", JInt (id_ttl_seconds d)); ("mac", id_mac d); ("raw_id", id_raw_id d)].

Definition jsonify_identity (d : IdentityDict) : string := dumps_compact (JObj (identity_dict d)).

(** ** Reading *)

(** The fields of a decoded event, at the types the pipeline uses. *)
Definition str_field (k : string) (v : json) : result string :=
  x ← jitem k v; match x with JStr s => Ok s | _ => Raise TypeError end.
Definition int_field (k : string) (v : json) : result Z :=
  x ← jitem k v; match x with JInt z => Ok z | _ => Raise TypeError end.
Definition null_field (k : string) (v : json) : result (option string) :=
  x ← jitem k v; match x with JStr s => Ok (Some s) | JNull => Ok None | _ => Raise TypeError end.

(** [_read_xstream_into], one payload. *)
Definition read_flow (payload : string) : result FlowEvent :=
  v ← loads payload;
  ts ← (s ← str_field "ts" v; fromisoformat s);
  src ← str_field "src_ip" v; sport ← int_field "src_port" v;
  dst ← str_field "dst_ip" v; dport ← int_field "dst_port" v;
  proto ← int_field "proto" v; bytes ← int_field "bytes" v; packets ← int_field "packets" v;
  action ← str_field "action" v; fqdn ← null_field "fqdn" v; app_id ← null_field "app_id" v;
  source ← str_field "source" v; raw_id ← null_field "raw_id" v;
  Ok (mkFlowEvent ts src sport dst dport proto bytes packets action fqdn app_id source raw_id).

(** An identity event may lack keys. *)
Definition str_opt (k : string) (v : json) : result (option string) :=
  x ← jget k v; match x with None => Ok None | Some (JStr s) => Ok (Some s) | Some _ => Raise TypeError end.
Definition int_opt (k : string) (v : json) : result (option Z) :=
  x ← jget k v; match x with None => Ok None | Some (JInt z) => Ok (Some z) | Some _ => Raise TypeError end.
Definition null_opt (k : string) (v : json) : result (option string) :=
  x ← jget k v; match x with None | Some JNull => Ok None | Some (JStr s) => Ok (Some s) | Some _ => Raise TypeError end.

(** [_identity_consumer], one payload up to [insert]. *)
Definition read_identity (payload : string) : result IdentityEvent :=
  v ← loads payload;
  t ← str_opt "ts" v;
  ts ← (match t with None => Ok None | Some s => x ← fromisoformat s; Ok (Some x) end);
  src ← str_opt "src_ip" v; upn ← str_opt "user_upn" v; source ← str_opt "source" v; kind ← str_opt "event_type" v;
  conf ← int_opt "confidence" v; ttl ← int_opt "ttl_seconds" v; mac ← null_opt "mac" v; raw_id ← null_opt "raw_id" v;
  Ok (mkIdentityEvent ts src upn source kind conf ttl mac raw_id).

(** ** Round trips *)

Definition opt_text_ok (o : option string) : Prop := match o with Some s => text_ok s | None => True end.

Definition flow_ok (e : FlowEvent) : Prop :=
  instant_ok (fe_ts e) ∧ text_ok (fe_src_ip e) ∧ text_ok (fe_dst_ip e) ∧ text_ok (fe_action e) ∧
  text_ok (fe_source e) ∧ opt_text_ok (fe_fqdn e) ∧ opt_text_ok (fe_app_id e) ∧ opt_text_ok (fe_raw_id e) ∧
  Forall (λ z, Z.abs z < int_bound) [fe_src_port e; fe_dst_port e; fe_proto e; fe_bytes e; fe_packets e].

Lemma opt_str_ok o : opt_text_ok o → json_ok (opt_str o).
Proof. destruct o; [apply ok_str | constructor]. Qed.

Lemma isoformat_ok t : instant_ok t → text_ok (isoformat t).
Proof. intros Ht. by apply ascii_text_ok, isoformat_ascii. Qed.

Lemma flow_dict_ok e : flow_ok e → json_ok (JObj (flow_dict e)).
Proof.
  intros (Ht & H1 & H2 & H3 & H4 & H5 & H6 & H7 & Hz). repeat apply Forall_cons in Hz as [? Hz].
  apply ok_obj.
  - apply (bool_decide_unpack (NoDup (dkeys (flow_dict e)))). exact I.
  - repeat (apply Forall_cons; split; [by apply ascii_text_ok|]). by apply Forall_nil.
  - repeat (apply Forall_cons; split; [|]); [..|by apply Forall_nil];
      first [by apply opt_str_ok | by apply ok_int | apply ok_str; by first [apply isoformat_ok | done]].
Qed.

(** A flow event survives the stream: what the correlator reads is the event the
    adapter published, field by field. *)
Lemma flow_wire e : flow_ok e → read_flow (jsonify_flow e) = Ok e.
Proof.
  intros He. unfold read_flow, jsonify_flow. rewrite loads_compact by by apply flow_dict_ok.
  destruct He as (Ht & _). destruct e as [ts src sport dst dport proto bytes packets action fqdn app_id source raw_id].
  cbn [fe_ts] in Ht. cbn [mbind result_bind].
  change (str_field "ts" (JObj (flow_dict _))) with (Ok (isoformat ts)). cbn [mbind result_bind].
  rewrite fromisoformat_isoformat by done. cbn [mbind result_bind].
  by destruct fqdn, app_id, raw_id.
Qed.

(** The texts of an identity event. *)
Definition id_texts (d : IdentityDict) (ip upn : string) (mac raw_id : option string) : Prop :=
  id_src_ip d = JStr ip ∧ id_user_upn d = JStr upn ∧ id_mac d = opt_str mac ∧ id_raw_id d = opt_str raw_id.

Definition wire_event (d : IdentityDict) (ip upn : string) (mac raw_id : option string) : IdentityEvent :=
  mkIdentityEvent (Some (id_ts d)) (Some ip) (Some upn) (Some (id_source d)) (Some (id_event_type d))
    (Some (id_confidence d)) (Some (id_ttl_seconds d)) mac raw_id.

Lemma identity_wire d ip upn mac raw_id :
  id_texts d ip upn mac raw_id → instant_ok (id_ts d) → json_ok (JObj (identity_dict d)) →
  read_identity (jsonify_identity d) = Ok (wire_event d ip upn mac raw_id).
Proof.
  intros (H1 & H2 & H3 & H4) Ht Hok. unfold read_identity, jsonify_identity. rewrite loads_compact by done.
  destruct d as [ts src user source kind conf ttl m r]. cbn in H1, H2, H3, H4, Ht. subst. cbn [mbind result_bind].
  change (str_opt "ts" (JObj (identity_dict _))) with (Ok (Some (isoformat ts))). cbn [mbind result_bind].
  rewrite fromisoformat_isoformat by done. cbn [mbind result_bind]. by destruct mac, raw_id.
Qed.

(** ** From the firewalls to the windower *)

(** The events of a run of the publisher. *)
Definition bus_events (ops : list (bus_op * result ())) : list FlowEvent :=
  omap (λ o, match o.1 with BusPublish ev => Some ev | BusFlush => None end) ops.

Lemma published_events ops : published jsonify_flow ops = jsonify_flow <$> bus_events ops.
Proof.
  unfold published, bus_events. induction ops as [|[[ev|] res] ops IH]; [done| |done]. cbn.
  by rewrite <- IH.
Qed.

Lemma decoded_flows ids evs :
  Forall flow_ok evs → length ids = length evs →
  decoded (zip ids (read_flow <$> (jsonify_flow <$> evs))) = evs.
Proof.
  intros Hok. revert ids. induction Hok as [|e evs He Hok IH]; intros [|i ids] Hl; try done.
  cbn [fmap list_fmap zip zip_with]. unfold decoded. cbn [omap list_omap snd]. rewrite flow_wire by done.
  f_equal. apply IH. by injection Hl.
Qed.

(** Flows cross the stream intact: as long as the pipelines succeed, the events that
    the reader puts on the windower's queue are the first of those the adapters
    published, each equal to what was published and in the same order, and the rest,
    fewer than a batch, wait in the publisher's buffer; every message read is
    acknowledged. *)
Theorem flows_cross_stream stream max_batch maxlen ops p out ids :
  0 < max_batch → Forall flow_ok (bus_events ops) →
  bus_run jsonify_flow (new_flow_publisher stream max_batch maxlen) ops = (p, out) →
  let payloads := xa_payload <$> concat out.*1 in
  length ids = length payloads →
  ∃ waiting, bus_events ops = (read_xstream (zip ids (read_flow <$> payloads))).1 ++ waiting ∧
    fp_buf p = jsonify_flow <$> waiting ∧ Z.of_nat (length waiting) < max_batch ∧
    (read_xstream (zip ids (read_flow <$> payloads))).2 = ids.
Proof.
  intros Hb Hok Hrun payloads Hids.
  apply bus_run_spec in Hrun as (Heq & Hlt & _); [|by cbn]. cbn [fp_buf new_flow_publisher app] in Heq.
  rewrite published_events in Heq. fold payloads in Heq. set (n := length payloads) in *.
  assert (Hpay : payloads = jsonify_flow <$> take n (bus_events ops)).
  { rewrite fmap_take, <- Heq. unfold n. by rewrite take_app_length. }
  assert (Hbuf : fp_buf p = jsonify_flow <$> drop n (bus_events ops)).
  { rewrite fmap_drop, <- Heq. unfold n. by rewrite drop_app_length. }
  exists (drop n (bus_events ops)). rewrite read_xstream_spec. cbn [fst snd].
  assert (Hlen : length ids = length (take n (bus_events ops))).
  { rewrite Hids. unfold n. rewrite Hpay at 1. apply length_fmap. }
  split_and!.
  - rewrite Hpay at 1. rewrite decoded_flows; [by rewrite take_drop| |done]. by apply Forall_take.
  - done.
  - rewrite Hbuf, length_fmap in Hlt. done.
  - rewrite fst_zip; [done|]. rewrite length_fmap. lia.
Qed.

(** ** From the network access controllers to the identity index *)

Lemma ise_texts now line d :
  CiscoIse.parse now line = Some d → id_ts d = now ∧ ∃ ip upn mac raw_id, id_texts d ip upn mac raw_id.
Proof.
  unfold CiscoIse.parse. destruct (negb _); [done|]. unfold CiscoIse.event_of_kv.
  destruct (_ !! "Framed-IP-Address") as [ip|]; [|done]. destruct (_ !! "UserName") as [upn|]; [|done].
  destruct (_ || _); [done|]. match goal with |- no_event (?r ≫= _) = _ → _ => destruct r as [ttl|] end; [|done].
  cbn [mbind result_bind no_event]. intros [= <-]. split; [done|]. by repeat eexists.
Qed.

Lemma clearpass_texts now line d :
  ArubaClearpass.parse now line = Some d → id_ts d = now ∧ ∃ ip upn mac raw_id, id_texts d ip upn mac raw_id.
Proof.
  unfold ArubaClearpass.parse. destruct (search _ _) as [[name ext]|]; [|done]. unfold ArubaClearpass.event_of_kv.
  destruct (ArubaClearpass.session_ttl _) as [ttl|]; [|done]. cbn [mbind result_bind].
  destruct (_ !! "src") as [ip|]; [|done]. cbn [need mbind result_bind].
  destruct (_ !! "suser") as [upn|]; [|done]. cbn [need mbind result_bind no_event]. intros [= <-].
  split; [done|]. by repeat eexists.
Qed.

Section sign_out.
Context {T : Type} `{IntervalTreeLaws Binding T}.

(** C20. A sign-out takes effect: once the consumer has read the event that an access
    controller's stop line gave, the index no longer resolves the address of the line
    to its user, at any instant, whatever it held before. *)
Theorem sign_out_reaches_index ops id now line d :
  CiscoIse.parse now line = Some d ∨ ArubaClearpass.parse now line = Some d →
  id_event_type d = "nac-auth-stop" → instant_ok now → json_ok (JObj (identity_dict d)) →
  ∃ ip upn, id_src_ip d = JStr ip ∧ id_user_upn d = JStr upn ∧
    ∀ a r, (resolve ip a (consume_batch (index_run (T := T) ops) [(id, read_identity (jsonify_identity d))]).1.1).2 = Some r →
           rs_user_upn r ≠ upn.
Proof.
  intros Hparse Hstop Hnow Hok.
  assert (id_ts d = now ∧ ∃ ip upn mac raw_id, id_texts d ip upn mac raw_id) as (Hts & ip & upn & mac & raw_id & Htx).
  { destruct Hparse; [by eapply ise_texts|by eapply clearpass_texts]. }
  exists ip, upn. pose proof Htx as (Hip & Hupn & _). split_and!; [done..|]. intros a r.
  rewrite (identity_wire d ip upn mac raw_id) by (done || by rewrite Hts).
  unfold consume_batch. cbn [foldl consume_message snd fst].
  apply (stop_unbinds_user _ ip (id_ts d)); [done..|]. unfold is_stop, wire_event. cbn [ie_event_type].
  rewrite Hstop. by rewrite bool_decide_eq_true_2.
Qed.
End sign_out.

(** ** Witnesses *)

Lemma epoch_ok : instant_ok 0.
Proof. split; [apply Z.leb_le | apply Z.ltb_lt]; reflexivity. Qed.

Definition demo_flow : FlowEvent :=
  mkFlowEvent 0 "10.0.0.1" 40000 "10.0.0.2" 443 6 1500 12 "allow" None (Some "ssl") "palo_alto" None.

Lemma demo_flow_ok : flow_ok demo_flow.
Proof.
  split_and!; try exact epoch_ok; try (by apply ascii_text_ok); try exact I.
  repeat (apply Forall_cons; split; [by apply int_bound_small|]). by apply Forall_nil.
Qed.

Definition demo_bus : list (bus_op * result ()) := [(BusPublish demo_flow, Ok ()); (BusPublish demo_flow, Ok ()); (BusPublish demo_flow, Ok ())].

(** Three events in batches of two: two are read, one waits. *)
Lemma flows_cross_stream_witness :
  let '(p, out) := bus_run jsonify_flow (new_flow_publisher "flows.raw" 2 None) demo_bus in
  (read_xstream (zip ["1"; "2"] (read_flow <$> (xa_payload <$> concat out.*1)))).2 = ["1"; "2"].
Proof.
  destruct (bus_run jsonify_flow (new_flow_publisher "flows.raw" 2 None) demo_bus) as [p out] eqn:E.
  pose proof E as E'. unfold demo_bus in E'. cbn -[jsonify_flow] in E'. injection E' as _ Hout.
  destruct (flows_cross_stream "flows.raw" 2 None demo_bus p out ["1"; "2"]) as (waiting & _ & _ & _ & Hids);
    [lia| |exact E|by rewrite <- Hout|exact Hids].
  repeat (apply Forall_cons; split; [exact demo_flow_ok|]). by apply Forall_nil.
Defined.

Definition demo_stop_line : string :=
  "<181>CISE_RADIUS_Accounting 0001, Acct-Status-Type=Stop, UserName=bob@corp, Framed-IP-Address=10.0.0.1".
Definition demo_sign_out : IdentityDict :=
  mkIdentityDict 0 (JStr "10.0.0.1") (JStr "bob@corp") "cisco_ise" "nac-auth-stop" 95 0 JNull JNull.

Lemma sign_out_reaches_index_witness :
  ∃ ip upn, id_src_ip demo_sign_out = JStr ip ∧ id_user_upn demo_sign_out = JStr upn ∧
    ∀ a r, (resolve ip a (consume_batch (index_run (T := LT) sample_ops) [("1", read_identity (jsonify_identity demo_sign_out))]).1.1).2 = Some r →
           rs_user_upn r ≠ upn.
Proof.
  apply (sign_out_reaches_index (T := LT) sample_ops "1" 0 demo_stop_line demo_sign_out).
  - left. vm_compute. reflexivity.
  - reflexivity.
  - exact epoch_ok.
  - apply ok_obj.
    + apply (bool_decide_unpack _). exact I.
    + repeat (apply Forall_cons; split; [by apply ascii_text_ok|]). by apply Forall_nil.
    + repeat (apply Forall_cons; split; [|]); [..|by apply Forall_nil];
        first [by apply ok_null | by apply ok_int, int_bound_small | apply ok_str; first [by apply isoformat_ok, epoch_ok | by apply ascii_text_ok]].
Defined.
