(* ===== verification/IdIngest.v ===== *)
(** * The running identity ingest ([_main] of [id_ingest/main.py])

    Discovery of the adapters, their construction, and the service that [_main]
    joins with [gather], as one executable machine: every adapter has its own source
    (a syslog receiver, or the polls of the sign-in log) and its own task; the tasks
    share the producer and the worker of group synchronisation and interleave at each
    [XADD] and at each call of a synchroniser. *)

From S2P Require Import Prelude PyQueue PyStr PyJson PyIp Utf8 EventTypes SyslogReceiver RedisBus.
From S2P Require Import IdAdapters GraphApi GroupSync Wire.

(** ** Discovery *)

(** A class in the name space of a module. *)
Record pyclass : Type := mkClass {
  cls_name : string;
  cls_identity : bool;     (* a subclass of [IdentityAdapter] *)
  cls_abstract : bool      (* [IdentityAdapter] itself *)
}.

(** [discover_adapters]: the classes of the modules named [..._adapter], in the order of
    the package. *)
Definition discover_adapters (modules : list (string * list pyclass)) : list pyclass :=
  mbind (λ m : string * list pyclass,
    if ends_with m.1 "_adapter" then filter (λ c, cls_identity c && negb (cls_abstract c) = true) m.2 else []) modules.

(** The package [id_ingest.adapters]. *)
Definition base_class : pyclass := mkClass "" true true.
Definition adapters_pkg : list (string * list pyclass) :=
  [("ad_4624_adapter", [base_class; mkClass "ad_4624" true false]);
   ("aruba_clearpass_adapter", [base_class; mkClass "aruba_clearpass" true false]);
   ("cisco_ise_adapter", [base_class; mkClass "cisco_ise" true false]);
   ("entra_signin_adapter", [base_class; mkClass "entra_signin" true false])].

Definition instances (s : IdIngestSettings) : list adapter_config :=
  build_instances (cls_name <$> discover_adapters adapters_pkg) s.

(** The synchronisers of [_main], by the settings that switch them on. *)
Definition build_syncs (ad_ldap_url : string) (s : IdIngestSettings) (ad entra : Sync) : list Sync :=
  (if str_true ad_ldap_url then [ad] else []) ++ (if str_true (entra_tenant_id s) then [entra] else []).

Section service.
Context `{PyPrims}.

(** ** State *)

Inductive source : Type :=
  | SyslogSource (parse : Z → string → option IdentityDict) (recv : SyslogReceiver)
  | EntraSource (cidrs : list ip_net) (delta : json) (pending : list IdentityDict).

(** A task waits for its adapter, for an [XADD] or for a synchroniser, or has ended with
    an exception. *)
Inductive task_phase : Type :=
  | TWaiting
  | TPublishing (ev : IdentityDict)
  | TSyncing (upn : string) (todo : list Sync)
  | TEnded.

Record id_task : Type := mkTask { tk_source : source; tk_phase : task_phase }.

(** [gather] waits; has raised, and the [finally] runs; [_main] has ended, with or
    without closing the producer. *)
Inductive service_phase : Type :=
  | Running
  | Closing (e : exn)
  | Closed (e : exn) (producer_closed : bool).

Record id_service : Type := mkIdService {
  is_tasks : list id_task;
  is_worker : GroupSyncWorker;
  is_db : group_db;
  is_phase : service_phase
}.

Definition QUEUE_MAX : Z := 10000.

Definition parse_of (name : string) : Z → string → option IdentityDict :=
  if decide (name = "ad_4624") then λ _, Ad4624.parse
  else if decide (name = "cisco_ise") then CiscoIse.parse
  else ArubaClearpass.parse.

Definition source_of (a : adapter_config) : source :=
  match a with
  | SyslogConfig name _ _ => SyslogSource (parse_of name) (new_receiver QUEUE_MAX)
  | EntraConfig _ _ _ cidrs _ => EntraSource cidrs JNull []
  end.

(** [_main] up to [gather]. *)
Definition start_id_ingest (adapters : list adapter_config) (syncs : list Sync) (notifier : bool) (db : group_db) :
    id_service :=
  mkIdService ((λ a, mkTask (source_of a) TWaiting) <$> adapters) (new_worker syncs notifier) db Running.

(** ** Actions and observations *)

Inductive id_action : Type :=
  | DDatagram (i : nat) (peer data : string)
  | DStream (i : nat) (peer buf : string)        (* the complete messages of a connection's buffer *)
  | DTake (i : nat) (now : Z)                    (* the adapter takes a line *)
  | DPoll (i : nat) (token : result string) (get : string → string → result json) (fuel : nat)
  | DNext (i : nat)                              (* the poll yields its next event *)
  | DAdd (i : nat) (redis : result ())           (* the [XADD] returns *)
  | DSync (i : nat)                              (* the next synchroniser returns *)
  | DCycle (refresh notify : result ())          (* the scheduled full cycle *)
  | DFinish.

Inductive id_obs : Type :=
  | OReceived (i : nat) (ms : list Message)
  | OTaken (i : nat) (now : Z) (m : Message)
  | OPolled (i : nat) (evs : list IdentityDict)
  | OYield (i : nat) (ev : IdentityDict)
  | OAdd (i : nat) (ev : IdentityDict) (cmd : xadd_cmd) (res : result ())
  | OFirst (upn : string)                        (* the first sighting of a user *)
  | OSyncFailed (upn : string) (e : exn).

Definition set_task (s : id_service) (i : nat) (t : id_task) : id_service :=
  mkIdService (<[i := t]> (is_tasks s)) (is_worker s) (is_db s) (is_phase s).

(** [gather] raises the first exception of a task; later ones are dropped. *)
Definition task_fails (s : id_service) (i : nat) (t : id_task) (e : exn) : id_service :=
  mkIdService (<[i := mkTask (tk_source t) TEnded]> (is_tasks s)) (is_worker s) (is_db s)
    (match is_phase s with Running => Closing e | p => p end).

(** [RedisStreamProducer.xadd] with the stream and bound of [make_producer]. *)
Definition identity_cmd (ev : IdentityDict) : xadd_cmd :=
  mkXadd "identity.events" (jsonify_identity ev) (Some 1000000).

(** After the [XADD] of an event: [on_new_upn] up to its first synchroniser. *)
Definition after_add (w : GroupSyncWorker) (ev : IdentityDict) : GroupSyncWorker * task_phase * list id_obs :=
  match event_upn ev, gw_syncs w with
  | Some upn, _ :: _ =>
      if decide (upn ∈ gw_seen w) then (w, TWaiting, [])
      else (mkWorker (gw_syncs w) (gw_notifier w) ({[upn]} ∪ gw_seen w), TSyncing upn (gw_syncs w), [OFirst upn])
  | _, _ => (w, TWaiting, [])
  end.

(** A step of the task [t] at place [i]. *)
Definition task_step (s : id_service) (i : nat) (t : id_task) (act : id_action) : option (id_service * list id_obs) :=
  match act, tk_source t, tk_phase t with
  | DDatagram _ peer data, SyslogSource parse r, ph =>
      Some (set_task s i (mkTask (SyslogSource parse (datagram_received r peer data)) ph),
            [OReceived i (datagram_messages peer data)])
  | DStream _ peer buf, SyslogSource parse r, ph =>
      let ms := pair peer <$> (drain_buffer buf).1 in
      Some (set_task s i (mkTask (SyslogSource parse (enqueue_lines r ms)) ph), [OReceived i ms])
  | DTake _ now, SyslogSource parse r, TWaiting =>
      '(m, q) ← get_nowait (rc_queue r);
      let r' := mkReceiver q (rc_backpressure_drops r) in
      match parse now m.2 with
      | None => Some (set_task s i (mkTask (SyslogSource parse r') TWaiting), [OTaken i now m])
      | Some ev => Some (set_task s i (mkTask (SyslogSource parse r') (TPublishing ev)), [OTaken i now m; OYield i ev])
      end
  | DPoll _ token get fuel, EntraSource cidrs delta [], TWaiting =>
      let '((evs, delta'), _) := poll_once cidrs token get fuel delta in
      Some (set_task s i (mkTask (EntraSource cidrs delta' evs) TWaiting), [OPolled i evs])
  | DNext _, EntraSource cidrs delta (ev :: evs), TWaiting =>
      Some (set_task s i (mkTask (EntraSource cidrs delta evs) (TPublishing ev)), [OYield i ev])
  | DAdd _ (Raise e), _, TPublishing ev =>
      Some (task_fails s i t e, [OAdd i ev (identity_cmd ev) (Raise e)])
  | DAdd _ (Ok _), src, TPublishing ev =>
      let '(w, ph, o) := after_add (is_worker s) ev in
      Some (mkIdService (<[i := mkTask src ph]> (is_tasks s)) w (is_db s) (is_phase s),
            OAdd i ev (identity_cmd ev) (Ok ()) :: o)
  | DSync _, src, TSyncing upn [] => Some (set_task s i (mkTask src TWaiting), [])
  | DSync _, src, TSyncing upn (sy :: todo) =>
      match sync_user sy (JStr upn) with
      | Raise e => Some (task_fails s i t e, [OSyncFailed upn e])
      | Ok _ => Some (set_task s i (mkTask src (TSyncing upn todo)), [])
      end
  | _, _, _ => None
  end.

Definition task_of (act : id_action) : option nat :=
  match act with
  | DDatagram i _ _ | DStream i _ _ | DTake i _ | DPoll i _ _ _ | DNext i | DAdd i _ | DSync i => Some i
  | DCycle _ _ | DFinish => None
  end.

(** A step of the service.  The cycle runs only if the worker was started; the
    scheduler logs its exceptions.  In the [finally], [aclose] of a worker that was
    never started raises, and the producer stays open. *)
Definition id_step (s : id_service) (act : id_action) : option (id_service * list id_obs) :=
  match is_phase s with
  | Closed _ _ => None
  | ph =>
      match task_of act with
      | Some i => t ← is_tasks s !! i; task_step s i t act
      | None =>
          match act, ph, gw_syncs (is_worker s) with
          | DCycle refresh notify, _, _ :: _ =>
              let '(db, _) := full_cycle (is_worker s) (is_db s) refresh notify in
              Some (mkIdService (is_tasks s) (is_worker s) db (is_phase s), [])
          | DFinish, Closing e, [] =>
              Some (mkIdService (is_tasks s) (is_worker s) (is_db s) (Closed OtherError false), [])
          | DFinish, Closing e, _ :: _ =>
              Some (mkIdService (is_tasks s) (is_worker s) (is_db s) (Closed e true), [])
          | _, _, _ => None
          end
      end
  end.

Fixpoint id_run (s : id_service) (acts : list id_action) : option (id_service * list id_obs) :=
  match acts with
  | [] => Some (s, [])
  | a :: rest => '(s1, o1) ← id_step s a; '(s2, o2) ← id_run s1 rest; Some (s2, o1 ++ o2)
  end.

Definition id_reached adapters syncs notifier db (s : id_service) (tr : list id_obs) : Prop :=
  ∃ acts, id_run (start_id_ingest adapters syncs notifier db) acts = Some (s, tr).
(** ** Specification vocabulary *)

(** The part of a trace that concerns the task at [i]. *)
Definition received_at (i : nat) (tr : list id_obs) : list Message :=
  mbind (λ o, match o with OReceived j ms => if decide (j = i) then ms else [] | _ => [] end) tr.
Definition taken_at (i : nat) (tr : list id_obs) : list (Z * Message) :=
  omap (λ o, match o with OTaken j now m => if decide (j = i) then Some (now, m) else None | _ => None end) tr.
Definition polled_at (i : nat) (tr : list id_obs) : list IdentityDict :=
  mbind (λ o, match o with OPolled j evs => if decide (j = i) then evs else [] | _ => [] end) tr.
Definition yields_at (i : nat) (tr : list id_obs) : list IdentityDict :=
  omap (λ o, match o with OYield j ev => if decide (j = i) then Some ev else None | _ => None end) tr.
Definition adds_at (i : nat) (tr : list id_obs) : list (IdentityDict * result ()) :=
  omap (λ o, match o with OAdd j ev _ r => if decide (j = i) then Some (ev, r) else None | _ => None end) tr.

(** The payloads of the stream, the users in the order they were first seen, and the
    exceptions of the tasks. *)
Definition stream_payloads (tr : list id_obs) : list string :=
  omap (λ o, match o with OAdd _ _ cmd (Ok _) => Some (xa_payload cmd) | _ => None end) tr.
Definition stream_events (tr : list id_obs) : list IdentityDict :=
  omap (λ o, match o with OAdd _ ev _ (Ok _) => Some ev | _ => None end) tr.
Definition firsts (tr : list id_obs) : list string :=
  omap (λ o, match o with OFirst u => Some u | _ => None end) tr.
Definition failures (tr : list id_obs) : list exn :=
  omap (λ o, match o with OAdd _ _ _ (Raise e) | OSyncFailed _ e => Some e | _ => None end) tr.

Definition in_flight (ph : task_phase) : list IdentityDict :=
  match ph with TPublishing ev => [ev] | _ => [] end.

(** What the source of a task has given it. *)
Definition source_inv (src : source) (i : nat) (tr : list id_obs) : Prop :=
  match src with
  | SyslogSource parse r =>
      receiver_inv QUEUE_MAX r (taken_at i tr).*2 (received_at i tr) ∧ yields_at i tr = syslog_run parse (taken_at i tr)
  | EntraSource _ _ pending => polled_at i tr = yields_at i tr ++ pending
  end.

(** Every event yielded is sent, in order, one at a time; only the last [XADD] of a task
    can have failed, and the task ended with it. *)
Definition task_inv (t : id_task) (i : nat) (tr : list id_obs) : Prop :=
  source_inv (tk_source t) i tr ∧
  (adds_at i tr).*1 ++ in_flight (tk_phase t) = yields_at i tr ∧
  (tk_phase t ≠ TEnded → Forall (λ a, is_ok a.2 = true) (adds_at i tr)) ∧
  (∀ l x, adds_at i tr = l ++ [x] → Forall (λ a, is_ok a.2 = true) l).

Definition worker_inv (syncs : list Sync) (w : GroupSyncWorker) (tr : list id_obs) : Prop :=
  gw_syncs w = syncs ∧ gw_seen w = list_to_set (firsts tr) ∧ NoDup (firsts tr) ∧
  (syncs ≠ [] → ∀ ev u, ev ∈ stream_events tr → event_upn ev = Some u → u ∈ firsts tr).

Definition phase_inv (s : id_service) (tr : list id_obs) : Prop :=
  match is_phase s with
  | Running => failures tr = [] ∧ Forall (λ t, tk_phase t ≠ TEnded) (is_tasks s)
  | Closing e => head (failures tr) = Some e
  | Closed e true => head (failures tr) = Some e ∧ gw_syncs (is_worker s) ≠ []
  | Closed e false => failures tr ≠ [] ∧ gw_syncs (is_worker s) = []
  end.

Lemma at_app i tr o :
  received_at i (tr ++ o) = received_at i tr ++ received_at i o ∧ taken_at i (tr ++ o) = taken_at i tr ++ taken_at i o ∧
  polled_at i (tr ++ o) = polled_at i tr ++ polled_at i o ∧ yields_at i (tr ++ o) = yields_at i tr ++ yields_at i o ∧
  adds_at i (tr ++ o) = adds_at i tr ++ adds_at i o.
Proof. unfold received_at, polled_at. rewrite !bind_app. split_and!; [done| |done|..]; apply omap_app. Qed.

Lemma all_app tr o :
  stream_payloads (tr ++ o) = stream_payloads tr ++ stream_payloads o ∧
  stream_events (tr ++ o) = stream_events tr ++ stream_events o ∧
  firsts (tr ++ o) = firsts tr ++ firsts o ∧ failures (tr ++ o) = failures tr ++ failures o.
Proof. split_and!; apply omap_app. Qed.

(** Nothing in [o] concerns [i]. *)
Definition silent (i : nat) (o : list id_obs) : Prop :=
  received_at i o = [] ∧ taken_at i o = [] ∧ polled_at i o = [] ∧ yields_at i o = [] ∧ adds_at i o = [].

Lemma task_inv_silent t i tr o : silent i o → task_inv t i tr → task_inv t i (tr ++ o).
Proof.
  intros (E1 & E2 & E3 & E4 & E5) Ht. unfold task_inv, source_inv in *.
  destruct (at_app i tr o) as (-> & -> & -> & -> & ->). rewrite E1, E2, E3, E4, E5, !app_nil_r. exact Ht.
Qed.

(** The observations of a step: of its own task, and of the others. *)
Ltac obs_here := unfold received_at, taken_at, polled_at, yields_at, adds_at; csimpl; rewrite ?decide_True by done; csimpl.
Ltac obs_silent := intros j Hj; unfold silent; obs_here; rewrite ?decide_False by done; done.

Lemma after_add_spec w ev w' ph oo :
  after_add w ev = (w', ph, oo) →
  in_flight ph = [] ∧ ph ≠ TEnded ∧ (∀ j, silent j oo) ∧ failures oo = [] ∧ stream_events oo = [] ∧
  gw_syncs w' = gw_syncs w ∧ gw_seen w' = gw_seen w ∪ list_to_set (firsts oo) ∧ NoDup (firsts oo) ∧
  (∀ u, u ∈ firsts oo → u ∉ gw_seen w) ∧ (gw_syncs w ≠ [] → ∀ u, event_upn ev = Some u → u ∈ gw_seen w').
Proof.
  unfold after_add. intros Ha.
  assert (Hq : (w, TWaiting, []) = (w', ph, oo) →
    (gw_syncs w ≠ [] → ∀ u, event_upn ev = Some u → u ∈ gw_seen w) →
    in_flight ph = [] ∧ ph ≠ TEnded ∧ (∀ j, silent j oo) ∧ failures oo = [] ∧ stream_events oo = [] ∧
    gw_syncs w' = gw_syncs w ∧ gw_seen w' = gw_seen w ∪ list_to_set (firsts oo) ∧ NoDup (firsts oo) ∧
    (∀ u, u ∈ firsts oo → u ∉ gw_seen w) ∧ (gw_syncs w ≠ [] → ∀ u, event_upn ev = Some u → u ∈ gw_seen w')).
  { intros [= <- <- <-] Hu. split_and!; try done; [set_solver|constructor|set_solver]. }
  destruct (event_upn ev) as [u|]; [|by apply Hq]. destruct (gw_syncs w) as [|sy sys] eqn:Es; [by apply Hq|].
  destruct (decide (u ∈ gw_seen w)) as [Hin|Hin]; [apply Hq; [done|by intros _ ? [= <-]]|].
  injection Ha as <- <- <-. split_and!; try done; simpl.
  - unfold firsts. csimpl. set_solver.
  - apply NoDup_singleton.
  - intros v Hv. apply list_elem_of_singleton in Hv. by subst.
  - intros _ v [= <-]. set_solver.
Qed.

(** Sending one more event. *)
Lemma adds_snoc ev r (A : list (IdentityDict * result ())) :
  Forall (λ a, is_ok a.2 = true) A →
  (is_ok r = true → Forall (λ a, is_ok a.2 = true) (A ++ [(ev, r)])) ∧
  (∀ l x, A ++ [(ev, r)] = l ++ [x] → Forall (λ a, is_ok a.2 = true) l).
Proof.
  intros HA. split; [intros Hr; apply Forall_app; split; [done|by apply Forall_singleton]|].
  by intros l x [-> _]%app_inj_tail.
Qed.

(** What the source of a task has given it, step by step: the syslog source gets lines
    and gives them away, the poll gets pages and gives events. *)
Lemma source_app src i tr o :
  source_inv src i (tr ++ o) ↔
  match src with
  | SyslogSource parse r =>
      receiver_inv QUEUE_MAX r ((taken_at i tr).*2 ++ (taken_at i o).*2) (received_at i tr ++ received_at i o) ∧
      yields_at i tr ++ yields_at i o = syslog_run parse (taken_at i tr ++ taken_at i o)
  | EntraSource _ _ pending => polled_at i tr ++ polled_at i o = (yields_at i tr ++ yields_at i o) ++ pending
  end.
Proof.
  unfold source_inv. destruct (at_app i tr o) as (-> & -> & -> & -> & _). by destruct src; rewrite ?fmap_app.
Qed.

Lemma source_kept src i tr o :
  received_at i o = [] → taken_at i o = [] → polled_at i o = [] → yields_at i o = [] →
  source_inv src i tr → source_inv src i (tr ++ o).
Proof. intros E1 E2 E3 E4 Hsrc. apply source_app. rewrite E1, E2, E3, E4, !app_nil_r. exact Hsrc. Qed.

Lemma source_receive parse r r' i ms tr :
  (∀ taken received, receiver_inv QUEUE_MAX r taken received → receiver_inv QUEUE_MAX r' taken (received ++ ms)) →
  source_inv (SyslogSource parse r) i tr → source_inv (SyslogSource parse r') i (tr ++ [OReceived i ms]).
Proof. intros Hr [H1 H2]. apply source_app. obs_here. rewrite !app_nil_r. split; [by apply Hr|done]. Qed.

Lemma source_take parse r i now m q tr :
  get_nowait (rc_queue r) = Some (m, q) → source_inv (SyslogSource parse r) i tr →
  source_inv (SyslogSource parse (mkReceiver q (rc_backpressure_drops r))) i
    (tr ++ OTaken i now m :: match parse now m.2 with Some ev => [OYield i ev] | None => [] end).
Proof.
  intros Eg [Hr Hy]. apply (receiver_inv_take _ _ _ _ _ _ Hr) in Eg. apply source_app. unfold syslog_run in *.
  rewrite Hy, omap_app. destruct (parse now m.2) as [ev|] eqn:Ev; obs_here; by rewrite Ev, ?app_nil_r.
Qed.

(** A step in which the task sends nothing: what it yields is in flight. *)
Lemma task_inv_step t t' i tr o :
  task_inv t i tr → source_inv (tk_source t') i (tr ++ o) → adds_at i o = [] →
  in_flight (tk_phase t') = in_flight (tk_phase t) ++ yields_at i o →
  (tk_phase t' ≠ TEnded → tk_phase t ≠ TEnded) → task_inv t' i (tr ++ o).
Proof.
  intros (_ & Hadd & Hall & Hlast) Hsrc Ea Ef Hne. split; [done|].
  destruct (at_app i tr o) as (_ & _ & _ & -> & ->). rewrite Ea, Ef, app_nil_r, (assoc_L (++)), Hadd.
  split_and!; [done|intros Hph; by apply Hall, Hne|done].
Qed.

(** A step in which the event in flight has been sent, or was not. *)
Lemma task_inv_add t ph i ev r tr o :
  task_inv t i tr → tk_phase t = TPublishing ev → silent i o → in_flight ph = [] → (is_ok r = false → ph = TEnded) →
  task_inv (mkTask (tk_source t) ph) i (tr ++ OAdd i ev (identity_cmd ev) r :: o).
Proof.
  intros (Hsrc & Hadd & Hall & Hlast) Eph (E1 & E2 & E3 & E4 & E5) Ef He. rewrite Eph in *. cbn [in_flight] in Hadd.
  destruct (adds_snoc ev r (adds_at i tr)) as [Hok Hup]; [by apply Hall|].
  assert (Ea : adds_at i (OAdd i ev (identity_cmd ev) r :: o) = [(ev, r)]) by (revert E5; obs_here; by intros ->).
  split; [by apply source_kept|]. destruct (at_app i tr (OAdd i ev (identity_cmd ev) r :: o)) as (_ & _ & _ & -> & ->).
  change (yields_at i (OAdd i ev (identity_cmd ev) r :: o)) with (yields_at i o).
  cbn [tk_phase]. rewrite Ea, E4, Ef, !app_nil_r, fmap_app. split_and!; [done| |done].
  intros Hph. apply Hok. destruct r; [done|]. by rewrite He in Hph.
Qed.

Lemma task_inv_sync t t' i tr o :
  task_inv t i tr → tk_source t' = tk_source t → silent i o → in_flight (tk_phase t) = [] → in_flight (tk_phase t') = [] →
  (tk_phase t' ≠ TEnded → tk_phase t ≠ TEnded) → task_inv t' i (tr ++ o).
Proof.
  intros Ht Es (E1 & E2 & E3 & E4 & E5) Ef Ef' Hne. apply (task_inv_step t); [done| |done| |done].
  - rewrite Es. apply source_kept; [done..|]. apply Ht.
  - by rewrite Ef, Ef', E4.
Qed.

(** What a step of the task at [i] does: its new state, and nothing to the others. *)
Definition task_effect (s s' : id_service) (i : nat) (tr o : list id_obs) : Prop :=
  ∃ t', is_tasks s' = <[i := t']> (is_tasks s) ∧ is_db s' = is_db s ∧ task_inv t' i (tr ++ o) ∧
    (∀ j, j ≠ i → silent j o).

Lemma task_effect_intro s s' i t' tr o :
  is_tasks s' = <[i := t']> (is_tasks s) → is_db s' = is_db s → task_inv t' i (tr ++ o) →
  (∀ j, j ≠ i → silent j o) → task_effect s s' i tr o.
Proof. intros. by exists t'. Qed.

(** The steps that feed the task. *)
Lemma source_step_spec s i t act s' o tr :
  task_step s i t act = Some (s', o) → task_of act = Some i →
  match act with DAdd _ _ | DSync _ => False | _ => True end → task_inv t i tr → task_effect s s' i tr o.
Proof.
  intros Hs Ha Hk Ht. pose proof Ht as [Hsrc _].
  destruct t as [[parse r|cidrs delta pending] ph], act as [i' peer data|i' peer buf|i' now|i' token get fuel|i'|i' ?|i'| |];
    try done; injection Ha as ->; unfold task_step in Hs; cbn [tk_source tk_phase] in Hs, Hsrc.
  - injection Hs as <- <-. eapply task_effect_intro; [done..| |obs_silent].
    eapply task_inv_step; [done| |by obs_here; rewrite ?app_nil_r..|done]. eapply source_receive; [|done].
    intros taken received Hr. rewrite datagram_enqueue. by apply receiver_inv_receive.
  - injection Hs as <- <-. eapply task_effect_intro; [done..| |obs_silent].
    eapply task_inv_step; [done| |by obs_here; rewrite ?app_nil_r..|done]. eapply source_receive; [|done].
    intros taken received Hr. by apply receiver_inv_receive.
  - destruct ph; try done. apply bind_Some in Hs as ([m q] & Eg & Hs).
    pose proof (source_take parse r i now m q tr Eg Hsrc) as Htake.
    destruct (parse now m.2) as [ev|] eqn:Ev; injection Hs as <- <-;
      (eapply task_effect_intro; [done..| |obs_silent]); by (eapply task_inv_step; [done|done|by obs_here..]).
  - destruct pending, ph; try done. destruct (poll_once _ _ _ _ _) as [[evs delta'] r]. injection Hs as <- <-.
    eapply task_effect_intro; [done..| |obs_silent]. eapply task_inv_step; [done| |by obs_here..].
    apply source_app. cbn [tk_source]. simpl in Hsrc. rewrite Hsrc. obs_here. by rewrite !app_nil_r.
  - destruct pending as [|ev evs], ph; try done. injection Hs as <- <-.
    eapply task_effect_intro; [done..| |obs_silent]. eapply task_inv_step; [done| |by obs_here..].
    apply source_app. cbn [tk_source]. simpl in Hsrc. rewrite Hsrc. obs_here. by rewrite app_nil_r, <-(assoc_L (++)).
Qed.

(** The steps that send an event and synchronise its user. *)
Lemma sink_step_spec s i t act s' o tr :
  task_step s i t act = Some (s', o) → task_of act = Some i →
  match act with DAdd _ _ | DSync _ => True | _ => False end → task_inv t i tr → task_effect s s' i tr o.
Proof.
  intros Hs Ha Hk Ht.
  destruct t as [src [|ev|upn todo|]], act as [| | | | |i' [[]|e]|i'| |]; try done; injection Ha as ->; unfold task_step in Hs;
    cbn [tk_source tk_phase] in Hs; try (by destruct src as [|? ? []]).
  - destruct (after_add (is_worker s) ev) as [[w ph] oo] eqn:Ea.
    apply after_add_spec in Ea as (Hf & Hne & Hsil & _). injection Hs as <- <-.
    eapply task_effect_intro; [done..|by apply (task_inv_add (mkTask src (TPublishing ev)))|].
    intros j Hj. specialize (Hsil j). revert Hsil. unfold silent. obs_here. by rewrite !decide_False by done.
  - injection Hs as <- <-. eapply task_effect_intro; [done..| |obs_silent].
    by apply (task_inv_add (mkTask src (TPublishing ev))).
  - assert (Hsync : ∀ ph o, in_flight ph = [] → silent i o → task_inv (mkTask src ph) i (tr ++ o)).
    { intros ph' o' Hf Ho. by eapply task_inv_sync. }
    destruct todo as [|sy todo]; [|destruct (sync_user sy (JStr upn))]; injection Hs as <- <-;
      (eapply task_effect_intro; [done..|by apply Hsync|obs_silent]).
Qed.

(** A step of a task: its new state, and what it shows. *)
Lemma task_step_spec s i t act s' o tr :
  task_step s i t act = Some (s', o) → task_of act = Some i → task_inv t i tr → task_effect s s' i tr o.
Proof.
  intros Hs Ha Ht.
  destruct act; first [by eapply source_step_spec|by eapply sink_step_spec].
Qed.

Definition service_inv (syncs : list Sync) (s : id_service) (tr : list id_obs) : Prop :=
  worker_inv syncs (is_worker s) tr ∧ phase_inv s tr ∧ (∀ i t, is_tasks s !! i = Some t → task_inv t i tr).

(** A step of a task that ends nothing and shows no new user. *)
Lemma quiet_step syncs s s' tr o i t' :
  worker_inv syncs (is_worker s) tr → phase_inv s tr →
  is_worker s' = is_worker s → is_phase s' = is_phase s → is_tasks s' = <[i := t']> (is_tasks s) →
  (is_phase s = Running → tk_phase t' ≠ TEnded) → firsts o = [] → failures o = [] → stream_events o = [] →
  worker_inv syncs (is_worker s') (tr ++ o) ∧ phase_inv s' (tr ++ o).
Proof.
  intros Hw Hp Ew Ep Et Hne E1 E2 E3. unfold worker_inv, phase_inv in *.
  destruct (all_app tr o) as (_ & -> & -> & ->). rewrite E1, E2, E3, !app_nil_r, Ew, Ep, Et. split; [done|].
  destruct (is_phase s); [|done..]. destruct Hp as [Hf Hall]. split; [done|]. apply Forall_insert; [done|by apply Hne].
Qed.

(** A step in which the task ends with an exception. *)
Lemma failing_step syncs s i t e tr o :
  worker_inv syncs (is_worker s) tr → phase_inv s tr → (∀ x b, is_phase s ≠ Closed x b) →
  firsts o = [] → failures o = [e] → stream_events o = [] →
  worker_inv syncs (is_worker (task_fails s i t e)) (tr ++ o) ∧ phase_inv (task_fails s i t e) (tr ++ o).
Proof.
  intros Hw Hp Hc E1 E2 E3. unfold worker_inv, phase_inv in *.
  destruct (all_app tr o) as (_ & -> & -> & ->). rewrite E1, E2, E3, !app_nil_r. cbn [task_fails is_worker is_phase].
  split; [done|]. destruct (is_phase s); [by destruct Hp as [-> _]| |by edestruct Hc].
  destruct (failures tr); [done|exact Hp].
Qed.

Lemma added_step syncs s i src ev w ph oo tr :
  worker_inv syncs (is_worker s) tr → phase_inv s tr → (∀ x b, is_phase s ≠ Closed x b) →
  after_add (is_worker s) ev = (w, ph, oo) →
  let s' := mkIdService (<[i := mkTask src ph]> (is_tasks s)) w (is_db s) (is_phase s) in
  let o := OAdd i ev (identity_cmd ev) (Ok ()) :: oo in
  worker_inv syncs (is_worker s') (tr ++ o) ∧ phase_inv s' (tr ++ o).
Proof.
  intros (Hs & Hse & Hnd & Hcov) Hp Hc (_ & Hne & _ & Hf & He & Hs' & Hse' & Hnd' & Hnew & Hseen)%after_add_spec s' o.
  destruct (all_app tr o) as (_ & E1 & E2 & E3). subst o.
  assert (F1 : firsts (OAdd i ev (identity_cmd ev) (Ok ()) :: oo) = firsts oo) by done.
  assert (F2 : failures (OAdd i ev (identity_cmd ev) (Ok ()) :: oo) = []) by done.
  assert (F3 : stream_events (OAdd i ev (identity_cmd ev) (Ok ()) :: oo) = [ev])
    by (unfold stream_events in *; csimpl; by rewrite He).
  unfold worker_inv, phase_inv. rewrite E1, E2, E3, F1, F2, F3, app_nil_r. cbn [s' is_worker is_phase is_tasks]. split.
  - split; [congruence|]. split; [rewrite Hse', Hse, list_to_set_app_L; done|]. split.
    + apply NoDup_app. split; [done|]. split; [|done]. intros u Hu Hu'. apply (Hnew u Hu'). rewrite Hse. set_solver.
    + intros Hne' ev' u [Hin|Hin]%elem_of_app Hev; apply elem_of_app; [left; by eapply Hcov|].
      apply list_elem_of_singleton in Hin as ->. rewrite <- Hs in Hne'. specialize (Hseen Hne' u Hev).
      rewrite Hse', Hse in Hseen. set_solver.
  - unfold phase_inv in Hp. destruct (is_phase s); [|exact Hp|by edestruct Hc].
    destruct Hp as [Hfl Hall]. split; [done|]. by apply Forall_insert.
Qed.

(** The worker and the phase after a step of a task. *)
Lemma task_step_global syncs s i t act s' o tr :
  is_tasks s !! i = Some t → task_step s i t act = Some (s', o) → (∀ x b, is_phase s ≠ Closed x b) →
  (is_phase s = Running → tk_phase t ≠ TEnded) →
  worker_inv syncs (is_worker s) tr → phase_inv s tr →
  worker_inv syncs (is_worker s') (tr ++ o) ∧ phase_inv s' (tr ++ o).
Proof.
  intros Hi Hs Hc Hrun Hw Hp. unfold task_step in Hs.
  destruct act as [i' peer data|i' peer buf|i' now|i' token get fuel|i'|i' [[]|e]|i'| |].
  - destruct (tk_source t); [|done]. injection Hs as <- <-. by eapply quiet_step.
  - destruct (tk_source t); [|done]. injection Hs as <- <-. by eapply quiet_step.
  - destruct (tk_source t) as [parse r|]; [|done]. destruct (tk_phase t); try done.
    destruct (get_nowait (rc_queue r)) as [[m q]|]; [|done]. cbn [mbind option_bind] in Hs.
    destruct (parse now m.2); injection Hs as <- <-; by eapply quiet_step.
  - destruct (tk_source t) as [|cidrs delta [|]]; try done. destruct (tk_phase t); try done.
    destruct (poll_once _ _ _ _ _) as [[evs delta'] r]. injection Hs as <- <-. by eapply quiet_step.
  - destruct (tk_source t) as [|cidrs delta [|]]; try done. destruct (tk_phase t); try done.
    injection Hs as <- <-. by eapply quiet_step.
  - destruct (tk_phase t) as [|ev| |]; [by destruct (tk_source t) as [|? ? []]| |by destruct (tk_source t) as [|? ? []]..].
    destruct (after_add (is_worker s) ev) as [[w ph] oo] eqn:Ea. injection Hs as <- <-. by eapply added_step.
  - destruct (tk_phase t) as [|ev| |]; [by destruct (tk_source t) as [|? ? []]| |by destruct (tk_source t) as [|? ? []]..].
    injection Hs as <- <-. by eapply failing_step.
  - destruct (tk_phase t) as [|ev|upn todo|]; [by destruct (tk_source t) as [|? ? []]..| |by destruct (tk_source t) as [|? ? []]].
    destruct todo as [|sy todo]; [injection Hs as <- <-; by eapply quiet_step|].
    destruct (sync_user sy (JStr upn)) as [l|e]; injection Hs as <- <-; [by eapply quiet_step|by eapply failing_step].
  - by destruct (tk_source t) as [|? ? []], (tk_phase t).
  - by destruct (tk_source t) as [|? ? []], (tk_phase t).
Qed.

Lemma id_step_inv syncs s act s' o tr :
  service_inv syncs s tr → id_step s act = Some (s', o) → service_inv syncs s' (tr ++ o).
Proof.
  intros (Hw & Hp & Ht) Hs. unfold id_step in Hs.
  assert (Hc : ∀ x b, is_phase s ≠ Closed x b) by (intros x b E; by rewrite E in Hs).
  destruct (task_of act) as [i|] eqn:Ea.
  - assert (Hs' : (t ← is_tasks s !! i; task_step s i t act) = Some (s', o)) by (by destruct (is_phase s)).
    clear Hs. destruct (is_tasks s !! i) as [t|] eqn:Ei; [|done]. cbn [mbind option_bind] in Hs'.
    assert (Hrun : is_phase s = Running → tk_phase t ≠ TEnded).
    { intros E. unfold phase_inv in Hp. rewrite E in Hp. destruct Hp as [_ Hall].
      rewrite Forall_forall in Hall. apply Hall. by eapply list_elem_of_lookup_2. }
    destruct (task_step_global syncs s i t act s' o tr Ei Hs' Hc Hrun Hw Hp) as [Hw' Hp'].
    split; [done|]. split; [done|].
    destruct (task_step_spec s i t act s' o tr Hs' Ea (Ht i t Ei)) as (t' & Et & _ & Ht' & Hsil).
    intros j u Hj. rewrite Et in Hj. destruct (decide (j = i)) as [->|Hne].
    + rewrite list_lookup_insert_eq in Hj by (by eapply lookup_lt_Some). by injection Hj as <-.
    + rewrite list_lookup_insert_ne in Hj by done. apply task_inv_silent; [by apply Hsil|by apply Ht].
  - destruct act as [| | | | | | |refresh notify|]; try discriminate Ea.
    + assert (∃ db, s' = mkIdService (is_tasks s) (is_worker s) db (is_phase s) ∧ o = []) as (db & -> & ->).
      { destruct (is_phase s), (gw_syncs (is_worker s)); try done; destruct (full_cycle _ _ _ _) as [db r];
          injection Hs as <- <-; by exists db. }
      by rewrite app_nil_r.
    + unfold phase_inv in Hp. destruct (is_phase s) as [|e|e b] eqn:Eph; [by destruct (gw_syncs (is_worker s))| |by edestruct Hc].
      destruct (gw_syncs (is_worker s)) as [|sy sys] eqn:Esy; injection Hs as <- <-; rewrite app_nil_r;
        (split; [done|]); (split; [|done]); unfold phase_inv; simpl; [|by rewrite Esy].
      split; [|done]. by destruct (failures tr).
Qed.

Lemma id_run_inv syncs s acts s' o tr :
  service_inv syncs s tr → id_run s acts = Some (s', o) → service_inv syncs s' (tr ++ o).
Proof.
  revert s o tr. induction acts as [|a acts IH]; intros s o tr Hi Hr; simpl in Hr.
  { injection Hr as <- <-. by rewrite app_nil_r. }
  apply bind_Some in Hr as ([s1 o1] & E1 & Hr). apply bind_Some in Hr as ([s2 o2] & E2 & Hr). injection Hr as <- <-.
  rewrite (assoc_L (++)). eapply IH; [by eapply id_step_inv|done].
Qed.

Lemma id_reached_inv adapters syncs notifier db s tr :
  id_reached adapters syncs notifier db s tr → service_inv syncs s tr.
Proof.
  intros [acts Hr]. apply (id_run_inv syncs _ acts s tr []) in Hr; [done|]. split; [|split].
  - split; [done|]. split; [done|]. split; [constructor|]. by intros _ ev u ?%not_elem_of_nil.
  - split; [done|]. by apply Forall_fmap, Forall_true.
  - intros i t Ht. unfold start_id_ingest in Ht. cbn [is_tasks] in Ht.
    apply list_lookup_fmap_Some in Ht as (a & -> & Ha).
    assert (Hx : Forall (λ a : IdentityDict * result (), is_ok a.2 = true) []) by constructor.
    split; [|split_and!; [done|done|by intros [] ? ?]].
    destruct a; simpl; [|done]. split; [|done]. split; [|by split; [apply arrived_refl|]].
    split; [by right|done].
Qed.
(** C13. The service publishes what its adapters yield.  At every moment, for the adapter
    at any place: the lines its receiver got reach it in order, each at most once and
    all of them but the drops that are counted; it yields exactly the events of the
    lines it took (of the polls, for the sign-in log, but those that wait); and its
    events are sent to the stream in that order, each once, with at most one in flight,
    each of them successfully except for a last one with which it ended. *)
Theorem identity_in_order adapters syncs notifier db s tr i t :
  id_reached adapters syncs notifier db s tr → is_tasks s !! i = Some t →
  match tk_source t with
  | SyslogSource parse r =>
      sublist ((taken_at i tr).*2 ++ q_items (rc_queue r)) (received_at i tr) ∧
      rc_backpressure_drops r + Z.of_nat (length (taken_at i tr)) + Z.of_nat (length (q_items (rc_queue r))) = Z.of_nat (length (received_at i tr)) ∧
      yields_at i tr = syslog_run parse (taken_at i tr)
  | EntraSource _ _ pending => polled_at i tr = yields_at i tr ++ pending
  end ∧
  (adds_at i tr).*1 ++ in_flight (tk_phase t) = yields_at i tr ∧
  (tk_phase t ≠ TEnded → Forall (λ a, is_ok a.2 = true) (adds_at i tr)) ∧
  (∀ l x, adds_at i tr = l ++ [x] → Forall (λ a, is_ok a.2 = true) l).
Proof.
  intros (_ & _ & Hi)%id_reached_inv Ht. destruct (Hi i t Ht) as (Hsrc & Hrest). split; [|done].
  destruct (tk_source t); [|done]. destruct Hsrc as ((_ & [Hsub _] & Hd) & Hy). split; [done|]. split; [|done].
  rewrite length_fmap in Hd. exact Hd.
Qed.

End service.

(** The three syslog adapters are always built, so that [_main] never idles; the
    sign-in log is read exactly when a tenant is set and every network parses. *)
Theorem instances_spec s :
  ∃ entra, instances s =
    SyslogConfig "ad_4624" "0.0.0.0" (ad_syslog_port s) ::
    SyslogConfig "aruba_clearpass" "0.0.0.0" (clearpass_syslog_port s) ::
    SyslogConfig "cisco_ise" "0.0.0.0" (ise_syslog_port s) :: option_list entra ∧
  (is_Some entra ↔ entra_tenant_id s ≠ "" ∧
     Forall (λ c, is_ok (ip_network true c) = true) (corp_cidrs (entra_corp_cidrs s))).
Proof.
  set (built := match build_adapter "entra_signin" s with Ok a => a | Raise _ => None end).
  assert (E : instances s =
    SyslogConfig "ad_4624" "0.0.0.0" (ad_syslog_port s) :: SyslogConfig "aruba_clearpass" "0.0.0.0" (clearpass_syslog_port s) ::
    SyslogConfig "cisco_ise" "0.0.0.0" (ise_syslog_port s) :: match built with Some a => [a] | None => [] end) by reflexivity.
  exists built. split; [rewrite E; clear E; by destruct built|]. clear E.
  subst built. unfold build_adapter. simpl. destruct (entra_tenant_id s) as [|c tenant] eqn:Et; simpl.
  { split; [by intros [? ?]|by intros [? _]]. }
  unfold entra_from_config.
  assert (Hn : ∀ ws, is_ok (ip_networks ws) = true ↔ Forall (λ c, is_ok (ip_network true c) = true) ws).
  { induction ws as [|w ws IH]; [by split; [constructor|]|]. simpl. rewrite Forall_cons, <- IH.
    destruct (ip_network true w); simpl; [|naive_solver]. destruct (ip_networks ws); naive_solver. }
  rewrite <- Hn. destruct (ip_networks _); simpl; [by split|]. split; [by intros [? ?]|by intros [_ ?]].
Qed.

(** ** Concrete runs *)

#[local] Instance run_prims : PyPrims :=
  {| float_is := λ _ _, false; float_str := id; container_str := λ _, ""; float_trunc := λ _, Raise OverflowError |}.

Definition ex_settings : IdIngestSettings := mkSettings 5516 5517 5518 "" "" "" "10.0.0.0/8" 60.

(** A ClearPass line of the user [u]. *)
Definition clearpass_line (u : string) : string :=
  "<134>CEF:0|Aruba|ClearPass|6.9|1|RADIUS Accounting Start|5|src=10.0.0.9 suser=" +:+ u +:+ " externalId=e1".

Definition ex_id_start (syncs : list Sync) : id_service :=
  start_id_ingest (instances ex_settings) syncs true (mkGroupDb [] [] 0).

Definition ex_id_acts : list id_action :=
  [DDatagram 1 "10.1.1.1" (clearpass_line "alice"); DDatagram 1 "10.1.1.1" (clearpass_line "mallory");
   DDatagram 0 "10.1.1.2" "no json"; DTake 1 5; DTake 0 5; DAdd 1 (Ok ()); DSync 1; DSync 1; DTake 1 6; DAdd 1 (Ok ());
   DSync 1; DFinish].

Definition ex_id_run : option (id_service * list id_obs) := id_run (ex_id_start [demo_sync]) ex_id_acts.

Definition id_facts (r : id_service * list id_obs) : list json * list string * service_phase * list (option task_phase) :=
  (id_user_upn <$> stream_events r.2, firsts r.2, is_phase r.1, [tk_phase <$> is_tasks r.1 !! 1%nat]).

Lemma ex_id_facts :
  id_facts <$> ex_id_run =
    Some ([JStr "alice"; JStr "mallory"], ["alice"; "mallory"], Closed OtherError true, [Some TEnded]).
Proof. vm_compute. reflexivity. Qed.

(** Without a synchroniser, the end leaves the producer open. *)
Example no_syncs_end :
  (λ r, is_phase r.1) <$> id_run (ex_id_start [])
    [DDatagram 1 "10.1.1.1" (clearpass_line "alice"); DTake 1 5; DAdd 1 (Raise ValueError); DFinish] =
  Some (Closed OtherError false).
Proof. vm_compute. reflexivity. Qed.

Lemma ex_id_reached acts s tr :
  id_run (ex_id_start [demo_sync]) acts = Some (s, tr) →
  id_reached (instances ex_settings) [demo_sync] true (mkGroupDb [] [] 0) s tr.
Proof. intros E. by exists acts. Qed.

Lemma identity_in_order_witness :
  ∃ s tr t, ex_id_run = Some (s, tr) ∧ is_tasks s !! 1%nat = Some t ∧ tk_phase t = TEnded ∧
    (adds_at 1 tr).*1 ++ in_flight (tk_phase t) = yields_at 1 tr.
Proof.
  pose proof ex_id_facts as H. destruct ex_id_run as [[s tr]|] eqn:E; [|discriminate H].
  unfold id_facts in H. cbn [fmap option_fmap option_map fst snd] in H.
  destruct (is_tasks s !! 1%nat) as [t|] eqn:Ht; [|discriminate H]. injection H as _ _ _ Hph.
  exists s, tr, t. split; [reflexivity|]. split; [exact Ht|]. split; [exact Hph|].
  exact (proj1 (proj2 (identity_in_order _ _ _ _ s tr 1%nat t (ex_id_reached _ _ _ E) Ht))).
Defined.

