(* ===== verification/Listener.v ===== *)
(** * The sockets of the receivers and their adapters
      ([ztna_common/syslog_receiver.py], [id_ingest/adapters/*_adapter.py])

    [SyslogReceiver.start] and [stop], the life of an adapter that owns a receiver, its
    construction from a configuration, and the health checks.  What the binding of a
    socket gives, the port or an exception, is an argument. *)

From S2P Require Import Prelude PyDict PyStr PyQueue PyJson SyslogReceiver EventTypes FlowAdapters IdAdapters GroupSync IdIngest.

(** ** [SyslogReceiver] *)

Inductive socket : Type := Unbound | Bound | Shut.

Record listener : Type := mkListener {
  ln_host : string;
  ln_port : Z;
  ln_udp : socket;
  ln_tcp : socket;
  ln_udp_port : Z;
  ln_tcp_port : Z
}.

Definition new_listener (host : string) (port : Z) : listener := mkListener host port Unbound Unbound 0 0.

(** [start]: the datagram endpoint first, then the server. *)
Definition start_listener (l : listener) (udp tcp : result Z) : listener * result () :=
  match udp with
  | Raise e => (l, Raise e)
  | Ok up =>
      let l1 := mkListener (ln_host l) (ln_port l) Bound (ln_tcp l) up (ln_tcp_port l) in
      match tcp with
      | Raise e => (l1, Raise e)
      | Ok tp => (mkListener (ln_host l) (ln_port l) Bound Bound up tp, Ok ())
      end
  end.

Definition shut (s : socket) : socket := match s with Unbound => Unbound | _ => Shut end.

(** [stop] *)
Definition stop_listener (l : listener) : listener :=
  mkListener (ln_host l) (ln_port l) (shut (ln_udp l)) (shut (ln_tcp l)) (ln_udp_port l) (ln_tcp_port l).

(** ** The adapters of the identity service *)

Section adapters.
Context `{PyPrims}.

(** The classes: their name, the port they default to, and their parser. *)
Record AdapterClass : Type := mkAdapterClass {
  ac_name : string;
  ac_default_port : Z;
  ac_parse : Z → string → option IdentityDict
}.

Definition Ad4624Adapter : AdapterClass := mkAdapterClass "ad_4624" 516 (λ _, Ad4624.parse).
Definition CiscoIseAdapter : AdapterClass := mkAdapterClass "cisco_ise" 517 CiscoIse.parse.
Definition ArubaClearpassAdapter : AdapterClass := mkAdapterClass "aruba_clearpass" 518 ArubaClearpass.parse.

(** [from_config]: the [host], or else the [bind], and the port. *)
Definition syslog_from_config (cls : AdapterClass) (cfg : pydict string json) : result listener :=
  let host := json_str (default (default (JStr "0.0.0.0") (dget "bind" cfg)) (dget "host" cfg)) in
  port ← json_int (default (JInt (ac_default_port cls)) (dget "port" cfg));
  Ok (new_listener host port).

(** [healthcheck] of an identity adapter with its receiver, and of a firewall adapter. *)
Definition listening (l : listener) : bool := negb (ln_udp_port l =? 0) || negb (ln_tcp_port l =? 0).
Definition syslog_healthcheck (cls : AdapterClass) (l : listener) : json :=
  JObj [("adapter", JStr (ac_name cls)); ("listening", JBool (listening l))].
Definition flow_healthcheck (name : string) (r : SyslogReceiver) : json :=
  JObj [("name", JStr name); ("queued", JInt (Z.of_nat (length (q_items (rc_queue r)))))].

(** [run]: the receiver is started before the [try], so that [stop] runs only when the
    start succeeded; [ends] tells whether the loop has been cancelled or has raised. *)
Definition adapter_life (l : listener) (udp tcp : result Z) (ends : bool) : listener * result () :=
  match start_listener l udp tcp with
  | (l, Raise e) => (l, Raise e)
  | (l, Ok _) => (if ends then stop_listener l else l, Ok ())
  end.

(** ** What they promise *)

(** A bound port is a port. *)
Definition port_given (r : result Z) : Prop := match r with Ok p => 0 < p | Raise _ => True end.

(** An adapter that runs has both sockets, and one that has run has shut both; but an
    adapter whose TCP port is taken has ended with its UDP socket still bound.  Its health
    check tells in all cases whether the UDP socket was ever bound, not whether anything
    listens. *)
Theorem adapter_sockets cls host port udp tcp ends l r :
  port_given udp → port_given tcp → adapter_life (new_listener host port) udp tcp ends = (l, r) →
  (r = Ok () ↔ is_ok udp = true ∧ is_ok tcp = true) ∧
  (r = Ok () → ends = false → ln_udp l = Bound ∧ ln_tcp l = Bound) ∧
  (r = Ok () → ends = true → ln_udp l = Shut ∧ ln_tcp l = Shut) ∧
  (is_ok udp = true → is_ok tcp = false → ln_udp l = Bound ∧ ln_tcp l = Unbound) ∧
  (is_ok udp = false → ln_udp l = Unbound ∧ ln_tcp l = Unbound) ∧
  syslog_healthcheck cls l = JObj [("adapter", JStr (ac_name cls)); ("listening", JBool (is_ok udp))].
Proof.
  intros Hu Ht. unfold adapter_life, start_listener, syslog_healthcheck, listening.
  destruct udp as [up|e]; cbn in Hu; [|by intros [= <- <-]; split_and!; naive_solver].
  assert (up =? 0 = false) as Hup by (apply Z.eqb_neq; lia).
  destruct tcp as [tp|e]; intros [= <- <-]; destruct ends; cbn; rewrite Hup; cbn; split_and!; naive_solver.
Qed.

(** The service builds each of the three adapters as its class does from the port of the
    settings, listening on all addresses, and runs the parser of the class. *)
Theorem built_from_config cls s :
  cls ∈ [Ad4624Adapter; CiscoIseAdapter; ArubaClearpassAdapter] →
  parse_of (ac_name cls) = ac_parse cls ∧
  ∃ port, build_adapter (ac_name cls) s = Ok (Some (SyslogConfig (ac_name cls) "0.0.0.0" port)) ∧
    syslog_from_config cls [("port", JInt port)] = Ok (new_listener "0.0.0.0" port).
Proof.
  intros Hn. set_unfold in Hn. destruct Hn as [->|[->|[->|[]]]]; (split; [reflexivity|]); eexists; split; reflexivity.
Qed.

(** A [host] goes before a [bind]; a port may be a number or the text of one. *)
Theorem config_precedence cls host bind port :
  Z.abs port < int_bound →
  syslog_from_config cls [("bind", JStr bind); ("host", JStr host); ("port", JStr (str_Z port))] =
    Ok (new_listener host port) ∧
  syslog_from_config cls [("bind", JStr bind)] = Ok (new_listener bind (ac_default_port cls)) ∧
  syslog_from_config cls [] = Ok (new_listener "0.0.0.0" (ac_default_port cls)) ∧
  syslog_from_config cls [("port", JNull)] = Raise TypeError.
Proof.
  intros Hp. split_and!; try reflexivity. unfold syslog_from_config.
  change (dget "port" _) with (Some (JStr (str_Z port))). change (json_int (default _ _)) with (py_int (str_Z port)). by rewrite py_int_str_Z.
Qed.
End adapters.

(** The TCP port is taken: the adapter is gone, its UDP socket fills the queue of nobody, and
    the check is content. *)
Example taken_tcp_port `{PyPrims} :
  let l := (adapter_life (new_listener "0.0.0.0" 516) (Ok 516) (Raise OtherError) true).1 in
  ln_udp l = Bound ∧
  syslog_healthcheck Ad4624Adapter l = JObj [("adapter", JStr "ad_4624"); ("listening", JBool true)].
Proof. done. Qed.
