(* ===== verification/Metrics.v ===== *)
(** * Metrics ([correlator/pipeline/metrics.py], [api/metrics.py], [id_ingest/metrics.py], [flow_ingest/metrics.py])

    The metrics that the services declare, and the updates that their code makes: the
    publisher and the identity consumer of the correlator and the middleware of the API.
    A run is the list of its updates; what a registry shows of a counter is their number,
    and of a gauge the last of them. *)

From Stdlib Require Import QArith.
From S2P Require Import Prelude PySort PyDict PyStr GroupIndex GroupAggregator AppResolver SankeyPublisher.
From S2P Require Import EventTypes RedisBus IdentityIndex Correlator PyJson ApiAuth.

#[local] Open Scope Z_scope.

(** ** Declarations *)

Inductive metric_kind : Type :=
  | Counter
  | Gauge
  | Histogram (buckets : list Q).

Record metric : Type := mkMetric { mt_name : string; mt_kind : metric_kind; mt_labels : list string }.

Definition CORRELATOR_QUEUE_DEPTH : metric := mkMetric "correlator_queue_depth" Gauge ["stage"].
Definition CORRELATOR_DROPPED_FLOWS : metric := mkMetric "correlator_dropped_flows_total" Counter [].
Definition CORRELATOR_UNKNOWN_USER_RATIO : metric := mkMetric "correlator_unknown_user_ratio" Gauge [].
Definition CORRELATOR_LCD_MISS : metric := mkMetric "correlator_lcd_miss_total" Counter [].
Definition IDENTITY_INDEX_SIZE : metric := mkMetric "identity_index_size" Gauge [].

Definition seconds_buckets : list Q := [1 # 100; 5 # 100; 1 # 10; 25 # 100; 5 # 10; 1; 2; 5]%Q.
Definition POSTGRES_INSERT_BATCH_SECONDS : metric :=
  mkMetric "postgres_insert_batch_size_seconds" (Histogram seconds_buckets) [].
Definition POSTGRES_FLUSH_DURATION_SECONDS : metric :=
  mkMetric "postgres_flush_duration_seconds" (Histogram seconds_buckets) [].

(** [REGISTRY] of each service. *)
Definition correlator_registry : list metric :=
  [CORRELATOR_QUEUE_DEPTH; CORRELATOR_DROPPED_FLOWS; CORRELATOR_UNKNOWN_USER_RATIO; CORRELATOR_LCD_MISS;
   IDENTITY_INDEX_SIZE; POSTGRES_INSERT_BATCH_SECONDS; POSTGRES_FLUSH_DURATION_SECONDS].

Definition HTTP_REQUESTS : metric := mkMetric "api_http_requests_total" Counter ["route"; "status"].
Definition WS_CONNECTIONS : metric := mkMetric "api_ws_connections" Gauge [].
Definition api_registry : list metric := [HTTP_REQUESTS; WS_CONNECTIONS].

Definition IDENTITY_INGEST_EVENTS : metric := mkMetric "identity_ingest_events_total" Counter ["adapter"].
Definition IDENTITY_INGEST_PARSE_ERRORS : metric := mkMetric "identity_ingest_parse_errors_total" Counter ["adapter"].
Definition GROUP_SYNC_LAST_FULL_CYCLE_SECONDS : metric := mkMetric "group_sync_last_full_cycle_seconds" Gauge [].
Definition id_registry : list metric :=
  [IDENTITY_INGEST_EVENTS; IDENTITY_INGEST_PARSE_ERRORS; GROUP_SYNC_LAST_FULL_CYCLE_SECONDS].

Definition FLOW_INGEST_EVENTS : metric := mkMetric "flow_ingest_events_total" Counter ["adapter"; "source"].
Definition FLOW_INGEST_PARSE_ERRORS : metric := mkMetric "flow_ingest_parse_errors_total" Counter ["adapter"].
Definition flow_registry : list metric := [FLOW_INGEST_EVENTS; FLOW_INGEST_PARSE_ERRORS].

(** ** Updates *)

Inductive update : Type :=
  | Inc (m : metric) (labels : list (string * string))
  | SetTo (m : metric) (v : Q).

Definition update_metric (u : update) : metric := match u with Inc m _ | SetTo m _ => m end.

(** An update that the client library accepts: a counter is incremented under exactly
    its labels, and a gauge without labels is set. *)
Definition update_ok (registry : list metric) (u : update) : Prop :=
  update_metric u ∈ registry ∧
  match u with
  | Inc m labels => mt_kind m = Counter ∧ labels.*1 = mt_labels m
  | SetTo m _ => mt_kind m = Gauge ∧ mt_labels m = []
  end.

Definition counts (name : string) (labels : list (string * string)) (u : update) : bool :=
  match u with Inc m ls => bool_decide (mt_name m = name) && bool_decide (ls = labels) | SetTo _ _ => false end.

Definition count_of (name : string) (labels : list (string * string)) (us : list update) : nat :=
  length (filter (λ u, counts name labels u = true) us).

Definition gauge_of (name : string) (us : list update) : option Q :=
  last (omap (λ u, match u with SetTo m v => if decide (mt_name m = name) then Some v else None | _ => None end) us).

(** ** The correlator *)

(** The updates of [_build_group_delta]. *)
Definition group_updates (m : group_metrics) : list update :=
  replicate (Z.to_nat (gm_lcd_miss m)) (Inc CORRELATOR_LCD_MISS []) ++
  (if 0 <? gm_total m
   then [SetTo CORRELATOR_UNKNOWN_USER_RATIO (inject_Z (gm_unknown m) / inject_Z (gm_total m))] else []).

(** Those of [_publish]: none for an empty batch or the legacy view. *)
Definition publish_updates (p : SankeyPublisher) (gi : option GroupIndex) (bucket : Z) (flows : list LabelledFlow) :
    list update :=
  match flows, sp_aggregator p with
  | [], _ | _, None => []
  | _, Some agg =>
      if decide (sp_group_by p = "app") then []
      else group_updates (build_group_delta agg gi (sp_group_by p) bucket flows).2
  end.

(** Those of a turn of [run], and of a run. *)
Definition step_updates (p : SankeyPublisher) (i : sankey_input) : list update :=
  let '(lf, gi, _) := i in
  step_batch p lf ≫= (λ b, publish_updates p gi b.1 b.2).

Fixpoint run_updates (p : SankeyPublisher) (inputs : list sankey_input) : list update :=
  match inputs with
  | [] => []
  | i :: rest => step_updates p i ++ run_updates (publisher_step i.1.2 i.2 p i.1.1).1 rest
  end.

(** The update after a batch of [_identity_consumer]. *)
Definition consumer_update {T} `{IntervalTree Binding T} (idx : IdentityIndex T) (msgs : list (message IdentityEvent)) : update :=
  SetTo IDENTITY_INDEX_SIZE (inject_Z (consume_batch idx msgs).2).

(** ** The API *)

(** [getattr(request.scope.get("route"), "path", request.url.path)] *)
Definition metric_path (route : option string) (url_path : string) : string := default url_path route.

(** [MetricsMiddleware.dispatch].  An [HTTPException] is a response with its status; any
    other exception passes through. *)
Definition metrics_dispatch {A} (path : string) (ok : Z) (rq : Request) (call_next : Request → response A) :
    response A * list update :=
  let answer := call_next rq in
  let count s := [Inc HTTP_REQUESTS [("route", path); ("status", str_Z s)]] in
  (answer, match answer with Reply _ => count ok | HttpError s => count s | Crash _ => [] end).

(** [add_middleware]: the last one added, the CSRF check, is the outer one. *)
Definition app_dispatch {A} (path : string) (ok : Z) (rq : Request) (call_next : Request → response A) :
    response A * list update :=
  match csrf_dispatch rq Reply with
  | Reply rq => metrics_dispatch path ok rq call_next
  | HttpError s => (HttpError s, [])
  | Crash e => (Crash e, [])
  end.

(** ** The updates of the correlator *)

Lemma group_updates_ok m : Forall (update_ok correlator_registry) (group_updates m).
Proof.
  unfold group_updates. apply Forall_app. split.
  - apply Forall_replicate. split; [|done]. do 3 right. left.
  - destruct (0 <? gm_total m); [|constructor]. apply Forall_singleton. split; [|done]. do 2 right. left.
Qed.

Definition is_unknown (f : LabelledFlow) : bool := bool_decide (lf_user_upn f = "unknown").
Definition unknown_share (flows : list LabelledFlow) : Q :=
  (inject_Z (Z.of_nat (length (filter (λ f, is_unknown f = true) flows))) / inject_Z (Z.of_nat (length flows)))%Q.

(** What an update of the publisher can be, for a batch of flows. *)
Definition batch_update (flows : list LabelledFlow) (u : update) : Prop :=
  u = Inc CORRELATOR_LCD_MISS [] ∨ flows ≠ [] ∧ u = SetTo CORRELATOR_UNKNOWN_USER_RATIO (unknown_share flows).

Lemma unknown_count flows :
  sum_by (λ f, if decide (lf_user_upn f = "unknown") then 1 else 0) flows =
  Z.of_nat (length (filter (λ f, is_unknown f = true) flows)).
Proof.
  induction flows as [|f flows IH]; [done|]. rewrite sum_by_cons, IH, filter_cons.
  destruct (decide (is_unknown f = true)) as [E|E]; unfold is_unknown in E; rewrite bool_decide_eq_true in E;
    [rewrite decide_True by done; rewrite length_cons|rewrite decide_False by done]; lia.
Qed.

Lemma unknown_share_bounds flows : flows ≠ [] → (0 <= unknown_share flows <= 1)%Q.
Proof.
  intros Hne. unfold unknown_share. set (n := length (filter _ _)).
  assert (Hn : (n ≤ length flows)%nat) by apply length_filter.
  assert (Hpos : (0 < inject_Z (Z.of_nat (length flows)))%Q).
  { change 0%Q with (inject_Z 0). rewrite <-Zlt_Qlt. destruct flows; [done|]. cbn [length]. lia. }
  split.
  - apply Qle_shift_div_l; [done|]. rewrite Qmult_0_l. change 0%Q with (inject_Z 0). rewrite <-Zle_Qle. lia.
  - apply Qle_shift_div_r; [done|]. rewrite Qmult_1_l, <-Zle_Qle. lia.
Qed.

Lemma publish_updates_batch p gi bucket flows u : u ∈ publish_updates p gi bucket flows → batch_update flows u.
Proof.
  unfold publish_updates. destruct flows as [|f flows]; [by intros ?%not_elem_of_nil|].
  destruct (sp_aggregator p) as [agg|]; [|by intros ?%not_elem_of_nil].
  case_decide; [by intros ?%not_elem_of_nil|]. unfold build_group_delta, group_updates.
  destruct (aggregate _ _ _ _) as [agg' links]. cbn [snd gm_lcd_miss gm_unknown gm_total].
  intros [Hu|Hu]%elem_of_app; [left; by apply elem_of_replicate in Hu as [-> _]|].
  rewrite unknown_count in Hu. case_match; [|by apply not_elem_of_nil in Hu].
  apply list_elem_of_singleton in Hu as ->. right. split; [done|reflexivity].
Qed.

(** The ratios that a run sets. *)
Definition ratios (us : list update) : list Q :=
  omap (λ u, match u with SetTo m v => if decide (mt_name m = "correlator_unknown_user_ratio") then Some v else None | _ => None end) us.

Lemma ratios_app us us' : ratios (us ++ us') = ratios us ++ ratios us'.
Proof. apply omap_app. Qed.

Lemma ratios_batch p gi bucket flows :
  is_Some (sp_aggregator p) → sp_group_by p ≠ "app" → flows ≠ [] →
  ratios (publish_updates p gi bucket flows) = [unknown_share flows].
Proof.
  intros [agg Ha] Hg Hne. unfold publish_updates. rewrite Ha. destruct flows as [|f flows]; [done|].
  rewrite decide_False by done. unfold build_group_delta, group_updates. destruct (aggregate _ _ _ _) as [agg' links].
  cbn [snd gm_lcd_miss gm_unknown gm_total]. rewrite unknown_count, ratios_app.
  assert (Hr : ∀ n, ratios (replicate n (Inc CORRELATOR_LCD_MISS [])) = []) by (intros n; by induction n).
  rewrite Hr, (proj2 (Z.ltb_lt _ _)) by (cbn [length]; lia). reflexivity.
Qed.

Lemma publisher_step_keeps gi store p lf :
  is_Some (sp_aggregator p) → sp_group_by p ≠ "app" →
  let p' := (publisher_step gi store p lf).1 in is_Some (sp_aggregator p') ∧ sp_group_by p' = sp_group_by p.
Proof.
  intros Ha Hg. unfold publisher_step. destruct (_ <? _); [|done].
  unfold publish. destruct (sp_pending p) as [|f fs]; [done|]. unfold build_delta. destruct Ha as [agg Ha]. rewrite Ha.
  rewrite decide_False by done. destruct (build_group_delta _ _ _ _ _) as [[agg' d] m]. by split.
Qed.

Lemma run_ratios p inputs bs cmds :
  is_Some (sp_aggregator p) → sp_group_by p ≠ "app" →
  tr_batches (foldl trace_step (mkTrace p bs cmds) inputs) = bs ++ drop (length bs) (tr_batches (foldl trace_step (mkTrace p bs cmds) inputs)) ∧
  ratios (run_updates p inputs) =
    (λ b, unknown_share b.2) <$> drop (length bs) (tr_batches (foldl trace_step (mkTrace p bs cmds) inputs)).
Proof.
  revert p bs cmds. induction inputs as [|[[lf gi] store] inputs IH]; intros p bs cmds Ha Hg.
  { cbn. by rewrite drop_all, app_nil_r. }
  destruct (publisher_step_keeps gi store p lf Ha Hg) as [Ha' Hg']. cbn [run_updates foldl]. rewrite ratios_app.
  unfold trace_step at 2 4 6. cbn [fst snd tr_pub tr_batches tr_cmds].
  destruct (publisher_step gi store p lf) as [p' cmds'] eqn:Ep. cbn [fst] in Ha', Hg'.
  destruct (IH p' (bs ++ step_batch p lf) (cmds ++ cmds') Ha' ltac:(by rewrite Hg')) as [Hb Hr].
  set (final := tr_batches (foldl trace_step _ inputs)) in *. rewrite length_app in Hb, Hr.
  assert (Hd : drop (length bs) final = step_batch p lf ++ drop (length bs + length (step_batch p lf)) final).
  { rewrite Hb at 1. by rewrite <-(assoc_L (++)), drop_app_length. }
  split; [by rewrite Hd, (assoc_L (++))|]. rewrite Hd, fmap_app. cbn [fst]. rewrite Hr. f_equal.
  unfold step_updates, step_batch. destruct (_ <? _); [|done]. destruct (sp_pending p) as [|f fs] eqn:Efs; [done|].
  cbn [mbind list_bind fst snd]. rewrite app_nil_r. by apply ratios_batch.
Qed.

(** With an aggregator and a view other than the legacy one, the gauge shows the share of
    unknown flows of the batch published last, a number from 0 to 1. *)
Theorem ratio_gauge channel gb agg inputs :
  gb ≠ "app" →
  let batches := tr_batches (sankey_run (new_publisher channel gb (Some agg)) inputs) in
  gauge_of "correlator_unknown_user_ratio" (run_updates (new_publisher channel gb (Some agg)) inputs) =
    (λ b, unknown_share b.2) <$> last batches ∧
  Forall (λ b, (0 <= unknown_share b.2 <= 1)%Q) batches.
Proof.
  intros Hg batches. destruct (run_ratios (new_publisher channel gb (Some agg)) inputs [] []) as [_ Hr]; [by eexists|done|].
  split.
  - unfold gauge_of. fold (ratios (run_updates (new_publisher channel gb (Some agg)) inputs)). rewrite Hr. apply fmap_last.
  - destruct (sankey_run_inv inputs channel gb (Some agg)) as (_ & _ & Hb & _). eapply Forall_impl; [exact Hb|].
    intros [b fs] [_ Hh]. apply unknown_share_bounds. by destruct fs.
Qed.

Ltac not_listed := rewrite !not_elem_of_cons; split_and!; [discriminate..|apply not_elem_of_nil].

(** Every update of the correlator is one that the client library accepts; none is of the
    queue depths, the dropped flows or the two histograms. *)
Theorem correlator_updates `{IntervalTree Binding T} channel gb agg inputs (idx : IdentityIndex T) msgs u :
  u ∈ consumer_update idx msgs :: run_updates (new_publisher channel gb agg) inputs →
  update_ok correlator_registry u ∧
  update_metric u ∉ [CORRELATOR_QUEUE_DEPTH; CORRELATOR_DROPPED_FLOWS; POSTGRES_INSERT_BATCH_SECONDS;
                     POSTGRES_FLUSH_DURATION_SECONDS].
Proof.
  intros [->|Hu]%elem_of_cons.
  - split; [split; [do 4 right; left|done]|]. cbn [consumer_update update_metric]. not_listed.
  - revert Hu. generalize (new_publisher channel gb agg) as p.
    induction inputs as [|[[lf gi] store] inputs IH]; intros p; [by intros ?%not_elem_of_nil|]. cbn [run_updates].
    intros [Hu|Hu]%elem_of_app; [|by eapply IH]. unfold step_updates in Hu. apply list_elem_of_bind in Hu as ([b fs] & Hu & _).
    apply publish_updates_batch in Hu. cbn [snd] in Hu.
    destruct Hu as [->|[_ ->]]; (split; [split; [|done]|cbn [update_metric]; not_listed]).
    + do 3 right. left.
    + do 2 right. left.
Qed.

(** ** The requests of the API *)

Record served {A} : Type := mkServed { sv_path : string; sv_ok : Z; sv_request : Request; sv_handler : Request → response A }.
Arguments served A : clear implicits.
Arguments mkServed {A}.

Definition serve_request {A} (q : served A) : response A * list update :=
  app_dispatch (sv_path q) (sv_ok q) (sv_request q) (sv_handler q).

Definition passes_csrf (rq : Request) : bool := match csrf_dispatch rq Reply with Reply _ => true | _ => false end.

(** The status of an answer that the routes give; an exception has none. *)
Definition status_of {A} (ok : Z) (r : response A) : option Z :=
  match r with Reply _ => Some ok | HttpError s => Some s | Crash _ => None end.

Lemma csrf_dispatch_passes {A} rq (f : Request → response A) :
  csrf_dispatch rq f = if passes_csrf rq then f rq else HttpError 403.
Proof.
  unfold passes_csrf, csrf_dispatch. case_decide; [done|]. destruct (rq_cookies rq !! "session"); [|done].
  destruct (rq_cookies rq !! "csrf_token"); [|done]. by destruct (_ && _).
Qed.

(** The requests that the counter counts under a route and a status. *)
Definition counted {A} (route : string) (status : Z) (q : served A) : bool :=
  passes_csrf (sv_request q) && bool_decide (sv_path q = route) &&
  bool_decide (status_of (sv_ok q) (sv_handler q (sv_request q)) = Some status).

Lemma serve_request_spec {A} (q : served A) :
  (serve_request q).1 = csrf_dispatch (sv_request q) (sv_handler q) ∧
  (serve_request q).2 = match status_of (sv_ok q) (sv_handler q (sv_request q)) with
                        | Some s => if passes_csrf (sv_request q)
                                    then [Inc HTTP_REQUESTS [("route", sv_path q); ("status", str_Z s)]] else []
                        | None => []
                        end.
Proof.
  unfold serve_request, app_dispatch. rewrite !csrf_dispatch_passes. destruct (passes_csrf (sv_request q)).
  - split; [done|]. cbn [metrics_dispatch snd]. by destruct (sv_handler q (sv_request q)).
  - split; [done|]. cbn [snd]. by destruct (status_of _ _).
Qed.

(** The counter of requests is right about what reaches it: under a route and a status it
    shows the number of requests that passed the CSRF check and whose handler answered
    with the status.  A request that the check refuses, or whose handler raises another
    exception, is in no count; the answers are those of the application without it. *)
Theorem requests_counted {A} (qs : list (served A)) route status :
  count_of "api_http_requests_total" [("route", route); ("status", str_Z status)] (qs ≫= (λ q, (serve_request q).2)) =
    length (filter (λ q, counted route status q = true) qs) ∧
  Forall (λ q, (serve_request q).1 = csrf_dispatch (sv_request q) (sv_handler q)) qs.
Proof.
  split; [|apply Forall_forall; intros q _; apply serve_request_spec].
  induction qs as [|q qs IH]; [done|]. cbn [mbind list_bind]. unfold count_of in *. rewrite filter_app, length_app.
  change (mbind ?f qs) with (qs ≫= f). rewrite IH, filter_cons.
  assert (Hq : length (filter (λ u, counts "api_http_requests_total" [("route", route); ("status", str_Z status)] u = true)
      (serve_request q).2) = if counted route status q then 1%nat else 0%nat).
  { destruct (serve_request_spec q) as [_ ->]. unfold counted. destruct (status_of _ _) as [s|]; [|by rewrite andb_false_r].
    destruct (passes_csrf _); [|done]. rewrite filter_cons, filter_nil. cbn [counts andb].
    rewrite (bool_decide_true (mt_name HTTP_REQUESTS = _)) by done. cbn [andb].
    destruct (decide (sv_path q = route)) as [->|Hr].
    - rewrite (bool_decide_true (route = route)) by done. cbn [andb]. destruct (decide (s = status)) as [->|Hs].
      + by rewrite !bool_decide_true.
      + rewrite (bool_decide_false (Some s = Some status)) by congruence. rewrite bool_decide_false; [done|].
        intros [= He]. by apply (inj pretty) in He.
    - rewrite (bool_decide_false (sv_path q = route)) by done. cbn [andb]. rewrite bool_decide_false; [done|]. congruence. }
  rewrite Hq. by destruct (counted route status q).
Qed.

(** A refused mutation and an internal error leave no trace in the counter. *)
Example uncounted_requests :
  let refused := mkServed (A:=nat) "/api/saas" 201 (mkRequest "POST" {["session" := "s"]} ∅) (λ _, Reply 1%nat) in
  let broken := mkServed (A:=nat) "/api/saas" 200 (mkRequest "GET" ∅ ∅) (λ _, Crash KeyError) in
  serve_request refused = (HttpError 403, []) ∧ serve_request broken = (Crash KeyError, []).
Proof. vm_compute. done. Qed.
