(* ===== verification/Config.v ===== *)
(** * Configuration ([ztna_common/config.py], the settings models, [flow_ingest/main.py])

    The loader of the adapters' YAML files and the override of settings by secret
    files.  Reading YAML is a parameter; the directory is given as the stems of its
    [*.yaml] files with their texts. *)

From S2P Require Import Prelude PySort PyDict PyStr PyJson FlowAdapters ApiAuth.

(** ** The adapters' files *)

Record AdapterConfig : Type := mkAdapterConfig {
  ac_enabled : bool;
  ac_source_ips : gset string;
  ac_options : pydict string json
}.

Section loader.
Context `{PyPrims} (safe_load : string → result json).

(** [x or y] *)
Definition or_else (v d : json) : json := if jtrue v then v else d.

Definition known_key (k : string) : bool := bool_decide (k = "enabled") || bool_decide (k = "source_ips").

(** The configuration of one file. *)
Definition config_of (text : string) : result AdapterConfig :=
  data ← safe_load text;
  let data := or_else data (JObj []) in
  enabled ← jget_or "enabled" (JBool true) data;
  ips ← jget_or "source_ips" (JArr []) data;
  ips ← text_set (or_else ips (JArr []));
  match data with
  | JObj d => Ok (mkAdapterConfig (jtrue enabled) (list_to_set ips) (filter (λ kv, known_key kv.1 = false) d))
  | _ => Raise AttributeError
  end.

Fixpoint load_files (files : list (string * result string)) (out : pydict string AdapterConfig) :
    result (pydict string AdapterConfig) :=
  match files with
  | [] => Ok out
  | (stem, read) :: files => text ← read; c ← config_of text; load_files files (dset stem c out)
  end.

(** [load_adapter_configs]; [None] is a path that is not a directory.  Paths are
    ordered by their names. *)
Definition file_key (f : string * result string) : string := f.1 +:+ ".yaml".
Definition load_adapter_configs (dir : option (list (string * result string))) : result (pydict string AdapterConfig) :=
  match dir with
  | None => Ok []
  | Some files => load_files (py_sorted file_key files) []
  end.

(** The adapters that [_run] starts: name and [peer_allowlist], [set(...) or None]. *)
Definition started_adapters (registry : list string) (configs : pydict string AdapterConfig) :
    list (string * option (gset string)) :=
  omap (λ name, c ← dget name configs;
          Some (name, if decide (ac_source_ips c = ∅) then None else Some (ac_source_ips c)))
    (list_enabled_adapters registry ((λ kv, (kv.1, ac_enabled kv.2)) <$> configs)).

(** ** The loader *)

Lemma load_files_ok files out :
  NoDup files.*1 → (∀ n, n ∈ files.*1 → n ∉ dkeys out) →
  match load_files files out with
  | Ok cs => ∃ added, cs = out ++ added ∧
      Forall2 (λ f nc, f.1 = nc.1 ∧ ∃ text, f.2 = Ok text ∧ config_of text = Ok nc.2) files added
  | Raise e => ∃ f, f ∈ files ∧ (f.2 = Raise e ∨ ∃ text, f.2 = Ok text ∧ config_of text = Raise e)
  end.
Proof.
  revert out. induction files as [|[stem read] files IH]; intros out Hnd Hfresh; cbn [load_files].
  - exists []. split; [by rewrite app_nil_r|constructor].
  - apply NoDup_cons in Hnd as [Hn Hnd]. destruct read as [text|e]; [|by exists (stem, Raise e); split; [left|left]].
    cbn [mbind result_bind]. destruct (config_of text) as [c|e] eqn:Ec; cbn [mbind result_bind].
    2:{ exists (stem, Ok text). split; [left|]. right. by exists text. }
    assert (Hs : stem ∉ dkeys out) by (apply Hfresh; left).
    specialize (IH (dset stem c out) Hnd). destruct (load_files files (dset stem c out)) as [cs|e].
    + destruct IH as (added & -> & Hall).
      { intros n Hin. rewrite dset_fresh by done. unfold dkeys. rewrite fmap_app, elem_of_app. cbn.
        intros [Ho| ->%list_elem_of_singleton]; [by apply (Hfresh n); [right|]|done]. }
      exists ((stem, c) :: added). rewrite dset_fresh by done. rewrite <- app_assoc. split; [done|].
      constructor; [|done]. cbn. split; [done|]. by exists text.
    + destruct IH as (f & Hf & He).
      { intros n Hin. rewrite dset_fresh by done. unfold dkeys. rewrite fmap_app, elem_of_app. cbn.
        intros [Ho| ->%list_elem_of_singleton]; [by apply (Hfresh n); [right|]|done]. }
      exists f. split; [by right|done].
Qed.

(** The loader is all or nothing: it gives one configuration per file, in the order
    of the file names, when every file can be read, parsed and understood; otherwise
    it raises the error of one of the files, and no adapter has a configuration.
    Without a directory there is no configuration, and then no adapter is started. *)
Theorem configs_all_or_nothing files :
  NoDup files.*1 →
  match load_adapter_configs (Some files) with
  | Ok cs =>
      Forall2 (λ f nc, f.1 = nc.1 ∧ ∃ text, f.2 = Ok text ∧ config_of text = Ok nc.2) (py_sorted file_key files) cs
  | Raise e => ∃ f, f ∈ files ∧ (f.2 = Raise e ∨ ∃ text, f.2 = Ok text ∧ config_of text = Raise e)
  end ∧
  (∀ registry cs, load_adapter_configs None = Ok cs → started_adapters registry cs = []).
Proof.
  intros Hnd. split; [|by intros registry cs [= <-]]. unfold load_adapter_configs.
  assert (Hnd' : NoDup (py_sorted file_key files).*1) by (by rewrite py_sorted_perm).
  pose proof (load_files_ok (py_sorted file_key files) [] Hnd') as Hl.
  destruct (load_files _ _) as [cs|e].
  - by destruct Hl as (added & -> & Hall); [intros ? _ ?%not_elem_of_nil|].
  - destruct Hl as (f & Hf & He); [by intros ? _ ?%not_elem_of_nil|]. exists f. split; [|done].
    by apply py_sorted_elem in Hf.
Qed.
End loader.

#[local] Instance config_prims : PyPrims :=
  {| float_is := λ _ _, false; float_str := id; container_str := λ _, ""; float_trunc := λ _, Raise OverflowError |}.

(** JSON is YAML; here is a reader of that part. *)
Definition demo_files : list (string * result string) :=
  [("palo_alto", Ok (dumps_default (JObj [("source_ips", JArr [JStr "10.9.0.1"])]))); ("fortigate", Ok "{]")].

Lemma configs_all_or_nothing_witness :
  match load_adapter_configs loads (Some demo_files) with
  | Ok _ => False
  | Raise e => ∃ f, f ∈ demo_files ∧ (f.2 = Raise e ∨ ∃ text, f.2 = Ok text ∧ config_of loads text = Raise e)
  end.
Proof.
  assert (Hnd : NoDup demo_files.*1) by (apply (bool_decide_unpack _); reflexivity).
  destruct (configs_all_or_nothing loads demo_files Hnd) as [Hc _].
  destruct (load_adapter_configs loads (Some demo_files)) as [cs|e] eqn:E; [vm_compute in E; discriminate E|exact Hc].
Defined.

(** ** Secrets in files *)

(** The value of a field that a [*_FILE] variable can override: the file is read when
    the variable is set and names a file. *)
Definition secret_override (env : option string) (read_file : string → option string) (value : string) : string :=
  match env with
  | None => value
  | Some path => if str_true path then match read_file path with Some body => strip body | None => value end else value
  end.

(** [_load_from_files] *)
Definition load_from_files (overrides : list (string * string)) (environ : gmap string string)
    (read_file : string → option string) (fields : pydict string string) : pydict string string :=
  foldl (λ fields o,
           match dget o.1 fields with
           | None => fields
           | Some v => dset o.1 (secret_override (environ !! o.2) read_file v) fields
           end) fields overrides.

Definition API_FILE_OVERRIDES : list (string * string) :=
  [("oidc_client_secret", "OIDC_CLIENT_SECRET_FILE"); ("session_secret", "SESSION_SECRET_FILE");
   ("database_url", "DATABASE_URL_FILE")].
Definition ID_INGEST_FILE_OVERRIDES : list (string * string) :=
  [("ad_bind_password", "AD_BIND_PASSWORD_FILE"); ("entra_client_secret", "ENTRA_CLIENT_SECRET_FILE")].

Lemma dget_overrides overrides environ read_file fields k :
  NoDup overrides.*1 →
  dget k (load_from_files overrides environ read_file fields) =
  match dget k fields with
  | None => None
  | Some v => Some (match dget k overrides with
                    | None => v
                    | Some var => secret_override (environ !! var) read_file v
                    end)
  end.
Proof.
  unfold load_from_files. revert fields. induction overrides as [|[f var] overrides IH]; intros fields Hnd; cbn [foldl dget].
  - by destruct (dget k fields).
  - apply NoDup_cons in Hnd as [Hf Hnd]. rewrite IH by done. cbn [fst snd].
    destruct (decide (k = f)) as [->|Hne].
    + assert (dget f overrides = None) as -> by (by apply dget_none).
      destruct (dget f fields) as [v|] eqn:E; [by rewrite dget_dset_eq|by rewrite E].
    + destruct (dget f fields) as [v|]; [by rewrite dget_dset_ne|done].
Qed.

(** The secrets of the services come from the files that the environment names, with
    surrounding blanks removed; every other field, and every field whose file is
    missing, keeps its value. *)
Theorem secrets_from_files environ read_file fields k :
  ∀ overrides, overrides = API_FILE_OVERRIDES ∨ overrides = ID_INGEST_FILE_OVERRIDES →
  dget k (load_from_files overrides environ read_file fields) =
  match dget k fields with
  | None => None
  | Some v => Some (match dget k overrides with
                    | None => v
                    | Some var => secret_override (environ !! var) read_file v
                    end)
  end.
Proof.
  intros overrides [-> | ->]; apply dget_overrides; apply (bool_decide_unpack _); reflexivity.
Qed.
