(* ===== verification/FlowIngest.v ===== *)
(** * The running flow ingest ([_run] of [flow_ingest/main.py])

    The receiver, the tasks of the adapters and the publisher that [_run] joins, as
    one executable machine: datagrams and TCP chunks arrive, the tasks share the
    receiver's queue and the publisher, and a signal stops everything after a last
    flush.  The clock of a turn, the bytes received and the outcome of a pipeline
    are part of the action; a plan is a list of actions.

    A turn of an adapter is one step here: between [queue.get()] and the end of
    [publish] the code yields only for the publisher's lock, which is fair, and for
    the pipeline itself. *)

From S2P Require Import Prelude PySort PyDict PyQueue PyStr Utf8 EventTypes SyslogReceiver RedisBus FlowAdapters.
From S2P Require Import PyJson Config.

(** ** State *)

(** [_ADAPTER_REGISTRY], with the constructor call of [_run]. *)
Definition registry : list string := ["palo_alto"; "fortigate"].
Definition adapter_of (name : string) (allow : option (gset string)) : option FlowAdapter :=
  if decide (name = "palo_alto") then Some (palo_alto allow)
  else if decide (name = "fortigate") then Some (fortigate allow)
  else None.

Record ingest : Type := mkIngest {
  fi_receiver : SyslogReceiver;
  fi_conns : gmap nat (string * string);   (* the open TCP connections: peer, buffer *)
  fi_tasks : list (FlowAdapter * bool);    (* each adapter, and whether its task still runs *)
  fi_publisher : RedisFlowPublisher;
  fi_running : bool                        (* no signal yet *)
}.

(** The start of [_run], once the configurations are loaded; the publisher has its
    default stream, batch size and length bound. *)
Definition start_ingest (queue_max : Z) (configs : pydict string AdapterConfig) : ingest :=
  mkIngest (new_receiver queue_max) ∅
    (omap (λ na, a ← adapter_of na.1 na.2; Some (a, true)) (started_adapters registry configs))
    (new_flow_publisher "flows.raw" 50 (Some 1000000)) true.

(** ** Actions and observations *)

Inductive fi_action : Type :=
  | IDatagram (peer data : string)
  | IConnect (c : nat) (peer : string)
  | IChunk (c : nat) (chunk : string)
  | IClose (c : nat)
  | ITake (i : nat) (now : Z) (redis : result ())   (* task i gets a message *)
  | IStop (redis : result ()).                      (* SIGTERM or SIGINT *)

Inductive fi_obs : Type :=
  | Received (ms : list Message)                    (* handed to [_enqueue] *)
  | Taken (m : Message) (ev : option FlowEvent)     (* by an adapter, with the event *)
  | Piped (b : list xadd_cmd) (res : result ()).    (* a pipeline *)

Section machine.
Context (jsonify : FlowEvent → string).

Definition set_receiver (s : ingest) (r : SyslogReceiver) : ingest :=
  mkIngest r (fi_conns s) (fi_tasks s) (fi_publisher s) (fi_running s).
Definition set_conns (s : ingest) (cs : gmap nat (string * string)) : ingest :=
  mkIngest (fi_receiver s) cs (fi_tasks s) (fi_publisher s) (fi_running s).

(** One turn of an adapter's [run]: a message of another peer, one that does not
    parse and one that is no flow are dropped; an exception of [publish] leaves
    the generator, and with it the task. *)
Definition take_turn (s : ingest) (i : nat) (now : Z) (redis : result ()) : option (ingest * list fi_obs) :=
  match fi_tasks s !! i with
  | Some (a, true) =>
      '(m, q) ← get_nowait (rc_queue (fi_receiver s));
      let r := mkReceiver q (rc_backpressure_drops (fi_receiver s)) in
      match adapter_step a now m with
      | None => Some (set_receiver s r, [Taken m None])
      | Some ev =>
          let '(p, sent, res) := publish_flow jsonify (fi_publisher s) ev redis in
          Some (mkIngest r (fi_conns s) (<[i := (a, is_ok res)]> (fi_tasks s)) p (fi_running s),
                Taken m (Some ev) :: ((λ b, Piped b res) <$> sent))
      end
  | _ => None
  end.

Definition fi_step (s : ingest) (act : fi_action) : option (ingest * list fi_obs) :=
  if negb (fi_running s) then None else
  match act with
  | IDatagram peer data =>
      Some (set_receiver s (datagram_received (fi_receiver s) peer data), [Received (datagram_messages peer data)])
  | IConnect c peer =>
      match fi_conns s !! c with
      | None => Some (set_conns s (<[c := (peer, "")]> (fi_conns s)), [])
      | Some _ => None
      end
  | IChunk c chunk =>
      '(peer, buf) ← fi_conns s !! c;
      let '(lines, rest) := drain_buffer (buf +:+ chunk) in
      let ms := pair peer <$> lines in
      Some (mkIngest (enqueue_lines (fi_receiver s) ms) (<[c := (peer, rest)]> (fi_conns s))
              (fi_tasks s) (fi_publisher s) true, [Received ms])
  | IClose c => Some (set_conns s (delete c (fi_conns s)), [])
  | ITake i now redis => take_turn s i now redis
  | IStop redis =>
      let '(p, sent, res) := flush_locked (fi_publisher s) redis in
      Some (mkIngest (fi_receiver s) (fi_conns s) ((λ t, (t.1, false)) <$> fi_tasks s) p false,
            (λ b, Piped b res) <$> sent)
  end.

Fixpoint fi_run (s : ingest) (acts : list fi_action) : option (ingest * list fi_obs) :=
  match acts with
  | [] => Some (s, [])
  | a :: rest =>
      '(s1, o1) ← fi_step s a;
      '(s2, o2) ← fi_run s1 rest;
      Some (s2, o1 ++ o2)
  end.

(** ** Specification vocabulary *)

Definition received (tr : list fi_obs) : list Message :=
  mjoin ((λ o, match o with Received ms => ms | _ => [] end) <$> tr).
Definition taken_by (tr : list fi_obs) : list Message :=
  omap (λ o, match o with Taken m _ => Some m | _ => None end) tr.
Definition events (tr : list fi_obs) : list FlowEvent :=
  omap (λ o, match o with Taken _ ev => ev | _ => None end) tr.
Definition pipelines (tr : list fi_obs) : list (list xadd_cmd * result ()) :=
  omap (λ o, match o with Piped b res => Some (b, res) | _ => None end) tr.

(** The payloads sent, whether or not the pipeline succeeded. *)
Definition payloads (tr : list fi_obs) : list string := xa_payload <$> concat (pipelines tr).*1.

(** The tasks that have ended. *)
Definition ended (s : ingest) : nat := length (filter (λ t, t.2 = false) (fi_tasks s)).
Definition failures (tr : list fi_obs) : nat := length (filter (λ b, is_ok b.2 = false) (pipelines tr)).

Definition fi_reached (queue_max : Z) (configs : pydict string AdapterConfig) (s : ingest) (tr : list fi_obs) : Prop :=
  ∃ acts, fi_run (start_ingest queue_max configs) acts = Some (s, tr).

(** The invariant: the queue, the publisher, the tasks. *)
Definition queue_inv (m : Z) (r : SyslogReceiver) (tr : list fi_obs) : Prop :=
  receiver_inv m r (taken_by tr) (received tr).

Definition bus_inv (p : RedisFlowPublisher) (tr : list fi_obs) : Prop :=
  payloads tr ++ fp_buf p = jsonify <$> events tr ∧
  fp_max_batch p = 50 ∧ Z.of_nat (length (fp_buf p)) < 50 ∧
  Forall (λ b, b.1 ≠ [] ∧ Z.of_nat (length b.1) ≤ 50) (pipelines tr).

Definition tasks_inv (s : ingest) (tr : list fi_obs) : Prop :=
  if fi_running s then ended s = failures tr
  else fp_buf (fi_publisher s) = [] ∧ Forall (λ t, t.2 = false) (fi_tasks s).

Definition fi_inv (m : Z) (s : ingest) (tr : list fi_obs) : Prop :=
  queue_inv m (fi_receiver s) tr ∧ bus_inv (fi_publisher s) tr ∧ tasks_inv s tr.

(** ** Lemmas *)

(** The observations of a turn. *)
Lemma obs_projections (t1 t2 : list fi_obs) :
  received (t1 ++ t2) = received t1 ++ received t2 ∧ taken_by (t1 ++ t2) = taken_by t1 ++ taken_by t2 ∧
  events (t1 ++ t2) = events t1 ++ events t2 ∧ pipelines (t1 ++ t2) = pipelines t1 ++ pipelines t2.
Proof. unfold received. rewrite fmap_app, join_app. split_and!; [done|..]; apply omap_app. Qed.

Lemma piped_projections (sent : list (list xadd_cmd)) (res : result ()) :
  let o := (λ b, Piped b res) <$> sent in
  received o = [] ∧ taken_by o = [] ∧ events o = [] ∧ pipelines o = (λ b, (b, res)) <$> sent.
Proof.
  induction sent as [|b sent (H1 & H2 & H3 & H4)]; [done|].
  split_and!; [exact H1|exact H2|exact H3|exact (f_equal (cons (b, res)) H4)].
Qed.

Lemma queue_inv_receive m r tr o ms :
  queue_inv m r tr → received o = ms → taken_by o = [] → queue_inv m (enqueue_lines r ms) (tr ++ o).
Proof.
  intros Hi Hr Ht. unfold queue_inv. destruct (obs_projections tr o) as (-> & -> & _). rewrite Hr, Ht, app_nil_r.
  by apply receiver_inv_receive.
Qed.

Lemma queue_inv_take m r tr o msg q :
  queue_inv m r tr → get_nowait (rc_queue r) = Some (msg, q) → received o = [] → taken_by o = [msg] →
  queue_inv m (mkReceiver q (rc_backpressure_drops r)) (tr ++ o).
Proof.
  intros Hi Hg Hr Ht. unfold queue_inv. destruct (obs_projections tr o) as (-> & -> & _).
  rewrite Hr, Ht, app_nil_r. by apply receiver_inv_take.
Qed.

(** A turn of the publisher. *)
Lemma bus_inv_step p tr op redis p' sent res o :
  bus_inv p tr → bus_step jsonify p (op, redis) = (p', sent, res) →
  jsonify <$> events o = published jsonify [(op, redis)] → pipelines o = (λ b, (b, res)) <$> sent →
  bus_inv p' (tr ++ o).
Proof.
  intros (Hp & H50 & Hl & Hf) Hs He Ho.
  pose proof (bus_step_spec jsonify p (op, redis) p' sent res) as Hbus. rewrite H50 in Hbus.
  destruct (Hbus Hl Hs) as (B1 & B2 & B3 & B4). unfold bus_inv, payloads in *.
  destruct (obs_projections tr o) as (_ & _ & -> & ->). rewrite Ho, !fmap_app, concat_app, fmap_app, He.
  rewrite <-list_fmap_compose. change (fst ∘ _) with (@id (list xadd_cmd)). rewrite list_fmap_id.
  split_and!; [by rewrite <-app_assoc, B1, app_assoc, Hp|done|done|].
  apply Forall_app. split; [done|]. by apply Forall_fmap.
Qed.

(** A publish makes at most one pipeline, and fails exactly when it does. *)
Lemma publish_failures p ev redis p' sent res :
  publish_flow jsonify p ev redis = (p', sent, res) →
  length (filter (λ b, is_ok b.2 = false) ((λ b : list xadd_cmd, (b, res)) <$> sent)) = (if is_ok res then 0 else 1)%nat.
Proof.
  unfold publish_flow, flush_locked. destruct (_ <=? _); [|by intros [= <- <- <-]].
  destruct (fp_buf _); intros [= <- <- <-]; [done|]. by destruct redis.
Qed.

Lemma ended_insert (s : list (FlowAdapter * bool)) (i : nat) a (b : bool) :
  s !! i = Some (a, true) →
  length (filter (λ t : FlowAdapter * bool, t.2 = false) (<[i := (a, b)]> s)) =
    (length (filter (λ t : FlowAdapter * bool, t.2 = false) s) + (if b then 0 else 1))%nat.
Proof.
  revert i. induction s as [|t s IH]; intros [|i] Hi; [done|done| |].
  - injection Hi as ->. change (<[0%nat := (a, b)]> ((a, true) :: s)) with ((a, b) :: s).
    rewrite !filter_cons. destruct b; simpl; lia.
  - change (<[S i := (a, b)]> (t :: s)) with (t :: <[i := (a, b)]> s). rewrite !filter_cons.
    destruct (decide _); simpl; rewrite IH by done; lia.
Qed.

Lemma take_turn_inv m s tr i now redis s' o :
  fi_inv m s tr → fi_running s = true → take_turn s i now redis = Some (s', o) → fi_inv m s' (tr ++ o).
Proof.
  intros (Hq & Hb & Ht) Hrun. unfold take_turn, tasks_inv in *. rewrite Hrun in Ht.
  destruct (fi_tasks s !! i) as [[a []]|] eqn:Ei; [|done|done].
  intros ([msg q] & Hg & Hst)%bind_Some.
  destruct (adapter_step a now msg) as [ev|].
  - destruct (publish_flow jsonify (fi_publisher s) ev redis) as [[p sent] res] eqn:Ep.
    injection Hst as <- <-. destruct (piped_projections sent res) as (P1 & P2 & P3 & P4).
    pose proof (publish_failures _ _ _ _ _ _ Ep) as Hf. split_and!.
    + eapply queue_inv_take; [exact Hq|exact Hg|exact P1|exact (f_equal (cons msg) P2)].
    + eapply (bus_inv_step _ _ (BusPublish ev) redis); [exact Hb|exact Ep| |exact P4]. exact (f_equal (fmap jsonify ∘ cons ev) P3).
    + unfold tasks_inv, ended, failures in *. cbn [fi_running fi_tasks]. rewrite Hrun, (ended_insert _ _ _ _ Ei).
      destruct (obs_projections tr (Taken msg (Some ev) :: ((λ b, Piped b res) <$> sent))) as (_ & _ & _ & ->).
      rewrite filter_app, length_app, Ht. f_equal. rewrite <-Hf. by rewrite <-P4.
  - injection Hst as <- <-. destruct (obs_projections tr [Taken msg None]) as (_ & _ & He & Hpi).
    simpl in He, Hpi. rewrite app_nil_r in He, Hpi. split_and!.
    + by eapply queue_inv_take.
    + unfold bus_inv, payloads in *. by rewrite He, Hpi.
    + unfold tasks_inv, failures. simpl. rewrite Hrun. by rewrite Hpi.
Qed.

Lemma receive_inv m s tr cs ms :
  fi_inv m s tr → fi_running s = true →
  fi_inv m (mkIngest (enqueue_lines (fi_receiver s) ms) cs (fi_tasks s) (fi_publisher s) true) (tr ++ [Received ms]).
Proof.
  intros (Hq & Hb & Ht) Hrun. destruct (obs_projections tr [Received ms]) as (_ & _ & He & Hpi).
  simpl in He, Hpi. rewrite app_nil_r in He, Hpi. split_and!.
  - eapply queue_inv_receive; [exact Hq| |done]. unfold received. simpl. by rewrite app_nil_r.
  - unfold bus_inv, payloads in *. simpl. by rewrite He, Hpi.
  - unfold tasks_inv, failures in *. rewrite Hrun in Ht. simpl. by rewrite Hpi.
Qed.

Lemma fi_step_inv m s tr a s' o : fi_inv m s tr → fi_step s a = Some (s', o) → fi_inv m s' (tr ++ o).
Proof.
  intros Hinv. unfold fi_step. destruct (fi_running s) eqn:Hrun; [simpl|done].
  destruct a as [peer data|c peer|c chunk|c|i now redis|redis].
  - intros [= <- <-]. unfold set_receiver. rewrite datagram_enqueue, Hrun. by apply receive_inv.
  - destruct (fi_conns s !! c); [done|]. intros [= <- <-]. rewrite app_nil_r.
    unfold fi_inv, tasks_inv in *. simpl. by rewrite Hrun in *.
  - intros ([peer buf] & _ & Hst)%bind_Some. destruct (drain_buffer _) as [lines rest].
    injection Hst as <- <-. by apply receive_inv.
  - intros [= <- <-]. rewrite app_nil_r. unfold fi_inv, tasks_inv in *. simpl. by rewrite Hrun in *.
  - by apply take_turn_inv.
  - destruct (flush_locked (fi_publisher s) redis) as [[p sent] res] eqn:Ef. intros [= <- <-].
    destruct (piped_projections sent res) as (P1 & P2 & P3 & P4). destruct Hinv as (Hq & Hb & Ht).
    split_and!.
    + unfold queue_inv in *. simpl. destruct (obs_projections tr ((λ b, Piped b res) <$> sent)) as (-> & -> & _).
      by rewrite P1, P2, !app_nil_r.
    + eapply (bus_inv_step _ _ BusFlush redis); [exact Hb|exact Ef|by rewrite P3|exact P4].
    + unfold tasks_inv. simpl. split; [by apply flush_locked_spec in Ef as (_ & ? & _)|].
      by apply Forall_fmap, Forall_true.
Qed.

Lemma fi_run_inv m s tr acts s' o : fi_inv m s tr → fi_run s acts = Some (s', o) → fi_inv m s' (tr ++ o).
Proof.
  revert s tr o. induction acts as [|a acts IH]; intros s tr o Hinv; cbn [fi_run].
  { intros [= <- <-]. by rewrite app_nil_r. }
  intros ([s1 o1] & Hst & Hr)%bind_Some. apply bind_Some in Hr as ([s2 o2] & Hr & [= <- <-]).
  rewrite app_assoc. eapply IH; [|exact Hr]. by eapply fi_step_inv.
Qed.

Lemma fi_reached_inv queue_max configs s tr : fi_reached queue_max configs s tr → fi_inv queue_max s tr.
Proof.
  intros [acts Hr]. change tr with ([] ++ tr). eapply fi_run_inv; [|exact Hr]. split_and!.
  - split_and!; [|done|apply arrived_refl|done]. unfold queue_wf. simpl. lia.
  - by split_and!.
  - unfold tasks_inv, ended. simpl. induction (started_adapters registry configs) as [|na l IH]; [done|].
    simpl. destruct (adapter_of na.1 na.2); [|exact IH]. simpl. exact IH.
Qed.
(** What a turn does to the tasks. *)
Lemma fi_step_tasks s a s' o :
  fi_step s a = Some (s', o) →
  (fi_tasks s').*1 = (fi_tasks s).*1 ∧
  (∀ m ev, Taken m ev ∈ o → ∃ ad now, (ad, true) ∈ fi_tasks s ∧ ev = adapter_step ad now m) ∧
  (Forall (λ t, t.2 = false) (fi_tasks s) → Forall (λ t, t.2 = false) (fi_tasks s')).
Proof.
  assert (Hp : ∀ m ev (sent : list (list xadd_cmd)) (res : result ()), Taken m ev ∉ (λ b, Piped b res) <$> sent).
  { intros m ev sent res (b & ? & _)%list_elem_of_fmap. done. }
  unfold fi_step. destruct (fi_running s); [simpl|done]. destruct a as [peer data|c peer|c chunk|c|i now redis|redis].
  - intros [= <- <-]. split_and!; try done. by intros m ev [|Hn%not_elem_of_nil]%elem_of_cons.
  - destruct (fi_conns s !! c); [done|]. intros [= <- <-]. split_and!; try done. by intros m ev Hn%not_elem_of_nil.
  - intros ([peer buf] & _ & Hst)%bind_Some. destruct (drain_buffer _) as [lines rest]. injection Hst as <- <-.
    split_and!; try done. by intros m ev [|Hn%not_elem_of_nil]%elem_of_cons.
  - intros [= <- <-]. split_and!; try done. by intros m ev Hn%not_elem_of_nil.
  - unfold take_turn. destruct (fi_tasks s !! i) as [[ad []]|] eqn:Ei; [|done|done].
    intros ([msg q] & _ & Hst)%bind_Some. pose proof (list_elem_of_lookup_2 _ _ _ Ei) as Hin.
    assert (Hdead : Forall (λ t, t.2 = false) (fi_tasks s) → False).
    { rewrite Forall_forall. intros Hf. by specialize (Hf _ Hin). }
    destruct (adapter_step ad now msg) as [ev|] eqn:Ea.
    + destruct (publish_flow jsonify (fi_publisher s) ev redis) as [[p sent] res]. injection Hst as <- <-.
      split_and!; simpl; [|by intros m ev' [[= -> ->]|Hn%Hp]%elem_of_cons; [exists ad, now|]|done].
      rewrite list_fmap_insert, list_insert_id; [done|]. by rewrite list_lookup_fmap, Ei.
    + injection Hst as <- <-. split_and!; [done| |done].
      by intros m ev' [[= -> ->]|Hn%not_elem_of_nil]%elem_of_cons; [exists ad, now|].
  - destruct (flush_locked (fi_publisher s) redis) as [[p sent] res]. intros [= <- <-]. split_and!; simpl.
    + by rewrite <-list_fmap_compose.
    + by intros m ev Hn%Hp.
    + intros _. by apply Forall_fmap, Forall_true.
Qed.

Lemma fi_run_tasks s acts s' o :
  fi_run s acts = Some (s', o) →
  (∀ m ev, Taken m ev ∈ o → ∃ ad now, ad ∈ (fi_tasks s).*1 ∧ ev = adapter_step ad now m) ∧
  (Forall (λ t, t.2 = false) (fi_tasks s) → ∀ m ev, Taken m ev ∉ o).
Proof.
  revert s s' o. induction acts as [|a acts IH]; intros s s' o; cbn [fi_run].
  { intros [= _ <-]. split; [by intros m ev ?%not_elem_of_nil|by intros _ m ev ?%not_elem_of_nil]. }
  intros ([s1 o1] & Hst & Hr)%bind_Some. apply bind_Some in Hr as ([s2 o2] & Hr & [= _ <-]).
  destruct (fi_step_tasks _ _ _ _ Hst) as (H1 & H2 & H3). destruct (IH _ _ _ Hr) as [I1 I2]. rewrite H1 in I1. split.
  - intros m ev [Hin|Hin]%elem_of_app; [|by apply I1]. destruct (H2 _ _ Hin) as (ad & now & Ha & ->).
    exists ad, now. split; [|done]. apply list_elem_of_fmap. by exists (ad, true).
  - intros Hd m ev [Hin|Hin]%elem_of_app; [|by apply (I2 (H3 Hd) m ev)].
    destruct (H2 _ _ Hin) as (ad & now & Ha & _). rewrite Forall_forall in Hd. by specialize (Hd _ Ha).
Qed.

Lemma no_taken (o : list fi_obs) : (∀ m ev, Taken m ev ∉ o) → taken_by o = [] ∧ events o = [].
Proof.
  intros Hn. induction o as [|x o IH]; [done|].
  destruct IH as [H1 H2]; [intros m ev Hin; by apply (Hn m ev); right|].
  destruct x as [ms|m ev|b res]; [by split|exfalso; apply (Hn m ev); left|by split].
Qed.

(** ** Theorems *)

(** C11. From the wire to the stream nothing is lost, invented or reordered, apart from
    what the full queue pushes out, which is counted.  For every interleaving of
    datagrams, TCP chunks and turns of the adapters: the messages taken and those
    that wait are in order a part of those received (all of them when the queue
    has no bound), and the drop counter is the difference; every event is what an
    adapter's parser makes of a message taken; the payloads sent, followed by the
    buffer, are those events in order, in pipelines of at most fifty; and after a
    stop the buffer is empty. *)
Theorem ingest_in_order queue_max configs s tr :
  fi_reached queue_max configs s tr →
  let q := rc_queue (fi_receiver s) in
  arrived queue_max (taken_by tr ++ q_items q) (received tr) ∧
  rc_backpressure_drops (fi_receiver s) =
    Z.of_nat (length (received tr)) - Z.of_nat (length (taken_by tr)) - Z.of_nat (length (q_items q)) ∧
  (∀ m ev, Taken m ev ∈ tr → ∃ na ad now, na ∈ started_adapters registry configs ∧
     adapter_of na.1 na.2 = Some ad ∧ ev = adapter_step ad now m) ∧
  payloads tr ++ fp_buf (fi_publisher s) = jsonify <$> events tr ∧
  Forall (λ b, b.1 ≠ [] ∧ Z.of_nat (length b.1) ≤ 50) (pipelines tr) ∧
  (fi_running s = false → fp_buf (fi_publisher s) = []).
Proof.
  intros Hre q. destruct (fi_reached_inv _ _ _ _ Hre) as ((_ & Ha & Hd) & (Hp & _ & _ & Hf) & Ht).
  split_and!; [done|subst q; lia| |done|done|].
  - destruct Hre as [acts Hr]. destruct (fi_run_tasks _ _ _ _ Hr) as [Htk _]. intros m ev Hin.
    destruct (Htk _ _ Hin) as (ad & now & Had & ->). simpl in Had.
    apply list_elem_of_fmap in Had as ([ad' b] & -> & Had).
    apply list_elem_of_omap in Had as (na & Hna & Had). apply bind_Some in Had as (ad & Had & [= <- <-]).
    by exists na, ad, now.
  - unfold tasks_inv in Ht. intros Hrun. rewrite Hrun in Ht. apply Ht.
Qed.

(** C12. A failed pipeline ends the adapter that sent it.  While the service runs, as many
    adapters have ended as pipelines have failed; once all have, whatever arrives,
    no message is taken and no event is published any more. *)
Theorem redis_error_ends_adapters queue_max configs s tr :
  fi_reached queue_max configs s tr → fi_running s = true →
  ended s = failures tr ∧
  ((length (fi_tasks s) ≤ failures tr)%nat →
   ∀ acts s' o, fi_run s acts = Some (s', o) → taken_by o = [] ∧ events o = []).
Proof.
  intros Hre Hrun. destruct (fi_reached_inv _ _ _ _ Hre) as (_ & _ & Ht). unfold tasks_inv in Ht.
  rewrite Hrun in Ht. split; [done|]. intros Hall acts s' o Hr. apply no_taken.
  destruct (fi_run_tasks _ _ _ _ Hr) as [_ Hd]. apply Hd. clear -Ht Hall. unfold ended in Ht. rewrite <-Ht in Hall.
  clear Ht. induction (fi_tasks s) as [|t l IH]; [constructor|]. rewrite filter_cons in Hall.
  destruct (decide (t.2 = false)) as [Hf|Hf]; simpl in Hall.
  - constructor; [done|]. apply IH. lia.
  - pose proof (length_filter (λ t : FlowAdapter * bool, t.2 = false) l). lia.
Qed.
End machine.

(** ** Concrete runs *)

Definition ex_configs : pydict string AdapterConfig :=
  [("fortigate", mkAdapterConfig true ∅ []); ("palo_alto", mkAdapterConfig false ∅ [])].

Definition forti_text (ip : string) : string :=
  "<13>type=traffic subtype=forward status=close srcip=" +:+ ip +:+ " dstip=10.9.9.9 proto=6 sentbyte=3 rcvdbyte=4".

(** A datagram, a stream cut in the middle of a line, and a stop. *)
Definition ex_acts : list fi_action :=
  [IDatagram "10.1.1.1" (forti_text "10.0.0.1"); IConnect 0 "10.1.1.2"; IChunk 0 "<13>ty";
   ITake 0 5 (Ok ()); IChunk 0 ("pe=x" +:+ String lf (forti_text "10.0.0.2" +:+ String lf "")); ITake 0 6 (Ok ());
   ITake 0 7 (Ok ()); IClose 0; IStop (Ok ())].

Definition ex_ingest : option (ingest * list fi_obs) := fi_run fe_src_ip (start_ingest 100 ex_configs) ex_acts.

Example ex_ingest_events :
  (λ st, (fe_src_ip <$> events st.2, length (taken_by st.2), payloads st.2)) <$> ex_ingest =
  Some (["10.0.0.1"; "10.0.0.2"], 3%nat, ["10.0.0.1"; "10.0.0.2"]).
Proof. vm_compute. reflexivity. Qed.

Lemma ex_reached acts s tr :
  fi_run fe_src_ip (start_ingest 100 ex_configs) acts = Some (s, tr) → fi_reached fe_src_ip 100 ex_configs s tr.
Proof. intros Hr. by exists acts. Qed.

Lemma ingest_in_order_witness :
  ∃ s tr, ex_ingest = Some (s, tr) ∧ fp_buf (fi_publisher s) = [] ∧
    arrived 100 (taken_by tr ++ q_items (rc_queue (fi_receiver s))) (received tr).
Proof.
  assert (Hf : (λ st, fi_running st.1) <$> ex_ingest = Some false) by (vm_compute; reflexivity).
  destruct ex_ingest as [[s tr]|] eqn:E; [|discriminate Hf]. injection Hf as Hrun.
  destruct (ingest_in_order fe_src_ip 100 ex_configs s tr) as (Ha & _ & _ & _ & _ & Hb);
    [apply (ex_reached ex_acts), E|].
  exists s, tr. split; [reflexivity|]. split; [apply Hb, Hrun|exact Ha].
Defined.

(** Fifty events and a failed pipeline end the only adapter. *)
Definition failing_acts : list fi_action :=
  mjoin (replicate 50 [IDatagram "10.1.1.1" (forti_text "10.0.0.1"); ITake 0 5 (Raise OtherError)]).

Definition ex_failed : option (ingest * list fi_obs) := fi_run fe_src_ip (start_ingest 100 ex_configs) failing_acts.

Lemma redis_error_ends_adapters_witness :
  ∃ s tr, ex_failed = Some (s, tr) ∧ ended s = 1%nat ∧
    ∀ acts s' o, fi_run fe_src_ip s acts = Some (s', o) → events o = [].
Proof.
  assert (Hf : (λ st, (fi_running st.1, length (fi_tasks st.1), ended st.1)) <$> ex_failed = Some (true, 1%nat, 1%nat))
    by (vm_compute; reflexivity).
  destruct ex_failed as [[s tr]|] eqn:E; [|discriminate Hf]. injection Hf as Hrun Hlen Hend.
  destruct (redis_error_ends_adapters fe_src_ip 100 ex_configs s tr) as [Heq Hall];
    [apply (ex_reached failing_acts), E|exact Hrun|].
  exists s, tr. split; [reflexivity|]. split; [exact Hend|].
  intros acts s' o Hr. apply (Hall ltac:(rewrite <-Heq, Hend, Hlen; reflexivity) _ _ _ Hr).
Defined.
