(* ===== verification/MockRun.v ===== *)
(** * The loop of the mock generator ([_run] of [mockgen/main.py])

    One datagram per turn, for a vendor of the settings chosen at random, and a pause.
    Pauses are rationals (the source has floats); the choices, the clock and the socket
    are arguments. *)

From Stdlib Require Import QArith.
From S2P Require Import Prelude PyStr EventTypes PyDatetime SyslogReceiver FlowAdapters FlowIngest MockGen.

#[local] Open Scope Z_scope.

Record MockSettings : Type := mkMockSettings {
  mockgen_target_host : string;
  mockgen_target_port : Z;
  mockgen_rate_per_s : Z;
  mockgen_vendors : string
}.

Definition mock_defaults : MockSettings := mkMockSettings "traefik" 514 100 "palo_alto,fortigate".

(** [1.0 / max(1, rate)] seconds. *)
Definition mock_interval (s : MockSettings) : Q := (1 / inject_Z (Z.max 1 (mockgen_rate_per_s s)))%Q.

(** What the world gives to a turn: the index that [random.choice] draws below a bound, the
    clock, the choices of the templates and the outcome of [sendto]. *)
Record mock_env : Type := mkMockEnv {
  me_draw : nat → nat;
  me_now : Z;
  me_pan : pan_choice;
  me_fgt : fgt_choice;
  me_sendto : result ()
}.

Definition env_ok (e : mock_env) : Prop :=
  (∀ n, (0 < n)%nat → (me_draw e n < n)%nat) ∧ instant_ok (me_now e) ∧ pan_choice_ok (me_pan e) ∧ fgt_choice_ok (me_fgt e).

(** [random.choice]; an empty list is an [IndexError]. *)
Definition random_choice (draw : nat → nat) (vendors : list string) : result string :=
  match vendors !! draw (length vendors) with Some v => Ok v | None => Raise IndexError end.

(** A datagram that [sendto] was called with, and how the call ended. *)
Record mock_send : Type := mkMockSend { ms_vendor : string; ms_data : string; ms_result : result () }.

(** The turns of the loop: the datagrams and the pauses together. *)
Fixpoint mock_loop (s : MockSettings) (es : list mock_env) : list mock_send * Q * result () :=
  match es with
  | [] => ([], 0%Q, Ok ())
  | e :: es =>
      match random_choice (me_draw e) (mock_vendors (mockgen_vendors s)) with
      | Raise x => ([], 0%Q, Raise x)
      | Ok v =>
          let send := mkMockSend v (mock_datagram v (me_now e) (me_pan e) (me_fgt e)) (me_sendto e) in
          let pause := ((if is_ok (me_sendto e) then 0 else 1) + mock_interval s)%Q in
          let '(sends, slept, r) := mock_loop s es in
          (send :: sends, (pause + slept)%Q, r)
      end
  end.

(** The flow that the datagram of a turn stands for. *)
Definition mock_flow (v : string) (e : mock_env) : FlowEvent :=
  if decide (v = "palo_alto") then pan_flow (me_now e) (me_pan e) else fgt_flow (me_now e) (me_fgt e).
Definition mock_adapter (v : string) : FlowAdapter := if decide (v = "palo_alto") then palo_alto None else fortigate None.

Lemma interval_pos s : (0 < mock_interval s)%Q.
Proof. unfold mock_interval, Qdiv. rewrite Qmult_1_l. apply Qinv_lt_0_compat. unfold Qlt. cbn. lia. Qed.

Lemma interval_rate s : (mock_interval s * inject_Z (Z.max 1 (mockgen_rate_per_s s)) == 1)%Q.
Proof. unfold mock_interval. field. unfold Qeq. cbn. lia. Qed.

Lemma random_choice_ok e vendors :
  env_ok e → vendors ≠ [] → ∃ v, random_choice (me_draw e) vendors = Ok v ∧ v ∈ vendors.
Proof.
  intros (Hd & _) Hv. assert (Hlt : (me_draw e (length vendors) < length vendors)%nat) by (apply Hd; destruct vendors; [done|cbn; lia]).
  apply lookup_lt_is_Some in Hlt as [v Hl]. exists v. unfold random_choice. rewrite Hl. split; [done|]. by eapply list_elem_of_lookup_2.
Qed.

(** With at least one vendor in the settings the loop goes on for ever: after any number of
    turns it has called [sendto] once per turn, with one line that the receiver takes
    whole and the adapter of the vendor turns into the flow it was made of; and in the
    time it has slept it has sent no more than the rate of the settings allows (one per
    second if that is not positive), and exactly so many when no call failed. *)
Theorem mock_loop_flows peer s es :
  mock_vendors (mockgen_vendors s) ≠ [] → Forall env_ok es →
  ∃ sends slept, mock_loop s es = (sends, slept, Ok ()) ∧
    Forall2 (λ e m, ms_vendor m ∈ mock_vendors (mockgen_vendors s) ∧ ms_result m = me_sendto e ∧
      ∃ line, datagram_messages peer (ms_data m) = [line] ∧
        adapter_step (mock_adapter (ms_vendor m)) (me_now e) line = Some (mock_flow (ms_vendor m) e)) es sends ∧
    (inject_Z (Z.of_nat (length sends)) <= slept * inject_Z (Z.max 1 (mockgen_rate_per_s s)))%Q ∧
    (Forall (λ e, is_ok (me_sendto e) = true) es →
      inject_Z (Z.of_nat (length sends)) == slept * inject_Z (Z.max 1 (mockgen_rate_per_s s)))%Q.
Proof.
  intros Hv HF. set (rate := inject_Z (Z.max 1 (mockgen_rate_per_s s))).
  assert (Hrate : (0 < rate)%Q) by (unfold rate, Qlt; cbn; lia).
  induction HF as [|e es He _ (sends & slept & IHr & IHf & IHle & IHeq)].
  { exists [], 0%Q. split_and!; [done|constructor|unfold Qle; cbn; lia|intros _; unfold Qeq; cbn; lia]. }
  destruct (random_choice_ok e _ He Hv) as (v & Hc & Hin). cbn [mock_loop]. rewrite Hc, IHr.
  eexists _, _. split; [reflexivity|]. rewrite length_cons, Nat2Z.inj_succ, <-Z.add_1_l, inject_Z_plus.
  pose proof (interval_rate s) as Hi. fold rate in Hi. split_and!.
  - constructor; [|done]. cbn. split_and!; [done|done|]. destruct He as (_ & Hn & Hp & Hf).
    destruct (mock_lines_become_flows (me_now e) (me_now e) peer _ _ Hn Hp Hf) as (pl & fl & H1 & H2 & H3 & H4).
    unfold mock_adapter, mock_flow, mock_datagram in *. destruct (decide (v = "palo_alto")).
    + by exists pl.
    + by exists fl.
  - rewrite !Qmult_plus_distr_l, Hi. apply Qplus_le_compat; [|done]. rewrite <-(Qplus_0_l (inject_Z 1)).
    apply Qplus_le_compat; [|apply Qle_refl]. destruct (is_ok _); [rewrite Qmult_0_l; apply Qle_refl|].
    rewrite Qmult_1_l. by apply Qlt_le_weak.
  - intros (He' & Hes)%Forall_cons. rewrite He', (IHeq Hes), !Qmult_plus_distr_l, Hi. ring.
Qed.

(** A setting of commas and blanks ends the generator at its first turn. *)
Example no_vendors :
  (mock_loop (mkMockSettings "h" 514 100 " , ") [mkMockEnv (λ _, 0%nat) ex_now ex_pan ex_fgt (Ok ())]).2 = Raise IndexError.
Proof. vm_compute. reflexivity. Qed.

(** Two turns at the default rate, the second call refused. *)
Example two_turns :
  (λ r : list mock_send * Q * result (), (ms_vendor <$> r.1.1, Qred r.1.2, r.2))
    (mock_loop mock_defaults
      [mkMockEnv (λ _, 0%nat) ex_now ex_pan ex_fgt (Ok ()); mkMockEnv (λ _, 1%nat) ex_now ex_pan ex_fgt (Raise OtherError)]) =
  (["palo_alto"; "fortigate"], (51 # 50)%Q, Ok ()).
Proof. vm_compute. reflexivity. Qed.
