(* ===== verification/EndToEnd.v ===== *)
(** * From syslog lines to the table [flows]

    The composition of the two services: what the flow ingest sends on the stream
    [flows.raw] is what the correlator reads.  The stream is the only thing
    between them; it may lose entries (the length bound, a failed pipeline), but
    it keeps their order. *)

From S2P Require Import Prelude PySort PyDict PyQueue EventTypes SyslogReceiver RedisBus FlowAdapters Config FlowIngest.
From S2P Require Import PyText PyDatetime PyJson PyStr.
From S2P Require Import Windower PipelineWindow IdentityIndex AppResolver GroupIndex SankeyPublisher Writer Correlator Wire Pipeline.

(** The messages that the correlator's reader gets for some payloads. *)
Definition stream_messages (ids sent : list string) : list (message FlowEvent) := zip ids (read_flow <$> sent).

(** What the table should hold for a cell: the totals of the events. *)
Definition row_of_events (window_s : Z) (evs : list FlowEvent) (r : flow_rec) : Prop :=
  ∀ c, row_count c r = sum_by (ev_count c) (filter (λ ev, event_cell window_s ev = row_cell r) evs).

Lemma sublist_of_fmap {A B} (f : A → B) (k : list B) (l : list A) :
  k `sublist_of` (f <$> l) → ∃ l', k = f <$> l' ∧ l' `sublist_of` l.
Proof.
  revert k. induction l as [|x l IH]; intros k Hk; csimpl in Hk.
  - apply sublist_nil_r in Hk as ->. by exists [].
  - apply sublist_cons_r in Hk as [Hk|(k' & -> & Hk)]; apply IH in Hk as (l' & -> & Hl).
    + exists l'. split; [done|]. by constructor.
    + exists (x :: l'). split; [done|]. by constructor.
Qed.

Lemma sublist_full {A} (l k : list A) : l `sublist_of` k → (length k ≤ length l)%nat → l = k.
Proof.
  induction 1 as [|x l k Hlk IH|x l k Hlk IH]; simpl; intros Hlen; [done|f_equal; apply IH; lia|].
  apply sublist_length in Hlk. lia.
Qed.

Section end_to_end.
Context {T : Type} `{IntervalTree Binding T}.

(** Events cross the stream in order, none twice. *)
Lemma stream_seen queue_max configs si tri cfg (sp : pipeline T) trp ids sent :
  fi_reached jsonify_flow queue_max configs si tri → Forall flow_ok (FlowIngest.events tri) →
  1 ≤ cs_batch_size cfg → reached cfg sp trp →
  sent `sublist_of` payloads tri → length ids = length sent → fetched trp = stream_messages ids sent →
  ∃ evs, sent = jsonify_flow <$> evs ∧ evs `sublist_of` FlowIngest.events tri ∧
    evs = seen trp ++ q_items (pl_raw sp) ++ decoded (pl_inbox sp).
Proof.
  intros Hi Hok Hb Hp Hs Hids Hf.
  destruct (fi_reached_inv _ _ _ _ _ Hi) as (_ & (Hpay & _) & _).
  destruct (reached_inv _ _ _ Hb Hp) as (_ & _ & Hr & _).
  assert (Hs' : sent `sublist_of` (jsonify_flow <$> FlowIngest.events tri)).
  { rewrite <-Hpay. by apply sublist_inserts_r. }
  apply sublist_of_fmap in Hs' as (evs & -> & Hsub). exists evs. split; [done|split; [done|]].
  unfold reader_inv in Hr. rewrite Hf in Hr. unfold stream_messages in Hr. rewrite length_fmap in Hids.
  rewrite decoded_flows in Hr; [done| |done].
  rewrite Forall_forall in *. intros e He. apply Hok. by eapply elem_of_sublist.
Qed.

(** C1. The rows of the table come from the lines.  Let the correlator read, in order, any
    part of what the flow ingest sent, and its windower see its inputs in time
    order.  Then the events it has seen are, in order, some of those that the
    adapters made of the lines they took; the rows copied have distinct windows
    and keys, and each carries exactly the totals of the seen events of its window
    and key.  When everything was sent, nothing was lost on the stream and nothing
    waits any more, these are the totals of all the events. *)
Theorem lines_to_rows queue_max configs si tri cfg (sp : pipeline T) trp ids sent :
  fi_reached jsonify_flow queue_max configs si tri → Forall flow_ok (FlowIngest.events tri) →
  0 < cs_window_s cfg → 1 ≤ cs_batch_size cfg → reached cfg sp trp → in_time_order (saw trp) →
  sent `sublist_of` payloads tri → length ids = length sent → fetched trp = stream_messages ids sent →
  let rows := concat (copied trp).*1 in
  seen trp `sublist_of` FlowIngest.events tri ∧
  NoDup (row_cell <$> rows) ∧ Forall (row_of_events (cs_window_s cfg) (seen trp)) rows ∧
  (sent = payloads tri → fp_buf (fi_publisher si) = [] → drained sp →
   Forall (row_of_events (cs_window_s cfg) (FlowIngest.events tri)) rows).
Proof.
  intros Hi Hok Hws Hb Hp Hs Hsent Hids Hf rows.
  destruct (stream_seen _ _ _ _ _ _ _ _ _ Hi Hok Hb Hp Hsent Hids Hf) as (evs & Hevs & Hsub & Hsplit).
  destruct (table_rows_exact _ _ _ Hws Hb Hp Hs) as [Hnd Hrows]. split_and!; [|exact Hnd| |].
  - etrans; [|exact Hsub]. rewrite Hsplit. by apply sublist_inserts_r.
  - eapply Forall_impl; [exact Hrows|]. intros r [_ Hr]. exact Hr.
  - intros -> Hbuf (Hin & Hraw & _). rewrite Hin, Hraw, app_nil_r in Hsplit. subst evs.
    destruct (fi_reached_inv _ _ _ _ _ Hi) as (_ & (Hpay & _) & _). rewrite Hbuf, app_nil_r, Hevs in Hpay.
    apply (f_equal length) in Hpay. rewrite !length_fmap in Hpay.
    assert (Heq : seen trp = FlowIngest.events tri) by (apply sublist_full; [done|lia]).
    rewrite <-Heq. eapply Forall_impl; [exact Hrows|]. intros r [_ Hr]. exact Hr.
Qed.
End end_to_end.

(** ** A concrete run: two lines become two rows *)

Definition e2e_ingest : option (ingest * list fi_obs) := fi_run jsonify_flow (start_ingest 100 ex_configs) ex_acts.

Definition e2e_ids : list string := ["1"; "2"].

Definition e2e_plan (msgs : list (message FlowEvent)) : list action :=
  [AFetch msgs; AHandle; AHandle; AWindow; AWindow; ATick (30 * second)] ++ one_flow ++ one_flow ++ [AFlush 600 (Ok ())].

Definition e2e_run : option (ingest * list fi_obs * (pipeline (list (interval Binding)) * list obs)) :=
  '(si, tri) ← e2e_ingest;
  match start_pipeline ex_cfg ex_manual ex_saas ex_ports [] 0 with
  | Ok s => st ← pipe_run s (e2e_plan (stream_messages e2e_ids (payloads tri))); Some ((si, tri), st)
  | Raise _ => None
  end.

Definition e2e_event (t : Z) (ip : string) : FlowEvent :=
  mkFlowEvent t ip 0 "10.9.9.9" 0 6 7 0 "close" None None "fortigate" None.

Example e2e_facts :
  (λ r, (FlowIngest.events r.1.2, saw r.2.2, stream_messages e2e_ids (payloads r.1.2), fetched r.2.2,
         (λ r, (fr_time r, fr_src_ip r, fr_bytes r)) <$> concat (copied r.2.2).*1,
         bool_decide (drained r.2.1), fi_running r.1.1, length (payloads r.1.2))) <$> e2e_run =
  let e1 := e2e_event 5 "10.0.0.1" in let e2 := e2e_event 7 "10.0.0.2" in
  Some ([e1; e2], [WEvent e1; WEvent e2; WTimeout (30 * second)], [("1", Ok e1); ("2", Ok e2)],
        [("1", Ok e1); ("2", Ok e2)], [(0, "10.0.0.1", 7); (0, "10.0.0.2", 7)], true, false, 2%nat).
Proof. vm_compute. reflexivity. Qed.

Lemma e2e_flow_ok t ip : 0 ≤ t < second → text_ok ip → flow_ok (e2e_event t ip).
Proof.
  intros Ht Hip. split_and!; try done; try (by apply ascii_text_ok); try exact I.
  - destruct epoch_ok as [Hlo _]. unfold instant_ok. simpl.
    assert (second ≤ (days_from_civil 9999 12 31 + 1) * day_s * second) by (apply Z.leb_le; reflexivity). lia.
  - repeat (apply Forall_cons; split; [by apply int_bound_small|]). by apply Forall_nil.
Qed.

Lemma e2e_reached si tri sp trp :
  e2e_run = Some ((si, tri), (sp, trp)) →
  fi_reached jsonify_flow 100 ex_configs si tri ∧ reached ex_cfg sp trp.
Proof.
  unfold e2e_run. intros ([si' tri'] & Hi & Hr)%bind_Some.
  destruct (start_pipeline _ _ _ _ _ _) as [s0|e] eqn:Es; [|done].
  apply bind_Some in Hr as ([sp' trp'] & Hp & [= <- <- <- <-]). split.
  - exists ex_acts. exact Hi.
  - exists ex_manual, ex_saas, ex_ports, [], 0, s0, (e2e_plan (stream_messages e2e_ids (payloads tri'))).
    split; [exact Es|exact Hp].
Qed.

Lemma lines_to_rows_witness :
  ∃ si tri sp trp, e2e_run = Some ((si, tri), (sp, trp)) ∧ length (concat (copied trp).*1) = 2%nat ∧
    Forall (row_of_events 5 (FlowIngest.events tri)) (concat (copied trp).*1).
Proof.
  pose proof e2e_facts as Hf. destruct e2e_run as [[[si tri] [sp trp]]|] eqn:E; [|discriminate Hf].
  injection Hf as Hev Hsaw Hmsg Hfet Hrows Hdr Hrun Hlen.
  destruct (e2e_reached _ _ _ _ E) as [Hi Hp].
  exists si, tri, sp, trp. split; [reflexivity|]. split.
  { apply (f_equal length) in Hrows. rewrite length_fmap in Hrows. exact Hrows. }
  destruct (lines_to_rows 100 ex_configs si tri ex_cfg sp trp e2e_ids (payloads tri)) as (_ & _ & _ & Hall);
    [exact Hi| |reflexivity|discriminate|exact Hp| |reflexivity|symmetry; exact Hlen|by rewrite Hfet, Hmsg|].
  - rewrite Hev. apply Forall_cons; split; [|apply Forall_singleton]; apply e2e_flow_ok;
      first [by apply ascii_text_ok|unfold second; lia].
  - rewrite Hsaw. unfold in_time_order. repeat constructor; simpl; unfold second; lia.
  - apply Hall; [reflexivity| |by apply bool_decide_eq_true in Hdr].
    destruct (fi_reached_inv _ _ _ _ _ Hi) as (_ & _ & Ht). unfold tasks_inv in Ht. rewrite Hrun in Ht. apply Ht.
Defined.
