(* ===== verification/Logging.v ===== *)
(** * Structured logging ([ztna_common/logging_config.py], [api/logging_config.py])

    The filter that every record passes: it adds the trace id and replaces personal
    values by a digest.  The two modules have the same code.  The digest is a
    parameter, the hexadecimal text of SHA-256. *)

From S2P Require Import Prelude PyDict PyStr PyText PyJson.

Definition PII_KEYS : list string := ["upn"; "src_ip"; "user_upn"; "ip"].
Definition HASHED_LEVELS : list string := ["INFO"; "WARNING"; "ERROR"; "CRITICAL"].

(** [set_trace_id]: the value stored for a [traceparent] header. *)
Definition trace_id (traceparent : string) : string :=
  match split_on "-" traceparent with
  | _ :: tid :: _ => tid
  | _ => traceparent
  end.

Section logging.
Context (sha256_hex : string → string).

(** [_hash] *)
Definition hash (v : string) : string := "sha256:" +:+ str_take 16 (sha256_hex v).

Definition hash_extra (kv : string * json) : string * json :=
  match kv.2 with
  | JStr v => if decide (kv.1 ∈ PII_KEYS) then (kv.1, JStr (hash v)) else kv
  | _ => kv
  end.

(** [_processor]: the extra fields as the sink writes them. *)
Definition processor (trace level : string) (extra : pydict string json) : pydict string json :=
  let extra := dset "trace_id" (JStr trace) extra in
  if decide (level ∈ HASHED_LEVELS) then hash_extra <$> extra else extra.

Lemma dget_hash k extra :
  dget k (hash_extra <$> extra) =
  match dget k extra with
  | Some (JStr v) => Some (JStr (if decide (k ∈ PII_KEYS) then hash v else v))
  | o => o
  end.
Proof.
  induction extra as [|[k' v] extra IH]; [done|]. cbn [fmap list_fmap]. unfold hash_extra at 1. cbn [fst snd].
  destruct v as [|b|z|l|s|l|d]; try (cbn [dget]; destruct (decide (k = k')); [done|exact IH]).
  destruct (decide (k' ∈ PII_KEYS)) as [Hin|Hout]; cbn [dget]; (destruct (decide (k = k')) as [->|]; [|exact IH]).
  - by rewrite decide_True.
  - by rewrite decide_False.
Qed.

(** At the levels INFO, WARNING, ERROR and CRITICAL no personal text reaches the
    sink: the fields [upn], [user_upn], [src_ip] and [ip] hold the first sixteen digits
    of its digest; the trace id is that of the task, and every other field is written
    as it is, as are all of them at the other levels. *)
Theorem personal_data_hashed trace level extra k :
  dget k (processor trace level extra) =
  if decide (k = "trace_id") then Some (JStr trace)
  else match dget k extra with
       | Some (JStr v) => Some (JStr (if decide (level ∈ HASHED_LEVELS ∧ k ∈ PII_KEYS) then hash v else v))
       | o => o
       end.
Proof.
  unfold processor. destruct (decide (level ∈ HASHED_LEVELS)) as [Hl|Hl].
  - rewrite dget_hash. destruct (decide (k = "trace_id")) as [->|Hne].
    + rewrite dget_dset_eq. rewrite decide_False; [done|]. by apply (bool_decide_unpack _).
    + rewrite dget_dset_ne by done. destruct (dget k extra) as [[]|]; try done.
      destruct (decide (k ∈ PII_KEYS)); [by rewrite decide_True|by rewrite decide_False by tauto].
  - destruct (decide (k = "trace_id")) as [->|Hne]; [by rewrite dget_dset_eq|].
    rewrite dget_dset_ne by done. destruct (dget k extra) as [[]|]; try done. by rewrite decide_False by tauto.
Qed.

(** SUCCESS lies above INFO, but it is not one of the levels. *)
Example success_not_hashed trace :
  processor trace "SUCCESS" [("upn", JStr "ann@corp")] = [("upn", JStr "ann@corp"); ("trace_id", JStr trace)].
Proof. reflexivity. Qed.
End logging.

(** ** The sinks

    [loguru] keeps a list of sinks; the number of a level's name is its table of levels. *)

Record sink : Type := mkSink {
  sk_level : Z;
  sk_serialize : bool;
  sk_backtrace : bool;
  sk_diagnose : bool;
  sk_enqueue : bool
}.

Definition upper_char (c : ascii) : ascii :=
  if between 97 122 c then ascii_of_N (Z.to_N (code c - 32)) else c.
Definition upper : string → string := str_map upper_char.

Section sinks.
Context (level_no : string → option Z) (sha256_hex : string → string).

(** [logger.add]: an unknown level is a [ValueError]. *)
Definition logger_add (level : string) (make : Z → sink) (sinks : list sink) : list sink * result () :=
  match level_no level with
  | Some n => (sinks ++ [make n], Ok ())
  | None => (sinks, Raise ValueError)
  end.

(** [configure] of [ztna_common], after [logger.remove()]. *)
Definition configure (level : string) (sinks : list sink) : list sink * result () :=
  logger_add (upper level) (λ n, mkSink n true false false false) [].

(** [configure_logging] of the API: the level as it is, and the defaults of [loguru],
    which extend tracebacks and show the values in them. *)
Definition api_configure_logging (level : string) (sinks : list sink) : list sink * result () :=
  logger_add level (λ n, mkSink n true true true false) [].

(** The API's own copies of the functions of the filter. *)
Definition api_trace_id (traceparent : string) : string :=
  match split_on "-" traceparent with
  | _ :: tid :: _ => tid
  | _ => traceparent
  end.
Definition api_hash (v : string) : string := "sha256:" +:+ str_take 16 (sha256_hex v).
Definition api_processor (trace level : string) (extra : pydict string json) : pydict string json :=
  let extra := dset "trace_id" (JStr trace) extra in
  if decide (level ∈ HASHED_LEVELS)
  then (λ kv : string * json, match kv.2 with
                              | JStr v => if decide (kv.1 ∈ PII_KEYS) then (kv.1, JStr (api_hash v)) else kv
                              | _ => kv
                              end) <$> extra
  else extra.

(** A record passes the filter of every sink in turn, which changes it in place; a sink
    that is not beyond its level gets it. *)
Fixpoint emit (proc : string → string → pydict string json → pydict string json) (trace level : string) (no : Z)
    (extra : pydict string json) (sinks : list sink) : list (pydict string json) :=
  match sinks with
  | [] => []
  | s :: rest =>
      if sk_level s <=? no then let extra := proc trace level extra in extra :: emit proc trace level no extra rest
      else emit proc trace level no extra rest
  end.

(** However often and with whatever sinks before it is called, [configure] leaves one sink,
    at the level named in any case; so that a record at INFO, WARNING, ERROR or CRITICAL
    is written at most once, with the trace id of its task and the digests of its
    personal texts; and with a level that does not exist it leaves none. *)
Theorem configured_records level sinks before trace name no extra :
  (configure level sinks).1 = (configure level before).1 ∧
  ((configure level sinks).2 = Ok () ↔ is_Some (level_no (upper level))) ∧
  Forall (λ w, w = processor sha256_hex trace name extra) (emit (processor sha256_hex) trace name no extra (configure level sinks).1) ∧
  (length (emit (processor sha256_hex) trace name no extra (configure level sinks).1) ≤ 1)%nat ∧
  (level_no (upper level) = None → (configure level sinks).1 = []).
Proof.
  unfold configure, logger_add. destruct (level_no (upper level)) as [n|]; cbn [fst snd app emit sk_level].
  - split_and!; [done|by split; eauto| |by destruct (n <=? no); cbn; lia|done].
    by destruct (n <=? no); repeat constructor.
  - split_and!; [done|split; [done|by intros [? ?]]|constructor|cbn; lia|done].
Qed.

(** The copy of the API filters alike; it accepts a level exactly when the shared function
    does, for names in capitals. *)
Theorem api_logging_agrees level sinks trace name extra traceparent :
  api_processor trace name extra = processor sha256_hex trace name extra ∧ api_trace_id traceparent = trace_id traceparent ∧
  (upper level = level →
     (api_configure_logging level sinks).2 = (configure level sinks).2 ∧
     sk_level <$> (api_configure_logging level sinks).1 = sk_level <$> (configure level sinks).1).
Proof.
  split_and!; [done..|]. intros Hu. unfold api_configure_logging, configure, logger_add. rewrite Hu.
  by destruct (level_no level).
Qed.
End sinks.

(** A level in small letters, which the other services take, ends the start of the API. *)
Definition loguru_levels (name : string) : option Z :=
  dget name [("TRACE", 5); ("DEBUG", 10); ("INFO", 20); ("SUCCESS", 25); ("WARNING", 30); ("ERROR", 40); ("CRITICAL", 50)].

Example small_level :
  (configure loguru_levels "info" []).2 = Ok () ∧ api_configure_logging loguru_levels "info" [] = ([], Raise ValueError).
Proof. vm_compute. done. Qed.
